(* ===== verification/_CoqProject ===== *)
-Q . S2P
Prelude.v
CString.v
Posix.v
Swupdate.v
SwupdateProps.v
SwupdateHandler.v
SwupdateClaims.v
Getopt.v
Watchdog.v
Cxx.v
UpdatedPayload.v
UpdatedPayloadProps.v
UpdatedCoordinator.v
UpdatedCoordinatorProps.v
UpdatedAtomic.v
UpdatedRpc.v
UpdatedDaemon.v
UpdatedDaemonProps.v
CloudError.v
CloudClient.v
CloudClientProps.v
DeviceCycle.v
CloudLifecycle.v
CloudLifecycleProps.v
Provisioning.v
Py.v
PyLib.v
FirmwareHeader.v
FirmwareManager.v
AppLifecycle.v
AppVersions.v
AppLifecycleProps.v
AppManager.v
AppManagerProps.v
AppUpdate.v
AppUpdateProps.v
AppBoot.v
AppInstall.v
AppSurvive.v
AppReboot.v
AppDevice.v
AppInstallDevice.v
Shell.v
AppHandshake.v
AppHandshakeProps.v
AppSystem.v
UpdateScripts.v
UpdateScriptsProps.v
UpdateDevice.v
PackageUpdate.v
WholeDevice.v
WholeBoard.v
Tutorial.v
TlsConfig.v
