(* ===== verification/Prelude.v ===== *)
(** * The device software of Mbed Linux OS: a verification development

    Mbed Linux OS keeps its own programs in one repository. This development
    models the C and C++ ones, which install firmware, keep the watchdog alive,
    coordinate updates and connect the device to the cloud, the Python ones,
    which install firmware and applications from an update package and run the
    applications, and the shell and Lua scripts that call them during an update.
    The CI scripts and the documentation are not modelled.

    ** The program

    - [firmware-management/swupdate-handlers]: the handler that swupdate calls
      with an image of the root file system. It finds out which of two banks the
      system runs from, writes the image to the other one, sets a boot flag that
      selects that bank and allows the reboot.
    - [firmware-management/mbl-watchdog-init]: opens the watchdog device and
      sets its timeout.
    - [firmware-management/updated]: the daemon UpdateD. Its gRPC server takes
      requests from [updated-client]; its main thread runs the updates; a hard
      link keeps the payload of the current update alive.
    - [cloud-services/mbl-cloud-client]: connects to Pelion Device Management,
      answers its handlers from an event loop, renews the registration, and
      reboots after an update unless a file forbids it. The swupdate handler
      removes that file: the two programs meet in the temporary directory.
    - [cloud-services/mbl-cloud-client/scripts]: [arm_update_activate.sh], which
      the cloud client runs for an update, makes that file and calls swupdate;
      the Lua handlers and the installers of boot loaders, of the boot
      partition and of applications. The last one leaves its archive to
      [mbl-app-update-manager/bin/mbl-app-update-manager-daemon], through four
      files that both poll. [arm_update_active_details.sh] reports the header.
    - [cloud-services/mbl-cloud-client/cloud-provisioning]: stores credentials
      in the key and configuration manager.
    - [cloud-services/mbl-cloud-client/pal-platform] and the client's headers:
      the configuration of mbed TLS.
    - [firmware-management/mbl-firmware-update-header-util]: the header of an
      update, packed, unpacked and protected by a CRC;
      [mbl-firmware-update-manager] writes it for a package, runs the
      installation script and reboots.
    - [firmware-management/mbl-app-update-manager]: installs the applications of
      a package beside their current versions, runs the new versions and removes
      the old ones, or goes back. It calls [mbl-app-manager] (packages, with
      opkg) and [application-framework/mbl-app-lifecycle-manager] (containers,
      with runc), which also runs every application at boot.

    ** The files of the development

    Foundations.
    - [Prelude]: strings as lists of characters, machine limits, the reasons a
      computation stops ([halt]), the state monad [M] with its rules for weakest
      preconditions, the classes [Preserves] and [Total] for frames.
    - [CString]: buffers with indeterminate bytes, and the string functions of
      the C library the programs call ([snprintf], [strtol], [strtok], ...).
    - [Posix]: files, descriptors, heap blocks, the mount table and a log in one
      state [world]. The class [Env] holds a schedule of faults: any call may
      fail at any time, so theorems about error paths quantify over it.
    - [Getopt]: [getopt_long], including reads past a table without an end.
    - [Py]: the monad [P] of Python functions, with the classes of exceptions,
      the [try] statements, [pwp] and the classes [Raises] and [Keeps];
      [PyLib]: [struct], CRC-32 (a burst of 32 bits changes it) and SHA-256.
    - [Cxx]: the monad [C] of code that throws, with [noexcept], [try_catch] and
      [process] (what an exception that leaves [main] does).

    Components, each with its definitions first.
    - [Swupdate] ([arm-handler-common.c], [rootfs-handler.c]); [SwupdateProps],
      its functions one by one; [SwupdateHandler], the whole handler against its
      specification [handler_post]; [SwupdateClaims], the theorems.
    - [Watchdog] ([mbl-watchdog-init.c]).
    - [UpdatedPayload] ([payload.h]) and [UpdatedPayloadProps]: paths, a file
      system with hard links, the payload's constructor and destructor.
    - [UpdatedCoordinator] ([UpdateCoordinator.cpp], [updated.cpp],
      [handlers.cpp]) and [UpdatedCoordinatorProps]: the method bodies as
      functions of the shared state, and a machine whose actions are the steps
      of the main thread, of each server thread and of signals, with the mutex
      and the condition variable. [UpdatedAtomic]: the service this machine
      implements, one step per operation, and the simulation between the two.
    - [UpdatedRpc] ([Error.cpp], [Server.cpp], [ServiceImpl.cpp], [Client.cpp],
      the proto file): service and client, around a transport that is a parameter.
    - [UpdatedDaemon] and [UpdatedDaemonProps]: option parsing, the log level,
      the lock file, [main] of the daemon and of both client programs.
    - [CloudError] ([MblError.cpp]), [CloudClient] and [CloudClientProps] (log,
      signals, update handlers, initialisation, [main], the reboot callback).
    - [CloudLifecycle] and [CloudLifecycleProps] ([MblCloudClient.cpp],
      [MblMutex], [MblScopedLock], [monotonic_time]): the client object, the
      thread of [run], the event loop that calls the handlers, the mutex and the
      signal, as a machine.
    - [Provisioning] ([provisioning.cpp] and its [main]).
    - [DeviceCycle]: a device over boots, updates and losses of power, on the
      definitions of [Swupdate] and [CloudClient], and the abstract machine of
      two slots that it follows.
    - [Shell]: command substitution, [test] and suffixes of the shell.
      [UpdateScripts] ([arm_update_activate.sh], [arm_update_common.sh.in],
      [bootloader_installer.sh], [boot_partition_installer.sh],
      [arm_update_active_details.sh], [swupdate_handlers.lua]) and
      [UpdateScriptsProps]: the scripts in the monad [M], around the handler of
      [Swupdate] and before the reboot callback of [CloudClient].
    - [AppHandshake] ([apps_installer.sh], [mbl-app-update-manager-daemon]) and
      [AppHandshakeProps]: both processes as a machine with every command as a
      step, and its composition with [AppUpdate].
    - [TlsConfig]: the configuration headers as data, and the preprocessor that
      reads them. [Tutorial] ([hello_world.c]).
    - [FirmwareHeader] ([firmware_update_header_util.py]) and [FirmwareManager]
      ([manager.py], [cli.py]).
    - [AppLifecycle] ([container.py], [manager.py]), [AppVersions] ([utils.py],
      [cli.py], the search for bundles), [AppLifecycleProps] (the laws of runc,
      the end of an application).
    - [AppManager] ([parser.py], [manager.py]) and [AppManagerProps];
      [AppUpdate] ([manager.py], [cli.py]), [AppUpdateProps] (the laws of opkg,
      updates and rollbacks), [AppBoot] (versions across an update and a boot),
      [AppInstall] (the laws of the directories, installations, the whole program),
      [AppSurvive] (the whole program and the boot after it), [AppReboot] (the
      boot of all applications, command by command).

    Compositions.
    - [AppSystem]: the installers, the daemon of [AppHandshake] with the program
      of [AppUpdate], the boots of [AppReboot] and losses of power as one
      transition system ([life]).
    - [PackageUpdate]: the activation script of [UpdateScripts] with the hand-over
      of [AppHandshake] as its installer of applications. The promise that the
      scripts ask of an installer (the class [AppsLaws]) is proved of it.
    - [WholeDevice]: these, the boot loader of [DeviceCycle] and the boots as the
      steps of one device ([boot_cycle]), which follows the machine of two slots.

    Concrete devices, on which the laws are shown and the witnesses evaluate.
    - [AppDevice]: runc and opkg on a small disk; [AppInstallDevice]: its
      directories have the laws of [AppInstall] and [AppSurvive].
    - [UpdateDevice]: a board with the commands of the update scripts and a small
      swupdate; [WholeBoard]: the board with the applications.

    ** What is shown

    - The device as a whole (C3): over any number of packages, with any outcome,
      boots and losses of power in either, it boots the bank the flag selects,
      after a successful activation the one with the package's image, and loses
      no application. The image is complete unless copyimage reported an error
      for it, which the handler does not pass on ([copy_failure_is_lost]).
    - Firmware updates (C1, C2, C11, C27): when nothing fails an update installs
      the image in the other bank, selects it and allows the reboot; whatever
      fails, the partition the system runs from keeps its data (where the number
      of neither bank ends the other's, [confused_banks_overwrite]), the result
      is 0 only if the boot flag is set, and no descriptor or block leaks; the
      update manager's result and what it leaves on the disk in every case, also
      when the script removes its own input or the disk is full.
    - The system (C4, C17): over any number of boots, updates, faults and
      losses of power it follows a machine of two slots and boots an image that
      is complete unless copyimage reported an error for it; a successful update
      is what it boots next.
    - The update scripts (C6, C7, C23, C24): what an activation that succeeds has
      installed, saved and restarted; that it ran the update manager once with
      each archive of the package, successfully; the header that is reported is
      the one that was saved; a boot loader is written only at the offset, and
      in the size, that the board's files say for its partition.
    - The hand-over of applications (C14, C37): in every interleaving the
      installer exits, once the daemon ran the update manager with its archive,
      with the result of that run; an answer left over is believed.
    - The header of an update (C19, C20, C32): [unpack] is the inverse of [pack],
      damage is noticed, the hash is the hash of the whole stream.
    - UpdateD (C5, C13, C28, C29, C36): whatever the interleaving of its threads,
      the daemon is an atomic service; the main thread finds a payload when it
      runs an update and no wakeup is lost; removing the hard link restores the
      file system; the header a client reads is that of the update that was
      started last, whether it succeeded or not.
    - Applications (C8 to C10, C16, C18, C21, C22, C33): no update and no boot
      loses the last version of an application, wherever it stops, between two
      commands or in the middle of one, however installers, daemon and losses of
      power interleave, and the next boot runs every application, unless opkg
      left an incomplete [config.json], which stops it (C40); how an update that
      does not succeed ends; a rollback that returns has brought back the previous
      versions; an application is ended in order and in bounded time; update and
      boot agree on the version; an installation is complete or undone.
    - The cloud client's threads (C12, C15, C25, C26): no use of the object after
      its deletion in any interleaving, [run] returns only for its reasons and
      leaves nothing behind, a shutdown ends it in a bounded number of steps,
      the registration is renewed in time.
    - Programs for every command line (C30, but for an empty credential file,
      and C31), start-up and exit codes (C34, C35), one of the two headers that
      configure TLS (C38).
    - Defects the code has, as theorems (C37, C39, C40). Others are proved
      beside the functions they are in: [copy_failure_is_lost],
      [confused_banks_overwrite], [mtab_failure_prints_garbage],
      [unknown_option_undefined], [short_timeout_undefined],
      [payload_named_updated_is_lost], [bad_request_kills_daemon],
      [start_update_exit_status], [main_never_exits], [same_app_twice],
      [empty_file_has_no_meaning], [removed_package_is_an_error],
      [default_directories_never_meet], [left_request_is_taken_up],
      [missing_result_is_success], [failed_package_switches_bank],
      [second_update_overwrites_selected].
    - Beside these, the functional specifications the above are built on, such as
      [banks_alternate], [reboot_follows_update], [no_version_is_lost],
      [apps_installer_result], [store_command_provisions],
      [start_watchdog_result], [numeric_string_decides], [payload_link_created],
      [start_update_answers], [get_mounted_device_bounds],
      [download_percent_exact], [parse_app_info_result] and
      [client_config_decides].

    ** Bounds and fuel

    Integers are [Z] with the width written where the code's type matters:
    [wrap_uint], [wrap_size_t], [INT_MAX], the clamping of [strtol]; targets are
    little-endian LP64. The option loops of the three command lines run with a
    fuel that [Getopt] shows to be enough: one more than the size of the
    arguments, which each call to [getopt_long] makes smaller ([opt_loop] fixes
    it). The loop that waits for an application runs with one more than the
    sleeps that fit in its time ([wait_fuel]); C18 shows that it never runs out.
    The other loops are structural. The machines have no fuel: their theorems
    hold for every sequence of actions, and C14 names how many rounds the
    hand-over takes at most. The loop of [Tutorial] runs its eleven tests.

    ** Parameters

    What is not in the repository is an argument with stated laws: swupdate's
    [openfileoutput] and [copyimage] ([SwupdateLib], [SwupdateLaws]), the
    watchdog driver ([WatchdogApi]), gRPC's server ([GrpcLib]) and the stub of
    its client ([Stub], with [RpcLaws]: an OK status comes from one run of the
    handler), the cloud
    libraries ([AppEnv], [CloudEnv]), KCM ([KcmLib], [KcmLaws]), failures of
    the file system ([FsEnv]), the installation script ([FmwEnv]), runc and
    opkg ([System], [RuncLaws], [AppLaws], [TreeLaws], [BundleLaws],
    [AppsRoot]), what a loss of power leaves of a command ([PowerLoss]),
    archives ([Tar], [ArchiveLaws]), the product that [expr] prints
    ([ExprLaw]), the boot loader
    and the kernel's mounts ([Bootloader], [BootLaws]), the programs that the
    scripts run ([Programs], [ScriptLaws], and [Quiet] for what they leave
    alone), swupdate's own loop over a package ([UpdateScripts.Swupdate]) and the
    scheduler that lets installer and daemon take turns ([FairSchedule]). Each
    class with laws has a concrete instance at which the witnesses evaluate the
    theorems. No law says that opkg leaves whole bundles: where that is what a
    theorem needs, it is a premise of that part ([legible], [WholeInstalls]).

    ** Not modelled

    Formatting of log texts (a log entry is its list of arguments; the Python
    programs' log is left out, and so are some texts of their exceptions that
    nothing looks at, and so are the log files of the scripts); durability of
    [fsync]; the libraries above; overflow of the clock; argparse; characters
    of Python texts beyond a byte; build files, CI scripts and tests.

    What is left out of the compositions, and why. [WholeDevice] takes packages
    with at most one root file system and with archives of applications. Boot
    loaders and the boot partition are modelled in [UpdateScripts] (C24), but
    nothing in the repository brings back the old one after a loss of power
    while one is written, so a device with such packages has no theorem like C3.
    The power goes between two commands of the scripts, in a copy of an image, or
    at any command of the update manager and of the boot, before, after or in the
    middle of it; unpacking an archive is one step, and so is one command of the
    shell. UpdateD is not called by the activation script, so it
    stands beside these machines.

    Every C, C++, Python, shell and Lua program of the device is modelled, up to
    what is named here; the rest of their sources are comments, include lists,
    declarations that the definitions replace, and texts of log messages. *)

From stdpp Require Import base gmap strings list.
From Stdlib Require Import ZArith Ascii Lia.

Open Scope string_scope.
Open Scope nat_scope.
Open Scope list_scope.

(** ** Bytes, strings and machine integers *)

(** A C string is the list of its characters before the terminating NUL. *)
Abbreviation cstring := (list ascii).

Coercion String.list_ascii_of_string : string >-> list.

Definition NUL : ascii := "000"%char.

(** The limits of the 64-bit targets (LP64): [int] is 32 bits, [long],
    [size_t] and [time_t] are 64 bits. *)
Definition INT_MAX : Z := 2 ^ 31 - 1.
Definition INT_MIN : Z := - 2 ^ 31.
Definition LONG_MAX : Z := 2 ^ 63 - 1.
Definition LONG_MIN : Z := - 2 ^ 63.

Definition wrap_size_t (z : Z) : Z := z mod 2 ^ 64.
Definition wrap_uint (z : Z) : Z := z mod 2 ^ 32.

(** ** Why a computation stops early *)

(** [Aborted]: [abort], [std::terminate] or a failed [assert].
    [Exited]: the process called [exit].
    [Undefined]: the C or C++ standard gives the step no meaning; the string
    says which rule is broken. *)
Inductive halt :=
| Aborted
| Exited (code : Z)
| Undefined (why : string).

#[export] Instance halt_eq_dec : EqDecision halt.
Proof. solve_decision. Defined.

Inductive outcome (S A : Type) :=
| Done (a : A) (s : S)
| Halted (h : halt) (s : S).
Arguments Done {S A} a s.
Arguments Halted {S A} h s.

Definition final {S A} (o : outcome S A) : S :=
  match o with Done _ s | Halted _ s => s end.

Definition result {S A} (o : outcome S A) : option A :=
  match o with Done a _ => Some a | Halted _ _ => None end.

Lemma result_final {S A} (o : outcome S A) a : result o = Some a → o = Done a (final o).
Proof. destruct o; [by intros [= ->]|done]. Qed.

Lemma done_inj {S A} (a b : A) (s t : S) : Done a s = Done b t → a = b ∧ s = t.
Proof. by intros [= -> ->]. Qed.

(** A partial function that is known, by evaluation, to return. *)
Definition returns {A} (o : option A) : bool := match o with Some _ => true | None => false end.

Lemma returns_default {A} (o : option A) d : returns o = true → o = Some (default d o).
Proof. by destruct o. Qed.

(** ** The state and halting monad of the sequential components *)

Definition M (S A : Type) : Type := S → outcome S A.

#[export] Instance M_ret S : MRet (M S) := λ A a s, Done a s.
#[export] Instance M_bind S : MBind (M S) := λ A B f m s,
  match m s with
  | Done a s' => f a s'
  | Halted h s' => Halted h s'
  end.

Definition gets {S A} (f : S → A) : M S A := λ s, Done (f s) s.
Definition modify {S} (f : S → S) : M S unit := λ s, Done tt (f s).
Definition stop {S A} (h : halt) : M S A := λ s, Halted h s.
Definition undefined {S A} (why : string) : M S A := stop (Undefined why).

(** [of_option]: a partial step whose failure is undefined behaviour. *)
Definition of_option {S A} (why : string) (o : option A) : M S A :=
  match o with Some a => mret a | None => undefined why end.

(** [c_assert]: the C macro, in a build without [NDEBUG]. *)
Definition c_assert {S} (b : bool) : M S unit :=
  if b then mret tt else stop Aborted.

(** ** Weakest preconditions *)

Definition wp {S A} (m : M S A) (Q : A → S → Prop) (E : halt → S → Prop)
    (s : S) : Prop :=
  match m s with Done a s' => Q a s' | Halted h s' => E h s' end.

Section wp_rules.
Context {S A B : Type}.
Implicit Types (m : M S A) (k : A → M S B) (E : halt → S → Prop) (s : S).

Lemma wp_ret (a : A) Q E s : Q a s → wp (mret a : M S A) Q E s.
Proof. done. Qed.

Lemma wp_bind m k Q E s :
  wp m (λ a, wp (k a) Q E) E s → wp (m ≫= k) Q E s.
Proof. unfold wp, mbind, M_bind. by destruct (m s). Qed.

Lemma wp_mono m (Q Q' : A → S → Prop) (E E' : halt → S → Prop) s :
  wp m Q E s → (∀ a s', Q a s' → Q' a s') → (∀ h s', E h s' → E' h s') →
  wp m Q' E' s.
Proof. unfold wp. destruct (m s); auto. Qed.

Lemma wp_gets (f : S → A) Q E s : Q (f s) s → wp (gets f) Q E s.
Proof. done. Qed.

Lemma wp_stop h (Q : A → S → Prop) E s : E h s → wp (stop h) Q E s.
Proof. done. Qed.

Lemma wp_modify (f : S → S) Q E s : Q tt (f s) → wp (modify f) Q E s.
Proof. done. Qed.

Lemma wp_done m a s s' Q E : m s = Done a s' → Q a s' → wp m Q E s.
Proof. unfold wp. by intros ->. Qed.

Lemma bind_done m k a s s' :
  m s = Done a s' → (m ≫= k) s = k a s'.
Proof. unfold mbind, M_bind. by intros ->. Qed.

Lemma bind_halted m k h s s' :
  m s = Halted h s' → (m ≫= k) s = Halted h s'.
Proof. unfold mbind, M_bind. by intros ->. Qed.
End wp_rules.

(** [wp_go] runs the structural rules as far as the program text allows. *)
Ltac wp_go :=
  repeat first
    [ progress intros
    | apply wp_bind
    | apply wp_ret
    | apply wp_gets
    | apply wp_modify
    | apply wp_stop
    | progress cbv beta ].

(** ** Frame reasoning

    [Preserves R m]: every run of [m], whether it returns or halts, relates
    its first state to its last by [R]. For a preorder [R] the class is
    closed under the monad's operations, so the frame of a whole handler is
    found by instance search and case analysis. *)

Class Preserves {S A} (R : relation S) (m : M S A) : Prop :=
  preserves : ∀ s, R s (final (m s)).

Section preserves_rules.
Context {S : Type} (R : relation S) `{!PreOrder R}.

#[export] Instance preserves_ret {A} (a : A) : Preserves R (mret a : M S A).
Proof. intros s. apply (reflexivity (R := R)). Qed.

#[export] Instance preserves_gets {A} (f : S → A) : Preserves R (gets f).
Proof. intros s. apply (reflexivity (R := R)). Qed.

#[export] Instance preserves_stop {A} h : Preserves R (stop h : M S A).
Proof. intros s. apply (reflexivity (R := R)). Qed.

#[export] Instance preserves_undefined {A} why :
  Preserves R (undefined why : M S A).
Proof. intros s. apply (reflexivity (R := R)). Qed.

#[export] Instance preserves_of_option {A} why (o : option A) :
  Preserves R (of_option why o : M S A).
Proof. destruct o; apply _. Qed.

#[export] Instance preserves_assert b : Preserves R (c_assert b : M S unit).
Proof. destruct b; apply _. Qed.

#[export] Instance preserves_bind {A B} (m : M S A) (k : A → M S B) :
  Preserves R m → (∀ a, Preserves R (k a)) → Preserves R (m ≫= k).
Proof.
  intros Hm Hk s. unfold mbind, M_bind. specialize (Hm s).
  destruct (m s) as [a s'|h s']; [|done].
  etrans; [exact Hm|]. apply (Hk a s').
Qed.

Lemma preserves_modify (f : S → S) : (∀ s, R s (f s)) → Preserves R (modify f).
Proof. intros Hf s. apply Hf. Qed.

#[export] Instance preserves_if {A} (b : bool) (m1 m2 : M S A) :
  Preserves R m1 → Preserves R m2 → Preserves R (if b then m1 else m2).
Proof. by destruct b. Qed.
End preserves_rules.
#[export] Hint Mode Preserves + + - ! : typeclass_instances.

Lemma preserves_wp {S A} (R : relation S) (m : M S A) Q (E : halt → S → Prop) s :
  Preserves R m → (∀ a s', R s s' → Q a s') → (∀ h s', R s s' → E h s') →
  wp m Q E s.
Proof. intros HR HQ HE. specialize (HR s). unfold wp. destruct (m s); auto. Qed.

(** A specification may also use what every run preserves. *)
Lemma wp_preserves {S A} (R : relation S) (m : M S A) Q (E : halt → S → Prop) s :
  Preserves R m →
  wp m (λ a s', R s s' → Q a s') (λ h s', R s s' → E h s') s → wp m Q E s.
Proof. intros HR. specialize (HR s). unfold wp. destruct (m s); auto. Qed.

Lemma preserves_mono {S A} (R R' : relation S) (m : M S A) :
  (∀ s s', R s s' → R' s s') → Preserves R m → Preserves R' m.
Proof. intros Hs HR s. apply Hs, HR. Qed.

(** [preserves_go] splits on what the program branches on and searches. *)
Ltac preserves_go :=
  repeat first
    [ apply _
    | apply preserves_bind; [apply _| |]; [|intros]
    | case_match ].

(** ** Operations that always return *)

Class Total {S A} (m : M S A) : Prop :=
  total : ∀ s, ∃ a s', m s = Done a s'.

Section total_rules.
Context {S : Type}.

#[export] Instance total_ret {A} (a : A) : Total (mret a : M S A).
Proof. intros s. by exists a, s. Qed.
#[export] Instance total_gets {A} (f : S → A) : Total (gets f).
Proof. intros s. by eexists _, _. Qed.
#[export] Instance total_modify (f : S → S) : Total (modify f).
Proof. intros s. by eexists _, _. Qed.
#[export] Instance total_bind {A B} (m : M S A) (k : A → M S B) :
  Total m → (∀ a, Total (k a)) → Total (m ≫= k).
Proof.
  intros Hm Hk s. destruct (Hm s) as (a & s' & Ha). unfold mbind, M_bind. rewrite Ha.
  apply (Hk a s').
Qed.
#[export] Instance total_if {A} (b : bool) (m1 m2 : M S A) :
  Total m1 → Total m2 → Total (if b then m1 else m2).
Proof. by destruct b. Qed.

(** Step over an operation that returns, knowing only its frame. *)
Lemma wp_frame {A} (R : relation S) (m : M S A) Q (E : halt → S → Prop) s :
  Preserves R m → Total m → (∀ a s', R s s' → Q a s') → wp m Q E s.
Proof.
  intros HR Ht HQ. specialize (HR s). destruct (Ht s) as (a & s' & Ha).
  unfold wp. rewrite Ha in *. by apply HQ.
Qed.
End total_rules.

(** ** Reachability in a transition system *)

(** [invariant_reachable]: the induction every state machine of the
    development uses. *)
Lemma invariant_reachable {S} (step : relation S) (I : S → Prop) (s s' : S) :
  I s → (∀ x y, I x → step x y → I y) → rtc step s s' → I s'.
Proof. intros Hs Hpres Hrtc. induction Hrtc; eauto. Qed.

(** ** Lists *)

Section lists.
Context {A : Type} `{!EqDecision A}.
Implicit Types (l k : list A) (x : A).

(** [break x l]: what precedes the first [x] of [l], and what follows it. *)
Fixpoint take_until x l : list A :=
  match l with
  | [] => []
  | y :: l' => if decide (y = x) then [] else y :: take_until x l'
  end.

Fixpoint drop_while x l : list A :=
  match l with
  | [] => []
  | y :: l' => if decide (y = x) then drop_while x l' else l
  end.

Lemma take_until_notin x l : x ∉ take_until x l.
Proof. induction l as [|y l IH]; simpl; [set_solver|]. case_decide; set_solver. Qed.

Lemma elem_of_take_until x y l : y ∈ take_until x l → y ∈ l.
Proof.
  induction l as [|z l IH]; simpl; [done|].
  case_decide; rewrite ?elem_of_nil, ?elem_of_cons; tauto.
Qed.

Lemma elem_of_drop_while x y l : y ∈ drop_while x l → y ∈ l.
Proof.
  induction l as [|z l IH]; simpl; [done|].
  case_decide; rewrite ?elem_of_cons; tauto.
Qed.

Lemma take_until_app x l k : x ∉ l → take_until x (l ++ x :: k) = l.
Proof.
  induction l as [|y l IH]; simpl; intros Hx.
  - by rewrite decide_True.
  - rewrite decide_False by set_solver. f_equal. apply IH. set_solver.
Qed.

Lemma take_until_all x l : x ∉ l → take_until x l = l.
Proof.
  induction l as [|y l IH]; simpl; intros Hx; [done|].
  rewrite decide_False by set_solver. f_equal. apply IH. set_solver.
Qed.

Lemma drop_while_notin x l : x ∉ l → drop_while x l = l.
Proof.
  destruct l as [|y l]; simpl; intros Hx; [done|].
  rewrite decide_False; [done|set_solver].
Qed.

Lemma drop_while_head x y l : y ≠ x → drop_while x (y :: l) = y :: l.
Proof. intros H. simpl. by rewrite decide_False. Qed.

Lemma suffix_app_length l k : l `suffix_of` k ++ l.
Proof. by exists k. Qed.

Lemma drop_suffix l k :
  length l ≤ length k → l `suffix_of` k ↔ drop (length k - length l) k = l.
Proof.
  intros Hlen. split.
  - intros [p ->]. rewrite length_app.
    replace (length p + length l - length l) with (length p) by lia.
    apply drop_app_length.
  - intros <-. exists (take (length k - length l) k). by rewrite take_drop.
Qed.
End lists.

Create HintDb mbl.
Create Rewrite HintDb mbl.
#[export] Hint Rewrite @length_app @length_replicate @length_take @length_drop
  @length_fmap : mbl.
#[export] Hint Resolve wp_ret wp_gets wp_modify wp_stop : mbl.
