(* ===== verification/CString.v ===== *)
(** * C strings and character buffers

    What the C sources use of <string.h>, <stdio.h> and <stdlib.h>:
    [strlen], [strcmp], [strncpy], [strcpy], [strtok] (first call), [snprintf]
    with a format made of [%s] conversions, and [strtol] in base 0. A buffer is
    a list of possibly indeterminate bytes; reading an indeterminate byte as a
    string, or writing past the end, is visible as [None] and the callers turn
    it into undefined behaviour. *)

From stdpp Require Import base gmap strings list.
From Stdlib Require Import ZArith Ascii Lia.
From S2P Require Import Prelude.

Open Scope Z_scope.
Open Scope list_scope.

(** ** Buffers *)

(** [None] is a byte whose value is indeterminate. *)
Abbreviation cbuf := (list (option ascii)).

Definition buf_uninit (n : Z) : cbuf := replicate (Z.to_nat n) None.

(** The C string that starts at the beginning of the buffer. *)
Fixpoint buf_cstr (b : cbuf) : option cstring :=
  match b with
  | Some c :: b' => if decide (c = NUL) then Some [] else cons c <$> buf_cstr b'
  | _ => None
  end.

(** Store [bytes] at the beginning of the buffer. *)
Definition buf_write (bytes : list ascii) (b : cbuf) : option cbuf :=
  if decide (length bytes ≤ length b)%nat
  then Some ((Some <$> bytes) ++ drop (length bytes) b)
  else None.

(** The byte at an index of type [size_t]. *)
Definition buf_get (i : Z) (b : cbuf) : option (option ascii) :=
  b !! Z.to_nat (wrap_size_t i).

(** ** <string.h> *)

Definition strlen (s : cstring) : Z := Z.of_nat (length s).

(** The sign of the comparison as unsigned characters. *)
Fixpoint strcmp (s t : cstring) : Z :=
  match s, t with
  | [], [] => 0
  | [], _ :: _ => -1
  | _ :: _, [] => 1
  | a :: s', b :: t' =>
      if decide (a = b) then strcmp s' t'
      else if (N_of_ascii a <? N_of_ascii b)%N then -1 else 1
  end.

(** [strncpy dst src n] writes exactly [n] bytes: the string cut at [n]
    characters, then NULs. *)
Definition strncpy_bytes (src : cstring) (n : Z) : list ascii :=
  take (Z.to_nat n) src ++ replicate (Z.to_nat n - length src)%nat NUL.

Definition strncpy (dst : cbuf) (src : cstring) (n : Z) : option cbuf :=
  buf_write (strncpy_bytes src n) dst.

Definition strcpy (dst : cbuf) (src : cstring) : option cbuf :=
  buf_write (src ++ [NUL]) dst.

(** The first call [strtok(s, delim)] with a one-character delimiter. *)
Definition strtok (s : cstring) (delim : ascii) : option cstring :=
  match drop_while delim s with
  | [] => None
  | t => Some (take_until delim t)
  end.

(** ** <stdio.h> *)

(** [snprintf dst size ...] where the conversions expand to [s]: the value
    returned and the buffer. The length is reported even when it does not fit;
    a length above [INT_MAX] is an output error. *)
Definition snprintf (dst : cbuf) (size : Z) (s : cstring) : option (Z * cbuf) :=
  if INT_MAX <? strlen s then Some (-1, dst)
  else if size =? 0 then Some (strlen s, dst)
  else b ← buf_write (take (Z.to_nat (size - 1)) s ++ [NUL]) dst;
       Some (strlen s, b).

(** ** <stdlib.h>: [strtol] in base 0 *)

Definition isspace (c : ascii) : bool :=
  let n := N_of_ascii c in ((n =? 32) || ((9 <=? n) && (n <=? 13)))%N.

Definition digit_value (c : ascii) : option Z :=
  let n := Z.of_N (N_of_ascii c) in
  if (48 <=? n) && (n <=? 57) then Some (n - 48)
  else if (97 <=? n) && (n <=? 122) then Some (n - 87)
  else if (65 <=? n) && (n <=? 90) then Some (n - 55)
  else None.

Definition digit_in (base : Z) (c : ascii) : option Z :=
  match digit_value c with
  | Some d => if d <? base then Some d else None
  | None => None
  end.

(** Consume digits, most significant first. *)
Fixpoint scan_digits (base acc : Z) (s : cstring) : Z * cstring :=
  match s with
  | [] => (acc, [])
  | c :: s' =>
      match digit_in base c with
      | Some d => scan_digits base (acc * base + d) s'
      | None => (acc, s)
      end
  end.

Fixpoint skip_spaces (s : cstring) : cstring :=
  match s with
  | c :: s' => if isspace c then skip_spaces s' else s
  | [] => []
  end.

Record strtol_result := {
  st_value : Z;
  st_rest : cstring;      (** what [endptr] points to *)
  st_converted : bool;    (** [endptr != str] *)
  st_erange : bool        (** [errno] was set to [ERANGE] *)
}.

(** The magnitude after the optional sign: the prefix selects the base. *)
Definition scan_magnitude (s : cstring) : option (Z * cstring) :=
  match s with
  | "0"%char :: (("x" | "X")%char as x) :: c :: s' =>
      match digit_in 16 c with
      | Some _ => Some (scan_digits 16 0 (c :: s'))
      | None => Some (0, x :: c :: s')
      end
  | "0"%char :: s' => Some (scan_digits 8 0 s')
  | c :: s' =>
      match digit_in 10 c with
      | Some _ => Some (scan_digits 10 0 s)
      | None => None
      end
  | [] => None
  end.

Definition clamp_long (v : Z) : Z := Z.max LONG_MIN (Z.min LONG_MAX v).

Definition split_sign (t : cstring) : bool * cstring :=
  match t with
  | "-"%char :: t' => (true, t')
  | "+"%char :: t' => (false, t')
  | _ => (false, t)
  end.

Definition strtol0 (s : cstring) : strtol_result :=
  let t := skip_spaces s in
  let '(neg, t') := split_sign t in
  match scan_magnitude t' with
  | Some (m, rest) =>
      let v := if neg then - m else m in
      {| st_value := clamp_long v; st_rest := rest; st_converted := true;
         st_erange := negb (clamp_long v =? v) |}
  | None =>
      {| st_value := 0; st_rest := s; st_converted := false; st_erange := false |}
  end.

Example strtol0_hex : st_value (strtol0 " 0x1f") = 31. Proof. reflexivity. Qed.
Example strtol0_oct : st_value (strtol0 "010") = 8. Proof. reflexivity. Qed.
Example strtol0_bad : st_rest (strtol0 "0xz") = "xz". Proof. reflexivity. Qed.

(** ** Lemmas *)

(** A C string holds no NUL. *)
Definition no_nul (s : cstring) : Prop := NUL ∉ s.

Lemma buf_cstr_app (s : cstring) (b : cbuf) :
  no_nul s → buf_cstr ((Some <$> s ++ [NUL]) ++ b) = Some s.
Proof.
  unfold no_nul. induction s as [|c s IH]; simpl; intros Hs.
  - done.
  - rewrite decide_False by set_solver.
    transitivity (cons c <$> Some s); [|done].
    f_equal. apply IH. set_solver.
Qed.

Lemma buf_cstr_no_nul b s : buf_cstr b = Some s → no_nul s.
Proof.
  unfold no_nul. revert s. induction b as [|[c|] b IH]; simpl; intros s Hs; [done| |done].
  case_decide; simplify_eq; [set_solver|].
  destruct (buf_cstr b) eqn:E; simplify_eq/=.
  apply not_elem_of_cons; split; [congruence|eauto].
Qed.

Lemma buf_write_length bytes b b' : buf_write bytes b = Some b' → length b' = length b.
Proof.
  unfold buf_write. case_decide; intros; simplify_eq.
  rewrite length_app, length_fmap, length_drop. lia.
Qed.

Lemma buf_write_cstr s b b' :
  no_nul s → buf_write (s ++ [NUL]) b = Some b' → buf_cstr b' = Some s.
Proof.
  unfold buf_write. case_decide; intros; simplify_eq. by apply buf_cstr_app.
Qed.

Lemma buf_write_fits bytes b :
  (length bytes ≤ length b)%nat →
  buf_write bytes b = Some ((Some <$> bytes) ++ drop (length bytes) b).
Proof. intros. unfold buf_write. by rewrite decide_True. Qed.

Lemma strlen_app s t : strlen (s ++ t) = strlen s + strlen t.
Proof. unfold strlen. rewrite length_app. lia. Qed.

Lemma strlen_nonneg s : 0 ≤ strlen s.
Proof. unfold strlen. lia. Qed.

Lemma N_of_ascii_inj a b : N_of_ascii a = N_of_ascii b → a = b.
Proof. intros H. by rewrite <-(ascii_N_embedding a), <-(ascii_N_embedding b), H. Qed.

Lemma strcmp_eq s t : strcmp s t = 0 ↔ s = t.
Proof.
  revert t. induction s as [|a s IH]; intros [|b t]; simpl; try (split; congruence).
  case_decide as Hab; [rewrite IH; naive_solver|].
  destruct (_ <? _)%N; split; congruence.
Qed.

Lemma strcmp_refl s : strcmp s s = 0.
Proof. by apply strcmp_eq. Qed.

Lemma strncpy_bytes_length s n :
  0 ≤ n → length (strncpy_bytes s n) = Z.to_nat n.
Proof.
  intros. unfold strncpy_bytes. rewrite length_app, length_take, length_replicate. lia.
Qed.

(** [strncpy] terminates the destination exactly when the source is shorter. *)
Lemma strncpy_bytes_fits s n :
  strlen s < n → ∃ pad, strncpy_bytes s n = s ++ [NUL] ++ pad.
Proof.
  unfold strncpy_bytes, strlen. intros.
  destruct (Z.to_nat n - length s)%nat as [|k] eqn:E; [lia|].
  exists (replicate k NUL). rewrite take_ge by lia. done.
Qed.

Lemma strncpy_bytes_truncates s n :
  0 < n → n ≤ strlen s → strncpy_bytes s n = take (Z.to_nat n) s.
Proof.
  unfold strncpy_bytes, strlen. intros.
  replace (Z.to_nat n - length s)%nat with 0%nat by lia. apply app_nil_r.
Qed.

Lemma snprintf_length dst size s n b :
  snprintf dst size s = Some (n, b) → length b = length dst.
Proof.
  unfold snprintf. case_match; [naive_solver|]. case_match; [naive_solver|].
  intros (b' & Hw & ?)%bind_Some; simplify_eq. by eapply buf_write_length.
Qed.

Lemma snprintf_fits dst size s :
  no_nul s → strlen s < size → size ≤ Z.of_nat (length dst) → size ≤ INT_MAX →
  ∃ b, snprintf dst size s = Some (strlen s, b) ∧ buf_cstr b = Some s.
Proof.
  intros Hn Hs Hd Hmax. unfold snprintf, strlen in *.
  destruct (Z.ltb_spec INT_MAX (Z.of_nat (length s))); [lia|].
  destruct (Z.eqb_spec size 0); [lia|].
  rewrite take_ge by lia.
  assert (length (s ++ [NUL]) ≤ length dst)%nat by (rewrite length_app; simpl; lia).
  rewrite buf_write_fits by done. eexists. split; [done|].
  by apply buf_cstr_app.
Qed.

(** A call that neither fails nor truncates leaves the expansion in the
    destination. *)
Lemma snprintf_complete dst size s n b :
  no_nul s → snprintf dst size s = Some (n, b) → 0 ≤ n → n < size →
  n = strlen s ∧ buf_cstr b = Some s.
Proof.
  intros Hs. unfold snprintf, strlen. case_match; [naive_solver lia|].
  case_match; [naive_solver lia|].
  intros (b' & Hw & ?)%bind_Some ? ?; simplify_eq. split; [done|].
  rewrite take_ge in Hw by lia. by eapply buf_write_cstr.
Qed.

Lemma snprintf_defined dst size s :
  0 ≤ size → size ≤ Z.of_nat (length dst) → is_Some (snprintf dst size s).
Proof.
  intros ? ?. unfold snprintf. case_match; [done|]. case_match; [done|].
  rewrite buf_write_fits; [done|].
  rewrite length_app, length_take; simpl. apply Z.eqb_neq in H2. lia.
Qed.

Lemma strtok_prefix (d s : cstring) (c : ascii) :
  c ∉ d → d ≠ [] → strtok (d ++ c :: s) c = Some d.
Proof.
  intros Hc Hd. unfold strtok. destruct d as [|a d]; [done|]. simpl.
  rewrite decide_False by set_solver.
  by rewrite decide_False, take_until_app by set_solver.
Qed.

(** ** Decimal numerals *)

Definition digit_char (d : Z) : ascii := ascii_of_N (Z.to_N (48 + d)).

Definition numeral_value (ds : list Z) : Z := foldl (λ acc d, acc * 10 + d) 0 ds.

Lemma digit_in_char d : 0 ≤ d < 10 → digit_in 10 (digit_char d) = Some d.
Proof.
  intros Hd.
  assert (d = 0 ∨ d = 1 ∨ d = 2 ∨ d = 3 ∨ d = 4 ∨ d = 5 ∨ d = 6 ∨ d = 7 ∨ d = 8 ∨ d = 9)
    as Hc by lia.
  by repeat destruct Hc as [->|Hc]; subst.
Qed.

Lemma scan_digits_numeral ds acc :
  Forall (λ d, 0 ≤ d < 10) ds →
  scan_digits 10 acc (digit_char <$> ds) = (foldl (λ a d, a * 10 + d) acc ds, []).
Proof.
  intros Hds. revert acc.
  induction Hds as [|d ds Hd Hds IH]; intros acc; [done|].
  cbn [fmap list_fmap scan_digits foldl]. by rewrite digit_in_char, IH.
Qed.

Lemma strtol0_numeral d ds :
  0 < d < 10 → Forall (λ d, 0 ≤ d < 10) ds →
  numeral_value (d :: ds) ≤ LONG_MAX → 0 ≤ numeral_value (d :: ds) →
  strtol0 (digit_char <$> d :: ds) =
    {| st_value := numeral_value (d :: ds); st_rest := []; st_converted := true;
       st_erange := false |}.
Proof.
  intros Hd Hds Hmax Hmin.
  assert (Hs : scan_digits 10 0 (digit_char <$> d :: ds) =
               (numeral_value (d :: ds), [])).
  { apply scan_digits_numeral. constructor; [lia|done]. }
  assert (Hv : clamp_long (numeral_value (d :: ds)) = numeral_value (d :: ds)).
  { unfold clamp_long, LONG_MIN, LONG_MAX in *. lia. }
  revert Hs Hv. generalize (numeral_value (d :: ds)) as v. intros v Hs Hv.
  assert (d = 1 ∨ d = 2 ∨ d = 3 ∨ d = 4 ∨ d = 5 ∨ d = 6 ∨ d = 7 ∨ d = 8 ∨ d = 9)
    as Hc by lia.
  assert (strtol0 (digit_char <$> d :: ds) =
    match scan_digits 10 0 (digit_char <$> d :: ds) with
    | (m, rest) =>
      {| st_value := clamp_long m; st_rest := rest; st_converted := true;
         st_erange := negb (clamp_long m =? m) |}
    end) as ->.
  { by repeat destruct Hc as [->|Hc]; subst. }
  by rewrite Hs, Hv, Z.eqb_refl.
Qed.

Lemma foldl_numeral_nonneg ds acc :
  0 ≤ acc → Forall (λ d, 0 ≤ d < 10) ds →
  acc ≤ foldl (λ a d, a * 10 + d) acc ds.
Proof.
  intros Hacc Hds. revert acc Hacc.
  induction Hds as [|d ds Hd _ IH]; intros acc Hacc; simpl; [lia|].
  specialize (IH (acc * 10 + d)). lia.
Qed.

Lemma clamp_long_bounds v : LONG_MIN ≤ clamp_long v ≤ LONG_MAX.
Proof. unfold clamp_long, LONG_MIN, LONG_MAX. lia. Qed.
