(* ===== verification/Posix.v ===== *)
(** * The operating system seen by the programs

    The part of POSIX and of the C library that reaches outside the process:
    a file system with inodes and hard links, open files, heap blocks, the
    mount table, [errno] and the log. Every system call first consults the
    environment, which may make it fail with an [errno] of its choice, so a
    theorem over all environments covers every error branch of the caller. *)

From stdpp Require Import base gmap strings list.
From Stdlib Require Import ZArith Ascii Lia.
From S2P Require Import Prelude.
From S2P Require Import CString.

Open Scope Z_scope.
Open Scope list_scope.

(** ** State *)

(** [st_size] differs from the length of the data for the pseudo files of the
    kernel, so both are kept. *)
Record inode := { i_data : list ascii; i_size : Z }.

Inductive node := Dir | Reg (ino : nat).

#[export] Instance node_eq_dec : EqDecision node.
Proof. solve_decision. Defined.

Record fs := { f_nodes : gmap cstring node; f_inodes : gmap nat inode; f_next : nat }.

Record mntent := { mnt_fsname : cstring; mnt_dir : cstring }.

Inductive logarg := LStr (s : cstring) | LErrno (e : Z) | LInt (z : Z).
Inductive severity := SevError | SevWarn | SevInfo.

Record world := {
  w_fs : fs;
  w_mtab : list mntent;           (** what [getmntent] yields for /etc/mtab *)
  w_fds : gmap nat cstring;       (** open descriptors and streams, by path *)
  w_heap : gmap nat cbuf;         (** live heap blocks *)
  w_next : nat;                   (** next descriptor or block *)
  w_log : list (severity * list logarg);
  w_errno : Z;
  w_tick : nat                    (** system calls made so far *)
}.

(** The environment: which system calls fail, and the size the kernel reports
    for a directory. *)
Class Env := {
  fault : nat → option Z;
  dir_st_size : Z
}.

(** Some call fails for a reason the model does not explain. *)
Definition unreliable `{Env} : Prop := ∃ t e, fault t = Some e.

Definition no_faults : Env := {| fault := λ _, None; dir_st_size := 4096 |}.

Definition ENOENT : Z := 2.
Definition EBADF : Z := 9.
Definition EEXIST : Z := 17.
Definition ENOTDIR : Z := 20.
Definition EISDIR : Z := 21.
Definition ENOTEMPTY : Z := 39.

(** ** Field updates *)

Definition set_fs (f : fs) (w : world) : world :=
  {| w_fs := f; w_mtab := w_mtab w; w_fds := w_fds w; w_heap := w_heap w;
     w_next := w_next w; w_log := w_log w; w_errno := w_errno w; w_tick := w_tick w |}.
Definition set_fds (f : gmap nat cstring) (w : world) : world :=
  {| w_fs := w_fs w; w_mtab := w_mtab w; w_fds := f; w_heap := w_heap w;
     w_next := w_next w; w_log := w_log w; w_errno := w_errno w; w_tick := w_tick w |}.
Definition set_heap (h : gmap nat cbuf) (w : world) : world :=
  {| w_fs := w_fs w; w_mtab := w_mtab w; w_fds := w_fds w; w_heap := h;
     w_next := w_next w; w_log := w_log w; w_errno := w_errno w; w_tick := w_tick w |}.
Definition set_next (n : nat) (w : world) : world :=
  {| w_fs := w_fs w; w_mtab := w_mtab w; w_fds := w_fds w; w_heap := w_heap w;
     w_next := n; w_log := w_log w; w_errno := w_errno w; w_tick := w_tick w |}.
Definition set_errno (e : Z) (w : world) : world :=
  {| w_fs := w_fs w; w_mtab := w_mtab w; w_fds := w_fds w; w_heap := w_heap w;
     w_next := w_next w; w_log := w_log w; w_errno := e; w_tick := w_tick w |}.
Definition add_log (l : severity * list logarg) (w : world) : world :=
  {| w_fs := w_fs w; w_mtab := w_mtab w; w_fds := w_fds w; w_heap := w_heap w;
     w_next := w_next w; w_log := w_log w ++ [l]; w_errno := w_errno w;
     w_tick := w_tick w |}.
Definition tick (w : world) : world :=
  {| w_fs := w_fs w; w_mtab := w_mtab w; w_fds := w_fds w; w_heap := w_heap w;
     w_next := w_next w; w_log := w_log w; w_errno := w_errno w;
     w_tick := S (w_tick w) |}.

(** ** Paths *)

(** Everything before the last slash; the root for a name in the root. *)
Definition dirname (p : cstring) : cstring :=
  match reverse (drop 1 (drop (length (take_until "/"%char (reverse p))) (reverse p))) with
  | [] => "/"
  | d => d
  end.

Definition basename (p : cstring) : cstring :=
  reverse (take_until "/"%char (reverse p)).

Example dirname_abs : dirname "/var/bootflags/rootfs2" = "/var/bootflags".
Proof. reflexivity. Qed.
Example dirname_top : dirname "/var" = "/". Proof. reflexivity. Qed.

Definition path_join (d f : cstring) : cstring := d ++ "/"%char :: f.

(** ** File system operations, without the environment's failures *)

Definition is_dir (f : fs) (p : cstring) : bool :=
  bool_decide (f_nodes f !! p = Some Dir) || bool_decide (p = "/").

Definition has_children (f : fs) (p : cstring) : bool :=
  existsb (λ q, bool_decide (dirname q = p)) (map_to_list (f_nodes f)).*1.

Definition fs_mkdir (f : fs) (p : cstring) : fs + Z :=
  match f_nodes f !! p with
  | Some _ => inr EEXIST
  | None =>
      if is_dir f (dirname p)
      then inl {| f_nodes := <[p:=Dir]> (f_nodes f); f_inodes := f_inodes f;
                  f_next := f_next f |}
      else inr ENOENT
  end.

Definition fs_creat (f : fs) (p : cstring) : fs + Z :=
  match f_nodes f !! p with
  | Some Dir => inr EISDIR
  | Some (Reg _) => inl f
  | None =>
      if is_dir f (dirname p)
      then inl {| f_nodes := <[p:=Reg (f_next f)]> (f_nodes f);
                  f_inodes := <[f_next f:={| i_data := []; i_size := 0 |}]> (f_inodes f);
                  f_next := S (f_next f) |}
      else inr ENOENT
  end.

Definition fs_remove (f : fs) (p : cstring) : fs + Z :=
  match f_nodes f !! p with
  | None => inr ENOENT
  | Some Dir =>
      if has_children f p then inr ENOTEMPTY
      else inl {| f_nodes := delete p (f_nodes f); f_inodes := f_inodes f;
                  f_next := f_next f |}
  | Some (Reg _) =>
      inl {| f_nodes := delete p (f_nodes f); f_inodes := f_inodes f;
             f_next := f_next f |}
  end.

(** The data a path names, when it names a regular file. *)
Definition fs_read (f : fs) (p : cstring) : option inode :=
  match f_nodes f !! p with
  | Some (Reg i) => f_inodes f !! i
  | _ => None
  end.

Definition fs_write (f : fs) (p : cstring) (d : list ascii) : fs :=
  match f_nodes f !! p with
  | Some (Reg i) =>
      {| f_nodes := f_nodes f;
         f_inodes := <[i:={| i_data := d; i_size := strlen d |}]> (f_inodes f);
         f_next := f_next f |}
  | _ => f
  end.

(** ** System calls *)

Section calls.
Context `{Env}.

Definition syscall {A} (failed : A) (f : world → A * world) : M world A := λ w,
  match fault (w_tick w) with
  | Some e => Done failed (set_errno e (tick w))
  | None => let '(a, w') := f (tick w) in Done a w'
  end.

(** A call on the file system that returns 0 or -1. *)
Definition fs_call (op : fs → fs + Z) : M world Z :=
  syscall (-1) (λ w,
    match op (w_fs w) with
    | inl f => (0, set_fs f w)
    | inr e => (-1, set_errno e w)
    end).

Definition mkdir (p : cstring) : M world Z := fs_call (λ f, fs_mkdir f p).
Definition remove (p : cstring) : M world Z := fs_call (λ f, fs_remove f p).

(** A new descriptor or stream on a path. *)
Definition new_fd (p : cstring) (w : world) : option nat * world :=
  (Some (w_next w), set_fds (<[w_next w:=p]> (w_fds w)) (set_next (S (w_next w)) w)).

(** [open(p, O_WRONLY | O_CREAT, mode)]; [None] is -1. *)
Definition open_creat (p : cstring) : M world (option nat) :=
  syscall None (λ w,
    match fs_creat (w_fs w) p with
    | inl f => new_fd p (set_fs f w)
    | inr e => (None, set_errno e w)
    end).

(** [close] and [fclose] release the descriptor even when they report an
    error. *)
Definition close (fd : nat) : M world Z := λ w,
  match w_fds w !! fd with
  | None => Done (-1) (set_errno EBADF (tick w))
  | Some _ =>
      let w' := set_fds (delete fd (w_fds w)) (tick w) in
      match fault (w_tick w) with
      | Some e => Done (-1) (set_errno e w')
      | None => Done 0 w'
      end
  end.

Definition fsync (fd : nat) : M world Z := syscall (-1) (λ w, (0, w)).

Definition sync : M world unit := modify tick.

(** [stat]: the size field, or -1 as [None]. *)
Definition stat (p : cstring) : M world (option Z) :=
  syscall None (λ w,
    match f_nodes (w_fs w) !! p with
    | None => (None, set_errno ENOENT w)
    | Some Dir => (Some dir_st_size, w)
    | Some (Reg i) =>
        (Some (from_option i_size 0 (f_inodes (w_fs w) !! i)), w)
    end).

(** [fopen(p, "r")]: succeeds on a directory too. *)
Definition fopen_r (p : cstring) : M world (option nat) :=
  syscall None (λ w,
    match f_nodes (w_fs w) !! p with
    | None => (None, set_errno ENOENT w)
    | Some _ => new_fd p w
    end).

(** [fread(dst, 1, n, fp)] from the start of the stream: the bytes, and
    whether the end-of-file or the error indicator is set afterwards. *)
Definition fread (fp : nat) (n : Z) : M world (list ascii * bool) :=
  syscall ([], true) (λ w,
    match w_fds w !! fp with
    | None => (([], true), w)
    | Some p =>
        match fs_read (w_fs w) p with
        | None => (([], true), set_errno EISDIR w)
        | Some i =>
            ((take (Z.to_nat n) (i_data i), strlen (i_data i) <? n), w)
        end
    end).

(** The stream of mount entries, [None] when the table cannot be opened. *)
Definition setmntent : M world (option nat) :=
  syscall None (λ w, new_fd "/etc/mtab" w).

(** [endmntent] always returns 1. *)
Definition endmntent (fp : nat) : M world Z := _ ← close fp; mret 1.

(** ** The heap *)

Definition malloc (size : Z) : M world (option nat) :=
  syscall None (λ w,
    (Some (w_next w),
     set_heap (<[w_next w:=buf_uninit size]> (w_heap w)) (set_next (S (w_next w)) w))).

Definition free (p : option nat) : M world unit :=
  match p with
  | None => mret tt
  | Some l => λ w,
      match w_heap w !! l with
      | Some _ => Done tt (set_heap (delete l (w_heap w)) w)
      | None => Halted (Undefined "free of a block that is not live") w
      end
  end.

Definition block (l : nat) : M world cbuf := λ w,
  match w_heap w !! l with
  | Some b => Done b w
  | None => Halted (Undefined "access to a block that is not live") w
  end.

Definition set_block (l : nat) (b : cbuf) : M world unit :=
  _ ← block l; modify (λ w, set_heap (<[l:=b]> (w_heap w)) w).

(** The string a pointer designates. *)
Definition deref_cstr (p : option nat) : M world cstring :=
  match p with
  | None => undefined "null pointer read as a string"
  | Some l => b ← block l;
              of_option "indeterminate or unterminated string" (buf_cstr b)
  end.

(** ** Logging *)

Definition log_at (s : severity) (args : list logarg) : M world unit :=
  modify (add_log (s, args)).
Definition ERROR := log_at SevError.
Definition WARN := log_at SevWarn.

(** [ERROR("... %s", strerror(errno))]. *)
Definition ERROR_errno (args : list logarg) : M world unit :=
  e ← gets w_errno; ERROR (args ++ [LErrno e]).
Definition WARN_errno (args : list logarg) : M world unit :=
  e ← gets w_errno; WARN (args ++ [LErrno e]).
End calls.

(** ** Frames

    [same_res]: the descriptors and the heap are the same, and no number was
    given back to the allocator.
    [same_fs]: the file system is the same. *)

Definition same_res (w w' : world) : Prop :=
  w_fds w' = w_fds w ∧ w_heap w' = w_heap w ∧ (w_next w ≤ w_next w')%nat.
Definition same_fs (w w' : world) : Prop := w_fs w' = w_fs w.

#[export] Instance same_res_preorder : PreOrder same_res.
Proof.
  split; [done|]. unfold same_res. intros x y z (->&->&?) (->&->&?).
  split_and!; [done..|lia].
Qed.
#[export] Instance same_fs_preorder : PreOrder same_fs.
Proof. split; [done|]. unfold same_fs. intros x y z. congruence. Qed.

Section frames.
Context `{Env}.

Lemma preserves_syscall {A} (R : relation world) (a : A) f :
  (∀ w e, R w (set_errno e (tick w))) → (∀ w, R w (f (tick w)).2) →
  Preserves R (syscall a f).
Proof.
  intros He Hf w. unfold syscall. case_match; simpl; [apply He|].
  specialize (Hf w). by destruct (f (tick w)).
Qed.

#[export] Instance res_fs_call op : Preserves same_res (fs_call op).
Proof. apply preserves_syscall; [done|]. intros w. simpl. by case_match. Qed.
#[export] Instance res_mkdir p : Preserves same_res (mkdir p).
Proof. apply _. Qed.
#[export] Instance res_remove p : Preserves same_res (remove p).
Proof. apply _. Qed.
#[export] Instance res_fsync fd : Preserves same_res (fsync fd).
Proof. by apply preserves_syscall. Qed.
#[export] Instance res_sync : Preserves same_res sync.
Proof. by apply preserves_modify. Qed.
#[export] Instance res_stat p : Preserves same_res (stat p).
Proof. apply preserves_syscall; [done|]. intros w. by repeat case_match. Qed.
#[export] Instance res_log s args : Preserves same_res (log_at s args).
Proof. by apply preserves_modify. Qed.
#[export] Instance res_error_errno args : Preserves same_res (ERROR_errno args).
Proof. apply _. Qed.
#[export] Instance res_warn_errno args : Preserves same_res (WARN_errno args).
Proof. apply _. Qed.
#[export] Instance res_block l : Preserves same_res (block l).
Proof. intros w. unfold block. by case_match. Qed.
#[export] Instance res_deref p : Preserves same_res (deref_cstr p).
Proof. destruct p; apply _. Qed.
#[export] Instance res_fread fp n : Preserves same_res (fread fp n).
Proof. apply preserves_syscall; [done|]. intros w. by repeat case_match. Qed.

#[export] Instance fs_fsync fd : Preserves same_fs (fsync fd).
Proof. by apply preserves_syscall. Qed.
#[export] Instance fs_sync : Preserves same_fs sync.
Proof. by apply preserves_modify. Qed.
#[export] Instance fs_stat p : Preserves same_fs (stat p).
Proof. apply preserves_syscall; [done|]. intros w. by repeat case_match. Qed.
#[export] Instance fs_log s args : Preserves same_fs (log_at s args).
Proof. by apply preserves_modify. Qed.
#[export] Instance fs_error_errno args : Preserves same_fs (ERROR_errno args).
Proof. apply _. Qed.
#[export] Instance fs_warn_errno args : Preserves same_fs (WARN_errno args).
Proof. apply _. Qed.
#[export] Instance fs_block l : Preserves same_fs (block l).
Proof. intros w. unfold block. by case_match. Qed.
#[export] Instance fs_set_block l b : Preserves same_fs (set_block l b).
Proof.
  unfold set_block. apply preserves_bind; [apply _..|].
  intros _. by apply preserves_modify.
Qed.
#[export] Instance fs_deref p : Preserves same_fs (deref_cstr p).
Proof. destruct p; apply _. Qed.
#[export] Instance fs_fread fp n : Preserves same_fs (fread fp n).
Proof. apply preserves_syscall; [done|]. intros w. by repeat case_match. Qed.
#[export] Instance fs_fopen p : Preserves same_fs (fopen_r p).
Proof. apply preserves_syscall; [done|]. intros w. by repeat case_match. Qed.
#[export] Instance fs_setmntent : Preserves same_fs setmntent.
Proof. by apply preserves_syscall. Qed.
#[export] Instance fs_close fd : Preserves same_fs (close fd).
Proof. intros w. unfold close. by repeat case_match. Qed.
#[export] Instance fs_malloc n : Preserves same_fs (malloc n).
Proof. by apply preserves_syscall. Qed.
#[export] Instance fs_free p : Preserves same_fs (free p).
Proof. destruct p; [|apply _]. intros w. simpl. by case_match. Qed.
End frames.

(** ** System calls return *)

Section total.
Context `{Env}.

#[export] Instance total_syscall {A} (a : A) f : Total (syscall a f).
Proof.
  intros w. unfold syscall. destruct (fault _); [by eexists _, _|].
  destruct (f (tick w)). by eexists _, _.
Qed.
#[export] Instance total_mkdir p : Total (mkdir p).
Proof. apply total_syscall. Qed.
#[export] Instance total_remove p : Total (remove p).
Proof. apply total_syscall. Qed.
#[export] Instance total_open p : Total (open_creat p).
Proof. apply total_syscall. Qed.
#[export] Instance total_fopen p : Total (fopen_r p).
Proof. apply total_syscall. Qed.
#[export] Instance total_fsync fd : Total (fsync fd).
Proof. apply total_syscall. Qed.
#[export] Instance total_stat p : Total (stat p).
Proof. apply total_syscall. Qed.
#[export] Instance total_fread fp n : Total (fread fp n).
Proof. apply total_syscall. Qed.
#[export] Instance total_sync : Total sync.
Proof. apply total_modify. Qed.
#[export] Instance total_close fd : Total (close fd).
Proof. intros w. unfold close. repeat case_match; by eexists _, _. Qed.
#[export] Instance total_log s args : Total (log_at s args).
Proof. apply total_modify. Qed.
#[export] Instance total_error args : Total (ERROR args).
Proof. apply total_modify. Qed.
#[export] Instance total_warn args : Total (WARN args).
Proof. apply total_modify. Qed.
#[export] Instance total_error_errno args : Total (ERROR_errno args).
Proof. apply _. Qed.
#[export] Instance total_warn_errno args : Total (WARN_errno args).
Proof. apply _. Qed.
End total.

(** ** Allocation

    [Fresh w]: the numbers the allocator will hand out are not in use. *)

Definition Fresh (w : world) : Prop :=
  ∀ n, (w_next w ≤ n)%nat → w_fds w !! n = None ∧ w_heap w !! n = None.

Lemma Fresh_same_res w w' : same_res w w' → Fresh w → Fresh w'.
Proof. intros (Hf & Hh & Hn) HF n Hge. rewrite Hf, Hh. apply HF. lia. Qed.

(** [owns_block l w w']: [w'] has the one block [l] more than [w]. *)
Definition owns_block (l : nat) (w w' : world) : Prop :=
  w_heap w !! l = None ∧ w_fds w' = w_fds w ∧ (w_next w ≤ w_next w')%nat ∧
  (l < w_next w')%nat ∧ ∃ b, w_heap w' = <[l:=b]> (w_heap w).

(** [owns_fd fd w w']: [w'] has the one descriptor [fd] more than [w]. *)
Definition owns_fd (fd : nat) (p : cstring) (w w' : world) : Prop :=
  w_fds w !! fd = None ∧ w_heap w' = w_heap w ∧ (w_next w ≤ w_next w')%nat ∧
  (fd < w_next w')%nat ∧ w_fds w' = <[fd:=p]> (w_fds w).

Lemma Fresh_owns_block l w w' : Fresh w → owns_block l w w' → Fresh w'.
Proof.
  intros HF (_&Hf&?&?&b&Hb) n Hn. rewrite Hf, Hb, lookup_insert_ne by lia. apply HF. lia.
Qed.

Lemma Fresh_owns_fd fd p w w' : Fresh w → owns_fd fd p w w' → Fresh w'.
Proof.
  intros HF (_&Hh&?&?&Hf) n Hn. rewrite Hf, Hh, lookup_insert_ne by lia. apply HF. lia.
Qed.

Lemma owns_block_res l w w' w'' :
  owns_block l w w' → same_res w' w'' → owns_block l w w''.
Proof.
  intros (?&Hf&?&?&b&Hb) (Hf'&Hb'&?). split_and!; [done|congruence|lia|lia|].
  exists b. congruence.
Qed.

Lemma res_owns_block l w w' w'' :
  same_res w w' → owns_block l w' w'' → owns_block l w w''.
Proof.
  intros (Hf&Hb&?) (Hn&Hf'&?&?&b&Hb'). split_and!; [congruence..|lia|lia|].
  exists b. congruence.
Qed.

Lemma owns_block_set l b w w' :
  owns_block l w w' → owns_block l w (set_heap (<[l:=b]> (w_heap w')) w').
Proof.
  intros (?&?&?&?&b0&Hb). split_and!; [done..|]. exists b. simpl.
  by rewrite Hb, insert_insert_eq.
Qed.

Lemma owns_fd_res fd p w w' w'' :
  owns_fd fd p w w' → same_res w' w'' → owns_fd fd p w w''.
Proof.
  intros (?&Hh&?&?&Hf) (Hf'&Hh'&?). split_and!; [done|congruence|lia|lia|congruence].
Qed.

Lemma res_owns_fd fd p w w' w'' :
  same_res w w' → owns_fd fd p w' w'' → owns_fd fd p w w''.
Proof.
  intros (Hf&Hh&?) (?&Hh'&?&?&Hf'). split_and!; [congruence..|lia|lia|congruence].
Qed.

Lemma owns_fd_live fd p w w' : owns_fd fd p w w' → w_fds w' !! fd = Some p.
Proof. intros (_&_&_&_&->). apply lookup_insert_eq. Qed.

Section allocation.
Context `{Env}.

Lemma wp_syscall {A} (a : A) f Q E w :
  (unreliable → ∀ e, Q a (set_errno e (tick w))) → Q (f (tick w)).1 (f (tick w)).2 →
  wp (syscall a f) Q E w.
Proof.
  intros He Hf. unfold wp, syscall.
  destruct (fault (w_tick w)) eqn:Ht; [apply He; by eexists _, _|].
  by destruct (f (tick w)).
Qed.

(** A system call without the failures of the environment. *)
Lemma syscall_no_fault {A} (a : A) f w :
  fault (w_tick w) = None →
  syscall a f w = Done (f (tick w)).1 (f (tick w)).2.
Proof. unfold syscall. intros ->. by destruct (f (tick w)). Qed.

Lemma wp_malloc n Q E w :
  Fresh w → (unreliable → ∀ w', same_res w w' → w_fs w' = w_fs w → Q None w') →
  (∀ l w', owns_block l w w' → w_fs w' = w_fs w →
           w_heap w' !! l = Some (buf_uninit n) → Q (Some l) w') →
  wp (malloc n) Q E w.
Proof.
  intros HF HN HS. apply wp_syscall; [intros Hu e; by apply HN|]. simpl.
  apply HS; simpl; [|done|apply lookup_insert_eq].
  destruct (HF (w_next w)) as [? ?]; [lia|]. split_and!; simpl; [done..|lia|lia|eauto].
Qed.

(** Releasing the block the world owns gives the first resources back. *)
Lemma wp_free_owned l Q E w w' :
  owns_block l w w' → (∀ w'', same_res w w'' → w_fs w'' = w_fs w' → Q tt w'') →
  wp (free (Some l)) Q E w'.
Proof.
  intros (Hn&Hf&Hle&_&b&Hb) HQ. unfold wp, free. rewrite Hb, lookup_insert_eq.
  apply HQ; [|done]. split_and!; simpl; [done| |done].
  rewrite ?Hb. by rewrite delete_insert_id.
Qed.

Lemma wp_block l Q (E : halt → world → Prop) w b :
  w_heap w !! l = Some b → Q b w → wp (block l) Q E w.
Proof. intros Hb HQ. unfold wp, block. by rewrite Hb. Qed.

Lemma wp_set_block l b b0 Q (E : halt → world → Prop) w :
  w_heap w !! l = Some b0 → Q tt (set_heap (<[l:=b]> (w_heap w)) w) →
  wp (set_block l b) Q E w.
Proof. intros Hb HQ. apply wp_bind. eapply wp_block; [done|]. by apply wp_modify. Qed.

Lemma wp_new_fd p w :
  Fresh w → ∃ w', new_fd p w = (Some (w_next w), w') ∧
                  owns_fd (w_next w) p w w' ∧ w_fs w' = w_fs w ∧
                  w_mtab w' = w_mtab w.
Proof.
  intros HF. eexists. split; [done|]. destruct (HF (w_next w)) as [? ?]; [lia|].
  split; [split_and!; simpl; [done..|lia|lia|done]|done].
Qed.

(** [close] gives the first resources back, whether or not it fails. *)
Lemma wp_close_owned fd p Q E w w' :
  owns_fd fd p w w' →
  (∀ c w'', same_res w w'' → w_fs w'' = w_fs w' → (c = 0 ∨ unreliable) → Q c w'') →
  wp (close fd) Q E w'.
Proof.
  intros (Hn&Hh&Hle&_&Hf) HQ. unfold wp, close. rewrite Hf, lookup_insert_eq.
  rewrite delete_insert_id by done.
  destruct (fault (w_tick w')) eqn:Ht; apply HQ; try done; try by split_and!.
  - right. by eexists _, _.
  - by left.
Qed.
End allocation.

#[global] Arguments buf_uninit : simpl never.
