(* ===== verification/Swupdate.v ===== *)
(** * swupdate-handlers: the root file system image handler

    [firmware-management/swupdate-handlers/arm-handler-common.c] and
    [rootfs-handler.c]: an image is written to the bank that is not mounted,
    then the boot flag is set or cleared so that the next boot uses that bank,
    then the file that prevents the reboot is removed. *)

From stdpp Require Import base gmap strings list.
From Stdlib Require Import ZArith Ascii Lia.
From S2P Require Import Prelude.
From S2P Require Import CString.
From S2P Require Import Posix.

Open Scope Z_scope.
Open Scope list_scope.

(** ** Build configuration and the swupdate library *)

(** The directories CMake substitutes in [arm-handler-common.h.in]. *)
Class Config := {
  BOOTFLAGS_DIR : cstring;
  UPDATE_PAYLOAD_DIR : cstring;
  LOG_DIR : cstring;
  ROOTFS_TYPE : cstring;
  FACTORY_CONFIG_DIR : cstring;
  PART_INFO_DIR : cstring;
  TMP_DIR : cstring
}.

(** The defaults of CMakeLists.txt. Nothing sets [ROOTFS_TYPE]. *)
Definition default_config : Config := {|
  BOOTFLAGS_DIR := "/var/bootflags";
  UPDATE_PAYLOAD_DIR := "/tmp";
  LOG_DIR := "/var/log";
  ROOTFS_TYPE := "";
  FACTORY_CONFIG_DIR := "/config/factory";
  PART_INFO_DIR := "/config/factory/part-info";
  TMP_DIR := "/tmp"
|}.

Definition MAX_DEVICE_FILE_PATH : Z := 512.
Definition PATH_MAX : Z := 4096.

(** What the handler calls in swupdate itself, which is not part of this
    repository. *)
Class SwupdateLib := {
  img_type : Type;
  fname : img_type → cstring;
  img_data : img_type → list ascii;   (** the image the archive holds *)
  openfileoutput : cstring → M world (option nat);
  copyimage : nat → img_type → M world Z
}.

Section operations.
Context `{Env} `{Config} `{SwupdateLib}.

(** *** Memory and strings *)

Definition malloc_or_abort (size : Z) : M world nat :=
  dst ← malloc (wrap_size_t (8 * size));
  match dst with
  | None => ERROR [LStr "Failed to allocate memory"];; stop Aborted
  | Some l => mret l
  end.

Definition str_copy_to_new (src : cstring) : M world nat :=
  dst ← malloc_or_abort (wrap_size_t (strlen src + 1));
  b ← block dst;
  b' ← of_option "strcpy past the end of the block" (strcpy b src);
  set_block dst b';;
  mret dst.

Definition str_endswith (substr fullstr : cstring) : Z :=
  if strlen fullstr <? strlen substr then 1
  else strcmp (drop (Z.to_nat (strlen fullstr - strlen substr)) fullstr) substr.

(** [dst[i] = '\0'] in a heap block. *)
Definition store_nul (l : nat) (i : Z) : M world unit :=
  b ← block l;
  if (0 <=? i) && (i <? Z.of_nat (length b))
  then set_block l (<[Z.to_nat i:=Some NUL]> b)
  else undefined "store past the end of a block".

(** The code after the label [clean]. *)
Definition read_file_clean (fp : option nat) (dst : nat) (return_val : option nat)
  : M world (option nat) :=
  rv ← match fp with
       | None => mret return_val
       | Some f =>
           c ← close f;
           if c =? -1
           then ERROR [LStr "Failed to close file descriptor for file"];; mret None
           else mret return_val
       end;
  match rv with
  | None => free (Some dst);; mret None
  | Some _ => mret rv
  end.

(** From [fread] to the label [clean]. *)
Definition read_stream (filepath : cstring) (f dst : nat) (st_size : Z)
  : M world (option nat) :=
  got ← fread f st_size;
  b ← block dst;
  b' ← of_option "fread past the end of the block" (buf_write got.1 b);
  set_block dst b';;
  if (got.2 : bool) then
    ERROR [LStr "Failed to read from file"; LStr filepath];;
    read_file_clean (Some f) dst None
  else
    store_nul dst st_size;;
    read_file_clean (Some f) dst (Some dst).

Definition read_file_to_new_str (filepath : cstring) : M world (option nat) :=
  st ← stat filepath;
  match st with
  | None => ERROR_errno [LStr "Failed to stat file"; LStr filepath];; mret None
  | Some st_size =>
      if st_size <? 0
      then ERROR [LStr filepath; LStr "has a negative size"];; mret None
      else
        dst ← malloc_or_abort (wrap_size_t (st_size + 1));
        fp ← fopen_r filepath;
        match fp with
        | None =>
            ERROR_errno [LStr "Failed to open file"; LStr filepath];;
            read_file_clean None dst None
        | Some f =>
            read_stream filepath f dst st_size
        end
  end.

(** *** The mounted device *)

(** The body of the loop over the mount entries, then the return value. *)
Fixpoint scan_mtab (entries : list mntent) (dst : cbuf) (mount_point : cstring)
    (dst_size : Z) : M world (Z * cbuf) :=
  match entries with
  | [] => mret (-1, dst)
  | e :: entries' =>
      if strcmp mount_point (mnt_dir e) =? 0 then
        dst' ← of_option "strncpy past the end" (strncpy dst (mnt_fsname e) dst_size);
        cell ← of_option "read past the end" (buf_get (dst_size - 1) dst');
        c ← of_option "indeterminate byte" cell;
        if negb (bool_decide (c = NUL)) then
          ERROR [LStr (mnt_fsname e);
                 LStr "could not fit into destination buffer and was truncated"];;
          mret (-1, dst')
        else mret (0, dst')
      else scan_mtab entries' dst mount_point dst_size
  end.

Definition get_mounted_device (dst : cbuf) (mount_point : cstring) (dst_size : Z)
  : M world (Z * cbuf) :=
  mtab ← setmntent;
  match mtab with
  | None => ERROR [LStr "Failed to open mtab"];; mret (-1, dst)
  | Some fp =>
      entries ← gets w_mtab;
      r ← scan_mtab entries dst mount_point dst_size;
      endmntent fp;;
      mret r
  end.

(** *** Formatting into a bounded buffer

    The idiom the file repeats: [snprintf], then [-1] on an output error and
    [-1] on truncation, with the message of each place. *)
Definition output_error : list logarg :=
  [LStr "There was an output error when writing to the destination buffer"].

Definition checked_snprintf (dst : cbuf) (dst_size : Z) (expansion : cstring)
    (on_error : list logarg) (too_long : cstring) : M world (Z * cbuf) :=
  r ← of_option "snprintf past the end" (snprintf dst dst_size expansion);
  if r.1 <? 0 then
    ERROR on_error;;
    mret (-1, r.2)
  else if dst_size <=? wrap_size_t r.1 then
    ERROR [LStr too_long];; mret (-1, r.2)
  else mret (0, r.2).

Definition find_target_partition (dst : cbuf) (mounted_partition : cstring)
    (bank1_part_num bank2_part_num : cstring) (dst_size : Z)
  : M world (Z * cbuf) :=
  mnt_device_cpy ← str_copy_to_new mounted_partition;
  cpy ← deref_cstr (Some mnt_device_cpy);
  r ← match strtok cpy "p"%char with
      | None => ERROR [LStr "Failed to find"; LStr "p"; LStr "in string"];; mret (-1, dst)
      | Some token =>
          if str_endswith bank1_part_num mounted_partition =? 0 then
            checked_snprintf dst dst_size (token ++ "p" ++ bank2_part_num)
              output_error
              "bootflags filepath is larger than the destination buffer size"
          else if str_endswith bank2_part_num mounted_partition =? 0 then
            checked_snprintf dst dst_size (token ++ "p" ++ bank1_part_num)
              output_error
              "Target partition filepath is larger than the destination buffer size"
          else
            ERROR [LStr "Failed to find partition number"; LStr bank1_part_num;
                   LStr "or"; LStr bank2_part_num; LStr "in device file"];;
            mret (-1, dst)
      end;
  free (Some mnt_device_cpy);;
  mret r.

(** *** Files of the part-info and bootflags directories *)

Definition get_part_info_filepath (dst : cbuf) (file_name : cstring) (dst_size : Z)
  : M world (Z * cbuf) :=
  checked_snprintf dst dst_size (path_join PART_INFO_DIR file_name) output_error
    "Part info filepath is larger than the destination buffer size".

Definition read_part_info_file_to_new_str (file_name : cstring)
  : M world (option nat) :=
  r ← get_part_info_filepath (buf_uninit PATH_MAX) file_name PATH_MAX;
  if r.1 =? -1 then mret None
  else
    part_info_filepath ← of_option "indeterminate path" (buf_cstr r.2);
    read_file_to_new_str part_info_filepath.

Definition get_bootflag_file_path (bootflags_file_path : cbuf) (filename : cstring)
    (size : Z) : M world (Z * cbuf) :=
  checked_snprintf bootflags_file_path size (path_join BOOTFLAGS_DIR filename) output_error
    "bootflags filepath is larger than the destination buffer size".

(** After the directory is known to exist. *)
Definition create_bootflag_file (filename : cstring) : M world Z :=
  r ← get_bootflag_file_path (buf_uninit PATH_MAX) filename PATH_MAX;
  if r.1 =? -1 then mret (-1)
  else
    bootflags_file_path ← of_option "indeterminate path" (buf_cstr r.2);
    fd ← open_creat bootflags_file_path;
    match fd with
    | None =>
        ERROR_errno [LStr "Failed to open file"; LStr bootflags_file_path];; mret (-1)
    | Some fd =>
        c ← close fd;
        (if c =? -1
         then WARN_errno [LStr "Error closing file descriptor for file";
                          LStr bootflags_file_path]
         else mret tt);;
        sync;;
        mret 0
    end.

Definition write_bootflag_file (filename : cstring) : M world Z :=
  m ← mkdir BOOTFLAGS_DIR;
  e ← gets w_errno;
  if (m =? -1) && negb (e =? EEXIST) then
    ERROR_errno [LStr "Failed to create"; LStr BOOTFLAGS_DIR];; mret (-1)
  else create_bootflag_file filename.

Definition remove_bootflag_file (filename : cstring) : M world Z :=
  r ← get_bootflag_file_path (buf_uninit PATH_MAX) filename PATH_MAX;
  if r.1 <? 0 then mret (-1)
  else
    bootflags_file_path ← of_option "indeterminate path" (buf_cstr r.2);
    m ← remove bootflags_file_path;
    e ← gets w_errno;
    if (m =? -1) && negb (e =? ENOENT) then
      ERROR_errno [LStr "Failed to remove bootflags file"];; mret (-1)
    else sync;; mret 0.

(** *** Writing the image *)

(** The code after the label [close]. *)
Definition copy_close (fd : nat) (ret_val : Z) : M world Z :=
  c ← close fd;
  if c =? -1
  then ERROR [LStr "Failed to close target device file descriptor"];; mret (-1)
  else mret ret_val.

(** The assignment [ret_val = -1] that follows [goto close] is dead code. *)
Definition copy_image_and_sync (img : img_type) (device_filepath : cstring)
  : M world Z :=
  fd ← openfileoutput device_filepath;
  match fd with
  | None =>
      ERROR [LStr "Failed to open target device file"; LStr device_filepath];; mret (-1)
  | Some fd =>
      c ← copyimage fd img;
      if c <? 0 then
        ERROR [LStr "Failed to copy"; LStr (fname img); LStr "to target device";
               LStr device_filepath];;
        copy_close fd 0
      else
        s ← fsync fd;
        (if s =? -1 then WARN_errno [LStr "Failed to sync filesystem"] else mret tt);;
        copy_close fd 0
  end.

Definition remove_do_not_reboot_flag : M world Z :=
  r ← checked_snprintf (buf_uninit PATH_MAX) PATH_MAX
        (path_join TMP_DIR "do_not_reboot")
        [LStr "Failed to write "; LStr TMP_DIR; LStr "do_not_reboot";
         LStr "to destination buffer"]
        "The reboot flag filepath was truncated, it is larger than PATH_MAX";
  if r.1 <? 0 then mret (-1)
  else
    reboot_flag_path ← of_option "indeterminate path" (buf_cstr r.2);
    m ← remove reboot_flag_path;
    e ← gets w_errno;
    if (m =? -1) && negb (e =? ENOENT) then
      ERROR_errno [LStr "Failed to remove reboot flag"];; mret (-1)
    else mret 0.

(** *** The handler *)

Definition rootfs_filename : cstring := "rootfs2".

(** From the choice of the boot flag to the label [clean]. *)
Definition switch_bank (b2_pnum target_device_filepath : cstring) : M world Z :=
  r ← (if str_endswith b2_pnum target_device_filepath =? 0 then
         w ← write_bootflag_file rootfs_filename;
         if w =? -1 then
           ERROR [LStr "Failed to write bootflag file. Next boot will be from bank 1"];;
           mret 1
         else mret 0
       else
         m ← remove_bootflag_file rootfs_filename;
         if m =? -1 then ERROR [LStr "Failed to remove bootflag file."];; mret 1
         else mret 0);
  if r =? 0 then
    d ← remove_do_not_reboot_flag;
    if d =? -1 then ERROR [LStr "Failed to remove 'do not reboot' flag."];; mret 1
    else mret 0
  else mret r.

(** From [find_target_partition] to the label [clean]. *)
Definition install_image (img : img_type) (mounted b1 b2 : cstring) : M world Z :=
  r ← find_target_partition (buf_uninit MAX_DEVICE_FILE_PATH) mounted b1 b2
        MAX_DEVICE_FILE_PATH;
  if negb (r.1 =? 0) then
    t ← of_option "indeterminate buffer printed" (buf_cstr r.2);
    ERROR [LStr "Failed to find target partition"; LStr t];;
    mret 1
  else
    target_device_filepath ← of_option "indeterminate buffer" (buf_cstr r.2);
    c ← copy_image_and_sync img target_device_filepath;
    if c =? -1 then
      ERROR [LStr "Failed to copy image"; LStr (fname img);
             LStr "to target partition"];;
      mret 1
    else switch_bank b2 target_device_filepath.

Definition rootfsv4_handler (img : img_type) : M world Z :=
  r ← get_mounted_device (buf_uninit MAX_DEVICE_FILE_PATH) "/" MAX_DEVICE_FILE_PATH;
  if negb (r.1 =? 0) then
    m ← of_option "indeterminate buffer printed" (buf_cstr r.2);
    ERROR [LStr "Failed to get mounted device file path"; LStr m];;
    mret 1
  else
    mounted_device_filepath ← of_option "indeterminate buffer" (buf_cstr r.2);
    b1_pnum ← read_part_info_file_to_new_str "MBL_ROOT_FS_PART_NUMBER_BANK1";
    match b1_pnum with
    | None =>
        ERROR [LStr "Failed to read file MBL_ROOT_FS_PART_NUMBER_BANK1"];; mret 1
    | Some _ =>
        b2_pnum ← read_part_info_file_to_new_str "MBL_ROOT_FS_PART_NUMBER_BANK2";
        match b2_pnum with
        | None =>
            ERROR [LStr "Failed to read file MBL_ROOT_FS_PART_NUMBER_BANK2"];;
            free b1_pnum;;
            mret 1
        | Some _ =>
            b1 ← deref_cstr b1_pnum;
            b2 ← deref_cstr b2_pnum;
            return_value ← install_image img mounted_device_filepath b1 b2;
            free b1_pnum;;
            free b2_pnum;;
            mret return_value
        end
    end.
End operations.

(** ** A concrete instance *)

(** A swupdate that writes the whole image to an existing device. *)
Definition ref_swupdate : SwupdateLib := {|
  img_type := list ascii;
  fname := λ _, "rootfs.img";
  img_data := λ d, d;
  openfileoutput := λ p w,
    match fs_read (w_fs w) p with
    | Some _ => let '(fd, w') := new_fd p w in Done fd w'
    | None => Done None w
    end;
  copyimage := λ fd d w,
    match w_fds w !! fd with
    | Some p =>
        match fs_read (w_fs w) p with
        | Some _ => Done 0 (set_fs (fs_write (w_fs w) p d) w)
        | None => Done (-1) w
        end
    | None => Done (-1) w
    end
|}.

(** A board with two banks on one SD card. *)
Definition board_fs (b1 b2 : cstring) : fs := {|
  f_nodes := list_to_map
    [("/var" : cstring, Dir); ("/tmp" : cstring, Dir);
     ("/tmp/do_not_reboot" : cstring, Reg 0);
     ("/config/factory/part-info/MBL_ROOT_FS_PART_NUMBER_BANK1" : cstring, Reg 1);
     ("/config/factory/part-info/MBL_ROOT_FS_PART_NUMBER_BANK2" : cstring, Reg 2);
     ("/dev/mmcblk0p" ++ b1, Reg 3); ("/dev/mmcblk0p" ++ b2, Reg 4)];
  f_inodes := list_to_map
    [(0%nat, {| i_data := ""; i_size := 0 |});
     (1%nat, {| i_data := b1; i_size := strlen b1 |});
     (2%nat, {| i_data := b2; i_size := strlen b2 |});
     (3%nat, {| i_data := "old"; i_size := 3 |}); (4%nat, {| i_data := "?"; i_size := 1 |})];
  f_next := 5 |}.

Definition board (b1 b2 booted : cstring) : world := {|
  w_fs := board_fs b1 b2;
  w_mtab := [{| mnt_fsname := "proc"; mnt_dir := "/proc" |};
             {| mnt_fsname := "/dev/mmcblk0p" ++ booted; mnt_dir := "/" |}];
  w_fds := ∅; w_heap := ∅; w_next := 0; w_log := []; w_errno := 0; w_tick := 0 |}.

(** The first update of a board booted from its first bank. *)
Definition demo_run : outcome world Z :=
  @rootfsv4_handler no_faults default_config ref_swupdate "new" (board "3" "5" "3").

Example demo_returns : result demo_run = Some 0.
Proof. vm_compute. reflexivity. Qed.
Example demo_target :
  i_data <$> fs_read (w_fs (final demo_run)) "/dev/mmcblk0p5" = Some ("new" : cstring).
Proof. vm_compute. reflexivity. Qed.
Example demo_flag :
  f_nodes (w_fs (final demo_run)) !! ("/var/bootflags/rootfs2" : cstring) = Some (Reg 5).
Proof. vm_compute. reflexivity. Qed.
