(* ===== verification/SwupdateProps.v ===== *)
(** * swupdate-handlers: theorems

    Specifications of the operations of [Swupdate], in the order of the calls:
    the string helpers, the choice of the target partition, the bounded
    buffers, the files, and the handler. *)

From stdpp Require Import base gmap strings list.
From Stdlib Require Import ZArith Ascii Lia.
From S2P Require Import Prelude.
From S2P Require Import CString.
From S2P Require Import Posix.
From S2P Require Import Swupdate.

Open Scope Z_scope.
Open Scope list_scope.

(** ** What the swupdate library promises *)

(** [frame P f f']: names and data outside [P] are the same. *)
Definition frame (P : cstring → Prop) (f f' : fs) : Prop :=
  ∀ q, ¬ P q → f_nodes f' !! q = f_nodes f !! q ∧ fs_read f' q = fs_read f q.

(** The names that reach the data of [p] in [f]. *)
Definition alias (f : fs) (p q : cstring) : Prop :=
  q = p ∨ ∃ i, f_nodes f !! p = Some (Reg i) ∧ f_nodes f !! q = Some (Reg i).

(** Only [p], and what is hard linked to it, differs. *)
Definition only_path (p : cstring) (f f' : fs) : Prop :=
  frame (alias f p) f f' ∧ ∀ q, alias f' p q → alias f p q.

(** Inode numbers in use are below the next one, and every name has data. *)
Definition fs_wf (f : fs) : Prop :=
  ∀ p i, f_nodes f !! p = Some (Reg i) → (i < f_next f)%nat.

Class SwupdateLaws `{SwupdateLib} : Prop := {
  open_law p w : Fresh w → ∃ r w',
    openfileoutput p w = Done r w' ∧ Fresh w' ∧
    only_path p (w_fs w) (w_fs w') ∧ (fs_wf (w_fs w) → fs_wf (w_fs w')) ∧
    match r with
    | Some fd => owns_fd fd p w w' ∧ is_Some (fs_read (w_fs w') p)
    | None => same_res w w'
    end;
  copy_law fd img p w : w_fds w !! fd = Some p → ∃ r w',
    copyimage fd img w = Done r w' ∧ same_res w w' ∧
    only_path p (w_fs w) (w_fs w') ∧ (fs_wf (w_fs w) → fs_wf (w_fs w')) ∧
    (is_Some (fs_read (w_fs w) p) → is_Some (fs_read (w_fs w') p)) ∧
    (0 ≤ r → i_data <$> fs_read (w_fs w') p = Some (img_data img))
}.

(** ** Pure specifications *)

(** The abstract choice: the device with the other bank's number. *)
Definition target_path (mounted b1 b2 : cstring) : option cstring :=
  token ← strtok mounted "p"%char;
  if bool_decide (b1 `suffix_of` mounted) then Some (token ++ "p" ++ b2)
  else if bool_decide (b2 `suffix_of` mounted) then Some (token ++ "p" ++ b1)
  else None.

Definition partition (dev num : cstring) : cstring := dev ++ "p" ++ num.

Lemma str_endswith_suffix sub full :
  str_endswith sub full = 0 ↔ sub `suffix_of` full.
Proof.
  unfold str_endswith, strlen.
  destruct (Z.ltb_spec (Z.of_nat (length full)) (Z.of_nat (length sub))) as [Hl|Hl].
  - split; [done|]. intros Hs%suffix_length. lia.
  - rewrite drop_suffix by lia. rewrite strcmp_eq.
    by replace (Z.to_nat (Z.of_nat (length full) - Z.of_nat (length sub)))
      with (length full - length sub)%nat by lia.
Qed.

Lemma str_endswith_eqb sub full :
  (str_endswith sub full =? 0) = bool_decide (sub `suffix_of` full).
Proof.
  apply Bool.eq_iff_eq_true. by rewrite Z.eqb_eq, bool_decide_eq_true, str_endswith_suffix.
Qed.

Lemma suffix_partition dev num : num `suffix_of` partition dev num.
Proof. exists (dev ++ "p"). unfold partition. by rewrite (assoc_L (++)). Qed.

(** ** The memory helpers *)

Definition only_abort (h : halt) (w : world) : Prop := h = Aborted.
Definition anything (h : halt) (w : world) : Prop := True.

(** Sizes for which [sizeof dst * size] does not wrap around. *)
Lemma block_size n : 0 ≤ n < 2 ^ 60 → wrap_size_t (8 * wrap_size_t n) = 8 * n.
Proof. unfold wrap_size_t. intros. rewrite (Z.mod_small n), Z.mod_small; lia. Qed.

(** [quiet]: neither the resources nor the file system changed. *)
Definition quiet (w w' : world) : Prop := same_res w w' ∧ same_fs w w'.

#[export] Instance quiet_preorder : PreOrder quiet.
Proof.
  split; [intros x; split; reflexivity|].
  intros x y z [] []. split; etrans; eassumption.
Qed.

#[export] Instance quiet_both {A} (m : M world A) :
  Preserves same_res m → Preserves same_fs m → Preserves quiet m.
Proof. intros Hr Hf w. split; [apply Hr|apply Hf]. Qed.

Lemma quiet_fresh w w' : quiet w w' → Fresh w → Fresh w'.
Proof. intros [? _]. by apply Fresh_same_res. Qed.

(** [wp_quiet] steps over an operation that changes nothing, keeping [quiet]. *)
Ltac wp_quiet H :=
  apply wp_bind; eapply (wp_frame quiet); [apply _|apply _|intros ? ? H].

Section memory.
Context `{Env}.

Lemma wp_malloc_or_abort n Q (E : halt → world → Prop) w :
  Fresh w → (unreliable → ∀ w', E Aborted w') →
  (∀ l w', owns_block l w w' → same_fs w w' →
     w_heap w' !! l = Some (buf_uninit (wrap_size_t (8 * n))) → Q l w') →
  wp (malloc_or_abort n) Q E w.
Proof.
  intros HF HE HQ. unfold malloc_or_abort. apply wp_bind.
  apply wp_malloc; [done| |]; [intros Hu w' _ _; by apply HE|].
  intros l w' ???. by apply wp_ret, HQ.
Qed.

Lemma length_buf_uninit n : length (buf_uninit n) = Z.to_nat n.
Proof. apply length_replicate. Qed.

Lemma wp_str_copy src Q (E : halt → world → Prop) w :
  Fresh w → no_nul src → strlen src < 2 ^ 59 → (unreliable → ∀ w', E Aborted w') →
  (∀ l w' b, owns_block l w w' → same_fs w w' →
     w_heap w' !! l = Some b → buf_cstr b = Some src → Q l w') →
  wp (str_copy_to_new src) Q E w.
Proof.
  intros HF Hn Hlen HE HQ. unfold str_copy_to_new. apply wp_bind.
  pose proof (strlen_nonneg src) as Hpos.
  apply wp_malloc_or_abort; [done..|]. intros l w' Hown Hfs Hb.
  rewrite block_size in Hb by lia.
  apply wp_bind, wp_block with (1 := Hb). apply wp_bind.
  unfold strcpy. rewrite buf_write_fits.
  2:{ rewrite length_buf_uninit, length_app; unfold strlen in *; simpl. lia. }
  apply wp_ret, wp_bind. eapply wp_set_block; [done|]. apply wp_ret.
  eapply HQ; [by apply owns_block_set|done|apply lookup_insert_eq|by apply buf_cstr_app].
Qed.

Lemma wp_deref_cstr l b s Q (E : halt → world → Prop) w :
  w_heap w !! l = Some b → buf_cstr b = Some s → Q s w →
  wp (deref_cstr (Some l)) Q E w.
Proof.
  intros Hb Hs HQ. simpl. apply wp_bind. eapply wp_block; [done|].
  rewrite Hs. by apply wp_ret.
Qed.

#[export] Instance quiet_snprintf dst n e oe t :
  Preserves quiet (checked_snprintf dst n e oe t).
Proof. unfold checked_snprintf. preserves_go. Qed.

(** The two outcomes of the formatting idiom. *)
Lemma wp_checked_snprintf dst n e oe t Q (E : halt → world → Prop) w :
  no_nul e → 0 < n ≤ INT_MAX → n ≤ Z.of_nat (length dst) →
  (∀ b w', quiet w w' → length b = length dst → strlen e < n → buf_cstr b = Some e →
           Q (0, b) w') →
  (∀ b w', quiet w w' → length b = length dst → n ≤ strlen e → Q (-1, b) w') →
  wp (checked_snprintf dst n e oe t) Q E w.
Proof.
  intros He [Hn Hmax] Hd HQ0 HQ1. unfold checked_snprintf.
  destruct (snprintf_defined dst n e) as [[k b] Hb]; [lia..|].
  rewrite Hb. cbn [of_option fst snd]. apply wp_bind, wp_ret. cbn [fst snd].
  pose proof (snprintf_length _ _ _ _ _ Hb) as Hlen.
  assert (k = strlen e ∨ (k = -1 ∧ INT_MAX < strlen e)) as Hk.
  { revert Hb. unfold snprintf. destruct (Z.ltb_spec INT_MAX (strlen e)); [naive_solver|].
    case_match; [naive_solver|]. intros (?&_&?)%bind_Some. naive_solver. }
  pose proof (strlen_nonneg e) as Hp.
  assert (wrap_size_t (strlen e) < n → strlen e < n ∨ INT_MAX < strlen e) as Hw.
  { unfold wrap_size_t, INT_MAX in *. intros.
    destruct (Z.lt_ge_cases (strlen e) (2 ^ 64)); [rewrite Z.mod_small in * by lia|]; lia. }
  destruct (Z.ltb_spec k 0).
  - wp_quiet Hq. apply wp_ret, HQ1; [done..|unfold INT_MAX in *; lia].
  - destruct Hk as [->|[-> _]]; [|lia].
    assert (strlen e ≤ INT_MAX) as Hle.
    { revert Hb. unfold snprintf. destruct (Z.ltb_spec INT_MAX (strlen e)); [|done].
      intros. simplify_eq. lia. }
    assert (wrap_size_t (strlen e) = strlen e) as ->.
    { apply Z.mod_small. unfold INT_MAX in *. lia. }
    destruct (Z.leb_spec n (strlen e)).
    + wp_quiet Hq. by apply wp_ret, HQ1.
    + apply wp_ret, HQ0; [reflexivity|done..|].
      by eapply snprintf_complete in Hb as [_ ?].
Qed.
End memory.

(** ** The choice of the target partition *)

Section target.
Context `{Env}.

Lemma no_nul_app s t : no_nul s → no_nul t → no_nul (s ++ t).
Proof. unfold no_nul. rewrite elem_of_app. tauto. Qed.

Lemma no_nul_target m b1 b2 t :
  no_nul m → no_nul b1 → no_nul b2 → target_path m b1 b2 = Some t → no_nul t.
Proof.
  unfold target_path, strtok. intros Hm H1 H2 (tok & Htok & Ht)%bind_Some.
  assert (no_nul tok) as Hn.
  { unfold no_nul in *. intros Hin. apply Hm.
    destruct (drop_while "p"%char m) as [|c l] eqn:Hd; [done|]. injection Htok as <-.
    apply (elem_of_drop_while "p"%char). rewrite Hd. by eapply elem_of_take_until. }
  repeat case_bool_decide; simplify_eq; repeat apply no_nul_app; try done;
    by apply (bool_decide_unpack _).
Qed.

Lemma wp_find_target dst m b1 b2 n Q (E : halt → world → Prop) w :
  Fresh w → no_nul m → no_nul b1 → no_nul b2 → strlen m < 2 ^ 59 →
  0 < n ≤ INT_MAX → n ≤ Z.of_nat (length dst) → (unreliable → ∀ w', E Aborted w') →
  (∀ b t w', quiet w w' → target_path m b1 b2 = Some t → strlen t < n →
             buf_cstr b = Some t → Q (0, b) w') →
  (∀ b w', quiet w w' → (∀ t, target_path m b1 b2 = Some t → n ≤ strlen t) →
           (target_path m b1 b2 = None → b = dst) → Q (-1, b) w') →
  wp (find_target_partition dst m b1 b2 n) Q E w.
Proof.
  intros HF Hm Hb1 Hb2 Hlen Hn Hd HE HQ0 HQ1. unfold find_target_partition.
  apply wp_bind, wp_str_copy; [done..|]. intros l w1 blk Hown Hfs Hblk Hcstr.
  apply wp_bind. eapply wp_deref_cstr; [done..|]. apply wp_bind.
  assert (Hfin : ∀ r w2, quiet w1 w2 → (∀ w', quiet w w' → Q r w') →
            wp (free (Some l);; mret r) Q E w2).
  { intros r w2 [Hr Hf] HQ. apply wp_bind.
    eapply wp_free_owned; [by eapply owns_block_res|]. intros w3 Hr3 Hf3.
    apply wp_ret, HQ. split; [done|]. unfold same_fs in *. congruence. }
  assert (Hfmt : ∀ tok bank t, target_path m b1 b2 = Some (tok ++ "p" ++ bank) →
    wp (checked_snprintf dst n (tok ++ "p" ++ bank) output_error t)
       (λ r, wp (free (Some l);; mret r) Q E) E w1).
  { intros tok bank t Ht. apply wp_checked_snprintf; [|done..| |].
    - by eapply no_nul_target in Ht.
    - intros b w2 Hq _ Hlt Hc. apply Hfin; [done|]. intros. by eapply HQ0.
    - intros b w2 Hq _ Hge. apply Hfin; [done|]. intros. apply HQ1; [done| |];
        intros; simplify_eq; congruence. }
  revert HQ0 HQ1 Hfin Hfmt. unfold target_path.
  destruct (strtok m "p"%char) as [tok|] eqn:Htok; intros HQ0 HQ1 Hfin Hfmt; simpl in *.
  - rewrite !str_endswith_eqb. repeat case_bool_decide; [by apply Hfmt..|].
    wp_quiet Hq. apply wp_ret, Hfin; [done|]. intros. by apply HQ1.
  - wp_quiet Hq. apply wp_ret, Hfin; [done|]. intros. by apply HQ1.
Qed.
End target.

Lemma strtok_partition dev b :
  "p"%char ∉ dev → dev ≠ [] → strtok (partition dev b) "p"%char = Some dev.
Proof. apply strtok_prefix. Qed.

(** The abstract choice on device names of the usual shape. *)
Lemma target_path_bank1 dev b1 b2 :
  "p"%char ∉ dev → dev ≠ [] →
  target_path (partition dev b1) b1 b2 = Some (partition dev b2).
Proof.
  intros Hp Hd. unfold target_path.
  rewrite strtok_partition by done. simpl.
  rewrite bool_decide_true; [done|]. apply suffix_partition.
Qed.

Lemma target_path_bank2 dev b1 b2 :
  "p"%char ∉ dev → dev ≠ [] → ¬ b1 `suffix_of` partition dev b2 →
  target_path (partition dev b2) b1 b2 = Some (partition dev b1).
Proof.
  intros Hp Hd Hs. unfold target_path.
  rewrite strtok_partition by done. simpl.
  rewrite bool_decide_false by done.
  rewrite bool_decide_true; [done|]. apply suffix_partition.
Qed.

Lemma partition_inj dev b b' : partition dev b = partition dev b' → b = b'.
Proof. unfold partition. by intros ?%(inj _)%(inj _). Qed.

(** ** The mounted device *)

(** The first entry of the mount table for a mount point. *)
Fixpoint mounted_on (mp : cstring) (entries : list mntent) : option cstring :=
  match entries with
  | [] => None
  | e :: es => if bool_decide (mp = mnt_dir e) then Some (mnt_fsname e) else mounted_on mp es
  end.

Lemma buf_get_last (b : cbuf) n c :
  0 < n < 2 ^ 64 → b !! Z.to_nat (n - 1) = Some c → buf_get (n - 1) b = Some c.
Proof. intros. unfold buf_get, wrap_size_t. by rewrite Z.mod_small by lia. Qed.

Section mounted.
Context `{Env}.

(** What the loop leaves in the buffer, on every branch. *)
Definition mounted_result (entries : list mntent) (mp : cstring) (n : Z)
    (dst : cbuf) (r : Z * cbuf) : Prop :=
  match mounted_on mp entries with
  | None => r = (-1, dst)
  | Some d =>
      length r.2 = length dst ∧
      if strlen d <? n then r.1 = 0 ∧ buf_cstr r.2 = Some d
      else r.1 = -1
  end.

Lemma strncpy_defined dst s n :
  0 ≤ n → n ≤ Z.of_nat (length dst) →
  strncpy dst s n =
    Some ((Some <$> strncpy_bytes s n) ++ drop (Z.to_nat n) dst).
Proof.
  intros. unfold strncpy. rewrite buf_write_fits.
  - by rewrite strncpy_bytes_length.
  - rewrite strncpy_bytes_length by done. lia.
Qed.

(** The byte tested after [strncpy] is NUL exactly when the name fits. *)
Lemma strncpy_last s n dst :
  no_nul s → 0 < n → n ≤ Z.of_nat (length dst) →
  ∃ c, ((Some <$> strncpy_bytes s n) ++ drop (Z.to_nat n) dst) !! Z.to_nat (n - 1)
       = Some (Some c) ∧ (c = NUL ↔ strlen s < n).
Proof.
  intros Hs Hn Hd.
  assert (Z.to_nat (n - 1) < length (strncpy_bytes s n))%nat as Hlt.
  { rewrite strncpy_bytes_length by lia. lia. }
  destruct (lookup_lt_is_Some_2 _ _ Hlt) as [c Hc]. exists c.
  rewrite lookup_app_l by (rewrite length_fmap; done).
  rewrite list_lookup_fmap, Hc. split; [done|].
  unfold strncpy_bytes, strlen in *.
  destruct (Z.lt_ge_cases (Z.of_nat (length s)) n) as [Hl|Hl]; split; try done.
  - intros _. rewrite take_ge in Hc by lia.
    rewrite lookup_app_r in Hc by lia. by apply lookup_replicate_1 in Hc as [-> _].
  - intros ->. destruct Hs.
    rewrite lookup_app_l in Hc by (rewrite length_take; lia).
    apply lookup_take_Some in Hc as [Hc _]. by eapply list_elem_of_lookup_2.
  - lia.
Qed.

Lemma wp_scan_mtab entries dst mp n Q (E : halt → world → Prop) w :
  Forall (λ e, no_nul (mnt_fsname e)) entries →
  0 < n < 2 ^ 64 → n ≤ Z.of_nat (length dst) →
  (∀ r w', quiet w w' → mounted_result entries mp n dst r → Q r w') →
  wp (scan_mtab entries dst mp n) Q E w.
Proof.
  intros He Hn Hd. unfold mounted_result.
  induction He as [|e es He Hes IH]; cbn [scan_mtab mounted_on]; intros HQ.
  { apply wp_ret, HQ; [reflexivity|done]. }
  assert ((strcmp mp (mnt_dir e) =? 0) = bool_decide (mp = mnt_dir e)) as ->.
  { apply Bool.eq_iff_eq_true. by rewrite Z.eqb_eq, strcmp_eq, bool_decide_eq_true. }
  case_bool_decide; [|by apply IH].
  rewrite strncpy_defined by lia. cbn [of_option]. apply wp_bind, wp_ret, wp_bind.
  destruct (strncpy_last (mnt_fsname e) n dst) as (c & Hc & Hiff); [done|lia..|].
  rewrite (buf_get_last _ n (Some c)) by done. apply wp_ret, wp_bind, wp_ret.
  assert (length ((Some <$> strncpy_bytes (mnt_fsname e) n) ++ drop (Z.to_nat n) dst)
          = length dst) as Hlen.
  { rewrite length_app, length_fmap, strncpy_bytes_length, length_drop by lia. lia. }
  case_bool_decide as Hnul; simpl.
  - apply wp_ret, HQ; [reflexivity|]. split; [done|]. apply Hiff in Hnul.
    rewrite (proj2 (Z.ltb_lt _ _)) by done. split; [done|]. simpl.
    destruct (strncpy_bytes_fits (mnt_fsname e) n Hnul) as [pad ->].
    rewrite (assoc_L (++)), (fmap_app _ (mnt_fsname e ++ [NUL])), <-(assoc_L (++)).
    by apply buf_cstr_app.
  - wp_quiet Hq. apply wp_ret, HQ; [done|]. split; [done|].
    rewrite (proj2 (Z.ltb_ge _ _)); [done|]. rewrite Hiff in Hnul. lia.
Qed.

Lemma wp_get_mounted dst mp n Q (E : halt → world → Prop) w :
  Fresh w → Forall (λ e, no_nul (mnt_fsname e)) (w_mtab w) →
  0 < n < 2 ^ 64 → n ≤ Z.of_nat (length dst) →
  (unreliable → ∀ w', quiet w w' → Q (-1, dst) w') →
  (∀ r w', quiet w w' → mounted_result (w_mtab w) mp n dst r → Q r w') →
  wp (get_mounted_device dst mp n) Q E w.
Proof.
  intros HF He Hn Hd HQ1 HQ. unfold get_mounted_device. apply wp_bind.
  apply wp_syscall.
  { intros Hu e. wp_quiet Hq. apply wp_ret, HQ1; [done|].
    etrans; [|exact Hq]. by repeat split. }
  destruct (wp_new_fd "/etc/mtab" (tick w)) as (w1 & Heq & Hown & Hfs & Hmt); [done|].
  cbv beta. rewrite Heq. cbn [fst snd]. simpl in Hmt.
  apply wp_bind, wp_gets. rewrite Hmt. apply wp_bind, wp_scan_mtab; [done..|].
  intros r w2 [Hr Hf] Hres. apply wp_bind, wp_bind.
  eapply wp_close_owned.
  { eapply owns_fd_res, Hr. eapply res_owns_fd, Hown. by repeat split. }
  intros c w3 Hr3 Hf3 _. apply wp_ret, wp_ret, HQ; [|done].
  split; [done|]. unfold same_fs in *. simpl in *. congruence.
Qed.
End mounted.

(** ** Reading a file into a new string *)

(** The string a caller gets from a file: its first [st_size] bytes, up to the
    first NUL. *)
Definition inode_string (i : inode) : cstring :=
  take_until NUL (take (Z.to_nat (i_size i)) (i_data i)).

Definition file_string (f : fs) (p : cstring) : option cstring :=
  inode_string <$> fs_read f p.

(** File sizes for which [sizeof dst * (st_size + 1)] does not wrap around. *)
Definition sizes_ok `{Env} (f : fs) : Prop :=
  dir_st_size < 2 ^ 59 ∧ ∀ k i, f_inodes f !! k = Some i → i_size i < 2 ^ 59.

Definition stat_size `{Env} (f : fs) (p : cstring) : option Z :=
  match f_nodes f !! p with
  | None => None
  | Some Dir => Some dir_st_size
  | Some (Reg k) => Some (from_option i_size 0 (f_inodes f !! k))
  end.

(** A regular file whose size is its length. *)
Definition readable (f : fs) (p : cstring) : Prop :=
  ∃ i, fs_read f p = Some i ∧ 0 ≤ i_size i ≤ strlen (i_data i).

Lemma readable_stat `{Env} f p z :
  readable f p → stat_size f p = Some z → ∃ i, fs_read f p = Some i ∧
  z = i_size i ∧ 0 ≤ z ≤ strlen (i_data i).
Proof.
  intros (i & Hi & Hsz) Hz. exists i. split; [done|]. unfold fs_read in Hi.
  unfold stat_size in Hz. destruct (f_nodes f !! p) as [[|k]|]; simplify_eq.
  by rewrite Hi.
Qed.

Lemma stat_size_bound `{Env} f p z : sizes_ok f → stat_size f p = Some z → z < 2 ^ 59.
Proof.
  intros [Hd Hi] Hz. unfold stat_size in Hz.
  destruct (f_nodes f !! p) as [[|k]|]; simplify_eq; [done|].
  specialize (Hi k). destruct (f_inodes f !! k); simpl; [by apply Hi|lia].
Qed.

(** [w'] has one descriptor and one block more than [w]. *)
Definition owns_both (fd : nat) (p : cstring) (l : nat) (w w' : world) : Prop :=
  w_fds w !! fd = None ∧ w_heap w !! l = None ∧ (w_next w ≤ w_next w')%nat ∧
  (l < w_next w')%nat ∧ w_fds w' = <[fd:=p]> (w_fds w) ∧
  ∃ b, w_heap w' = <[l:=b]> (w_heap w).

Lemma owns_both_intro fd p l w w1 w2 :
  owns_block l w w1 → owns_fd fd p w1 w2 → owns_both fd p l w w2.
Proof.
  intros (?&Hf&?&?&b&Hb) (?&Hh&?&?&Hf'). split_and!; [congruence|done|lia|lia|congruence|].
  exists b. congruence.
Qed.

Lemma owns_both_set fd p l b w w' :
  owns_both fd p l w w' → owns_both fd p l w (set_heap (<[l:=b]> (w_heap w')) w').
Proof.
  intros (?&?&?&?&?&b0&Hb). split_and!; [done..|]. exists b. simpl.
  by rewrite Hb, insert_insert_eq.
Qed.

Lemma owns_both_quiet fd p l w w' w'' :
  owns_both fd p l w w' → same_res w' w'' → owns_both fd p l w w''.
Proof.
  intros (?&?&?&?&Hf&b&Hb) (Hf'&Hb'&?). split_and!; [done..|lia|lia|congruence|].
  exists b. congruence.
Qed.

Section reading.
Context `{Env}.

Lemma wp_stat p Q (E : halt → world → Prop) w :
  (∀ w', quiet w w' → unreliable ∨ f_nodes (w_fs w) !! p = None → Q None w') →
  (∀ z w', quiet w w' → stat_size (w_fs w) p = Some z → Q (Some z) w') →
  wp (stat p) Q E w.
Proof.
  intros HN HS. unfold stat_size in HS.
  apply wp_syscall; [intros Hu e; apply HN; [by repeat split|by left]|].
  simpl. destruct (f_nodes (w_fs w) !! p) as [[|k]|]; simpl;
    [apply HS|apply HS|apply HN; [|by right]]; by repeat split.
Qed.

Lemma wp_fopen_r p Q (E : halt → world → Prop) w :
  Fresh w →
  (∀ w', quiet w w' → unreliable ∨ f_nodes (w_fs w) !! p = None → Q None w') →
  (∀ fd w', owns_fd fd p w w' → same_fs w w' → w_heap w' = w_heap w → Q (Some fd) w') →
  wp (fopen_r p) Q E w.
Proof.
  intros HF HN HS.
  apply wp_syscall; [intros Hu e; apply HN; [by repeat split|by left]|].
  destruct (wp_new_fd p (tick w)) as (w1 & Heq & Hown & Hfs & _); [done|].
  simpl. destruct (f_nodes (w_fs w) !! p);
    [|apply HN; [by repeat split|by right]].
  unfold new_fd in Heq. simpl in Heq. injection Heq as <-.
  by apply HS.
Qed.

Lemma wp_fread fp n p Q (E : halt → world → Prop) w :
  w_fds w !! fp = Some p →
  (∀ got w', quiet w w' → (length got.1 ≤ Z.to_nat n)%nat →
     (got.2 = false → ∃ i, fs_read (w_fs w) p = Some i ∧
        got.1 = take (Z.to_nat n) (i_data i) ∧ n ≤ strlen (i_data i)) →
     (got.2 = true → unreliable ∨
        ∀ i, fs_read (w_fs w) p = Some i → strlen (i_data i) < n) → Q got w') →
  wp (fread fp n) Q E w.
Proof.
  intros Hp HQ. apply wp_syscall.
  { intros Hu e. apply HQ; simpl; [by repeat split|lia|done|by left]. }
  simpl. rewrite Hp. destruct (fs_read (w_fs w) p) as [i|] eqn:Hi; simpl.
  - apply HQ; simpl; [by repeat split|rewrite length_take; lia| |].
    + intros Hle%Z.ltb_ge. eauto.
    + intros Hlt%Z.ltb_lt. right. by intros ? [= <-].
  - apply HQ; simpl; [by repeat split|lia|done|by right].
Qed.

Lemma wp_read_clean_none l Q (E : halt → world → Prop) w w' :
  owns_block l w w' → same_fs w w' → (∀ w'', quiet w w'' → Q None w'') →
  wp (read_file_clean None l None) Q E w'.
Proof.
  intros Hown Hfs HQ. unfold read_file_clean. apply wp_bind, wp_ret, wp_bind.
  eapply wp_free_owned; [done|]. intros w2 Hr Hf. apply wp_ret, HQ.
  split; [done|]. unfold same_fs in *. congruence.
Qed.

(** The clean-up closes the stream, and frees the block unless it is
    returned. *)
Lemma wp_read_clean fd p l rv Q (E : halt → world → Prop) w w' b :
  owns_both fd p l w w' → same_fs w w' → w_heap w' !! l = Some b →
  (∀ w'', quiet w w'' → unreliable ∨ rv = None → Q None w'') →
  (rv = Some l → ∀ w'', owns_block l w w'' → same_fs w w'' →
     w_heap w'' !! l = Some b → Q (Some l) w'') →
  rv = None ∨ rv = Some l →
  wp (read_file_clean (Some fd) l rv) Q E w'.
Proof.
  intros (?&?&?&?&Hf&b'&Hb) Hfs Hblk HN HS Hrv. unfold read_file_clean.
  unfold same_fs in Hfs. apply wp_bind, wp_bind.
  assert (∀ w'', w_fds w'' = w_fds w → w_heap w'' = w_heap w' → w_fs w'' = w_fs w' →
            (w_next w' ≤ w_next w'')%nat → owns_block l w w'' ∧ same_fs w w'') as Hown.
  { intros w'' ????. split; [|unfold same_fs; congruence].
    split_and!; [done|done|lia|lia|]. exists b'. congruence. }
  unfold wp at 1, close. rewrite Hf, lookup_insert_eq, delete_insert_id by done.
  assert (∀ w'', owns_block l w w'' → same_fs w w'' → unreliable ∨ rv = None →
            wp (free (Some l);; mret None) Q E w'') as Hfree.
  { intros w'' Ho Hs Hu. apply wp_bind. eapply wp_free_owned; [done|].
    intros w3 Hr3 Hf3. apply wp_ret, HN; [|done].
    split; [done|]. unfold same_fs in *. congruence. }
  destruct (fault (w_tick w')) eqn:Ht; simpl.
  - apply wp_bind, (wp_frame quiet); [apply _..|]. intros _ w2 [Hr2 Hf2].
    destruct (Hown (set_errno z (set_fds (w_fds w) (tick w')))) as [Ho Hs]; [done..|].
    apply wp_ret, Hfree; [by eapply owns_block_res| |left; by eexists _, _].
    unfold same_fs in *. congruence.
  - apply wp_ret. destruct (Hown (set_fds (w_fds w) (tick w'))) as [Ho Hs]; [done..|].
    destruct Hrv as [Hrv|Hrv]; subst rv; [apply Hfree; auto|]. by apply wp_ret, HS.
Qed.

Lemma buf_cstr_terminated (d : list ascii) (b : cbuf) :
  buf_cstr ((Some <$> d) ++ Some NUL :: b) = Some (take_until NUL d).
Proof.
  induction d as [|c d IH]; [done|]. cbn -[NUL]. case_decide; [done|].
  transitivity (cons c <$> Some (take_until NUL d)); [|done]. f_equal. apply IH.
Qed.

Lemma insert_terminator (d : list ascii) n :
  (Z.of_nat (length d) < n) →
  <[length d:=Some NUL]> ((Some <$> d) ++ drop (length d) (buf_uninit n)) =
    (Some <$> d) ++ Some NUL :: drop (S (length d)) (buf_uninit n).
Proof.
  intros Hn. rewrite <-(length_fmap Some d) at 1. rewrite insert_app_r_alt by lia.
  rewrite Nat.sub_diag. f_equal.
  destruct (drop (length d) (buf_uninit n)) as [|c r] eqn:Hd.
  - apply (f_equal length) in Hd. rewrite length_drop, length_buf_uninit in Hd.
    simpl in Hd. lia.
  - replace (S (length d)) with (length d + 1)%nat by lia.
    by rewrite <-drop_drop, Hd.
Qed.

Lemma wp_read_stream path fd l z Q (E : halt → world → Prop) w w3 :
  owns_both fd path l w w3 → same_fs w w3 → stat_size (w_fs w) path = Some z →
  0 ≤ z → w_heap w3 !! l = Some (buf_uninit (8 * (z + 1))) →
  (∀ w', quiet w w' → unreliable ∨ ¬ readable (w_fs w) path → Q None w') →
  (∀ l w' b s, owns_block l w w' → same_fs w w' → w_heap w' !! l = Some b →
     buf_cstr b = Some s → file_string (w_fs w) path = Some s → Q (Some l) w') →
  wp (read_stream path fd l z) Q E w3.
Proof.
  intros Hboth Hfs Hz Hz0 Hblk HN HS. unfold read_stream. apply wp_bind.
  eapply wp_fread; [destruct Hboth as (_&_&_&_&->&_); apply lookup_insert_eq|].
  intros got w4 Hq Hlen Hgot Hshort. apply wp_bind.
  assert (w_heap w4 !! l = Some (buf_uninit (8 * (z + 1)))) as Hblk4.
  { destruct Hq as [[_ [-> _]] _]. done. }
  eapply wp_block; [exact Hblk4|]. apply wp_bind.
  rewrite buf_write_fits by (rewrite length_buf_uninit; lia).
  apply wp_ret, wp_bind. eapply wp_set_block; [exact Hblk4|].
  set (w5 := set_heap _ _).
  assert (owns_both fd path l w w5) as Hboth5
    by (by apply owns_both_set, owns_both_quiet with (2 := proj1 Hq)).
  assert (same_fs w w5) as Hfs5 by (etrans; [done|apply Hq]).
  destruct got.2 eqn:Herr.
  { wp_quiet Hq6. eapply wp_read_clean; [..|by intros|by left].
    4:{ intros w7 Hq7 _. apply HN; [done|]. destruct Hshort as [|Hs]; [done|by left|].
        right. intros Hrd. destruct (readable_stat _ _ _ Hrd Hz) as (i & Hi & _ & ?).
        rewrite Hfs in Hs. specialize (Hs i Hi). lia. }
    - by eapply owns_both_quiet; [|apply Hq6].
    - by etrans; [|apply Hq6].
    - destruct Hq6 as [[_ [-> _]] _]. apply lookup_insert_eq. }
  destruct Hgot as (i & Hi & Hd & Hle); [done|]. rewrite Hfs in Hi.
  assert (z = i_size i) as ->.
  { unfold stat_size in Hz. unfold fs_read in Hi.
    destruct (f_nodes (w_fs w) !! path) as [[|k]|]; simplify_eq. by rewrite Hi. }
  assert (length got.1 = Z.to_nat (i_size i)) as Hlen'.
  { rewrite Hd, length_take. unfold strlen in Hle. lia. }
  apply wp_bind, wp_bind. eapply wp_block; [apply lookup_insert_eq|].
  rewrite length_app, length_fmap, length_drop, length_buf_uninit.
  rewrite (proj2 (Z.leb_le _ _)), (proj2 (Z.ltb_lt _ _)) by lia. cbn [andb].
  eapply wp_set_block; [apply lookup_insert_eq|].
  eapply wp_read_clean; [by apply owns_both_set|done|apply lookup_insert_eq| | |by right].
  { intros w6 Hq6 [|]; [|done]. apply HN; auto. }
  intros _ w6 Hown6 Hfs6 Hb6. eapply HS; [done..| |by unfold file_string; rewrite Hi].
  rewrite <-Hlen', insert_terminator, buf_cstr_terminated by lia.
  by rewrite Hd.
Qed.

Lemma wp_read_file path Q (E : halt → world → Prop) w :
  Fresh w → sizes_ok (w_fs w) → (unreliable → ∀ w', E Aborted w') →
  (∀ w', quiet w w' → unreliable ∨ ¬ readable (w_fs w) path → Q None w') →
  (∀ l w' b s, owns_block l w w' → same_fs w w' → w_heap w' !! l = Some b →
     buf_cstr b = Some s → file_string (w_fs w) path = Some s → Q (Some l) w') →
  wp (read_file_to_new_str path) Q E w.
Proof.
  intros HF Hok HE HN HS. unfold read_file_to_new_str. apply wp_bind, wp_stat.
  { intros w1 Hq Hu. wp_quiet Hq1. apply wp_ret, HN; [by etrans|].
    destruct Hu as [|Hno]; [by left|right]. unfold readable, fs_read. rewrite Hno.
    naive_solver. }
  intros z w1 Hq Hz. destruct (Z.ltb_spec z 0).
  { wp_quiet Hq1. apply wp_ret, HN; [by etrans|]. right. intros Hrd.
    destruct (readable_stat _ _ _ Hrd Hz) as (i & _ & _ & ?). lia. }
  pose proof (stat_size_bound _ _ _ Hok Hz) as Hz59.
  apply wp_bind, wp_malloc_or_abort; [by eapply quiet_fresh|done|].
  intros l w2 Hown Hfs Hblk. rewrite block_size in Hblk by lia.
  assert (owns_block l w w2) as Hown0 by (eapply res_owns_block; [apply Hq|done]).
  assert (same_fs w w2) as Hfs0 by (etrans; [apply Hq|done]).
  apply wp_bind, wp_fopen_r; [by eapply Fresh_owns_block| |].
  { intros w3 Hq3 Hu. wp_quiet Hq4. eapply wp_read_clean_none.
    3:{ intros w5 Hq5. apply HN; [done|]. destruct Hu as [|Hno]; [by left|].
        rewrite Hfs0 in Hno. unfold stat_size in Hz. by rewrite Hno in Hz. }
    - eapply owns_block_res; [|apply Hq4]. eapply owns_block_res; [done|apply Hq3].
    - etrans; [done|]. etrans; [apply Hq3|apply Hq4]. }
  intros fd w3 Hfd Hfs3 Hh3. apply (wp_read_stream _ _ _ _ _ _ w); try done.
  - eapply owns_both_intro; [exact Hown0|exact Hfd].
  - etrans; [exact Hfs0|exact Hfs3].
  - by rewrite Hh3.
Qed.
End reading.

(** ** File system changes *)

Lemma frame_refl P f : frame P f f.
Proof. by intros q _. Qed.

Lemma frame_trans (P : cstring → Prop) f1 f2 f3 :
  frame P f1 f2 → frame P f2 f3 → frame P f1 f3.
Proof. intros H1 H2 q Hq. destruct (H1 q Hq), (H2 q Hq). split; congruence. Qed.

Lemma frame_mono (P P' : cstring → Prop) f f' :
  (∀ q, P q → P' q) → frame P f f' → frame P' f f'.
Proof. intros Hs H q Hq. apply H. auto. Qed.

Lemma fs_mkdir_frame f p f' :
  fs_mkdir f p = inl f' → frame (λ q, q = p) f f' ∧ (fs_wf f → fs_wf f').
Proof.
  unfold fs_mkdir. repeat case_match; intros; simplify_eq. split.
  - intros q Hq. unfold fs_read. simpl. by rewrite lookup_insert_ne.
  - intros Hwf q i. simpl. rewrite lookup_insert. case_decide; [done|]. apply Hwf.
Qed.

Lemma fs_creat_frame f p f' :
  fs_wf f → fs_creat f p = inl f' →
  frame (λ q, q = p) f f' ∧ fs_wf f' ∧ ∃ i, f_nodes f' !! p = Some (Reg i).
Proof.
  intros Hwf. unfold fs_creat. destruct (f_nodes f !! p) as [[|k]|] eqn:Hp; [done| |].
  - intros [= <-]. split_and!; [apply frame_refl|done|eauto].
  - case_match; [|done]. intros [= <-]. simpl. split_and!.
    + intros q Hq. unfold fs_read. simpl. rewrite lookup_insert_ne by done. split; [done|].
      destruct (f_nodes f !! q) as [[|k]|] eqn:Hk; [done| |done].
      rewrite lookup_insert_ne; [done|]. apply Hwf in Hk. lia.
    + intros q i. simpl. rewrite lookup_insert. case_decide; intros Hq; simplify_eq; [lia|].
      apply Hwf in Hq. lia.
    + rewrite lookup_insert_eq. eauto.
Qed.

Lemma fs_remove_frame f p f' :
  fs_remove f p = inl f' →
  frame (λ q, q = p) f f' ∧ (fs_wf f → fs_wf f') ∧ f_nodes f' !! p = None.
Proof.
  unfold fs_remove. intros Hr.
  assert (f_nodes f' = delete p (f_nodes f) ∧ f_inodes f' = f_inodes f ∧
          f_next f' = f_next f) as (Hn & Hi & Hx) by (repeat case_match; by simplify_eq).
  split_and!.
  - intros q Hq. unfold fs_read. rewrite Hn, Hi. by rewrite lookup_delete_ne.
  - intros Hwf q i. rewrite Hn, Hx, lookup_delete. case_decide; [done|]. apply Hwf.
  - rewrite Hn. apply lookup_delete_eq.
Qed.

(** ** Hard links

    No system call of the handler gives an existing file a second name. *)

Definition same_links (w w' : world) : Prop :=
  fs_wf (w_fs w) →
  fs_wf (w_fs w') ∧ ∀ x q, alias (w_fs w') x q → alias (w_fs w) x q.

#[export] Instance same_links_preorder : PreOrder same_links.
Proof.
  split; [by intros w ?|]. intros w1 w2 w3 H1 H2 Hwf.
  destruct (H1 Hwf) as [Hwf2 Ha]. destruct (H2 Hwf2) as [Hwf3 Hb]. auto.
Qed.

Lemma same_fs_links w w' : same_fs w w' → same_links w w'.
Proof. intros Hf Hwf. by rewrite Hf. Qed.

Lemma fs_mkdir_links f p f' x q :
  fs_mkdir f p = inl f' → alias f' x q → alias f x q.
Proof.
  unfold fs_mkdir. repeat case_match; intros Hm; simplify_eq.
  intros [?|(i & Hx & Hq)]; [by left|]. simpl in *.
  rewrite lookup_insert in Hx, Hq. repeat case_decide; simplify_eq.
  right. eauto.
Qed.

Lemma fs_creat_links f p f' x q :
  fs_wf f → fs_creat f p = inl f' → alias f' x q → alias f x q.
Proof.
  intros Hwf. unfold fs_creat. destruct (f_nodes f !! p) as [[|k]|]; [done|by intros [= <-]|].
  case_match; [|done]. intros [= <-] [?|(i & Hx & Hq)]; [by left|]. simpl in *.
  destruct (decide (p = x)) as [<-|Hpx].
  - rewrite lookup_insert_eq in Hx. destruct (decide (p = q)) as [<-|Hpq]; [by left|].
    rewrite lookup_insert_ne in Hq by done. apply Hwf in Hq. simplify_eq. lia.
  - rewrite lookup_insert_ne in Hx by done. destruct (decide (p = q)) as [<-|Hpq].
    + rewrite lookup_insert_eq in Hq. apply Hwf in Hx. simplify_eq. lia.
    + rewrite lookup_insert_ne in Hq by done. right. eauto.
Qed.

Lemma fs_remove_links f p f' x q :
  fs_remove f p = inl f' → alias f' x q → alias f x q.
Proof.
  unfold fs_remove. intros Hr.
  assert (f_nodes f' = delete p (f_nodes f)) as Hn by (repeat case_match; by simplify_eq).
  intros [?|(i & Hx & Hq)]; [by left|]. rewrite Hn, lookup_delete in Hx, Hq.
  repeat case_decide; simplify_eq. right. eauto.
Qed.

Section links.
Context `{Env}.

Lemma links_quiet {A} (m : M world A) : Preserves same_fs m → Preserves same_links m.
Proof. apply preserves_mono, same_fs_links. Qed.

#[export] Instance links_mkdir p : Preserves same_links (mkdir p).
Proof.
  apply preserves_syscall; [by intros w e ?|]. intros w Hwf. simpl.
  destruct (fs_mkdir (w_fs w) p) as [f|e] eqn:Hm; [|done]. simpl. split.
  - by eapply fs_mkdir_frame.
  - intros x q. by apply fs_mkdir_links with (p := p).
Qed.
#[export] Instance links_remove p : Preserves same_links (remove p).
Proof.
  apply preserves_syscall; [by intros w e ?|]. intros w Hwf. simpl.
  destruct (fs_remove (w_fs w) p) as [f|e] eqn:Hm; [|done]. simpl. split.
  - by eapply fs_remove_frame.
  - intros x q. by apply fs_remove_links with (p := p).
Qed.
#[export] Instance links_open_creat p : Preserves same_links (open_creat p).
Proof.
  apply preserves_syscall; [by intros w e ?|]. intros w Hwf. simpl.
  destruct (fs_creat (w_fs w) p) as [f|e] eqn:Hm; [|done]. simpl. split.
  - by eapply fs_creat_frame.
  - intros x q. by apply fs_creat_links with (p := p).
Qed.
End links.
#[export] Hint Extern 8 (Preserves same_links _) => apply links_quiet : typeclass_instances.

(** ** The flag files *)

(** Errors the environment injects do not speak about the names in the file
    system: those the file system itself decides. *)
Class HonestEnv `{Env} : Prop :=
  honest : ∀ t e, fault t = Some e → e ≠ ENOENT ∧ e ≠ EEXIST.

Definition bootflag_path `{Config} : cstring := path_join BOOTFLAGS_DIR rootfs_filename.
Definition reboot_flag_path `{Config} : cstring := path_join TMP_DIR "do_not_reboot".
Definition bank_file `{Config} (n : cstring) : cstring :=
  path_join PART_INFO_DIR ("MBL_ROOT_FS_PART_NUMBER_BANK" ++ n).

(** Every path the handler builds is a C string that fits [PATH_MAX]. *)
Definition good_path (p : cstring) : bool :=
  bool_decide (NUL ∉ p) && (strlen p <? PATH_MAX).

Class ConfigOk `{Config} : Prop := config_ok :
  forallb good_path [bootflag_path; reboot_flag_path; bank_file "1"; bank_file "2"].

#[export] Instance default_config_ok : @ConfigOk default_config.
Proof. vm_compute. exact I. Qed.

Lemma good_path_spec p : good_path p → no_nul p ∧ strlen p < PATH_MAX.
Proof.
  unfold good_path. intros [Hn%bool_decide_unpack Hl]%andb_True.
  split; [done|]. apply Is_true_true in Hl. lia.
Qed.

Section flags.
Context `{Env} `{!HonestEnv} `{Config} `{!ConfigOk}.

Lemma wp_fs_call op Q (E : halt → world → Prop) w :
  (∀ w', same_res w w' → w_fs w' = w_fs w →
     (w_errno w' = ENOENT ∨ w_errno w' = EEXIST → op (w_fs w) = inr (w_errno w')) →
     unreliable ∨ op (w_fs w) = inr (w_errno w') → Q (-1) w') →
  (∀ f w', op (w_fs w) = inl f → same_res w w' → w_fs w' = f → Q 0 w') →
  wp (fs_call op) Q E w.
Proof.
  intros HF HS. unfold wp, fs_call, syscall.
  destruct (fault (w_tick w)) as [e|] eqn:He.
  - assert unreliable by by eexists _, _. apply honest in He as [??].
    apply HF; [by repeat split|done|by intros [|]|by left].
  - simpl. destruct (op (w_fs w)) as [f|e] eqn:Hop; simpl.
    + by eapply HS.
    + apply HF; [by repeat split|done|done|by right].
Qed.

(** The [PATH_MAX] buffers never truncate. *)
Lemma wp_path_buffer p oe t Q (E : halt → world → Prop) w :
  good_path p →
  (∀ b w', quiet w w' → buf_cstr b = Some p → Q (0, b) w') →
  wp (checked_snprintf (buf_uninit PATH_MAX) PATH_MAX p oe t) Q E w.
Proof.
  intros [Hn Hl]%good_path_spec HQ. apply wp_checked_snprintf; [done|done| | |].
  - rewrite length_buf_uninit. done.
  - intros. by apply HQ.
  - lia.
Qed.

Lemma good_paths :
  good_path bootflag_path ∧ good_path reboot_flag_path ∧
  good_path (bank_file "1") ∧ good_path (bank_file "2").
Proof.
  pose proof config_ok as Hc. simpl in Hc.
  repeat (apply andb_True in Hc as [? Hc]). done.
Qed.

(** Removing a file that may be absent already. *)
Lemma wp_remove_flag p args k Q (E : halt → world → Prop) w :
  (∀ w', same_res w w' → w_fs w' = w_fs w →
     unreliable ∨ f_nodes (w_fs w) !! p = Some Dir → Q (-1) w') →
  (∀ w', same_res w w' → frame (λ q, q = p) (w_fs w) (w_fs w') →
     (fs_wf (w_fs w) → fs_wf (w_fs w')) → f_nodes (w_fs w') !! p = None →
     wp k Q E w') →
  wp (m ← remove p;
      e ← gets w_errno;
      if (m =? -1) && negb (e =? ENOENT)
      then ERROR_errno args;; mret (-1) else k) Q E w.
Proof.
  intros HF HS. apply wp_bind, wp_fs_call.
  - intros w1 Hr Hf He Hu. apply wp_bind, wp_gets. cbn [Z.eqb andb].
    destruct (Z.eqb_spec (w_errno w1) ENOENT) as [Heq|Hne]; simpl.
    + rewrite Heq in He. specialize (He (or_introl eq_refl)).
      apply HS; [done| |by rewrite Hf|]; rewrite Hf; [apply frame_refl|].
      unfold fs_remove in He. by repeat case_match.
    + wp_quiet Hq. apply wp_ret, HF; [etrans; [done|apply Hq]| |].
      * destruct Hq as [_ ->]. done.
      * destruct Hu as [|Hu]; [by left|right]. unfold fs_remove in Hu.
        repeat case_match; congruence.
  - intros f w1 Hop Hr Hf. apply wp_bind, wp_gets. cbn [Z.eqb andb].
    apply fs_remove_frame in Hop as (?&?&?). rewrite <-Hf in *. by apply HS.
Qed.

Lemma wp_remove_bootflag Q (E : halt → world → Prop) w :
  (∀ w', same_res w w' → w_fs w' = w_fs w →
     unreliable ∨ f_nodes (w_fs w) !! bootflag_path = Some Dir → Q (-1) w') →
  (∀ w', same_res w w' → frame (λ q, q = bootflag_path) (w_fs w) (w_fs w') →
     (fs_wf (w_fs w) → fs_wf (w_fs w')) → f_nodes (w_fs w') !! bootflag_path = None →
     Q 0 w') →
  wp (remove_bootflag_file rootfs_filename) Q E w.
Proof.
  intros HF HS. unfold remove_bootflag_file, get_bootflag_file_path.
  apply wp_bind, wp_path_buffer; [apply good_paths|]. intros b w1 [Hr1 Hf1] Hb.
  cbn [fst snd Z.ltb Z.compare]. rewrite Hb. apply wp_bind, wp_ret.
  unfold same_fs in Hf1. rewrite <-Hf1 in HS, HF.
  apply wp_remove_flag.
  - intros w2 Hr2 Hf2 Hu. apply HF; [by etrans|done|done].
  - intros w2 Hr2 Hfr Hwf Hn. wp_quiet Hq. destruct Hq as [Hr3 Hf3].
    unfold same_fs in Hf3. apply wp_ret.
    apply HS; [etrans; [done|]; by etrans|by rewrite Hf3..].
Qed.

Lemma wp_remove_reboot_flag Q (E : halt → world → Prop) w :
  (∀ w', same_res w w' → w_fs w' = w_fs w →
     unreliable ∨ f_nodes (w_fs w) !! reboot_flag_path = Some Dir → Q (-1) w') →
  (∀ w', same_res w w' → frame (λ q, q = reboot_flag_path) (w_fs w) (w_fs w') →
     f_nodes (w_fs w') !! reboot_flag_path = None → Q 0 w') →
  wp remove_do_not_reboot_flag Q E w.
Proof.
  intros HF HS. unfold remove_do_not_reboot_flag.
  apply wp_bind, wp_path_buffer; [apply good_paths|]. intros b w1 [Hr1 Hf1] Hb.
  cbn [fst snd Z.ltb Z.compare]. rewrite Hb. apply wp_bind, wp_ret.
  unfold same_fs in Hf1. rewrite <-Hf1 in HS, HF. apply wp_remove_flag.
  - intros w2 Hr2 Hf2 Hu. apply HF; [by etrans|done|done].
  - intros w2 Hr2 Hfr _ Hn. apply wp_ret, HS; [by etrans|done..].
Qed.

(** The two names [write_bootflag_file] may create. *)
Definition bootflag_names (q : cstring) : Prop :=
  q = BOOTFLAGS_DIR ∨ q = bootflag_path.

Lemma wp_create_bootflag Q (E : halt → world → Prop) w :
  Fresh w → fs_wf (w_fs w) →
  (∀ w', quiet w w' → unreliable ∨ (∃ e, fs_creat (w_fs w) bootflag_path = inr e) →
     Q (-1) w') →
  (∀ w', same_res w w' → frame (λ q, q = bootflag_path) (w_fs w) (w_fs w') →
     fs_wf (w_fs w') → (∃ i, f_nodes (w_fs w') !! bootflag_path = Some (Reg i)) →
     Q 0 w') →
  wp (create_bootflag_file rootfs_filename) Q E w.
Proof.
  intros HF Hwf HN HS. unfold create_bootflag_file, get_bootflag_file_path.
  apply wp_bind, wp_path_buffer; [apply good_paths|]. intros b w1 Hq1 Hb.
  cbn [fst snd Z.eqb]. rewrite Hb. apply wp_bind, wp_ret, wp_bind.
  assert (w_fs w1 = w_fs w) as Hf1 by apply Hq1.
  assert (∀ w2, quiet w1 w2 →
    unreliable ∨ (∃ e, fs_creat (w_fs w) bootflag_path = inr e) →
    wp (ERROR_errno [LStr "Failed to open file"; LStr bootflag_path];; mret (-1)) Q E w2)
    as Hfail.
  { intros w2 Hq2 Hu. wp_quiet Hq3. apply wp_ret, HN; [|done]. etrans; [done|]. by etrans. }
  apply wp_syscall; [intros Hu e; apply Hfail; [by repeat split|by left]|].
  cbn [w_fs tick]. rewrite Hf1. fold bootflag_path.
  destruct (fs_creat (w_fs w) bootflag_path) as [f|e] eqn:Hc;
    [|cbn [fst snd]; apply Hfail; [by repeat split|right; eauto]].
  apply fs_creat_frame in Hc as (Hfr & Hwf' & Hi); [|done].
  destruct (wp_new_fd bootflag_path (set_fs f (tick w1))) as (w2 & Heq & Hown & Hf2 & _).
  { by eapply (Fresh_same_res w1), quiet_fresh. }
  rewrite Heq. cbn [fst snd]. simpl in Hf2. apply wp_bind.
  eapply wp_close_owned.
  { eapply (res_owns_fd _ _ w); [|exact Hown]. etrans; [apply Hq1|]. by repeat split. }
  intros c w3 Hr3 Hf3 _.
  assert (∀ w4, quiet w3 w4 → wp (sync;; mret 0) Q E w4) as Hok.
  { intros w4 [Hr4 Hf4]. apply wp_bind, wp_modify, wp_ret. unfold same_fs in Hf4.
    apply HS; cbn [w_fs tick]; rewrite ?Hf4, ?Hf3, ?Hf2; [|exact Hfr|exact Hwf'|exact Hi].
    etrans; [exact Hr3|]. etrans; [exact Hr4|]. by repeat split. }
  destruct (c =? -1); [wp_quiet Hq4; by apply Hok|]. apply wp_bind, wp_ret, Hok. done.
Qed.

(** The flag can be created: its directory exists or can be made, and no
    directory has the flag's name. *)
Definition flag_ready (f : fs) : Prop :=
  (f_nodes f !! BOOTFLAGS_DIR = Some Dir ∨
   f_nodes f !! BOOTFLAGS_DIR = None ∧ is_dir f (dirname BOOTFLAGS_DIR)) ∧
  dirname bootflag_path = BOOTFLAGS_DIR ∧ BOOTFLAGS_DIR ≠ bootflag_path ∧
  f_nodes f !! bootflag_path ≠ Some Dir.

Lemma creat_ready f e :
  f_nodes f !! BOOTFLAGS_DIR = Some Dir → dirname bootflag_path = BOOTFLAGS_DIR →
  f_nodes f !! bootflag_path ≠ Some Dir → fs_creat f bootflag_path ≠ inr e.
Proof.
  intros Hd Hdir Hn. unfold fs_creat. rewrite Hdir. unfold is_dir.
  rewrite (bool_decide_true (_ = Some Dir)) by done.
  destruct (f_nodes f !! bootflag_path) as [[|]|]; done.
Qed.

Lemma wp_write_bootflag Q (E : halt → world → Prop) w :
  Fresh w → fs_wf (w_fs w) →
  (∀ w', same_res w w' → frame bootflag_names (w_fs w) (w_fs w') →
     unreliable ∨ ¬ flag_ready (w_fs w) → Q (-1) w') →
  (∀ w', same_res w w' → frame bootflag_names (w_fs w) (w_fs w') →
     (∃ i, f_nodes (w_fs w') !! bootflag_path = Some (Reg i)) → Q 0 w') →
  wp (write_bootflag_file rootfs_filename) Q E w.
Proof.
  intros HF Hwf HN HS. unfold write_bootflag_file. apply wp_bind.
  assert (∀ w1, same_res w w1 → frame (λ q, q = BOOTFLAGS_DIR) (w_fs w) (w_fs w1) →
            fs_wf (w_fs w1) →
            unreliable ∨ (flag_ready (w_fs w) →
              f_nodes (w_fs w1) !! BOOTFLAGS_DIR = Some Dir) →
            wp (create_bootflag_file rootfs_filename) Q E w1) as Hcr.
  { intros w1 Hr1 Hfr1 Hwf1 Hd.
    assert (frame bootflag_names (w_fs w) (w_fs w1)) as Hfr1'.
    { eapply frame_mono, Hfr1. by left. }
    apply wp_create_bootflag; [by eapply Fresh_same_res|done| |].
    - intros w2 [Hr2 Hf2] Hu. unfold same_fs in Hf2.
      apply HN; [by etrans|by rewrite Hf2|].
      destruct Hu as [|[e He]]; [by left|]. destruct Hd as [|Hd]; [by left|right].
      intros Hfl. pose proof (Hd Hfl) as HD. destruct Hfl as (_&Hdn&Hne&Hfl).
      destruct (Hfr1 bootflag_path) as [Heq _]; [done|]. rewrite <-Heq in Hfl.
      by eapply creat_ready.
    - intros w2 Hr2 Hfr2 _ Hi. apply HS; [by etrans| |done].
      eapply frame_trans; [done|]. eapply frame_mono, Hfr2. by right. }
  apply wp_fs_call.
  - intros w1 Hr1 Hf1 _ Hu. apply wp_bind, wp_gets. cbn [Z.eqb andb].
    assert (unreliable ∨ (flag_ready (w_fs w) →
      w_errno w1 = EEXIST ∧ f_nodes (w_fs w) !! BOOTFLAGS_DIR = Some Dir)) as Hex.
    { destruct Hu as [|Hu]; [by left|right]. unfold fs_mkdir in Hu.
      intros [[Hd|[Hn Hd%Is_true_true]] _].
      - rewrite Hd in Hu. naive_solver.
      - by rewrite Hn, Hd in Hu. }
    destruct (Z.eqb_spec (w_errno w1) EEXIST); simpl.
    + apply Hcr; rewrite ?Hf1; [done|apply frame_refl|done|]. naive_solver.
    + wp_quiet Hq. destruct Hq as [Hr2 Hf2]. unfold same_fs in Hf2.
      apply wp_ret, HN; [by etrans| |naive_solver]. rewrite Hf2, Hf1. apply frame_refl.
  - intros f w1 Hop Hr1 Hf1. apply wp_bind, wp_gets. cbn [Z.eqb andb].
    apply Hcr; rewrite ?Hf1; [done|by eapply fs_mkdir_frame..|].
    right. intros _. unfold fs_mkdir in Hop. repeat case_match; simplify_eq/=.
    rewrite <-Hop. apply lookup_insert_eq.
Qed.
End flags.
