(* ===== verification/SwupdateHandler.v ===== *)
(** * swupdate-handlers: the handler as a whole

    The specification of [copy_image_and_sync] and of [rootfsv4_handler], and
    the properties of an update: the bank in use is never written, the boot
    flag and the reboot follow the result, nothing leaks, and an update on a
    sound system installs the image. *)

From stdpp Require Import base gmap strings list.
From Stdlib Require Import ZArith Ascii Lia.
From S2P Require Import Prelude.
From S2P Require Import CString.
From S2P Require Import Posix.
From S2P Require Import Swupdate.
From S2P Require Import SwupdateProps.

Open Scope Z_scope.
Open Scope list_scope.

(** ** The two banks *)

(** The device boots from one of two partitions whose numbers are not
    confused by a comparison of name endings. *)
Record banks_ok (dev b1 b2 : cstring) : Prop := {
  bo_dev : "p"%char ∉ dev;
  bo_nonempty : dev ≠ [];
  bo_12 : ¬ b1 `suffix_of` partition dev b2;
  bo_21 : ¬ b2 `suffix_of` partition dev b1
}.

(** [other_bank dev b1 b2 m t]: booted from [m], the update goes to [t]. *)
Inductive other_bank (dev b1 b2 : cstring) : cstring → cstring → Prop :=
| from_bank1 : other_bank dev b1 b2 (partition dev b1) (partition dev b2)
| from_bank2 : other_bank dev b1 b2 (partition dev b2) (partition dev b1).

Lemma other_bank_target dev b1 b2 m t :
  banks_ok dev b1 b2 → other_bank dev b1 b2 m t → target_path m b1 b2 = Some t.
Proof.
  intros [] []; [by apply target_path_bank1|by apply target_path_bank2].
Qed.

Lemma other_bank_sym dev b1 b2 m t :
  other_bank dev b1 b2 m t → other_bank dev b1 b2 t m.
Proof. intros []; constructor. Qed.

Lemma other_bank_ne dev b1 b2 m t :
  banks_ok dev b1 b2 → other_bank dev b1 b2 m t → m ≠ t.
Proof.
  intros Hb [] Heq%partition_inj; subst; destruct Hb as [_ _ H1 _]; apply H1, suffix_partition.
Qed.

Lemma bootflag_reboot_ne `{Config} : bootflag_path ≠ reboot_flag_path.
Proof.
  unfold bootflag_path, reboot_flag_path, path_join. intros Heq.
  apply (f_equal last) in Heq. rewrite !last_app in Heq. discriminate.
Qed.

(** ** The state before an update *)

Record ready `{Env} `{Config} (w : world) (m t b1 b2 : cstring) : Prop := {
  rd_fresh : Fresh w;
  rd_wf : fs_wf (w_fs w);
  rd_sizes : sizes_ok (w_fs w);
  rd_names : Forall (λ e, no_nul (mnt_fsname e)) (w_mtab w);
  rd_mounted : mounted_on "/" (w_mtab w) = Some m;
  rd_nul : no_nul m;
  rd_b1 : file_string (w_fs w) (bank_file "1") = Some b1;
  rd_b2 : file_string (w_fs w) (bank_file "2") = Some b2;
  rd_nul1 : no_nul b1;
  rd_nul2 : no_nul b2;
  rd_target : target_path m b1 b2 = Some t;
  rd_flags : ¬ bootflag_names t ∧ t ≠ reboot_flag_path
}.

(** What makes the installation succeed, besides reliable system calls. *)
Record installable `{Config} `{SwupdateLib} (f : fs) (t : cstring) : Prop := {
  in_len : strlen t < MAX_DEVICE_FILE_PATH;
  in_flag : flag_ready f;
  in_reboot : f_nodes f !! reboot_flag_path ≠ Some Dir;
  in_open : ∀ w1 w2, w_fs w1 = f → openfileoutput t w1 ≠ Done None w2;
  in_not_flag : ¬ alias f t bootflag_path ∧ ¬ alias f t BOOTFLAGS_DIR ∧
                ¬ alias f t (dirname BOOTFLAGS_DIR) ∧ ¬ alias f t reboot_flag_path
}.

Record sound `{Config} `{SwupdateLib} (w : world) (m t : cstring) : Prop := {
  so_len : strlen m < MAX_DEVICE_FILE_PATH;
  so_bank1 : readable (w_fs w) (bank_file "1");
  so_bank2 : readable (w_fs w) (bank_file "2");
  so_install : installable (w_fs w) t
}.

Section handler.
Context `{Env} `{!HonestEnv} `{Config} `{!ConfigOk} `{SwupdateLib} `{!SwupdateLaws}.

#[export] Instance fs_find_target dst m b1 b2 n :
  Preserves same_fs (find_target_partition dst m b1 b2 n).
Proof.
  unfold find_target_partition, str_copy_to_new, malloc_or_abort, checked_snprintf.
  preserves_go.
Qed.

#[export] Instance fs_part_info n :
  Preserves same_fs (read_part_info_file_to_new_str n).
Proof.
  unfold read_part_info_file_to_new_str, get_part_info_filepath, read_file_to_new_str,
    read_stream, read_file_clean, store_nul, malloc_or_abort, checked_snprintf.
  preserves_go.
Qed.

(** Writing [img], or any image, to an open descriptor of [t] succeeds. *)
Definition copies (img : img_type) (t : cstring) : Prop :=
  ∀ fd w r w', w_fds w !! fd = Some t → is_Some (fs_read (w_fs w) t) →
  copyimage fd img w = Done r w' → 0 ≤ r.

Definition copy_works (t : cstring) : Prop := ∀ img, copies img t.

(** [t] holds the image, or, when its copy can fail, whatever the copy left. *)
Definition holds (img : img_type) (t : cstring) (f : fs) : Prop :=
  ∃ d, i_data <$> fs_read f t = Some d ∧ (copies img t → d = img_data img).

Lemma holds_same img t f f' : fs_read f' t = fs_read f t → holds img t f → holds img t f'.
Proof. intros Heq (d & Hd & Hc). exists d. by rewrite Heq. Qed.

Lemma holds_image img t f : copy_works t → holds img t f → i_data <$> fs_read f t = Some (img_data img).
Proof. intros Hc (d & -> & Hd). by rewrite Hd. Qed.

Lemma only_path_trans p f1 f2 f3 :
  only_path p f1 f2 → only_path p f2 f3 → only_path p f1 f3.
Proof.
  intros [Hf12 Ha] [Hf23 Hb]. split; [|auto].
  eapply frame_trans; [done|]. by eapply frame_mono, Hf23.
Qed.

(** The target is the only thing written, and the descriptor is closed. *)
Lemma wp_copy_image img t Q (E : halt → world → Prop) w :
  Fresh w → fs_wf (w_fs w) →
  (∀ w', same_res w w' → only_path t (w_fs w) (w_fs w') → fs_wf (w_fs w') →
     unreliable ∨ (∃ w1 w2, w_fs w1 = w_fs w ∧ openfileoutput t w1 = Done None w2) → Q (-1) w') →
  (∀ w', same_res w w' → only_path t (w_fs w) (w_fs w') → fs_wf (w_fs w') →
     holds img t (w_fs w') → Q 0 w') →
  wp (copy_image_and_sync img t) Q E w.
Proof.
  intros HF Hwf HN HS. unfold copy_image_and_sync.
  destruct (open_law t w HF) as (r & w1 & Hopen & HF1 & Hfr1 & Hwf1 & Hr).
  apply wp_bind. eapply wp_done; [exact Hopen|]. destruct r as [fd|].
  2:{ wp_quiet Hq. destruct Hq as [Hr2 Hf2]. unfold same_fs in Hf2.
      apply wp_ret, HN; [by etrans|rewrite Hf2; auto..|right; eauto]. }
  destruct Hr as [Hr Hrd].
  destruct (copy_law fd img t w1) as (c & w2 & Hcopy & Hr2 & Hfr2 & Hwf2 & Hthere & Hdata);
    [by eapply owns_fd_live|].
  apply wp_bind. eapply wp_done; [exact Hcopy|].
  pose proof (only_path_trans _ _ _ _ Hfr1 Hfr2) as Hfr.
  assert (holds img t (w_fs w2)) as Hholds.
  { destruct (Hthere Hrd) as [x Hx]. exists (i_data x). split; [by rewrite Hx|]. intros Hc.
    rewrite Hx in Hdata. assert (0 ≤ c) as Hc0 by (eapply Hc; [by eapply owns_fd_live|done..]).
    specialize (Hdata Hc0). simpl in Hdata. congruence. }
  assert (Hclose : ∀ w3, quiet w2 w3 → wp (copy_close fd 0) Q E w3).
  { intros w3 [Hr3 Hf3]. unfold same_fs in Hf3. unfold copy_close. apply wp_bind.
    eapply wp_close_owned.
    { eapply owns_fd_res, Hr3. by eapply owns_fd_res. }
    intros k w4 Hr4 Hf4 [->|Hu].
    - apply wp_ret, HS; rewrite ?Hf4, ?Hf3; auto.
    - destruct (k =? -1).
      + wp_quiet Hq. destruct Hq as [Hr5 Hf5]. unfold same_fs in Hf5.
        apply wp_ret, HN; [by etrans|rewrite Hf5, Hf4, Hf3; auto..|by left].
      + apply wp_ret, HS; rewrite ?Hf4, ?Hf3; auto. }
  destruct (c <? 0); [wp_quiet Hq; by apply Hclose|].
  wp_quiet Hq3. destruct (a =? -1); [|by apply wp_bind, wp_ret, Hclose].
  wp_quiet Hq4. apply Hclose. by etrans.
Qed.

(** The names the flags may change. *)
Definition flag_names (q : cstring) : Prop := bootflag_names q ∨ q = reboot_flag_path.

Definition flag_matches (b2 t : cstring) (f : fs) : Prop :=
  if bool_decide (b2 `suffix_of` t)
  then ∃ i, f_nodes f !! bootflag_path = Some (Reg i)
  else f_nodes f !! bootflag_path = None.

Definition flags_ok (f : fs) : Prop :=
  flag_ready f ∧ f_nodes f !! reboot_flag_path ≠ Some Dir.

Lemma bool_decide_suffix b2 t :
  (str_endswith b2 t =? 0) = bool_decide (b2 `suffix_of` t).
Proof. apply str_endswith_eqb. Qed.

Lemma wp_switch_bank b2 t Q (E : halt → world → Prop) w :
  Fresh w → fs_wf (w_fs w) → BOOTFLAGS_DIR ≠ reboot_flag_path →
  (∀ w', same_res w w' → frame bootflag_names (w_fs w) (w_fs w') →
     unreliable ∨ ¬ flags_ok (w_fs w) → Q 1 w') →
  (∀ w', same_res w w' → frame flag_names (w_fs w) (w_fs w') →
     f_nodes (w_fs w') !! reboot_flag_path = None → flag_matches b2 t (w_fs w') →
     Q 0 w') →
  wp (switch_bank b2 t) Q E w.
Proof.
  intros HF Hwf Hne HN HS. unfold switch_bank. rewrite bool_decide_suffix.
  assert (Hfail : ∀ args w1, same_res w w1 → frame bootflag_names (w_fs w) (w_fs w1) →
    unreliable ∨ ¬ flags_ok (w_fs w) → wp (ERROR args;; mret 1) Q E w1).
  { intros args w1 Hr1 Hf1 Hu. wp_quiet Hq. destruct Hq as [Hr2 Hf2].
    unfold same_fs in Hf2. apply wp_ret, HN; [by etrans|by rewrite Hf2|done]. }
  assert (Hrest : ∀ w1, same_res w w1 → frame bootflag_names (w_fs w) (w_fs w1) →
    flag_matches b2 t (w_fs w1) →
    wp (d ← remove_do_not_reboot_flag;
        if d =? -1 then ERROR [LStr "Failed to remove 'do not reboot' flag."];; mret 1
        else mret 0) Q E w1).
  { intros w1 Hr1 Hf1 Hm. apply wp_bind, wp_remove_reboot_flag.
    - intros w2 Hr2 Hf2 Hu. apply Hfail; [by etrans|by rewrite Hf2|].
      destruct Hu as [|Hu]; [by left|right]. intros [_ Hd]. apply Hd.
      destruct (Hf1 reboot_flag_path) as [<- _]; [|done].
      intros [?|?]; [congruence|by apply bootflag_reboot_ne].
    - intros w2 Hr2 Hf2 Hn. apply wp_ret, HS; [by etrans| |done|].
      + eapply frame_trans; [eapply frame_mono, Hf1|eapply frame_mono, Hf2]; by constructor.
      + unfold flag_matches in *.
        destruct (Hf2 bootflag_path) as [-> _]; [apply bootflag_reboot_ne|done]. }
  apply wp_bind. unfold flag_matches in Hrest. case_bool_decide.
  - apply wp_bind, wp_write_bootflag; [done..| |].
    + intros w1 Hr1 Hf1 Hu. apply wp_bind, (wp_frame quiet); [apply _..|].
      intros _ w2 [Hr2 Hf2]. unfold same_fs in Hf2.
      apply wp_ret, wp_ret, HN; [by etrans|by rewrite Hf2|].
      destruct Hu as [|Hu]; [by left|right]. by intros [? _].
    + intros w1 Hr1 Hf1 Hi. apply wp_ret. by apply Hrest.
  - apply wp_bind, wp_remove_bootflag.
    + intros w1 Hr1 Hf1 Hu. apply wp_bind, (wp_frame quiet); [apply _..|].
      intros _ w2 [Hr2 Hf2]. unfold same_fs in Hf2.
      apply wp_ret, wp_ret, HN; [by etrans|rewrite Hf2, Hf1; apply frame_refl|].
      destruct Hu as [|Hu]; [by left|right]. by intros [(_&_&_&?) _].
    + intros w1 Hr1 Hf1 _ Hn. apply wp_ret. apply Hrest; [done| |done].
      eapply frame_mono, Hf1. intros q ->. by right.
Qed.

#[export] Instance links_switch_bank b2 t : Preserves same_links (switch_bank b2 t).
Proof.
  unfold switch_bank, write_bootflag_file, create_bootflag_file, remove_bootflag_file,
    remove_do_not_reboot_flag, get_bootflag_file_path, sync. preserves_go.
Qed.

(** No file got a second name. *)
Definition no_new_links (t : cstring) (f f' : fs) : Prop :=
  fs_wf f' ∧ (∀ q, alias f' t q → alias f t q) ∧
  (∀ x q, ¬ alias f t x → ¬ alias f t q → alias f' x q → alias f x q).

(** What holds of the target whatever the result: either it is the only thing
    that changed or it holds the whole image. The flag that selects it is
    written after the image. *)
Definition install_safe (img : img_type) (t : cstring) (f f' : fs) : Prop :=
  no_new_links t f f' ∧
  (only_path t f f' ∨
   (¬ flag_names t → holds img t f')).

Lemma only_path_links t f f' : only_path t f f' → fs_wf f' → no_new_links t f f'.
Proof.
  intros Hop Hwf. split_and!; [done|apply Hop|].
  intros x q Hx Hq [->|(i & Hi & Hj)]; [by left|]. right. exists i.
  by rewrite <-(proj1 (proj1 Hop x Hx)), <-(proj1 (proj1 Hop q Hq)).
Qed.

Lemma only_path_safe img t f f' : only_path t f f' → fs_wf f' → install_safe img t f f'.
Proof. intros. split; [by apply only_path_links|by left]. Qed.

Lemma install_safe_refl img t f : fs_wf f → install_safe img t f f.
Proof. intros. apply only_path_safe; [split; [apply frame_refl|done]|done]. Qed.

(** The flags are switched after the image was written. *)
Lemma switch_safe img t f w w' :
  only_path t f (w_fs w) → fs_wf (w_fs w) → same_links w w' →
  (¬ flag_names t → holds img t (w_fs w')) →
  install_safe img t f (w_fs w').
Proof.
  intros Hop Hwf Hl Hd. destruct (Hl Hwf) as [Hwf' Ha].
  destruct (only_path_links t _ _ Hop Hwf) as (_&Ht&Hx).
  split; [split_and!; auto|auto].
Qed.

(** What an installation may change, and when it fails. *)
Definition install_post (img : img_type) (b2 t : cstring) (f : fs) (r : Z) (f' : fs)
  : Prop :=
  (r = 1 ∧ frame (λ q, alias f t q ∨ bootflag_names q) f f' ∧
     (unreliable ∨ ¬ installable f t)) ∨
  (r = 0 ∧ frame (λ q, alias f t q ∨ flag_names q) f f' ∧
     f_nodes f' !! reboot_flag_path = None ∧ flag_matches b2 t f' ∧
     (¬ flag_names t → holds img t f')).

Lemma flag_ready_frame f f' t :
  frame (alias f t) f f' → ¬ alias f t bootflag_path → ¬ alias f t BOOTFLAGS_DIR →
  ¬ alias f t (dirname BOOTFLAGS_DIR) → flag_ready f → flag_ready f'.
Proof.
  intros Hf Hp Hd Hdd. unfold flag_ready, is_dir.
  by rewrite (proj1 (Hf _ Hp)), (proj1 (Hf _ Hd)), (proj1 (Hf _ Hdd)).
Qed.

Lemma wp_install_image img m b1 b2 t Q (E : halt → world → Prop) w :
  Fresh w → fs_wf (w_fs w) → BOOTFLAGS_DIR ≠ reboot_flag_path →
  no_nul m → no_nul b1 → no_nul b2 → strlen m < MAX_DEVICE_FILE_PATH →
  target_path m b1 b2 = Some t →
  (∀ h w', same_fs w w' → unreliable ∨ ¬ installable (w_fs w) t → E h w') →
  (∀ r w', same_res w w' → install_safe img t (w_fs w) (w_fs w') →
     install_post img b2 t (w_fs w) r (w_fs w') → Q r w') →
  wp (install_image img m b1 b2) Q E w.
Proof.
  intros HF Hwf Hne Hm Hb1 Hb2 Hlen Ht HE HQ. unfold install_image, install_post in *.
  unfold MAX_DEVICE_FILE_PATH in *.
  apply wp_bind, (wp_preserves same_fs); [apply _|].
  apply wp_find_target; try done; [lia|auto| |].
  2:{ intros b w1 Hq Hlong Hnone _. cbn [fst snd Z.eqb negb].
      specialize (Hlong _ Ht).
      assert (¬ installable (w_fs w) t) as Hni by (intros []; unfold MAX_DEVICE_FILE_PATH in *; lia).
      apply wp_bind. destruct (buf_cstr b); [|apply wp_stop, HE; [apply Hq|by right]].
      apply wp_ret. wp_quiet Hq2. apply wp_ret, HQ.
      - etrans; [apply Hq|apply Hq2].
      - destruct Hq as [_ Hq], Hq2 as [_ Hq2]. unfold same_fs in *. rewrite Hq2, Hq.
        by apply install_safe_refl.
      - left. split_and!; [done| |by right]. destruct Hq as [_ <-], Hq2 as [_ <-].
        apply frame_refl. }
  intros b t' w1 [Hr1 Hf1] Ht' Hlt Hb _. cbn [fst snd Z.eqb negb].
  rewrite Ht in Ht'. injection Ht' as <-. unfold same_fs in Hf1.
  apply wp_bind. rewrite Hb. apply wp_ret, wp_bind.
  apply wp_copy_image; [by eapply Fresh_same_res|by rewrite Hf1|..]; rewrite Hf1.
  - intros w2 Hr2 Hfr2 Hwf2 Hu. wp_quiet Hq3. destruct Hq3 as [Hr3 Hf3].
    unfold same_fs in Hf3.
    apply wp_ret, HQ; [etrans; [done|]; by etrans|by rewrite Hf3; apply only_path_safe|].
    left. rewrite Hf3. split_and!; [done| |].
    + eapply frame_mono, Hfr2. auto.
    + destruct Hu as [|(v1 & v2 & Hv & Ho)]; [by left|right]. intros []. by eapply in_open0.
  - intros w2 Hr2 Hfr2 Hwf2 Hdata. cbn [Z.eqb].
    assert (same_res w w2) as Hr by by etrans.
    pose proof (proj1 Hfr2) as Hfr.
    apply (wp_preserves same_links); [apply _|].
    apply wp_switch_bank; [by eapply Fresh_same_res|done|done| |].
    + intros w3 Hr3 Hfr3 Hu Hl. apply HQ; [by etrans| |].
      { eapply switch_safe; [done..|]. intros Hnt.
        by apply (holds_same _ _ (w_fs w2)), Hdata; apply Hfr3; intros ?; apply Hnt; left. }
      left. split_and!; [done| |].
      * eapply frame_trans; [eapply frame_mono, Hfr|eapply frame_mono, Hfr3]; auto.
      * destruct Hu as [|Hu]; [by left|right]. intros [_ Hfl Hrb _ (Ha&Hb'&Hc&Hd)].
        apply Hu. split; [by eapply flag_ready_frame|]. by rewrite (proj1 (Hfr _ Hd)).
    + intros w3 Hr3 Hfr3 Hn Hm3 Hl. apply HQ; [by etrans| |].
      { eapply switch_safe; [done..|]. intros Hnt. by apply (holds_same _ _ (w_fs w2)), Hdata; apply Hfr3. }
      right. split_and!; [done| |done..|].
      * eapply frame_trans; [eapply frame_mono, Hfr|eapply frame_mono, Hfr3]; auto.
      * intros Hnt. by apply (holds_same _ _ (w_fs w2)), Hdata; apply Hfr3.
Qed.

Lemma wp_free_both l1 l2 (r : Z) Q (E : halt → world → Prop) w w2 w3 :
  owns_block l1 w w2 → owns_block l2 w2 w3 →
  (∀ w', same_res w w' → w_fs w' = w_fs w3 → Q r w') →
  wp (free (Some l1);; free (Some l2);; mret r) Q E w3.
Proof.
  intros (Hn1&Hf1&Hle1&_&c1&Hc1) (Hn2&Hf2&Hle2&_&c2&Hc2) HQ.
  assert (l1 ≠ l2) as Hne by (intros ->; by rewrite Hc1, lookup_insert_eq in Hn2).
  apply wp_bind. unfold wp at 1, free.
  rewrite Hc2, lookup_insert_ne, Hc1, lookup_insert_eq by done.
  apply wp_bind. unfold wp at 1, free. cbn [w_heap set_heap].
  rewrite delete_insert_ne, lookup_insert_eq by done.
  apply wp_ret, HQ; [|done]. split_and!; simpl; [congruence| |lia].
  rewrite (delete_insert_id (w_heap w)) by done. apply delete_insert_id.
  by rewrite Hc1, lookup_insert_ne in Hn2 by done.
Qed.

Lemma wp_part_info n Q (E : halt → world → Prop) w :
  n = "1" ∨ n = "2" → Fresh w → sizes_ok (w_fs w) →
  (unreliable → ∀ w', E Aborted w') →
  (∀ w', quiet w w' → unreliable ∨ ¬ readable (w_fs w) (bank_file n) → Q None w') →
  (∀ l w' b s, owns_block l w w' → same_fs w w' → w_heap w' !! l = Some b →
     buf_cstr b = Some s → file_string (w_fs w) (bank_file n) = Some s → Q (Some l) w') →
  wp (read_part_info_file_to_new_str ("MBL_ROOT_FS_PART_NUMBER_BANK" ++ n)) Q E w.
Proof.
  intros Hn HF Hok HE HN HS. unfold read_part_info_file_to_new_str, get_part_info_filepath.
  fold (bank_file n).
  apply wp_bind, wp_path_buffer.
  { destruct good_paths as (_&_&?&?). by destruct Hn as [->| ->]. }
  intros b w1 Hq1 Hb. cbn [fst snd Z.eqb]. rewrite Hb. apply wp_bind, wp_ret.
  destruct Hq1 as [Hr1 Hf1] eqn:Hq1'. clear Hq1'. unfold same_fs in Hf1.
  apply wp_read_file; [by eapply Fresh_same_res|by rewrite Hf1|done|..]; rewrite Hf1.
  - intros w2 Hq2 Hu. apply HN; [by etrans|done].
  - intros l w2 b' s Hown Hf2 Hb2 Hs Hfs.
    eapply HS; [by eapply res_owns_block| |done..]. unfold same_fs in *. congruence.
Qed.
End handler.

(** ** The whole handler *)

Section whole.
Context `{Env} `{!HonestEnv} `{Config} `{!ConfigOk} `{SwupdateLib} `{!SwupdateLaws}.

Definition handler_post (img : img_type) (m b2 t : cstring) (w : world) (r : Z) (w' : world)
  : Prop :=
  (same_res w w' ∧ install_safe img t (w_fs w) (w_fs w')) ∧
  ((r = 1 ∧ frame (λ q, alias (w_fs w) t q ∨ bootflag_names q) (w_fs w) (w_fs w') ∧
      (unreliable ∨ ¬ sound w m t)) ∨
   (r = 0 ∧ install_post img b2 t (w_fs w) r (w_fs w'))).

Lemma wp_handler_banks img m t b1 b2 Q (E : halt → world → Prop) w w1 :
  ready w m t b1 b2 → BOOTFLAGS_DIR ≠ reboot_flag_path →
  strlen m < MAX_DEVICE_FILE_PATH → quiet w w1 →
  (∀ h w', same_fs w w' → unreliable ∨ ¬ sound w m t → E h w') →
  (∀ r w', handler_post img m b2 t w r w' → Q r w') →
  wp (b1_pnum ← read_part_info_file_to_new_str "MBL_ROOT_FS_PART_NUMBER_BANK1";
      match b1_pnum with
      | None =>
          ERROR [LStr "Failed to read file MBL_ROOT_FS_PART_NUMBER_BANK1"];; mret 1
      | Some _ =>
          b2_pnum ← read_part_info_file_to_new_str "MBL_ROOT_FS_PART_NUMBER_BANK2";
          match b2_pnum with
          | None =>
              ERROR [LStr "Failed to read file MBL_ROOT_FS_PART_NUMBER_BANK2"];;
              free b1_pnum;;
              mret 1
          | Some _ =>
              b1 ← deref_cstr b1_pnum;
              b2 ← deref_cstr b2_pnum;
              return_value ← install_image img m b1 b2;
              free b1_pnum;;
              free b2_pnum;;
              mret return_value
          end
      end) Q E w1.
Proof.
  intros Hrd Hne Hlen [Hr1 Hf1] HE HQ. destruct Hrd. unfold same_fs in Hf1.
  assert (Hfail : ∀ w', same_res w w' → w_fs w' = w_fs w →
            unreliable ∨ ¬ sound w m t → Q 1 w').
  { intros w' Hr Hf Hu. apply HQ.
    split; [split; [done|rewrite Hf; by apply install_safe_refl]|]. left. rewrite Hf.
    split_and!; [done|apply frame_refl|done]. }
  assert (HE' : ∀ h w' w2, w_fs w2 = w_fs w → same_fs w2 w' → unreliable → E h w').
  { intros h w' w2 Hw2 Hw' Hu. apply HE; [|by left]. unfold same_fs in *. congruence. }
  apply wp_bind, (wp_preserves same_fs); [apply _|].
  apply (wp_part_info "1"); [by left|by eapply Fresh_same_res|by rewrite Hf1|eauto| |].
  { intros w2 [Hr2 Hf2] Hu _. wp_quiet Hq3. destruct Hq3 as [Hr3 Hf3]. unfold same_fs in *.
    apply wp_ret, Hfail; [etrans; [done|]; by etrans|congruence|].
    rewrite Hf1 in Hu. destruct Hu as [|Hu]; [by left|right]. by intros []. }
  intros l1 w2 c1 s1 Hown1 Hf2 Hc1 Hs1 Hfs1 _. unfold same_fs in Hf2.
  assert (owns_block l1 w w2) as Ho1 by by eapply res_owns_block.
  rewrite Hf1 in Hfs1. rewrite Hfs1 in rd_b3. injection rd_b3 as ->.
  assert (w_fs w2 = w_fs w) as Hf21 by congruence.
  apply wp_bind, (wp_preserves same_fs); [apply _|].
  apply (wp_part_info "2");
    [by right|by eapply Fresh_owns_block|by rewrite Hf21|eauto| |].
  { intros w3 [Hr3 Hf3] Hu _. wp_quiet Hq4. destruct Hq4 as [Hr4 Hf4]. unfold same_fs in *.
    apply wp_bind. eapply wp_free_owned.
    { eapply owns_block_res, Hr4. by eapply owns_block_res. }
    intros w5 Hr5 Hf5. apply wp_ret, Hfail; [done|congruence|].
    rewrite Hf2, Hf1 in Hu. destruct Hu as [|Hu]; [by left|right]. by intros []. }
  intros l2 w3 c2 s2 Hown2 Hf3 Hc2 Hs2 Hfs2 _. unfold same_fs in Hf3.
  rewrite Hf2, Hf1 in Hfs2. rewrite Hfs2 in rd_b4. injection rd_b4 as ->.
  apply wp_bind. eapply wp_deref_cstr; [|exact Hs1|].
  { destruct Hown2 as (Hn&_&_&_&b&->). rewrite lookup_insert_ne; [done|congruence]. }
  apply wp_bind. eapply wp_deref_cstr; [exact Hc2|exact Hs2|].
  assert (w_fs w3 = w_fs w) as Hf by congruence.
  apply wp_bind. eapply wp_install_image; try done.
  - eapply Fresh_owns_block, Hown2. by eapply Fresh_owns_block.
  - by rewrite Hf.
  - intros h w' Hw' Hu. rewrite Hf in Hu. apply HE; [unfold same_fs in *; congruence|].
    destruct Hu as [|Hu]; [by left|right]. by intros [].
  - intros r w4 Hr4 Hsafe Hpost. rewrite Hf in Hpost, Hsafe. eapply wp_free_both; [exact Ho1| |].
    { by eapply owns_block_res. }
    intros w5 Hr5 Hf5. apply HQ. split; [split; [done|by rewrite Hf5]|]. rewrite Hf5.
    destruct Hpost as [(?&?&Hu)|Hp]; [left|right; split; [apply Hp|by right]].
    split_and!; [done..|]. destruct Hu as [|Hu]; [by left|right]. by intros [].
Qed.

Lemma wp_handler img m t b1 b2 Q (E : halt → world → Prop) w :
  ready w m t b1 b2 → BOOTFLAGS_DIR ≠ reboot_flag_path →
  (∀ h w', same_fs w w' → unreliable ∨ ¬ sound w m t → E h w') →
  (∀ r w', handler_post img m b2 t w r w' → Q r w') →
  wp (rootfsv4_handler img) Q E w.
Proof.
  intros Hrd Hne HE HQ. unfold rootfsv4_handler. apply wp_bind.
  destruct Hrd as [] eqn:Hrd'. clear Hrd'.
  apply wp_get_mounted; [done|done|done|by rewrite length_buf_uninit| |].
  { intros Hu w1 Hq. apply wp_bind, wp_stop, HE; [apply Hq|by left]. }
  intros [r b] w1 Hq Hres. unfold mounted_result in Hres. rewrite rd_mounted0 in Hres.
  destruct Hres as [_ Hres]. cbn [fst snd] in *.
  destruct (Z.ltb_spec (strlen m) MAX_DEVICE_FILE_PATH) as [Hlt|Hge].
  - destruct Hres as [-> Hb]. cbn [Z.eqb negb]. rewrite Hb. apply wp_bind, wp_ret.
    by eapply wp_handler_banks.
  - subst r. cbn [Z.eqb negb]. apply wp_bind.
    assert (unreliable ∨ ¬ sound w m t) as Hu.
    { right. intros []. lia. }
    destruct (buf_cstr b); [|apply wp_stop, HE; [apply Hq|done]].
    apply wp_ret. wp_quiet Hq2. apply wp_ret, HQ. destruct Hq as [Hr1 Hf1], Hq2 as [Hr2 Hf2].
    unfold same_fs in *.
    split; [split; [by etrans|rewrite Hf2, Hf1; by apply install_safe_refl]|]. left. rewrite Hf2, Hf1.
    split_and!; [done|apply frame_refl|done].
Qed.
End whole.
