(* ===== verification/SwupdateClaims.v ===== *)
(** * swupdate-handlers: the properties

    What an update guarantees, what makes it succeed, and two ways in which
    the code does something else than it means to. *)

From stdpp Require Import base gmap strings list.
From Stdlib Require Import ZArith Ascii Lia.
From S2P Require Import Prelude.
From S2P Require Import CString.
From S2P Require Import Posix.
From S2P Require Import Swupdate.
From S2P Require Import SwupdateProps.
From S2P Require Import SwupdateHandler.

Open Scope Z_scope.
Open Scope list_scope.

(** ** The reference library satisfies its laws *)

Section reference.
#[local] Existing Instance ref_swupdate.

Lemma alias_nodes f f' p q : f_nodes f' = f_nodes f → alias f' p q → alias f p q.
Proof. unfold alias. by intros ->. Qed.

Lemma fs_write_only p d f : only_path p f (fs_write f p d).
Proof.
  unfold fs_write. destruct (f_nodes f !! p) as [[|i]|] eqn:Hp;
    [split; [apply frame_refl|done]| |split; [apply frame_refl|done]].
  split; [|intros q; by apply alias_nodes].
  intros q Hq. split; [done|]. unfold fs_read; simpl.
  destruct (f_nodes f !! q) as [[|j]|] eqn:Hj; try done.
  apply lookup_insert_ne. intros <-. apply Hq. right. by exists i.
Qed.

Lemma fs_write_wf p d f : fs_wf f → fs_wf (fs_write f p d).
Proof. unfold fs_write. intros H. repeat case_match; exact H. Qed.

Lemma fs_write_read p d f :
  is_Some (fs_read f p) → i_data <$> fs_read (fs_write f p d) p = Some d.
Proof.
  unfold fs_write, fs_read. destruct (f_nodes f !! p) as [[|i]|] eqn:Hp;
    intros [x Hx]; try done.
  simpl. by rewrite Hp, lookup_insert_eq.
Qed.

#[export] Instance ref_swupdate_laws : SwupdateLaws.
Proof.
  split.
  - intros p w HF. cbn [openfileoutput ref_swupdate]. destruct (fs_read (w_fs w) p) eqn:Hr.
    + destruct (wp_new_fd p w HF) as (w' & Heq & Hown & Hfs & _). rewrite Heq.
      eexists _, _. split; [done|]. split; [by eapply Fresh_owns_fd|].
      rewrite Hfs. split; [split; [apply frame_refl|done]|]. split; [done|].
      split; [done|]. by rewrite Hr.
    + eexists _, _. split; [done|].
      by split_and!.
  - intros fd img p w Hfd. simpl. rewrite Hfd. destruct (fs_read (w_fs w) p) eqn:Hr.
    + assert (i_data <$> fs_read (fs_write (w_fs w) p (img : cstring)) p = Some (img : cstring)) as Hw
        by (apply fs_write_read; by rewrite Hr).
      eexists _, _. split; [done|]. split_and!; [done..| | | |done].
      * apply fs_write_only.
      * apply fs_write_wf.
      * intros _. simpl. by destruct (fs_read (fs_write _ _ _) p).
    + eexists _, _. split; [done|]. by split_and!.
Qed.

Lemma ref_copy_works t : copy_works t.
Proof.
  intros img fd w r w' Hfd [x Hx] Hc. simpl in Hc. rewrite Hfd, Hx in Hc.
  by injection Hc as <- _.
Qed.
End reference.

Section demo.
#[local] Existing Instance ref_swupdate.
#[local] Existing Instance no_faults.
#[local] Existing Instance default_config.

#[export] Instance no_faults_honest : HonestEnv.
Proof. intros t e. done. Qed.

Lemma no_faults_reliable : ¬ unreliable.
Proof. intros (t & e & H). done. Qed.

Definition small_inodes (f : fs) : bool :=
  forallb (λ ki, i_size ki.2 <? 2 ^ 59) (map_to_list (f_inodes f)).
Definition wf_nodes (f : fs) : bool :=
  forallb (λ kn, match kn.2 with Reg i => Nat.ltb i (f_next f) | Dir => true end)
    (map_to_list (f_nodes f)).

Lemma small_sizes f : small_inodes f = true → sizes_ok f.
Proof.
  intros H. split; [done|]. intros k i Hk. unfold small_inodes in H.
  rewrite forallb_forall in H. apply elem_of_map_to_list, list_elem_of_In, H in Hk.
  by apply Z.ltb_lt in Hk.
Qed.

Lemma wf_nodes_wf f : wf_nodes f = true → fs_wf f.
Proof.
  intros H p i Hp. unfold wf_nodes in H. rewrite forallb_forall in H.
  apply elem_of_map_to_list, list_elem_of_In, H in Hp. by apply Nat.ltb_lt in Hp.
Qed.

(** [ready] evaluates on a board. *)
Ltac board_ready :=
  split;
  [ by split | by apply wf_nodes_wf | by apply small_sizes
  | repeat constructor; apply (bool_decide_unpack _); vm_compute; exact I
  | reflexivity
  | apply (bool_decide_unpack _); vm_compute; exact I
  | vm_compute; reflexivity | vm_compute; reflexivity
  | apply (bool_decide_unpack _); vm_compute; exact I
  | apply (bool_decide_unpack _); vm_compute; exact I
  | vm_compute; reflexivity
  | unfold bootflag_names; split; [intros [?|?]|]; done ].

Lemma board_ready_35 :
  ready (board "3" "5" "3") "/dev/mmcblk0p3" "/dev/mmcblk0p5" "3" "5".
Proof. board_ready. Qed.

Lemma board_ready_confused :
  ready (board "3" "13" "13") "/dev/mmcblk0p13" "/dev/mmcblk0p13" "3" "13".
Proof. board_ready. Qed.

Lemma regular_alias f p q i j :
  f_nodes f !! p = Some (Reg i) → p ≠ q → f_nodes f !! q = j → j ≠ Some (Reg i) →
  ¬ alias f p q.
Proof. intros Hp Hne <- Hq [->|(k & Hk & Hk')]; congruence. Qed.

Ltac not_alias :=
  eapply regular_alias; [vm_compute; reflexivity|done|vm_compute; reflexivity|done].

Lemma ref_open_works t w1 w2 f :
  is_Some (fs_read f t) → w_fs w1 = f → openfileoutput t w1 ≠ Done None w2.
Proof. intros [x Hx] Hf. simpl. by rewrite Hf, Hx. Qed.

Ltac board_sound :=
  split;
  [ reflexivity
  | eexists; split; [vm_compute; reflexivity|done]
  | eexists; split; [vm_compute; reflexivity|done]
  | split;
    [ reflexivity
    | split_and!; [right; split; vm_compute; done|done..]
    | done
    | intros w1 w2; apply ref_open_works; vm_compute; eauto
    | split_and!; not_alias ] ].

Lemma board_sound_35 :
  sound (board "3" "5" "3") "/dev/mmcblk0p3" "/dev/mmcblk0p5".
Proof. board_sound. Qed.

Lemma board_sound_confused :
  sound (board "3" "13" "13") "/dev/mmcblk0p13" "/dev/mmcblk0p13".
Proof. board_sound. Qed.

Lemma board_banks : banks_ok "/dev/mmcblk0" "3" "5".
Proof. split; apply (bool_decide_unpack _); vm_compute; exact I. Qed.

Lemma board_not_alias :
  ¬ alias (w_fs (board "3" "5" "3")) "/dev/mmcblk0p5" "/dev/mmcblk0p3".
Proof. not_alias. Qed.
End demo.

(** ** The properties of an update *)

Section properties.
Context `{Env} `{!HonestEnv} `{Config} `{!ConfigOk} `{SwupdateLib} `{!SwupdateLaws}.

Lemma handler_run img m t b1 b2 w :
  ready w m t b1 b2 → BOOTFLAGS_DIR ≠ reboot_flag_path →
  wp (rootfsv4_handler img) (handler_post img m b2 t w)
     (λ _ w', same_fs w w' ∧ (unreliable ∨ ¬ sound w m t)) w.
Proof. intros. eapply wp_handler; eauto. Qed.

(** C2: on a board where neither bank's number ends the other partition's name,
    the update goes to the partition of the other bank; and when that is another
    file than the mounted one, the data of the partition the system runs from is
    the same afterwards, whatever the update does, whichever call fails, and when
    it stops the process too. ([confused_banks_overwrite] is what happens when
    the number of one bank ends the other's, such as 3 and 13.) *)
Theorem mounted_bank_untouched img dev m t b1 b2 w :
  banks_ok dev b1 b2 → other_bank dev b1 b2 m t → ¬ alias (w_fs w) t m →
  ready w m t b1 b2 → BOOTFLAGS_DIR ≠ reboot_flag_path → ¬ flag_names m →
  let w' := final (rootfsv4_handler img w) in
  target_path m b1 b2 = Some t ∧ t ≠ m ∧
  f_nodes (w_fs w') !! m = f_nodes (w_fs w) !! m ∧
  fs_read (w_fs w') m = fs_read (w_fs w) m.
Proof.
  intros Hb Ho Hal Hrd Hne Hnf w'. split; [by apply (other_bank_target dev)|].
  split; [by apply not_eq_sym, (other_bank_ne dev b1 b2)|].
  pose proof (handler_run img m t b1 b2 w Hrd Hne) as Hwp.
  unfold wp in Hwp. unfold w'. destruct (rootfsv4_handler img w) as [r w1|h w1]; simpl.
  2: { destruct Hwp as [Hs _]. unfold same_fs in Hs. by rewrite Hs. }
  destruct Hwp as [_ [(_&Hf&_)|(->&[(?&_)|(_&Hf&_)])]]; [|done|]; apply Hf.
  - intros [?|?]; [done|]. apply Hnf. by left.
  - intros [?|?]; done.
Qed.

(** C1: an update on a sound system where no call fails returns 0, leaves the
    image in the target partition, selects that bank for the next boot,
    allows the reboot, and leaves no descriptor or heap block behind. *)
Theorem update_installs img m t b1 b2 w :
  ready w m t b1 b2 → sound w m t → BOOTFLAGS_DIR ≠ reboot_flag_path →
  ¬ unreliable → copy_works t → ¬ flag_names t →
  ∃ w', rootfsv4_handler img w = Done 0 w' ∧ same_res w w' ∧
        i_data <$> fs_read (w_fs w') t = Some (img_data img) ∧
        flag_matches b2 t (w_fs w') ∧ f_nodes (w_fs w') !! reboot_flag_path = None.
Proof.
  intros Hrd Hs Hne Hu Hc Hnf. pose proof (handler_run img m t b1 b2 w Hrd Hne) as Hwp.
  unfold wp in Hwp. destruct (rootfsv4_handler img w) as [r w'|h w'];
    [|by destruct Hwp as [_ [?|[]]]].
  destruct Hwp as [[Hres _] [(_&_&[?|[]])|(->&[(?&_)|(_&_&Hn&Hm&Hd)])]]; [done..|].
  exists w'. split_and!; try done. by apply holds_image, Hd.
Qed.

(** C27: when the handler returns, the result is 0 or 1; 0 means that the boot
    flag selects the target and the reboot is allowed; 1 means that a call
    failed or the system was not sound. In both cases every descriptor and
    heap block it took was given back. *)
Theorem update_result img m t b1 b2 w r w' :
  ready w m t b1 b2 → BOOTFLAGS_DIR ≠ reboot_flag_path →
  rootfsv4_handler img w = Done r w' →
  same_res w w' ∧
  ((r = 0 ∧ flag_matches b2 t (w_fs w') ∧ f_nodes (w_fs w') !! reboot_flag_path = None) ∨
   (r = 1 ∧ (unreliable ∨ ¬ sound w m t))).
Proof.
  intros Hrd Hne Hrun. pose proof (handler_run img m t b1 b2 w Hrd Hne) as Hwp.
  unfold wp in Hwp. rewrite Hrun in Hwp.
  destruct Hwp as [[? _] [(?&_&?)|(->&[(?&_)|(_&_&?&?&_)])]]; naive_solver.
Qed.

(** Booted from either bank, the partition the code chooses is the other
    one, and booted from that one it chooses the first again. *)
Theorem banks_alternate dev b1 b2 m t dst w :
  banks_ok dev b1 b2 → other_bank dev b1 b2 m t → Fresh w → ¬ unreliable →
  no_nul m → no_nul t → no_nul b1 → no_nul b2 →
  strlen m < MAX_DEVICE_FILE_PATH → strlen t < MAX_DEVICE_FILE_PATH →
  length dst = Z.to_nat MAX_DEVICE_FILE_PATH →
  ∃ b w1 b' w2,
    find_target_partition dst m b1 b2 MAX_DEVICE_FILE_PATH w = Done (0, b) w1 ∧
    buf_cstr b = Some t ∧ t ≠ m ∧ quiet w w1 ∧
    find_target_partition dst t b1 b2 MAX_DEVICE_FILE_PATH w = Done (0, b') w2 ∧
    buf_cstr b' = Some m.
Proof.
  intros Hb Ho HF Hu Hm Ht Hn1 Hn2 Hlm Hlt Hd. unfold MAX_DEVICE_FILE_PATH in *.
  assert (Hone : ∀ x y, other_bank dev b1 b2 x y → no_nul x → strlen x < 512 →
            strlen y < 512 →
            ∃ b w1, find_target_partition dst x b1 b2 512 w = Done (0, b) w1 ∧
                    buf_cstr b = Some y ∧ quiet w w1).
  { intros x y Hxy Hx Hlx Hly. apply other_bank_target in Hxy as Htp; [|done].
    assert (wp (find_target_partition dst x b1 b2 512)
              (λ r w1, r.1 = 0 ∧ buf_cstr r.2 = Some y ∧ quiet w w1) (λ _ _, False) w)
      as Hwp.
    { apply wp_find_target; try done; [lia|lia| |].
      - intros b y' w1 Hq Hy _ Hc. simplify_eq. done.
      - intros b w1 _ Hlong _. specialize (Hlong y Htp). lia. }
    unfold wp in Hwp. destruct (find_target_partition _ _ _ _ _ _) as [[r b] w1|]; [|done].
    destruct Hwp as (Hr&?&?). simpl in Hr. subst. by exists b, w1. }
  destruct (Hone m t) as (b & w1 & ?&?&?); try done.
  destruct (Hone t m) as (b' & w2 & ?&?&?); try done; [by apply other_bank_sym|].
  exists b, w1, b', w2. split_and!; try done.
  apply not_eq_sym. by eapply other_bank_ne.
Qed.

(** [get_mounted_device] always returns, stays inside a buffer of at
    least [dst_size] bytes, and gives back the stream; the result is the
    device of the first entry mounted there, -1 when it does not fit with its
    terminator, and -1 with the buffer as it was when there is none. *)
Theorem get_mounted_device_bounds dst mp n w :
  Fresh w → Forall (λ e, no_nul (mnt_fsname e)) (w_mtab w) →
  0 < n < 2 ^ 64 → n ≤ Z.of_nat (length dst) →
  ∃ r w', get_mounted_device dst mp n w = Done r w' ∧ quiet w w' ∧
    (unreliable ∧ r = (-1, dst) ∨ mounted_result (w_mtab w) mp n dst r).
Proof.
  intros HF He Hn Hd.
  assert (wp (get_mounted_device dst mp n)
            (λ r w', quiet w w' ∧
               (unreliable ∧ r = (-1, dst) ∨ mounted_result (w_mtab w) mp n dst r))
            (λ _ _, False) w) as Hwp by (apply wp_get_mounted; naive_solver).
  unfold wp in Hwp. destruct (get_mounted_device _ _ _ _); naive_solver.
Qed.

(** [read_file_to_new_str] returns a new terminated block that holds the
    file's text, or NULL with nothing left behind when a call failed or the
    path is not a regular file that can be read whole; it stops only by
    [abort], when the memory allocation fails. *)
Theorem read_file_result path w :
  Fresh w → sizes_ok (w_fs w) →
  match read_file_to_new_str path w with
  | Done (Some l) w' =>
      owns_block l w w' ∧ same_fs w w' ∧
      ∃ b s, w_heap w' !! l = Some b ∧ buf_cstr b = Some s ∧
             file_string (w_fs w) path = Some s
  | Done None w' => quiet w w' ∧ (unreliable ∨ ¬ readable (w_fs w) path)
  | Halted h w' => h = Aborted ∧ unreliable
  end.
Proof.
  intros HF Hok.
  assert (wp (read_file_to_new_str path)
    (λ r w', match r with
             | Some l => owns_block l w w' ∧ same_fs w w' ∧
                 ∃ b s, w_heap w' !! l = Some b ∧ buf_cstr b = Some s ∧
                        file_string (w_fs w) path = Some s
             | None => quiet w w' ∧ (unreliable ∨ ¬ readable (w_fs w) path)
             end) (λ h _, h = Aborted ∧ unreliable) w) as Hwp
    by (apply wp_read_file; eauto 10).
  unfold wp in Hwp. by destruct (read_file_to_new_str path w) as [[]|].
Qed.

(** An archive that swupdate fails to copy is reported as installed: the
    -1 the code means to return is assigned after a [goto]. *)
Theorem copy_failure_is_lost img device w fd w1 c w2 p :
  openfileoutput device w = Done (Some fd) w1 →
  copyimage fd img w1 = Done c w2 → c < 0 →
  w_fds w2 !! fd = Some p → fault (w_tick w2) = None →
  ∃ w', copy_image_and_sync img device w = Done 0 w'.
Proof.
  intros Hopen Hcopy Hc Hfd Hok. unfold copy_image_and_sync.
  eexists. rewrite (bind_done _ _ _ _ _ Hopen). cbn iota.
  rewrite (bind_done _ _ _ _ _ Hcopy), (proj2 (Z.ltb_lt c 0)) by done.
  unfold copy_close, close, mbind, M_bind; simpl. by rewrite Hfd, Hok.
Qed.

(** When the number of bank 1 ends the number of bank 2, a system booted
    from bank 2 is taken to run from bank 1, and the update overwrites the
    partition it runs from. *)
Theorem confused_banks_overwrite img dev b1 b2 w :
  "p"%char ∉ dev → dev ≠ [] → b1 `suffix_of` b2 →
  ready w (partition dev b2) (partition dev b2) b1 b2 →
  sound w (partition dev b2) (partition dev b2) →
  BOOTFLAGS_DIR ≠ reboot_flag_path → ¬ unreliable →
  copy_works (partition dev b2) → ¬ flag_names (partition dev b2) →
  target_path (partition dev b2) b1 b2 = Some (partition dev b2) ∧
  ∃ w', rootfsv4_handler img w = Done 0 w' ∧
        i_data <$> fs_read (w_fs w') (partition dev b2) = Some (img_data img).
Proof.
  intros Hp Hd Hsuf Hrd Hs Hne Hu Hc Hnf. split.
  { unfold target_path. rewrite strtok_partition by done. simpl.
    rewrite bool_decide_true; [done|]. etrans; [exact Hsuf|apply suffix_partition]. }
  pose proof (handler_run img _ _ b1 b2 w Hrd Hne) as Hwp.
  unfold wp in Hwp. destruct (rootfsv4_handler img w) as [r w'|h w'];
    [|by destruct Hwp as [_ [?|[]]]].
  destruct Hwp as [[Hres _] [(_&_&[?|[]])|(->&[(?&_)|(_&_&Hn&Hm&Hd')])]]; [done..|].
  exists w'. split; [done|]. by apply holds_image, Hd'.
Qed.

(** When the mount table cannot be opened, the message the handler prints
    reads a buffer nothing was written to. *)
Theorem mtab_failure_prints_garbage img w e :
  fault (w_tick w) = Some e →
  ∃ w', rootfsv4_handler img w =
        Halted (Undefined "indeterminate buffer printed") w'.
Proof.
  intros Hf. eexists. unfold rootfsv4_handler. erewrite bind_done.
  2:{ unfold get_mounted_device, setmntent, syscall, mbind, M_bind. rewrite Hf.
      reflexivity. }
  reflexivity.
Qed.
End properties.

(** ** The properties at a board *)

Section witnesses.
#[local] Existing Instance ref_swupdate.
#[local] Existing Instance no_faults.
#[local] Existing Instance default_config.

Definition demo_img : @img_type ref_swupdate := ("new" : cstring).
Definition update (w : world) : outcome world Z := rootfsv4_handler demo_img w.

Lemma default_dirs : BOOTFLAGS_DIR ≠ reboot_flag_path.
Proof. done. Qed.

Lemma not_flag_name p :
  p ≠ bootflag_path → p ≠ BOOTFLAGS_DIR → p ≠ reboot_flag_path → ¬ flag_names p.
Proof. unfold flag_names, bootflag_names. tauto. Qed.

Lemma bank2_not_flag : ¬ flag_names "/dev/mmcblk0p5".
Proof. by apply not_flag_name. Qed.

Definition board35 : world := board "3" "5" "3".
Definition board35_after : world := final (update board35).

Lemma update_board : update board35 = Done 0 board35_after.
Proof.
  assert (result (update board35) = Some 0) as Hr by (vm_compute; reflexivity).
  exact (result_final _ _ Hr).
Qed.

Lemma mounted_bank_untouched_witness :
  target_path "/dev/mmcblk0p3" "3" "5" = Some ("/dev/mmcblk0p5" : cstring) ∧
  fs_read (w_fs board35_after) "/dev/mmcblk0p3" = fs_read (w_fs board35) "/dev/mmcblk0p3".
Proof.
  destruct (mounted_bank_untouched demo_img "/dev/mmcblk0" "/dev/mmcblk0p3" "/dev/mmcblk0p5" "3" "5"
    board35 board_banks (from_bank1 _ _ _) board_not_alias board_ready_35 default_dirs)
    as (Ht & _ & _ & Hr); [by apply not_flag_name|]. by split.
Defined.

Lemma update_installs_witness :
  ∃ w', update board35 = Done 0 w' ∧ same_res board35 w' ∧
        i_data <$> fs_read (w_fs w') "/dev/mmcblk0p5" = Some ("new" : cstring) ∧
        flag_matches "5" "/dev/mmcblk0p5" (w_fs w') ∧
        f_nodes (w_fs w') !! reboot_flag_path = None.
Proof.
  exact (update_installs demo_img _ _ _ _ board35 board_ready_35 board_sound_35
           default_dirs no_faults_reliable (ref_copy_works _) bank2_not_flag).
Defined.

Lemma update_result_witness :
  same_res board35 board35_after ∧
  ((0 = 0 ∧ flag_matches "5" "/dev/mmcblk0p5" (w_fs board35_after) ∧
      f_nodes (w_fs board35_after) !! reboot_flag_path = None) ∨
   (0 = 1 ∧ (unreliable ∨ ¬ sound board35 "/dev/mmcblk0p3" "/dev/mmcblk0p5"))).
Proof.
  exact (update_result demo_img _ _ "3" _ board35 0 board35_after board_ready_35
           default_dirs update_board).
Defined.

Lemma banks_alternate_witness :
  ∃ b w1 b' w2,
    find_target_partition (buf_uninit 512) "/dev/mmcblk0p3" "3" "5" 512 board35
      = Done (0, b) w1 ∧
    buf_cstr b = Some ("/dev/mmcblk0p5" : cstring) ∧
    ("/dev/mmcblk0p5" : cstring) ≠ "/dev/mmcblk0p3" ∧ quiet board35 w1 ∧
    find_target_partition (buf_uninit 512) "/dev/mmcblk0p5" "3" "5" 512 board35
      = Done (0, b') w2 ∧
    buf_cstr b' = Some ("/dev/mmcblk0p3" : cstring).
Proof.
  apply (banks_alternate "/dev/mmcblk0" "3" "5" "/dev/mmcblk0p3" "/dev/mmcblk0p5"
           (buf_uninit 512) board35 board_banks (from_bank1 "/dev/mmcblk0" "3" "5"));
    try exact no_faults_reliable; try (apply board_ready_35);
    try (apply (bool_decide_unpack _); vm_compute; exact I); done.
Defined.

Lemma get_mounted_device_bounds_witness :
  ∃ r w', get_mounted_device (buf_uninit 8) "/" 8 board35 = Done r w' ∧ quiet board35 w' ∧
    (unreliable ∧ r = (-1, buf_uninit 8) ∨
     mounted_result (w_mtab board35) "/" 8 (buf_uninit 8) r).
Proof.
  apply (get_mounted_device_bounds (buf_uninit 8) "/" 8 board35);
    [apply board_ready_35|apply board_ready_35|lia|vm_compute; discriminate].
Defined.

Lemma read_file_result_witness :
  match read_file_to_new_str (bank_file "2") board35 with
  | Done (Some l) w' =>
      owns_block l board35 w' ∧ same_fs board35 w' ∧
      ∃ b s, w_heap w' !! l = Some b ∧ buf_cstr b = Some s ∧
             file_string (w_fs board35) (bank_file "2") = Some s
  | Done None w' => quiet board35 w' ∧ (unreliable ∨ ¬ readable (w_fs board35) (bank_file "2"))
  | Halted h w' => h = Aborted ∧ unreliable
  end.
Proof.
  exact (read_file_result (bank_file "2") board35
           (rd_fresh _ _ _ _ _ board_ready_35) (rd_sizes _ _ _ _ _ board_ready_35)).
Defined.

Lemma confused_banks_overwrite_witness :
  target_path "/dev/mmcblk0p13" "3" "13" = Some ("/dev/mmcblk0p13" : cstring) ∧
  ∃ w', update (board "3" "13" "13") = Done 0 w' ∧
        i_data <$> fs_read (w_fs w') "/dev/mmcblk0p13" = Some ("new" : cstring).
Proof.
  apply (confused_banks_overwrite demo_img "/dev/mmcblk0" "3" "13" (board "3" "13" "13"));
    try exact no_faults_reliable; try exact board_ready_confused;
    try exact board_sound_confused; try apply ref_copy_works;
    try (apply (bool_decide_unpack _); vm_compute; exact I); try done.
Defined.
End witnesses.

(** A swupdate whose copies fail. *)
Definition failing_swupdate : SwupdateLib := {|
  img_type := list ascii; fname := λ _, "rootfs.img"; img_data := λ d, d;
  openfileoutput := @openfileoutput ref_swupdate;
  copyimage := λ _ _ w, Done (-1) w
|}.

Section failing_witnesses.
#[local] Existing Instance failing_swupdate.

Definition opened35 : world := (new_fd "/dev/mmcblk0p5" board35).2.

Lemma open35 : openfileoutput "/dev/mmcblk0p5" board35 = Done (Some 0%nat) opened35.
Proof.
  assert (is_Some (fs_read (w_fs board35) "/dev/mmcblk0p5")) as [i Hi]
    by (vm_compute; eauto).
  cbn [openfileoutput failing_swupdate ref_swupdate]. by rewrite Hi.
Qed.

Lemma copy_failure_is_lost_witness :
  ∃ w', @copy_image_and_sync no_faults failing_swupdate ("new" : cstring)
          "/dev/mmcblk0p5" board35 = Done 0 w'.
Proof.
  exact (@copy_failure_is_lost no_faults failing_swupdate ("new" : cstring)
            "/dev/mmcblk0p5" board35 0 opened35 (-1) opened35 "/dev/mmcblk0p5"
            open35 eq_refl eq_refl eq_refl eq_refl).
Defined.

Definition all_fail : Env := {| fault := λ _, Some 5; dir_st_size := 4096 |}.

Lemma mtab_failure_prints_garbage_witness :
  ∃ w', @rootfsv4_handler all_fail default_config failing_swupdate ("new" : cstring)
          board35 = Halted (Undefined "indeterminate buffer printed") w'.
Proof.
  exact (@mtab_failure_prints_garbage all_fail default_config failing_swupdate
           ("new" : cstring) board35 5 eq_refl).
Defined.
End failing_witnesses.
