(* ===== verification/Getopt.v ===== *)
(** * <getopt.h>: [getopt_long] of the GNU C library

    The command line parser the watchdog program, updated and its client use.
    [POSIXLY_CORRECT] is not set: arguments that are not options are moved to
    the end, so they are skipped here. A table of long options ends with an
    entry of zeros; a table without it is read past its end as soon as no entry
    matches exactly, and that is undefined. *)

From stdpp Require Import base gmap strings list.
From Stdlib Require Import ZArith Ascii Lia.
From S2P Require Import Prelude.

Open Scope Z_scope.
Open Scope list_scope.

Inductive has_arg := no_argument | required_argument | optional_argument.

#[export] Instance has_arg_eq_dec : EqDecision has_arg.
Proof. solve_decision. Defined.

(** [struct option] with a null [flag]. *)
Record long_option := { lo_name : cstring; lo_has_arg : has_arg; lo_val : ascii }.

Record opt_table := {
  ot_short : cstring;               (** [optstring] *)
  ot_long : list long_option;
  ot_terminated : bool              (** the zero entry is there *)
}.

(** What remains to be scanned: the rest of a cluster of short options, and
    the arguments after it. *)
Record opt_state := { os_next : cstring; os_args : list cstring }.

Inductive opt_result :=
| OptEnd                                         (** -1 *)
| Opt (c : ascii) (optarg : option cstring)      (** an option, or '?' *)
| OptUndefined.                                  (** read past the table *)

(** [strchr], then the colons after the character. *)
Fixpoint short_lookup (optstring : cstring) (c : ascii) : option has_arg :=
  match optstring with
  | [] => None
  | o :: os =>
      if decide (o = c) then
        match os with
        | ":"%char :: ":"%char :: _ => Some optional_argument
        | ":"%char :: _ => Some required_argument
        | _ => Some no_argument
        end
      else short_lookup os c
  end.

Definition short_spec (optstring : cstring) (c : ascii) : option has_arg :=
  if decide (c = ":"%char ∨ c = ";"%char) then None else short_lookup optstring c.

Definition unrecognized : opt_result := Opt "?"%char None.

(** One option of a cluster; [cs] is what follows it in the argument. *)
Definition short_option (t : opt_table) (c : ascii) (cs : cstring) (args : list cstring)
  : opt_result * opt_state :=
  match short_spec (ot_short t) c with
  | None => (unrecognized, {| os_next := cs; os_args := args |})
  | Some no_argument => (Opt c None, {| os_next := cs; os_args := args |})
  | Some optional_argument =>
      (Opt c (match cs with [] => None | _ => Some cs end),
       {| os_next := []; os_args := args |})
  | Some required_argument =>
      match cs, args with
      | _ :: _, _ => (Opt c (Some cs), {| os_next := []; os_args := args |})
      | [], a :: args' => (Opt c (Some a), {| os_next := []; os_args := args' |})
      | [], [] => (unrecognized, {| os_next := []; os_args := [] |})
      end
  end.

Inductive long_match := LFound (o : long_option) | LUnknown | LAmbiguous | LOutside.

Definition same_option (o o' : long_option) : bool :=
  bool_decide (lo_has_arg o = lo_has_arg o') && bool_decide (lo_val o = lo_val o').

(** An exact match, else an unambiguous abbreviation. *)
Definition long_lookup (t : opt_table) (name : cstring) : long_match :=
  match find (λ o, bool_decide (lo_name o = name)) (ot_long t) with
  | Some o => LFound o
  | None =>
      if ot_terminated t then
        match filter (λ o, name `prefix_of` lo_name o) (ot_long t) with
        | [] => LUnknown
        | o :: os => if forallb (same_option o) os then LFound o else LAmbiguous
        end
      else LOutside
  end.

(** The name before the first '=', and the value after it. *)
Fixpoint split_value (s : cstring) : cstring * option cstring :=
  match s with
  | [] => ([], None)
  | c :: s' =>
      if decide (c = "="%char) then ([], Some s')
      else let '(n, v) := split_value s' in (c :: n, v)
  end.

Definition long_option_step (t : opt_table) (text : cstring) (args : list cstring)
  : opt_result * opt_state :=
  let '(name, value) := split_value text in
  let rest := {| os_next := []; os_args := args |} in
  match long_lookup t name with
  | LOutside => (OptUndefined, rest)
  | LUnknown | LAmbiguous => (unrecognized, rest)
  | LFound o =>
      match value, lo_has_arg o, args with
      | Some _, no_argument, _ => (unrecognized, rest)
      | Some v, _, _ => (Opt (lo_val o) (Some v), rest)
      | None, required_argument, a :: args' =>
          (Opt (lo_val o) (Some a), {| os_next := []; os_args := args' |})
      | None, required_argument, [] => (unrecognized, rest)
      | None, _, _ => (Opt (lo_val o) None, rest)
      end
  end.

(** The next argument that is an option. *)
Fixpoint next_argument (t : opt_table) (args : list cstring) : opt_result * opt_state :=
  match args with
  | [] => (OptEnd, {| os_next := []; os_args := [] |})
  | a :: args' =>
      match a with
      | "-"%char :: "-"%char :: [] => (OptEnd, {| os_next := []; os_args := args' |})
      | "-"%char :: "-"%char :: text => long_option_step t text args'
      | "-"%char :: c :: cs => short_option t c cs args'
      | _ => next_argument t args'
      end
  end.

Definition getopt_long (t : opt_table) (s : opt_state) : opt_result * opt_state :=
  match os_next s with
  | c :: cs => short_option t c cs (os_args s)
  | [] => next_argument t (os_args s)
  end.

(** ** Termination *)

(** The characters left, counting one more per argument. *)
Fixpoint args_size (args : list cstring) : nat :=
  match args with [] => 0%nat | a :: args' => (S (length a) + args_size args')%nat end.

Definition opt_size (s : opt_state) : nat := (length (os_next s) + args_size (os_args s))%nat.

Lemma short_option_size t c cs args :
  (opt_size (short_option t c cs args).2
   < opt_size {| os_next := c :: cs; os_args := args |})%nat.
Proof.
  unfold short_option, opt_size. destruct (short_spec _ _) as [[]|]; simpl; try lia.
  destruct cs, args; simpl; lia.
Qed.

Lemma long_option_size t text args :
  (opt_size (long_option_step t text args).2
   ≤ opt_size {| os_next := []; os_args := args |})%nat.
Proof.
  unfold long_option_step, opt_size. destruct (split_value text) as [name value].
  destruct (long_lookup t name) as [o| | |]; simpl; try lia.
  destruct value, (lo_has_arg o), args; simpl; lia.
Qed.

Lemma next_argument_size t args :
  (next_argument t args).1 ≠ OptEnd →
  (opt_size (next_argument t args).2 < opt_size {| os_next := []; os_args := args |})%nat.
Proof.
  induction args as [|a args IH]; [done|].
  assert (Hrec : (next_argument t args).1 ≠ OptEnd →
    (opt_size (next_argument t args).2
     < opt_size {| os_next := []; os_args := a :: args |})%nat).
  { intros H%IH. unfold opt_size in *. simpl in *. lia. }
  cbn [next_argument].
  destruct a as [|c1 [|c2 cs]]; [done|repeat case_match; done|].
  assert (Hshort : (opt_size (short_option t c2 cs args).2
     < opt_size {| os_next := []; os_args := (c1 :: c2 :: cs) :: args |})%nat).
  { pose proof (short_option_size t c2 cs args). unfold opt_size in *. simpl in *. lia. }
  assert (Hlong : ∀ text, (opt_size (long_option_step t text args).2
     < opt_size {| os_next := []; os_args := (c1 :: c2 :: cs) :: args |})%nat).
  { intros text. pose proof (long_option_size t text args).
    unfold opt_size in *. simpl in *. lia. }
  repeat case_match; simplify_eq; auto; try by intros [].
Qed.

(** Every call that yields an option consumes at least a character. *)
Lemma getopt_long_size t s :
  (getopt_long t s).1 ≠ OptEnd → (opt_size (getopt_long t s).2 < opt_size s)%nat.
Proof.
  destruct s as [[|c cs] args]; unfold getopt_long; simpl.
  - apply next_argument_size.
  - intros _. apply short_option_size.
Qed.

(** ** The loop around [getopt_long]

    [body a c optarg] is the [switch]: it gives the new values of the variables
    ([inl]) or returns from the function ([inr]). *)
Section loop.
Context {W A R : Type} (t : opt_table) (body : A → ascii → option cstring → M W (A + R)).

Fixpoint opt_loop_fuel (n : nat) (a : A) (s : opt_state) : M W (A + R) :=
  match n with
  | O => mret (inl a)
  | S n =>
      match getopt_long t s with
      | (OptEnd, _) => mret (inl a)
      | (OptUndefined, _) => undefined "read past the end of the option table"
      | (Opt c arg, s') =>
          r ← body a c arg;
          match r with
          | inl a' => opt_loop_fuel n a' s'
          | inr x => mret (inr x)
          end
      end
  end.

Definition opt_loop (a : A) (s : opt_state) : M W (A + R) :=
  opt_loop_fuel (S (opt_size s)) a s.

Lemma opt_loop_fuel_enough n m a s w :
  (opt_size s < n)%nat → (opt_size s < m)%nat →
  opt_loop_fuel n a s w = opt_loop_fuel m a s w.
Proof.
  revert m a s w. induction n as [|n IH]; intros [|m] a s w Hn Hm; [lia..|]. simpl.
  pose proof (getopt_long_size t s) as Hlt.
  destruct (getopt_long t s) as [[|c arg|] s']; [done| |done].
  unfold mbind, M_bind. destruct (body a c arg w) as [[a'|x] w'|]; [|done..].
  specialize (Hlt ltac:(done)). simpl in Hlt. apply IH; lia.
Qed.

(** The loop is the [while] statement: the fuel never runs out. *)
Lemma opt_loop_unfold a s w :
  opt_loop a s w =
    match getopt_long t s with
    | (OptEnd, _) => mret (inl a)
    | (OptUndefined, _) => undefined "read past the end of the option table"
    | (Opt c arg, s') =>
        r ← body a c arg;
        match r with inl a' => opt_loop a' s' | inr x => mret (inr x) end
    end w.
Proof.
  unfold opt_loop at 1. cbn [opt_loop_fuel].
  pose proof (getopt_long_size t s) as Hlt.
  destruct (getopt_long t s) as [[|c arg|] s']; [done| |done].
  unfold mbind, M_bind. destruct (body a c arg w) as [[a'|x] w'|]; [|done..].
  specialize (Hlt ltac:(done)). simpl in Hlt. apply opt_loop_fuel_enough; lia.
Qed.
End loop.

(** [argv] without the name of the program. *)
Definition opt_start (args : list cstring) : opt_state := {| os_next := []; os_args := args |}.
