(* ===== verification/Watchdog.v ===== *)
(** * mbl-watchdog-init: start the hardware watchdog

    [firmware-management/mbl-watchdog-init/mbl-watchdog-init.c]: the options,
    the last boot reason, the timeout of the device. *)

From stdpp Require Import base gmap strings list.
From Stdlib Require Import ZArith Ascii Lia.
From S2P Require Import Prelude.
From S2P Require Import CString.
From S2P Require Import Getopt.

Open Scope Z_scope.
Open Scope list_scope.

(** ** The kernel's watchdog interface *)

(** [<linux/watchdog.h>]: the flags of the boot status, and what the driver
    answers. [inr] is a failure with its [errno]. *)
Class WatchdogApi := {
  WDIOF_OVERHEAT : Z;
  WDIOF_FANFAULT : Z;
  WDIOF_EXTERN1 : Z;
  WDIOF_EXTERN2 : Z;
  WDIOF_POWERUNDER : Z;
  WDIOF_CARDRESET : Z;
  WDIOF_POWEROVER : Z;
  dev_open : cstring → option Z;             (** [Some errno]: it fails *)
  dev_bootstatus : cstring → Z + Z;
  dev_settimeout : cstring → Z → Z + Z;      (** the timeout now in force *)
  dev_close : cstring → option Z
}.

Inductive message :=
| MsgError (text : cstring) (errno : Z)
| MsgWarning (text : cstring)
| MsgInfo (text : cstring).

Record wd := {
  wd_open : gmap nat cstring;        (** descriptors *)
  wd_timeout : gmap cstring Z;       (** timeouts in force *)
  wd_out : list message;             (** stdout and stderr *)
  wd_errno : Z
}.

Definition wd_set_open (o : gmap nat cstring) (s : wd) : wd :=
  {| wd_open := o; wd_timeout := wd_timeout s; wd_out := wd_out s; wd_errno := wd_errno s |}.
Definition wd_set_timeout (p : cstring) (v : Z) (s : wd) : wd :=
  {| wd_open := wd_open s; wd_timeout := <[p:=v]> (wd_timeout s); wd_out := wd_out s;
     wd_errno := wd_errno s |}.
Definition wd_print (m : message) (s : wd) : wd :=
  {| wd_open := wd_open s; wd_timeout := wd_timeout s; wd_out := wd_out s ++ [m];
     wd_errno := wd_errno s |}.
Definition wd_set_errno (e : Z) (s : wd) : wd :=
  {| wd_open := wd_open s; wd_timeout := wd_timeout s; wd_out := wd_out s; wd_errno := e |}.

Definition EXIT_SUCCESS : Z := 0.
Definition EXIT_FAILURE : Z := 1.
Definition ERANGE : Z := 34.
Definition EBADF : Z := 9.

Section program.
Context `{WatchdogApi}.

Definition is_err (ret : Z) : bool := ret =? -1.

Definition log_error (text : cstring) : M wd unit :=
  e ← gets wd_errno; modify (wd_print (MsgError text e)).
Definition log_warning (text : cstring) : M wd unit := modify (wd_print (MsgWarning text)).
Definition log_info (text : cstring) : M wd unit := modify (wd_print (MsgInfo text)).

(** A call on an open descriptor. *)
Definition on_fd (fd : Z) (f : cstring → M wd Z) : M wd Z :=
  fds ← gets wd_open;
  match fds !! Z.to_nat fd with
  | Some p => f p
  | None => modify (wd_set_errno EBADF);; mret (-1)
  end.

Definition fails (e : Z) : M wd Z := modify (wd_set_errno e);; mret (-1).

(** [open(filename, O_WRONLY)]: the lowest free descriptor. *)
Definition open_wronly (p : cstring) : M wd Z :=
  match dev_open p with
  | Some e => fails e
  | None =>
      fds ← gets wd_open;
      let fd := fresh (dom fds) in
      modify (wd_set_open (<[fd:=p]> fds));;
      mret (Z.of_nat fd)
  end.

Definition close_fd (fd : Z) : M wd Z :=
  on_fd fd (λ p,
    modify (λ s, wd_set_open (delete (Z.to_nat fd) (wd_open s)) s);;
    match dev_close p with Some e => fails e | None => mret 0 end).

Definition set_watchdog_timeout (watchdog_fd timeout : Z) : M wd Z :=
  on_fd watchdog_fd (λ p,
    match dev_settimeout p timeout with
    | inl v => modify (wd_set_timeout p v);; mret 0
    | inr e => fails e
    end).

Definition warn_if (boot_status flag : Z) (text : cstring) : M wd unit :=
  if negb (Z.land boot_status flag =? 0) then log_warning text else mret tt.

Definition print_last_boot_reason (boot_status : Z) : M wd unit :=
  if boot_status =? 0 then log_info "Normal boot."
  else
    warn_if boot_status WDIOF_OVERHEAT
      "The last reboot was caused by the CPU overheating.";;
    warn_if boot_status WDIOF_CARDRESET
      "The last reboot was caused by a watchdog reset.";;
    warn_if boot_status WDIOF_FANFAULT
      "The last reboot was because a system fan monitored by the watchdog card failed.";;
    warn_if boot_status WDIOF_EXTERN1
      "The last reboot was because external monitoring relay/source 1 was triggered.";;
    warn_if boot_status WDIOF_EXTERN2
      "The last reboot was because external monitoring relay/source 2 was triggered.";;
    warn_if boot_status WDIOF_POWERUNDER
      "The last reboot was due to the machine showing an undervoltage status.";;
    warn_if boot_status WDIOF_POWEROVER
      "The last reboot was due to the machine showing an overvoltage status.".

Definition get_last_boot_status (watchdog_fd : Z) : M wd Z :=
  on_fd watchdog_fd (λ p,
    match dev_bootstatus p with
    | inr e => fails e
    | inl flags => print_last_boot_reason flags;; mret 0
    end).

Definition exit_failure {A} (text : cstring) : M wd A :=
  log_error text;; stop (Exited EXIT_FAILURE).

Definition numeric_string_to_positive_int (str : option cstring) : M wd Z :=
  modify (wd_set_errno 0);;
  s ← of_option "null pointer passed to strtol" str;
  let r := strtol0 s in
  let res := st_value r in
  (if st_erange r then modify (wd_set_errno ERANGE) else mret tt);;
  errno ← gets wd_errno;
  if ((errno =? ERANGE) && ((res =? LONG_MAX) || (res =? LONG_MIN)))
     || (negb (errno =? 0) && (res =? 0))
  then exit_failure "strtol failed"
  else if negb (bool_decide (st_rest r = [])) || negb (st_converted r)
  then exit_failure "String must contain digits only."
  else if (res <=? 0) || (INT_MAX <? res)
  then exit_failure
    "Integer not in valid range. Expecting a positive integer with maximum size INT_MAX"
  else mret res.

(** The table has no entry of zeros at its end, and 't' has no colon. *)
Definition longopts : opt_table := {|
  ot_short := "tw:";
  ot_long := [ {| lo_name := "timeout"; lo_has_arg := required_argument; lo_val := "t" |};
               {| lo_name := "device"; lo_has_arg := required_argument; lo_val := "w" |} ];
  ot_terminated := false
|}.

(** The [switch] on the current option; the variables are [timeout] and
    [wdog_filename]. *)
Definition main_option (v : Z * option cstring) (c : ascii) (optarg : option cstring)
  : M wd (Z * option cstring + Z) :=
  if decide (c = "t"%char) then
    timeout ← numeric_string_to_positive_int optarg; mret (inl (timeout, v.2))
  else if decide (c = "w"%char) then mret (inl (v.1, optarg))
  else
    log_warning "Only --timeout and --device should be provided. Exiting.";;
    mret (inr EXIT_FAILURE).

(** From [open] to the end of [main]. *)
Definition start_watchdog (wdog_filename : cstring) (timeout : Z) : M wd Z :=
  wdog_fd ← open_wronly wdog_filename;
  if is_err wdog_fd then
    log_error "Failed to open watchdog device file";; mret EXIT_FAILURE
  else
    gs_ret ← get_last_boot_status wdog_fd;
    ret ← (if is_err gs_ret then
             log_error "Failed to get the last boot status";; mret EXIT_FAILURE
           else
             to_ret ← set_watchdog_timeout wdog_fd timeout;
             if is_err to_ret then
               log_error "Failed to set the watchdog timeout";; mret EXIT_FAILURE
             else mret EXIT_SUCCESS);
    c ← close_fd wdog_fd;
    if is_err c then
      log_error "Failed to close the watchdog device file";; mret EXIT_FAILURE
    else mret ret.

(** After the loop. *)
Definition main_start (v : Z * option cstring) : M wd Z :=
  if v.1 <=? 0 then
    log_error "--timeout must be passed and it must be a positive integer";;
    mret EXIT_FAILURE
  else
    file ← of_option "null pointer passed to open" v.2;
    start_watchdog file v.1.

Definition main_loop : Z * option cstring → opt_state → M wd (Z * option cstring + Z) :=
  opt_loop longopts main_option.

Definition main (args : list cstring) : M wd Z :=
  r ← main_loop (0, Some ("/dev/watchdog" : cstring)) (opt_start args);
  match r with
  | inr code => mret code
  | inl v => main_start v
  end.
End program.

(** ** A concrete device *)

(** The values of the Linux header, and a driver that accepts every timeout. *)
Definition linux_watchdog : WatchdogApi := {|
  WDIOF_OVERHEAT := 1; WDIOF_FANFAULT := 2; WDIOF_EXTERN1 := 4; WDIOF_EXTERN2 := 8;
  WDIOF_POWERUNDER := 16; WDIOF_CARDRESET := 32; WDIOF_POWEROVER := 64;
  dev_open := λ p, if decide (p = "/dev/watchdog") then None else Some 2;
  dev_bootstatus := λ _, inl 32;
  dev_settimeout := λ _ v, inl v;
  dev_close := λ _, None
|}.

Definition wd_start : wd := {| wd_open := ∅; wd_timeout := ∅; wd_out := []; wd_errno := 0 |}.

Definition run_watchdog (args : list cstring) : outcome wd Z := @main linux_watchdog args wd_start.

Example watchdog_run :
  result (run_watchdog ["--timeout=60" : cstring]) = Some 0.
Proof. vm_compute. reflexivity. Qed.
Example watchdog_timeout :
  wd_timeout (final (run_watchdog ["--timeout" : cstring; "0x3c" : cstring]))
    !! ("/dev/watchdog" : cstring) = Some 60.
Proof. vm_compute. reflexivity. Qed.
Example watchdog_output :
  wd_out (final (run_watchdog ["--timeout=60" : cstring])) =
    [MsgWarning "The last reboot was caused by a watchdog reset."].
Proof. vm_compute. reflexivity. Qed.
Example watchdog_bad :
  run_watchdog ["--timeout=6s" : cstring] =
    Halted (Exited 1)
      (wd_print (MsgError "String must contain digits only." 0) wd_start).
Proof. vm_compute. reflexivity. Qed.

(** ** Properties *)

Section properties.
Context `{WatchdogApi}.

(** What [numeric_string_to_positive_int] accepts, without its order of
    checks. *)
Definition accepts (str : cstring) (n : Z) : Prop :=
  st_converted (strtol0 str) = true ∧ st_rest (strtol0 str) = [] ∧
  st_value (strtol0 str) = n ∧ 0 < n ≤ INT_MAX ∧ st_erange (strtol0 str) = false.

Lemma numeric_accepts str n s :
  accepts str n → numeric_string_to_positive_int (Some str) s = Done n (wd_set_errno 0 s).
Proof.
  intros (Hc & Hr & Hv & Hn & He). unfold numeric_string_to_positive_int.
  unfold mbind, M_bind, modify, gets; simpl. rewrite He, Hv, Hr, Hc. simpl.
  rewrite (proj2 (Z.leb_gt n 0)), (proj2 (Z.ltb_ge INT_MAX n)) by lia. done.
Qed.

Lemma numeral_accepts d ds :
  0 < d < 10 → Forall (λ x, 0 ≤ x < 10) ds → numeral_value (d :: ds) ≤ INT_MAX →
  accepts (digit_char <$> d :: ds) (numeral_value (d :: ds)).
Proof.
  intros Hd Hds Hmax.
  assert (0 < numeral_value (d :: ds)) as Hpos.
  { unfold numeral_value. cbn [foldl]. rewrite Z.mul_0_l, Z.add_0_l.
    pose proof (foldl_numeral_nonneg ds d ltac:(lia) Hds). lia. }
  unfold accepts. rewrite strtol0_numeral; try done; unfold INT_MAX, LONG_MAX in *; lia.
Qed.

Lemma converted_in_range str :
  st_erange (strtol0 str) = true →
  st_value (strtol0 str) = LONG_MAX ∨ st_value (strtol0 str) = LONG_MIN.
Proof.
  unfold strtol0. destruct (split_sign _) as [neg t'].
  destruct (scan_magnitude t') as [[m rest]|]; [|done]. simpl.
  unfold clamp_long, LONG_MIN, LONG_MAX. destruct neg; lia.
Qed.

(** The string is accepted exactly when [strtol] consumes all of it and
    yields a value from 1 to [INT_MAX]; otherwise the program exits with
    status 1 after one error message. *)
Theorem numeric_string_decides str s :
  (∃ n, accepts str n ∧
        numeric_string_to_positive_int (Some str) s = Done n (wd_set_errno 0 s)) ∨
  ((∀ n, ¬ accepts str n) ∧ ∃ text e,
     numeric_string_to_positive_int (Some str) s =
     Halted (Exited EXIT_FAILURE) (wd_print (MsgError text e) (wd_set_errno e s))).
Proof.
  destruct (st_erange (strtol0 str)) eqn:He.
  { right. split; [by intros n (_&_&_&_&?); congruence|].
    exists "strtol failed", ERANGE. unfold numeric_string_to_positive_int.
    unfold mbind, M_bind, modify, gets; simpl. rewrite He. simpl.
    by destruct (converted_in_range str He) as [-> | ->]. }
  unfold numeric_string_to_positive_int, mbind, M_bind, modify, gets; simpl.
  rewrite He. simpl.
  destruct (bool_decide (st_rest (strtol0 str) = [])) eqn:Hr; simpl.
  2:{ right. apply bool_decide_eq_false in Hr. split; [by intros n (_&?&_)|].
      eexists _, 0. reflexivity. }
  apply bool_decide_eq_true in Hr.
  destruct (st_converted (strtol0 str)) eqn:Hc; simpl.
  2:{ right. split; [by intros n (?&_); congruence|]. eexists _, 0. reflexivity. }
  destruct ((st_value (strtol0 str) <=? 0) || (INT_MAX <? st_value (strtol0 str))) eqn:Hv.
  - right. split; [|eexists _, 0; reflexivity].
    intros n (_&_&<-&?&_). lia.
  - left. exists (st_value (strtol0 str)). split; [|done]. split_and!; [done..|lia|lia|done].
Qed.

(** every decimal numeral from 1 to [INT_MAX] is read back as its value. *)
Theorem numeral_roundtrip d ds s :
  0 < d < 10 → Forall (λ x, 0 ≤ x < 10) ds → numeral_value (d :: ds) ≤ INT_MAX →
  numeric_string_to_positive_int (Some (digit_char <$> d :: ds)) s =
    Done (numeral_value (d :: ds)) (wd_set_errno 0 s).
Proof. intros. by apply numeric_accepts, numeral_accepts. Qed.

(** *** The device *)

(** The driver accepts the whole sequence of calls. *)
Definition driver_ok (p : cstring) (v : Z) : bool :=
  match dev_open p, dev_bootstatus p, dev_settimeout p v, dev_close p with
  | None, inl _, inl _, None => true
  | _, _, _, _ => false
  end.

(** The timeout after the program ran. *)
Definition new_timeout (p : cstring) (v : Z) (old : gmap cstring Z) : gmap cstring Z :=
  match dev_open p, dev_bootstatus p, dev_settimeout p v with
  | None, inl _, inl t => <[p:=t]> old
  | _, _, _ => old
  end.

(** [only_prints]: descriptors and timeouts are untouched. *)
Definition only_prints (s s' : wd) : Prop :=
  wd_open s' = wd_open s ∧ wd_timeout s' = wd_timeout s.

#[export] Instance only_prints_preorder : PreOrder only_prints.
Proof.
  split; [done|]. unfold only_prints. intros x y z [] []. split; congruence.
Qed.
#[export] Instance prints_error text : Preserves only_prints (log_error text).
Proof.
  apply preserves_bind; [apply _..|]. intros e. by apply preserves_modify.
Qed.
#[export] Instance prints_warning text : Preserves only_prints (log_warning text).
Proof. by apply preserves_modify. Qed.
#[export] Instance prints_info text : Preserves only_prints (log_info text).
Proof. by apply preserves_modify. Qed.
#[export] Instance prints_reason b : Preserves only_prints (print_last_boot_reason b).
Proof. unfold print_last_boot_reason, warn_if. apply _. Qed.

#[export] Instance total_log_error text : Total (log_error text).
Proof. apply total_bind; [apply total_gets|]. intros e. apply total_modify. Qed.
#[export] Instance total_log_warning text : Total (log_warning text).
Proof. apply total_modify. Qed.
#[export] Instance total_log_info text : Total (log_info text).
Proof. apply total_modify. Qed.
#[export] Instance total_reason b : Total (print_last_boot_reason b).
Proof. unfold print_last_boot_reason, warn_if. apply _. Qed.

Lemma wp_fails (e : Z) Q (E : halt → wd → Prop) s :
  Q (-1) (wd_set_errno e s) → wp (fails e) Q E s.
Proof. done. Qed.

Lemma wp_on_fd fd f p Q (E : halt → wd → Prop) s :
  wd_open s !! Z.to_nat fd = Some p → wp (f p) Q E s → wp (on_fd fd f) Q E s.
Proof. intros Hp Hf. apply wp_bind, wp_gets. by rewrite Hp. Qed.

Lemma wp_boot_status fd p Q (E : halt → wd → Prop) s :
  wd_open s !! Z.to_nat fd = Some p →
  (∀ s' r, only_prints s s' → r = (if dev_bootstatus p then 0 else -1) → Q r s') →
  wp (get_last_boot_status fd) Q E s.
Proof.
  intros Hp HQ. eapply wp_on_fd; [done|]. destruct (dev_bootstatus p); [|by apply HQ].
  apply wp_bind, (wp_frame only_prints); [apply _..|]. intros _ s' Hs. by apply wp_ret, HQ.
Qed.

Lemma wp_set_timeout fd v p Q (E : halt → wd → Prop) s :
  wd_open s !! Z.to_nat fd = Some p →
  (∀ s', wd_open s' = wd_open s →
     match dev_settimeout p v with
     | inl t => wd_timeout s' = <[p:=t]> (wd_timeout s) → Q 0 s'
     | inr _ => wd_timeout s' = wd_timeout s → Q (-1) s'
     end) →
  wp (set_watchdog_timeout fd v) Q E s.
Proof.
  intros Hp HQ. eapply wp_on_fd; [done|].
  destruct (dev_settimeout p v) as [t|e]; [|by apply (HQ (wd_set_errno e s))].
  by apply wp_bind, wp_modify, wp_ret, (HQ (wd_set_timeout p t s)).
Qed.

Lemma wp_close_fd fd p o Q (E : halt → wd → Prop) s :
  wd_open s = <[Z.to_nat fd:=p]> o → o !! Z.to_nat fd = None →
  (∀ s' r, wd_open s' = o → wd_timeout s' = wd_timeout s →
           r = (if dev_close p then -1 else 0) → Q r s') →
  wp (close_fd fd) Q E s.
Proof.
  intros Ho Hn HQ. eapply wp_on_fd; [by rewrite Ho, lookup_insert_eq|].
  assert (delete (Z.to_nat fd) (wd_open s) = o) as Hd by by rewrite Ho, delete_insert_id.
  apply wp_bind, wp_modify. rewrite Hd. by destruct (dev_close p); apply HQ.
Qed.

(** The code after the label [close]. *)
Lemma wp_close_report fd p o ret Q (E : halt → wd → Prop) s :
  wd_open s = <[Z.to_nat fd:=p]> o → o !! Z.to_nat fd = None →
  (∀ s', wd_open s' = o → wd_timeout s' = wd_timeout s →
         Q (if dev_close p then EXIT_FAILURE else ret) s') →
  wp (c ← close_fd fd;
      if is_err c then
        log_error "Failed to close the watchdog device file";; mret EXIT_FAILURE
      else mret ret) Q E s.
Proof.
  intros Ho Hn HQ. eapply wp_bind, wp_close_fd; [done..|].
  intros s' r Hs' Ht' ->. destruct (dev_close p); simpl.
  - apply wp_bind, (wp_frame only_prints); [apply _..|]. intros _ s2 [Ho2 Ht2].
    apply wp_ret, HQ; congruence.
  - by apply wp_ret, HQ.
Qed.

(** The program reports success exactly when the device could be opened,
    its boot status read, the timeout set and the device closed; the timeout
    is in force exactly when the first three succeeded; and the descriptor is
    closed on every path. *)
Theorem start_watchdog_result p v s :
  ∃ s', start_watchdog p v s =
          Done (if driver_ok p v then EXIT_SUCCESS else EXIT_FAILURE) s' ∧
        wd_open s' = wd_open s ∧ wd_timeout s' = new_timeout p v (wd_timeout s).
Proof.
  assert (wp (start_watchdog p v)
    (λ r s', r = (if driver_ok p v then EXIT_SUCCESS else EXIT_FAILURE) ∧
       wd_open s' = wd_open s ∧ wd_timeout s' = new_timeout p v (wd_timeout s))
    (λ _ _, False) s) as Hwp.
  { unfold start_watchdog, driver_ok, new_timeout, open_wronly.
    apply wp_bind. destruct (dev_open p) as [e|] eqn:Ho.
    { apply wp_fails. cbn [is_err Z.eqb].
      apply wp_bind, (wp_frame only_prints); [apply _..|]. intros _ s' [Ho' Ht'].
      by apply wp_ret. }
    apply wp_bind, wp_gets, wp_bind, wp_modify, wp_ret. cbv zeta.
    set (fd := fresh (dom (wd_open s))).
    set (s1 := wd_set_open (<[fd:=p]> (wd_open s)) s).
    assert (is_err (Z.of_nat fd) = false) as -> by (unfold is_err; lia).
    assert (wd_open s !! fd = None) as Hfresh by (apply not_elem_of_dom, is_fresh).
    assert (Ho1 : wd_open s1 = <[Z.to_nat (Z.of_nat fd):=p]> (wd_open s))
      by (by rewrite Nat2Z.id).
    rewrite <-(Nat2Z.id fd) in Hfresh.
    apply wp_bind, (wp_boot_status _ p); [by rewrite Ho1, lookup_insert_eq|].
    intros s2 r [Ho2 Ht2] ->. change (wd_timeout s1) with (wd_timeout s) in Ht2.
    rewrite Ho1 in Ho2. destruct (dev_bootstatus p) eqn:Hb; simpl.
    2:{ apply wp_bind, wp_bind, (wp_frame only_prints); [apply _..|].
        intros _ s3 [Ho3 Ht3]. apply wp_ret, (wp_close_report _ p (wd_open s)); [congruence|done|].
        intros s4 ??. split_and!; [by destruct (dev_close p)|done|congruence]. }
    apply wp_bind, wp_bind, (wp_set_timeout _ v p); [by rewrite Ho2, lookup_insert_eq|].
    intros s3 Ho3. destruct (dev_settimeout p v) eqn:Hv; intros Ht3; simpl.
    - apply wp_ret, (wp_close_report _ p (wd_open s)); [congruence|done|].
      intros s4 ??. split_and!; [by destruct (dev_close p)|done|congruence].
    - apply wp_bind, (wp_frame only_prints); [apply _..|].
      intros _ s4 [Ho4 Ht4]. apply wp_ret, (wp_close_report _ p (wd_open s)); [congruence|done|].
      intros s5 ??. split_and!; [by destruct (dev_close p)|done|congruence]. }
  unfold wp in Hwp. destruct (start_watchdog p v s); [|done].
  destruct Hwp as (-> & ? & ?). eauto.
Qed.

(** *** The command line *)

Lemma timeout_option (s : wd) v ds f :
  accepts ds v →
  main_option f "t"%char (Some ds) s = Done (inl (v, f.2)) (wd_set_errno 0 s).
Proof.
  intros Hds. unfold main_option. rewrite decide_True by done.
  by rewrite (bind_done _ _ _ _ _ (numeric_accepts ds v s Hds)).
Qed.

Lemma loop_timeout f ds v st st' s :
  accepts ds v → getopt_long longopts st = (Opt "t" (Some ds), st') →
  main_loop f st s = main_loop (v, f.2) st' (wd_set_errno 0 s).
Proof.
  intros Hds Hg. unfold main_loop. rewrite opt_loop_unfold, Hg.
  by rewrite (bind_done _ _ _ _ _ (timeout_option s v ds f Hds)).
Qed.

Lemma loop_device f d st st' s :
  getopt_long longopts st = (Opt "w" d, st') →
  main_loop f st s = main_loop (f.1, d) st' s.
Proof. intros Hg. unfold main_loop. by rewrite opt_loop_unfold, Hg. Qed.

Lemma loop_end f s : main_loop f {| os_next := []; os_args := [] |} s = Done (inl f) s.
Proof. done. Qed.

Lemma main_done args f s s' :
  main_loop (0, Some ("/dev/watchdog" : cstring)) (opt_start args) s = Done (inl f) s' →
  main args s = main_start f s'.
Proof. intros H'. unfold main. by rewrite (bind_done _ _ _ _ _ H'). Qed.

Lemma main_start_positive dev v s :
  0 < v → main_start (v, Some dev) s = start_watchdog dev v s.
Proof. intros Hv. unfold main_start. by rewrite (proj2 (Z.leb_gt _ _)). Qed.

(** The documented forms of the options, in any order, reach the driver
    with the device and the timeout they name, and [/dev/watchdog] is the
    device when none is named. *)
Theorem command_line num dev v s :
  accepts num v →
  main ["--timeout" : cstring; num; "--device" : cstring; dev] s =
    start_watchdog dev v (wd_set_errno 0 s) ∧
  main ["--device=" ++ dev; "--timeout=" ++ num] s =
    start_watchdog dev v (wd_set_errno 0 s) ∧
  main ["-w" : cstring; dev; "--timeout" : cstring; num] s =
    start_watchdog dev v (wd_set_errno 0 s) ∧
  main ["--timeout=" ++ num] s =
    start_watchdog "/dev/watchdog" v (wd_set_errno 0 s).
Proof.
  intros Hv. pose proof Hv as (_&_&_&Hpos&_).
  split_and!; rewrite <-main_start_positive by lia; apply main_done;
    repeat first [erewrite loop_timeout by done | erewrite loop_device by done]; done.
Qed.

(** A word of a well-formed command line: an option in one of its documented
    forms, or an argument that is no option, which the program skips. *)
Inductive device_form := LongJoined | LongApart | ShortJoined | ShortApart.

Inductive cli_word :=
| CliTimeout (joined : bool) (num : cstring) (v : Z)
| CliDevice (form : device_form) (dev : cstring)
| CliOther (a : cstring).

Definition render (w : cli_word) : list cstring :=
  match w with
  | CliTimeout true num _ => ["--timeout=" ++ num]
  | CliTimeout false num _ => ["--timeout" : cstring; num]
  | CliDevice LongJoined dev => ["--device=" ++ dev]
  | CliDevice LongApart dev => ["--device" : cstring; dev]
  | CliDevice ShortJoined dev => ["-w" ++ dev]
  | CliDevice ShortApart dev => ["-w" : cstring; dev]
  | CliOther a => [a]
  end.

Definition well_formed (w : cli_word) : Prop :=
  match w with
  | CliTimeout _ num v => accepts num v
  | CliDevice ShortJoined dev => dev ≠ []
  | CliDevice _ _ => True
  | CliOther a => head a ≠ Some "-"%char
  end.

(** The timeout and the device of a command line: each word replaces what the
    words before it chose. *)
Definition choose (f : option Z * cstring) (w : cli_word) : option Z * cstring :=
  match w with
  | CliTimeout _ _ v => (Some v, f.2)
  | CliDevice _ dev => (f.1, dev)
  | CliOther _ => f
  end.

Lemma loop_other f a rest s :
  head a ≠ Some "-"%char →
  main_loop f {| os_next := []; os_args := a :: rest |} s =
  main_loop f {| os_next := []; os_args := rest |} s.
Proof.
  intros Ha. unfold main_loop. rewrite opt_loop_unfold, (opt_loop_unfold _ _ _ {| os_args := rest |}).
  assert (getopt_long longopts {| os_next := []; os_args := a :: rest |} =
          getopt_long longopts {| os_next := []; os_args := rest |}) as ->; [|done].
  unfold getopt_long. simpl. destruct a as [|c a]; [done|].
  simpl in Ha. destruct c as [[] [] [] [] [] [] [] []]; done.
Qed.

(** A timeout that was chosen is positive. *)
Lemma foldl_words words t d :
  (∀ v, t = Some v → 0 < v) → Forall well_formed words →
  ∀ v, (foldl choose (t, d) words).1 = Some v → 0 < v.
Proof.
  revert t d. induction words as [|w words IH]; intros t d Ht Hw; [done|].
  apply Forall_cons in Hw as [Hv Hw]. cbn [foldl].
  destruct (choose (t, d) w) as [t1 d1] eqn:Hc. apply IH; [|done]. intros v ->.
  destruct w as [? num v'|? dev|a]; simpl in Hc; injection Hc as Hc _; subst; auto.
  destruct Hv as (_ & _ & _ & Hp & _). simplify_eq. lia.
Qed.

(** The loop over a well-formed command line: it chooses, and touches at most
    [errno]. *)
Lemma loop_words words t d s :
  Forall well_formed words →
  ∃ s', main_loop (default 0 t, Some d)
          {| os_next := []; os_args := concat (render <$> words) |} s =
        Done (inl (default 0 (foldl choose (t, d) words).1, Some (foldl choose (t, d) words).2)) s' ∧
        wd_open s' = wd_open s ∧ wd_timeout s' = wd_timeout s.
Proof.
  intros Hw. revert t d s. induction Hw as [|w words Hv Hw IH]; intros t d s.
  { exists s. by rewrite loop_end. }
  assert (∃ s1, main_loop (default 0 t, Some d)
      {| os_next := []; os_args := render w ++ concat (render <$> words) |} s =
    main_loop (default 0 (choose (t, d) w).1, Some (choose (t, d) w).2)
      {| os_next := []; os_args := concat (render <$> words) |} s1 ∧
    wd_open s1 = wd_open s ∧ wd_timeout s1 = wd_timeout s) as (s1 & Hs & Ho & Ht).
  { destruct w as [[] num v|[] dev|a]; simpl in Hv; simpl.
    1-2: exists (wd_set_errno 0 s); split; [by eapply loop_timeout|done].
    1,2,4: exists s; split; [by eapply loop_device|done].
    - exists s. split; [|done]. destruct dev as [|c dev]; [done|]. by eapply loop_device.
    - exists s. split; [by apply loop_other|done]. }
  rewrite fmap_cons. cbn [concat foldl]. rewrite Hs.
  destruct (choose (t, d) w) as [t1 d1]. destruct (IH t1 d1 s1) as (s2 & Hs2 & Ho2 & Ht2).
  exists s2. split; [exact Hs2|]. split; congruence.
Qed.

(** C31: the program, for every well-formed command line. The last timeout and the
    last device count, [/dev/watchdog] when none is named. Without a timeout it
    fails and leaves the driver alone. With one it succeeds exactly when the
    driver let it open the device, read the status of the last boot, set the
    timeout and close the device; the timeout is in force when the first three
    succeeded, and no descriptor stays open. *)
Theorem watchdog_program_result words s :
  Forall well_formed words →
  ∃ s', wd_open s' = wd_open s ∧
    match foldl choose (None, "/dev/watchdog" : cstring) words with
    | (Some v, dev) =>
        main (concat (render <$> words)) s =
          Done (if driver_ok dev v then EXIT_SUCCESS else EXIT_FAILURE) s' ∧
        wd_timeout s' = new_timeout dev v (wd_timeout s)
    | (None, _) =>
        main (concat (render <$> words)) s = Done EXIT_FAILURE s' ∧ wd_timeout s' = wd_timeout s
    end.
Proof.
  intros Hw. destruct (loop_words words None "/dev/watchdog" s Hw) as (s1 & Hs1 & Ho & Ht).
  assert (Hpos : ∀ v, (foldl choose (None, "/dev/watchdog" : cstring) words).1 = Some v → 0 < v).
  { apply (foldl_words words); [done|exact Hw]. }
  unfold main, opt_start. rewrite (bind_done _ _ _ _ _ Hs1).
  destruct (foldl _ _ _) as [[v|] dev].
  - specialize (Hpos v eq_refl). cbn [default fst snd]. rewrite main_start_positive by done.
    destruct (start_watchdog_result dev v s1) as (s2 & Hs2 & Ho2 & Ht2).
    exists s2. split; [congruence|]. split; [done|]. by rewrite Ht2, Ht.
  - unfold main_start. simpl.
    exists (final (log_error "--timeout must be passed and it must be a positive integer" s1)).
    done.
Qed.

(** the table of options gives 't' no argument, so any use of the short
    form passes a null pointer to [strtol]. *)
Theorem short_timeout_undefined num rest s :
  main (("-t" ++ num) :: rest) s =
    Halted (Undefined "null pointer passed to strtol") (wd_set_errno 0 s).
Proof.
  unfold main, main_loop, mbind, M_bind. by rewrite opt_loop_unfold.
Qed.

(** the table of long options has no end: a name that is neither
    "timeout" nor "device", an abbreviation of them included, reads past it. *)
Theorem unknown_option_undefined name rest s :
  "="%char ∉ name → name ≠ [] → name ≠ "timeout" → name ≠ "device" →
  main (("--" ++ name) :: rest) s =
    Halted (Undefined "read past the end of the option table") s.
Proof.
  intros Heq Hne Ht Hd.
  assert (split_value name = (name, None)) as Hs.
  { clear -Heq. induction name as [|c name IH]; [done|]. simpl.
    rewrite decide_False, IH by set_solver. done. }
  unfold main, main_loop, mbind, M_bind. rewrite opt_loop_unfold.
  unfold getopt_long; simpl. destruct name as [|c name]; [done|].
  unfold long_option_step. rewrite Hs. unfold long_lookup; simpl.
  by rewrite !bool_decide_eq_false_2.
Qed.
End properties.

(** ** The properties at a concrete device *)

Section witnesses.
#[local] Existing Instance linux_watchdog.

Lemma numeral_roundtrip_witness :
  numeric_string_to_positive_int (Some ("60" : cstring)) wd_start =
    Done 60 (wd_set_errno 0 wd_start).
Proof. apply (numeral_roundtrip 6 [0] wd_start); [lia|repeat constructor; lia|done]. Defined.

Lemma accepts_hex : accepts "0x3c" 60.
Proof. done. Qed.

Lemma command_line_witness :
  main ["--device=" ++ "/dev/watchdog1"; "--timeout=" ++ "0x3c"] wd_start =
    start_watchdog "/dev/watchdog1" 60 (wd_set_errno 0 wd_start).
Proof. exact (proj1 (proj2 (command_line "0x3c" "/dev/watchdog1" 60 wd_start accepts_hex))). Defined.

Lemma watchdog_program_result_witness :
  ∃ s', main ["--timeout=" ++ "0x3c"; "-w" : cstring; "/dev/watchdog1" : cstring;
              "now" : cstring] wd_start =
    Done (if driver_ok "/dev/watchdog1" 60 then EXIT_SUCCESS else EXIT_FAILURE) s'.
Proof.
  destruct (watchdog_program_result [CliTimeout true "0x3c" 60; CliDevice ShortApart "/dev/watchdog1";
                         CliOther "now"] wd_start) as (s' & _ & Hs & _).
  - constructor; [exact accepts_hex|]. constructor; [exact I|]. constructor; [discriminate|constructor].
  - exists s'. exact Hs.
Defined.

Lemma unknown_option_undefined_witness :
  main ["--help" : cstring] wd_start =
    Halted (Undefined "read past the end of the option table") wd_start.
Proof.
  apply (unknown_option_undefined "help" []);
    [by apply (bool_decide_unpack _); vm_compute|done..].
Defined.
End witnesses.
