(* ===== verification/Cxx.v ===== *)
(** * C++ functions that throw

    The monad of the C++ components: a call returns, throws an exception or
    ends the process. [noexcept] turns an exception into [std::terminate]. *)

From stdpp Require Import base strings list.
From Stdlib Require Import ZArith Ascii.
From S2P Require Import Prelude.

Open Scope Z_scope.
Open Scope list_scope.

(** The status codes of gRPC the program names; any other number is
    [OtherStatus]. *)
Inductive StatusCode :=
| OK | CANCELLED | UNKNOWN | INVALID_ARGUMENT | DEADLINE_EXCEEDED | NOT_FOUND
| ALREADY_EXISTS | PERMISSION_DENIED | RESOURCE_EXHAUSTED | FAILED_PRECONDITION
| ABORTED | OUT_OF_RANGE | UNIMPLEMENTED | INTERNAL | UNAVAILABLE | DATA_LOSS
| UNAUTHENTICATED | DO_NOT_USE | OtherStatus (n : Z).

#[export] Instance StatusCode_eq_dec : EqDecision StatusCode.
Proof. solve_decision. Defined.

(** The exceptions the program throws or lets through. The members of the two
    RPC errors are the text and the value they were made from. *)
Inductive exn :=
| invalid_argument (what : cstring)
| runtime_error (what : cstring)
| system_error (code : Z)               (** [LockFileError] *)
| filesystem_error (code : Z)
| RpcError (what : cstring)
| GrpcError (what : cstring) (grpc_status : StatusCode)
| UpdateDRpcError (what : cstring) (error_code_message : Z).

#[export] Instance exn_eq_dec : EqDecision exn.
Proof. solve_decision. Defined.

Inductive cres (S A : Type) :=
| Ok (a : A) (s : S)
| Threw (e : exn) (s : S)
| Died (h : halt) (s : S).
Arguments Ok {S A} a s.
Arguments Threw {S A} e s.
Arguments Died {S A} h s.

Definition cstate {S A} (r : cres S A) : S :=
  match r with Ok _ s | Threw _ s | Died _ s => s end.

Definition C (S A : Type) : Type := S → cres S A.

#[export] Instance C_ret S : MRet (C S) := λ A a s, Ok a s.
#[export] Instance C_bind S : MBind (C S) := λ A B f m s,
  match m s with
  | Ok a s' => f a s'
  | Threw e s' => Threw e s'
  | Died h s' => Died h s'
  end.

Section operations.
Context {S : Type}.

Definition throw {A} (e : exn) : C S A := λ s, Threw e s.
Definition die {A} (h : halt) : C S A := λ s, Died h s.
Definition cget {A} (f : S → A) : C S A := λ s, Ok (f s) s.
Definition cput (f : S → S) : C S unit := λ s, Ok tt (f s).

(** [assert], in a build without [NDEBUG]. *)
Definition cassert (b : bool) : C S unit := if b then mret tt else die Aborted.

(** [try m catch (T &e) handler(e)]: [handles] is the type test. *)
Definition try_catch {A} (m : C S A) (handles : exn → bool) (handler : exn → C S A)
  : C S A := λ s,
  match m s with
  | Threw e s' => if handles e then handler e s' else Threw e s'
  | r => r
  end.

(** An exception leaves a [noexcept] function. *)
Definition noexcept {A} (m : C S A) : C S A := λ s,
  match m s with
  | Threw _ s' => Died Aborted s'
  | r => r
  end.

(** An exception leaves [main]: [std::terminate]. *)
Definition process (m : C S Z) : M S Z := λ s,
  match m s with
  | Ok code s' => Done code s'
  | Threw _ s' => Halted Aborted s'
  | Died h s' => Halted h s'
  end.

(** A system call or library call that succeeds with a new state or fails. *)
Definition call (f : S → S + exn) : C S unit := λ s,
  match f s with
  | inl s' => Ok tt s'
  | inr e => Threw e s
  end.

(** A function of the C model used from C++. *)
Definition lift {A} (m : M S A) : C S A := λ s,
  match m s with
  | Done a s' => Ok a s'
  | Halted h s' => Died h s'
  end.
End operations.

Lemma noexcept_bind {S A B} (m : C S A) (k : A → C S B) s :
  noexcept (m ≫= k) s =
    match m s with
    | Ok a s' => noexcept (k a) s'
    | Threw _ s' => Died Aborted s'
    | Died h s' => Died h s'
    end.
Proof. unfold noexcept, mbind, C_bind. by destruct (m s). Qed.

Lemma cbind_ok {S A B} (m : C S A) (k : A → C S B) s a s' :
  m s = Ok a s' → (m ≫= k) s = k a s'.
Proof. unfold mbind, C_bind. by intros ->. Qed.

Lemma cbind_cases {S A B} (m : C S A) (k : A → C S B) s :
  (m ≫= k) s = match m s with
               | Ok a s' => k a s'
               | Threw e s' => Threw e s'
               | Died h s' => Died h s'
               end.
Proof. reflexivity. Qed.

Definition is_invalid_argument (e : exn) : bool :=
  match e with invalid_argument _ => true | _ => false end.

(** Every exception of the program derives from [std::exception]. *)
Definition is_std_exception (e : exn) : bool := true.

(** ** No exception escapes *)

Class NoThrow {S A} (m : C S A) : Prop := no_throw : ∀ s e s', m s ≠ Threw e s'.

Section nothrow.
Context {S : Type}.

#[export] Instance nothrow_ret {A} (a : A) : NoThrow (mret a : C S A).
Proof. done. Qed.
#[export] Instance nothrow_get {A} (f : S → A) : NoThrow (cget f).
Proof. done. Qed.
#[export] Instance nothrow_put (f : S → S) : NoThrow (cput f).
Proof. done. Qed.
#[export] Instance nothrow_assert b : NoThrow (cassert b : C S unit).
Proof. by destruct b. Qed.
#[export] Instance nothrow_noexcept {A} (m : C S A) : NoThrow (noexcept m).
Proof. intros s e s'. unfold noexcept. by destruct (m s). Qed.
#[export] Instance nothrow_lift {A} (m : M S A) : NoThrow (lift m).
Proof. intros s e s'. unfold lift. by destruct (m s). Qed.
#[export] Instance nothrow_bind {A B} (m : C S A) (k : A → C S B) :
  NoThrow m → (∀ a, NoThrow (k a)) → NoThrow (m ≫= k).
Proof.
  intros Hm Hk s e s'. unfold mbind, C_bind. specialize (Hm s).
  destruct (m s) as [a s1|e1 s1|]; [apply Hk| |done]. by destruct (Hm e1 s1).
Qed.

(** A handler for what cannot be thrown is never run. *)
Lemma try_catch_dead {A} (m : C S A) handles handler s :
  NoThrow m → try_catch m handles handler s = m s.
Proof.
  intros Hm. unfold try_catch. specialize (Hm s).
  destruct (m s) as [a s1|e1 s1|]; [done| |done]. by destruct (Hm e1 s1).
Qed.
End nothrow.
