(* ===== verification/UpdatedPayload.v ===== *)
(** * updated: the hard link to an update payload

    [firmware-management/updated/updated/source/fileutils/payload.h]: the part
    of [std::filesystem] it uses, with POSIX paths and no symbolic links, and
    the class [PayloadHardLink]. *)

From stdpp Require Import base gmap strings list.
From Stdlib Require Import ZArith Ascii Lia.
From S2P Require Import Prelude.
From S2P Require Import Cxx.

Open Scope Z_scope.
Open Scope list_scope.

(** ** [std::filesystem::path] *)

Abbreviation path := (list ascii).

Definition SLASH : ascii := "/".

Definition is_absolute (p : path) : bool :=
  match p with c :: _ => bool_decide (c = SLASH) | [] => false end.
Definition root_path (p : path) : path := if is_absolute p then [SLASH] else [].
Definition relative_path (p : path) : path := drop_while SLASH p.
Definition filename (p : path) : path := reverse (take_until SLASH (reverse p)).
(** What precedes the filename, with its last slash. *)
Definition remove_filename (p : path) : path := take (length p - length (filename p)) p.
Definition has_filename (p : path) : bool := bool_decide (filename p ≠ []).

(** [p /= q]. *)
Definition append (p q : path) : path :=
  if is_absolute q then q
  else if has_filename p then p ++ SLASH :: q
  else p ++ q.

Definition parent_path (p : path) : path :=
  if bool_decide (relative_path p = []) then p
  else let d := remove_filename p in
       match reverse (drop_while SLASH (reverse d)) with
       | [] => root_path p
       | d' => d'
       end.

(** The names on the way from the root, as the kernel resolves them. *)
Fixpoint split_path (p cur : path) : list path :=
  match p with
  | [] => [reverse cur]
  | c :: p' => if decide (c = SLASH) then reverse cur :: split_path p' []
               else split_path p' (c :: cur)
  end.

Fixpoint walk (names stack : list path) : list path :=
  match names with
  | [] => reverse stack
  | n :: names' =>
      if decide (n = [] ∨ n = "."%char :: []) then walk names' stack
      else if decide (n = "." ++ ".") then walk names' (drop 1 stack)
      else walk names' (n :: stack)
  end.

Definition resolve (p : path) : list path := walk (split_path p []) [].

(** ** The file system *)

Inductive vnode := VDir | VFile (ino : nat).

#[export] Instance vnode_eq_dec : EqDecision vnode.
Proof. solve_decision. Defined.

(** The root is a directory and has no entry. *)
Abbreviation vfs := (gmap (list path) vnode).

Definition node_at (f : vfs) (names : list path) : option vnode :=
  match names with [] => Some VDir | _ => f !! names end.

(** Which calls the kernel makes fail, by the path they get. *)
Class FsEnv := { fs_fails : path → option Z }.

Definition EPERM : Z := 1.
Definition ENOENT : Z := 2.
Definition EEXIST : Z := 17.
Definition ENOTDIR : Z := 20.

Section filesystem.
Context `{FsEnv}.

Definition exists_ (f : vfs) (p : path) : bool :=
  match node_at f (resolve p) with Some _ => true | None => false end.

(** Delete a tree. *)
Definition delete_tree (f : vfs) (names : list path) : vfs :=
  filter (λ kv, ¬ names `prefix_of` kv.1) f.

Definition remove_all (p : path) (f : vfs) : vfs + exn :=
  match fs_fails p with
  | Some e => inr (filesystem_error e)
  | None => inl (delete_tree f (resolve p))
  end.

(** Make the missing directories of [done ++ names], from the top. *)
Fixpoint make_directories (f : vfs) (done names : list path) : vfs + exn :=
  match names with
  | [] => inl f
  | n :: names' =>
      let d := done ++ [n] in
      match f !! d with
      | Some VDir => make_directories f d names'
      | Some (VFile _) => inr (filesystem_error ENOTDIR)
      | None => make_directories (<[d:=VDir]> f) d names'
      end
  end.

Definition create_directories (p : path) (f : vfs) : vfs + exn :=
  match fs_fails p with
  | Some e => inr (filesystem_error e)
  | None => make_directories f [] (resolve p)
  end.

(** [link(2)] on regular files. *)
Definition create_hard_link (to link : path) (f : vfs) : vfs + exn :=
  match fs_fails link with
  | Some e => inr (filesystem_error e)
  | None =>
      match node_at f (resolve to) with
      | None => inr (filesystem_error ENOENT)
      | Some VDir => inr (filesystem_error EPERM)
      | Some (VFile i) =>
          match node_at f (resolve link) with
          | Some _ => inr (filesystem_error EEXIST)
          | None =>
              match node_at f (take (length (resolve link) - 1) (resolve link)) with
              | Some VDir => inl (<[resolve link:=VFile i]> f)
              | Some (VFile _) => inr (filesystem_error ENOTDIR)
              | None => inr (filesystem_error ENOENT)
              end
          end
      end
  end.

(** ** [PayloadHardLink] *)

(** The directory the constructor uses: beside the source. *)
Definition payload_dir (source_path : path) : path :=
  append
    (append [] (append (root_path source_path)
                       (remove_filename (relative_path source_path))))
    "updated".

Definition PayloadHardLink_payload_path (source_path : path) : path :=
  append (payload_dir source_path) (filename source_path).

(** The constructor; the result is the object's only member. *)
Definition PayloadHardLink (source_path : path) : C vfs path :=
  cassert (is_absolute source_path);;
  found ← cget (λ f, exists_ f (payload_dir source_path));
  (if (found : bool) then call (remove_all (payload_dir source_path)) else mret tt);;
  call (create_directories (payload_dir source_path));;
  let payload_path := PayloadHardLink_payload_path source_path in
  call (create_hard_link source_path payload_path);;
  mret payload_path.

(** The destructor is [noexcept]. *)
Definition PayloadHardLink_destroy (payload_path : path) : C vfs unit :=
  noexcept
    (found ← cget (λ f, exists_ f (parent_path payload_path));
     if (found : bool) then call (remove_all (remove_filename payload_path))
     else mret tt).

Definition PayloadHardLink_get (payload_path : path) : path := payload_path.
End filesystem.

Definition reliable_fs : FsEnv := {| fs_fails := λ _, None |}.

Definition demo_vfs : vfs :=
  list_to_map [(["tmp" : path], VDir); (["tmp" : path; "a.swu" : path], VFile 7);
               (["tmp" : path; "b.swu" : path], VFile 8)].

Definition payload_demo : cres vfs path := @PayloadHardLink reliable_fs "/tmp/a.swu" demo_vfs.

Example payload_demo_link :
  match payload_demo with
  | Ok p f => p = "/tmp/updated/a.swu" ∧
              f !! ["tmp" : path; "updated" : path; "a.swu" : path] = Some (VFile 7)
  | _ => False
  end.
Proof. vm_compute. by split. Qed.
Example payload_parent : parent_path "/tmp/updated/a.swu" = "/tmp/updated".
Proof. reflexivity. Qed.
Example payload_remove : remove_filename "/tmp/updated/a.swu" = "/tmp/updated/".
Proof. reflexivity. Qed.
Example append_to_root : payload_dir "/a.swu" = "/updated". Proof. reflexivity. Qed.
