(* ===== verification/UpdatedPayloadProps.v ===== *)
(** * updated: properties of the payload link

    The paths the class [PayloadHardLink] builds, what its constructor and its
    destructor do to the file system, and the source it destroys. *)

From stdpp Require Import base gmap strings list.
From Stdlib Require Import ZArith Ascii Lia.
From S2P Require Import Prelude.
From S2P Require Import Cxx.
From S2P Require Import UpdatedPayload.

Open Scope Z_scope.
Open Scope list_scope.

(** ** Canonical paths *)

Definition good_name (n : path) : Prop :=
  n ≠ [] ∧ SLASH ∉ n ∧ n ≠ "." ∧ n ≠ "..".

#[export] Instance good_name_dec n : Decision (good_name n).
Proof. apply _. Defined.

(** The absolute path through the names. *)
Fixpoint abs_path (names : list path) : path :=
  match names with [] => [] | n :: names' => SLASH :: n ++ abs_path names' end.

Lemma abs_path_app ns ns' : abs_path (ns ++ ns') = abs_path ns ++ abs_path ns'.
Proof. induction ns as [|n ns IH]; simpl; [done|]. by rewrite IH, (assoc_L (++)). Qed.

Lemma abs_path_snoc ds f : abs_path (ds ++ [f]) = abs_path ds ++ SLASH :: f.
Proof. rewrite abs_path_app. simpl. by rewrite app_nil_r. Qed.

Definition slash_free (n : path) : Prop := SLASH ∉ n.

Lemma good_slash_free ns : Forall good_name ns → Forall slash_free ns.
Proof. intros H. eapply Forall_impl; [exact H|]. by intros n (_&?&_). Qed.

Lemma split_path_name n ns cur :
  slash_free n → Forall slash_free ns →
  split_path (n ++ abs_path ns) cur = (reverse cur ++ n) :: ns.
Proof.
  revert n cur. induction ns as [|m ns IH]; intros n cur Hn Hns.
  - revert cur. simpl. rewrite app_nil_r.
    induction n as [|c n IHn]; intros cur; simpl; [by rewrite app_nil_r|].
    apply not_elem_of_cons in Hn as [Hc Hn]. rewrite decide_False by done.
    rewrite IHn by done. by rewrite reverse_cons, <-(assoc_L (++)).
  - apply Forall_cons in Hns as [Hm Hns]. revert cur.
    induction n as [|c n IHn]; intros cur.
    + cbn [abs_path app split_path]. rewrite decide_True by done.
      rewrite IH by done. by rewrite app_nil_r.
    + apply not_elem_of_cons in Hn as [Hc Hn]. cbn [app split_path].
      cbn [app] in IHn. rewrite decide_False, IHn by done.
      by rewrite reverse_cons, <-(assoc_L (++)).
Qed.

Lemma split_abs ns : Forall slash_free ns → split_path (abs_path ns) [] = [] :: ns.
Proof. apply (split_path_name [] ns []), not_elem_of_nil. Qed.

Lemma walk_good ns rest stack :
  Forall good_name ns → walk (ns ++ rest) stack = walk rest (reverse ns ++ stack).
Proof.
  intros Hns. revert stack. induction Hns as [|n ns (H1&H2&H3&H4) Hns IH]; intros stack.
  - done.
  - cbn [walk app]. rewrite decide_False by naive_solver. rewrite decide_False by done.
    by rewrite IH, reverse_cons, <-(assoc_L (++)).
Qed.

Lemma walk_empty rest stack : walk ([] :: rest) stack = walk rest stack.
Proof. cbn [walk]. by rewrite decide_True by auto. Qed.

Lemma resolve_abs ns : Forall good_name ns → resolve (abs_path ns) = ns.
Proof.
  intros Hns. unfold resolve. rewrite split_abs, walk_empty by by apply good_slash_free.
  rewrite <-(app_nil_r ns) at 1. rewrite walk_good by done. simpl.
  by rewrite app_nil_r, reverse_involutive.
Qed.

Lemma resolve_trailing ns : Forall good_name ns → resolve (abs_path ns ++ [SLASH]) = ns.
Proof.
  intros Hns. unfold resolve. change [SLASH] with (abs_path [[]]).
  rewrite <-abs_path_app, split_abs, walk_empty, walk_good, walk_empty; [|done|].
  - simpl. by rewrite app_nil_r, reverse_involutive.
  - apply Forall_app. split; [by apply good_slash_free|].
    repeat constructor. apply not_elem_of_nil.
Qed.

(** ** The last name *)

Lemma filename_snoc d f : slash_free f → filename (d ++ SLASH :: f) = f.
Proof.
  intros Hf. unfold filename.
  rewrite reverse_app, reverse_cons, <-(assoc_L (++)). simpl.
  rewrite take_until_app by by rewrite elem_of_reverse. apply reverse_involutive.
Qed.

Lemma filename_bare f : slash_free f → filename f = f.
Proof.
  intros Hf. unfold filename.
  rewrite take_until_all by by rewrite elem_of_reverse. apply reverse_involutive.
Qed.

Lemma remove_filename_snoc d f : slash_free f → remove_filename (d ++ SLASH :: f) = d ++ [SLASH].
Proof.
  intros Hf. unfold remove_filename. rewrite filename_snoc by done.
  rewrite cons_middle, (assoc_L (++)).
  replace (_ - _)%nat with (length (d ++ [SLASH])); [apply take_app_length|].
  rewrite !length_app. lia.
Qed.

Lemma remove_filename_bare f : slash_free f → remove_filename f = [].
Proof. intros Hf. unfold remove_filename. by rewrite filename_bare, Nat.sub_diag. Qed.

Lemma relative_abs n ns : good_name n → relative_path (abs_path (n :: ns)) = n ++ abs_path ns.
Proof.
  intros (Hne & Hn & _). unfold relative_path. cbn [abs_path drop_while].
  rewrite decide_True by done. destruct n as [|c n]; [done|].
  apply not_elem_of_cons in Hn as [Hc _]. cbn [app]. by rewrite drop_while_head.
Qed.

(** ** The paths of a link *)

Lemma good_not_absolute n q : good_name n → is_absolute (n ++ q) = false.
Proof.
  intros (Hne & Hn & _). destruct n as [|c n]; [done|].
  apply not_elem_of_cons in Hn as [Hc _]. simpl. by apply bool_decide_eq_false.
Qed.

Lemma append_slash d n : good_name n → append (d ++ [SLASH]) n = d ++ SLASH :: n.
Proof.
  intros Hn. unfold append, has_filename.
  rewrite <-(app_nil_r n), good_not_absolute, app_nil_r by done.
  rewrite filename_snoc by apply not_elem_of_nil. simpl. by rewrite <-(assoc_L (++)).
Qed.

Lemma append_file d f n :
  slash_free f → f ≠ [] → good_name n →
  append (d ++ SLASH :: f) n = (d ++ SLASH :: f) ++ SLASH :: n.
Proof.
  intros Hf Hne Hn. unfold append, has_filename.
  rewrite <-(app_nil_r n), good_not_absolute, app_nil_r by done.
  rewrite filename_snoc by done. by rewrite bool_decide_eq_true_2.
Qed.

Lemma append_root q : is_absolute q = false → append [SLASH] q = SLASH :: q.
Proof. unfold append. by intros ->. Qed.

Definition updated_name : path := "updated".

Lemma updated_good : good_name updated_name.
Proof. apply (bool_decide_unpack _). vm_compute. exact I. Qed.

(** The source [f] in the directory [ds], its link, and the link's directory. *)
Definition source_of (ds : list path) (f : path) : path := abs_path (ds ++ [f]).
Definition link_of (ds : list path) (f : path) : path := abs_path (ds ++ [updated_name; f]).
Definition dir_of (ds : list path) : path := abs_path (ds ++ [updated_name]).

Lemma payload_dir_source ds f :
  Forall good_name ds → good_name f → payload_dir (source_of ds f) = dir_of ds.
Proof.
  intros Hds Hf. unfold payload_dir, source_of, dir_of.
  assert (root_path (abs_path (ds ++ [f])) = [SLASH]) as ->.
  { unfold root_path. by destruct ds. }
  rewrite abs_path_snoc.
  assert (append [SLASH] (remove_filename (relative_path (abs_path ds ++ SLASH :: f)))
          = abs_path ds ++ [SLASH]) as ->.
  { destruct ds as [|n ds].
    - pose proof (relative_abs f [] Hf) as Hr. cbn [abs_path app] in *.
      rewrite app_nil_r in Hr. by rewrite Hr, remove_filename_bare by apply Hf.
    - apply Forall_cons in Hds as [Hn Hds].
      rewrite <-abs_path_snoc, <-app_comm_cons, relative_abs, abs_path_snoc by done.
      rewrite (assoc_L (++)), remove_filename_snoc by apply Hf.
      rewrite append_root; [reflexivity|].
      by rewrite <-(assoc_L (++)), good_not_absolute. }
  assert (append [] (abs_path ds ++ [SLASH]) = abs_path ds ++ [SLASH]) as ->
    by (unfold append; by destruct ds).
  rewrite append_slash by apply updated_good. by rewrite abs_path_snoc.
Qed.

Lemma filename_source ds f : good_name f → filename (source_of ds f) = f.
Proof. intros Hf. unfold source_of. rewrite abs_path_snoc. apply filename_snoc, Hf. Qed.

Lemma payload_path_source ds f :
  Forall good_name ds → good_name f →
  PayloadHardLink_payload_path (source_of ds f) = link_of ds f.
Proof.
  intros Hds Hf. unfold PayloadHardLink_payload_path.
  rewrite payload_dir_source, filename_source by done.
  unfold dir_of, link_of. rewrite abs_path_snoc.
  rewrite append_file; [|apply updated_good..|done].
  rewrite <-abs_path_snoc, <-abs_path_snoc. by rewrite <-(assoc_L (++)).
Qed.

Lemma link_split ds f : link_of ds f = dir_of ds ++ SLASH :: f.
Proof.
  unfold link_of, dir_of. rewrite <-abs_path_snoc. by rewrite <-(assoc_L (++)).
Qed.

Lemma remove_filename_link ds f :
  good_name f → remove_filename (link_of ds f) = dir_of ds ++ [SLASH].
Proof. intros Hf. rewrite link_split. apply remove_filename_snoc, Hf. Qed.

Lemma reverse_drop_slash d : filename d ≠ [] →
  reverse (drop_while SLASH (reverse (d ++ [SLASH]))) = d.
Proof.
  intros Hd. rewrite reverse_app. change (reverse [SLASH]) with [SLASH].
  cbn [app drop_while]. rewrite decide_True by done.
  unfold filename in Hd. destruct (reverse d) as [|c r] eqn:Hr.
  - apply (f_equal reverse) in Hr. by rewrite reverse_involutive in Hr.
  - cbn [take_until] in Hd. case_decide; [done|].
    rewrite drop_while_head by done. by rewrite <-Hr, reverse_involutive.
Qed.

Lemma parent_path_link ds f :
  Forall good_name ds → good_name f → parent_path (link_of ds f) = dir_of ds.
Proof.
  intros Hds Hf. unfold parent_path. rewrite bool_decide_eq_false_2.
  2:{ unfold link_of. destruct ds as [|n ds]; cbn [app].
      - by rewrite relative_abs by apply updated_good.
      - apply Forall_cons in Hds as [Hn _]. rewrite relative_abs by done.
        destruct Hn as [Hn _]. by destruct n. }
  rewrite remove_filename_link by done. rewrite reverse_drop_slash.
  - unfold dir_of. by destruct ds.
  - unfold dir_of. rewrite abs_path_snoc, filename_snoc by apply updated_good. done.
Qed.

Lemma is_absolute_abs n ns : is_absolute (abs_path (n :: ns)) = true.
Proof. reflexivity. Qed.

Section resolution.
Context (ds : list path) (f : path).
Context (Hds : Forall good_name ds) (Hf : good_name f).

Lemma good_app n : good_name n → Forall good_name (ds ++ [n]).
Proof using Hds. intros Hn. apply Forall_app. split; [done|by apply Forall_singleton]. Qed.

Lemma resolve_source : resolve (source_of ds f) = ds ++ [f].
Proof using Hds Hf. by apply resolve_abs, good_app. Qed.

Lemma resolve_dir : resolve (dir_of ds) = ds ++ [updated_name].
Proof using Hds. apply resolve_abs, good_app, updated_good. Qed.

Lemma resolve_dir_slash : resolve (dir_of ds ++ [SLASH]) = ds ++ [updated_name].
Proof using Hds. apply resolve_trailing, good_app, updated_good. Qed.

Lemma resolve_link : resolve (link_of ds f) = ds ++ [updated_name; f].
Proof using Hds Hf.
  apply resolve_abs, Forall_app. split; [done|].
  apply Forall_cons. split; [apply updated_good|by apply Forall_singleton].
Qed.
End resolution.

(** ** The trees *)

Section trees.
Implicit Types (t : vfs) (ns : list path).

Lemma lookup_delete_tree t ns q :
  delete_tree t ns !! q = if decide (ns `prefix_of` q) then None else t !! q.
Proof.
  unfold delete_tree. destruct (decide (ns `prefix_of` q)) as [Hp|Hp].
  - apply map_lookup_filter_None. right. intros x _ Hn. by apply Hn.
  - destruct (t !! q) as [x|] eqn:Hx.
    + by apply map_lookup_filter_Some.
    + apply map_lookup_filter_None. by left.
Qed.

Lemma node_delete_tree t ns q :
  ns ≠ [] → ¬ ns `prefix_of` q → node_at (delete_tree t ns) q = node_at t q.
Proof.
  intros Hne Hp. unfold node_at. destruct q; [done|].
  by rewrite lookup_delete_tree, decide_False.
Qed.

(** Every directory on the way exists. *)
Definition dirs_exist t ns : Prop := ∀ k, (k ≤ length ns)%nat → node_at t (take k ns) = Some VDir.

Lemma make_existing t base ns rest :
  (∀ k, (0 < k ≤ length ns)%nat → t !! (base ++ take k ns) = Some VDir) →
  make_directories t base (ns ++ rest) = make_directories t (base ++ ns) rest.
Proof.
  revert base. induction ns as [|n ns IH]; intros base Hk; [by rewrite app_nil_r|].
  cbn [app make_directories].
  pose proof (Hk 1%nat ltac:(simpl; lia)) as H1. simpl in H1. rewrite take_0 in H1.
  rewrite H1. rewrite IH; [by rewrite <-(assoc_L (++))|].
  intros k Hlt. rewrite <-(assoc_L (++)). apply (Hk (S k)). simpl. lia.
Qed.

Lemma make_last t ds n :
  dirs_exist t ds → t !! (ds ++ [n]) = None →
  make_directories t [] (ds ++ [n]) = inl (<[ds ++ [n] := VDir]> t).
Proof.
  intros Hd Hn. rewrite make_existing.
  - simpl. by rewrite Hn.
  - intros k Hk. specialize (Hd k ltac:(lia)). simpl.
    destruct (take k ds) eqn:He; [|done]. destruct k; [lia|].
    destruct ds; [simpl in Hk; lia|done].
Qed.

Lemma not_prefix_shorter (ns q : list path) n :
  (length q ≤ length ns)%nat → ¬ (ns ++ [n]) `prefix_of` q.
Proof. intros Hl Hp%prefix_length. rewrite length_app in Hp. simpl in Hp. lia. Qed.
End trees.

(** Whatever has a name has a parent directory. *)
Definition vfs_wf (t : vfs) : Prop :=
  ∀ ns n x, t !! (ns ++ [n]) = Some x → node_at t ns = Some VDir.

Lemma wf_absent t ns r : vfs_wf t → ns ≠ [] → t !! ns = None → t !! (ns ++ r) = None.
Proof.
  intros Hwf Hne Hn. induction r as [|x r IH] using rev_ind; [by rewrite app_nil_r|].
  destruct (t !! (ns ++ r ++ [x])) as [y|] eqn:Hy; [|done].
  rewrite (assoc_L (++)) in Hy. apply Hwf in Hy. unfold node_at in Hy.
  destruct (ns ++ r) eqn:He; [by destruct ns|]. congruence.
Qed.

Lemma delete_tree_absent t ns : vfs_wf t → ns ≠ [] → t !! ns = None → delete_tree t ns = t.
Proof.
  intros Hwf Hne Hn. apply map_eq. intros q. rewrite lookup_delete_tree.
  case_decide as Hp; [|done]. destruct Hp as [r ->]. by rewrite wf_absent.
Qed.

Lemma delete_tree_insert t ns q x :
  ns `prefix_of` q → delete_tree (<[q:=x]> t) ns = delete_tree t ns.
Proof.
  intros Hp. apply map_eq. intros k. rewrite !lookup_delete_tree.
  case_decide; [done|]. apply lookup_insert_ne. by intros ->.
Qed.

Lemma delete_tree_twice t ns : delete_tree (delete_tree t ns) ns = delete_tree t ns.
Proof.
  apply map_eq. intros k. rewrite !lookup_delete_tree. by case_decide.
Qed.

Definition link_tree (ds : list path) : list path := ds ++ [updated_name].

(** The file system with the link of [i]. *)
Definition linked (t : vfs) (ds : list path) (f : path) (i : nat) : vfs :=
  <[ds ++ [updated_name; f] := VFile i]>
    (<[link_tree ds := VDir]> (delete_tree t (link_tree ds))).

Lemma link_tree_ne ds : link_tree ds ≠ [].
Proof. unfold link_tree. by destruct ds. Qed.

Lemma link_below ds f : link_tree ds `prefix_of` ds ++ [updated_name; f].
Proof. exists [f]. unfold link_tree. by rewrite <-(assoc_L (++)). Qed.

Lemma delete_linked t ds f i : delete_tree (linked t ds f i) (link_tree ds) = delete_tree t (link_tree ds).
Proof.
  unfold linked. rewrite !delete_tree_insert; [apply delete_tree_twice|done|apply link_below].
Qed.

Lemma lookup_linked_other t ds f i q :
  ¬ link_tree ds `prefix_of` q → linked t ds f i !! q = t !! q.
Proof.
  intros Hq. unfold linked. rewrite !lookup_insert_ne, lookup_delete_tree, decide_False;
    [done|done|by intros <-|]. intros <-. apply Hq, link_below.
Qed.

Section runs.
Context `{FsEnv} (Hok : ∀ p, fs_fails p = None).
Context (ds : list path) (f : path) (Hds : Forall good_name ds) (Hf : good_name f).
Implicit Types t : vfs.

Lemma exists_dir t :
  exists_ t (dir_of ds) = bool_decide (is_Some (t !! link_tree ds)).
Proof using Hds.
  unfold exists_. rewrite resolve_dir by done. unfold node_at. fold (link_tree ds).
  pose proof (link_tree_ne ds). destruct (link_tree ds) eqn:He; [done|].
  destruct (t !! _); symmetry; [by apply bool_decide_eq_true_2; eauto|].
  apply bool_decide_eq_false_2. by intros [].
Qed.

(** The directory is cleared, whether or not it was there. *)
Lemma clear_dir t p :
  vfs_wf t → resolve p = link_tree ds →
  (found ← cget (λ t, exists_ t (dir_of ds));
   (if (found : bool) then call (remove_all p) else mret tt)) t =
    Ok tt (delete_tree t (link_tree ds)).
Proof using Hok Hds.
  intros Hwf Hp. unfold mbind, C_bind, cget. rewrite exists_dir.
  case_bool_decide as Hx.
  - unfold call, remove_all. by rewrite Hok, Hp.
  - unfold mret, C_ret. f_equal. symmetry. apply delete_tree_absent; [done|apply link_tree_ne|].
    by apply eq_None_not_Some.
Qed.

Lemma make_dir t :
  dirs_exist t ds →
  create_directories (dir_of ds) (delete_tree t (link_tree ds)) =
    inl (<[link_tree ds := VDir]> (delete_tree t (link_tree ds))).
Proof using Hok Hds.
  intros Hd. unfold create_directories. rewrite Hok, resolve_dir by done.
  apply make_last.
  - intros k Hk. rewrite node_delete_tree; [by apply Hd|apply link_tree_ne|].
    apply not_prefix_shorter. rewrite length_take. lia.
  - unfold link_tree. by rewrite lookup_delete_tree, decide_True.
Qed.

Lemma make_link t i :
  dirs_exist t ds → f ≠ updated_name → t !! (ds ++ [f]) = Some (VFile i) →
  create_hard_link (source_of ds f) (link_of ds f)
    (<[link_tree ds := VDir]> (delete_tree t (link_tree ds))) = inl (linked t ds f i).
Proof using Hok Hds Hf.
  intros Hd Hne Ht. unfold create_hard_link.
  rewrite Hok, resolve_source, resolve_link by done.
  assert (ds ++ [updated_name] ≠ ds ++ [f]) as Hdiff by (intros [=]%(inj (ds ++.)); by auto).
  assert (node_at (<[link_tree ds:=VDir]> (delete_tree t (link_tree ds))) (ds ++ [f])
          = Some (VFile i)) as ->.
  { unfold node_at. destruct (ds ++ [f]) eqn:He; [by destruct ds|]. rewrite <-He in *.
    rewrite lookup_insert_ne, lookup_delete_tree, decide_False; [done| |done].
    intros [r Hr]. unfold link_tree in Hr. rewrite <-(assoc_L (++)) in Hr. apply (inj (ds ++.)) in Hr.
    injection Hr as Hr _. done. }
  assert (<[link_tree ds:=VDir]> (delete_tree t (link_tree ds)) !! (ds ++ [updated_name; f])
          = None) as Hnone.
  { rewrite lookup_insert_ne, lookup_delete_tree, decide_True; [done|apply link_below|].
    intros He%(f_equal length). unfold link_tree in He. rewrite !length_app in He.
    simpl in He. lia. }
  unfold node_at at 1. destruct (ds ++ [updated_name; f]) eqn:He; [by destruct ds|].
  rewrite <-He in *. rewrite Hnone.
  assert (take (length (ds ++ [updated_name; f]) - 1) (ds ++ [updated_name; f])
          = link_tree ds) as ->.
  { change ([updated_name; f]) with ([updated_name] ++ [f]). rewrite (assoc_L (++)).
    rewrite (length_app (ds ++ [updated_name])), Nat.add_sub. apply take_app_length. }
  unfold node_at. pose proof (link_tree_ne ds). destruct (link_tree ds) eqn:Hl; [done|].
  rewrite lookup_insert_eq. unfold linked. by rewrite Hl.
Qed.

Lemma create_run t i :
  vfs_wf t → dirs_exist t ds → f ≠ updated_name → t !! (ds ++ [f]) = Some (VFile i) →
  PayloadHardLink (source_of ds f) t = Ok (link_of ds f) (linked t ds f i).
Proof using Hok Hds Hf.
  intros Hwf Hd Hne Ht. unfold PayloadHardLink.
  rewrite payload_dir_source, payload_path_source by done.
  assert (is_absolute (source_of ds f) = true) as ->
    by (unfold source_of; by destruct ds).
  pose proof (clear_dir t (dir_of ds) Hwf (resolve_dir ds Hds)) as Hclear.
  unfold mbind, C_bind in Hclear |- *. simpl. simpl in Hclear. rewrite Hclear.
  unfold call. rewrite make_dir by done. by rewrite (make_link t i).
Qed.

Lemma destroy_run t :
  vfs_wf t → PayloadHardLink_destroy (link_of ds f) t = Ok tt (delete_tree t (link_tree ds)).
Proof using Hok Hds Hf.
  intros Hwf. unfold PayloadHardLink_destroy, noexcept.
  rewrite parent_path_link, remove_filename_link by done.
  by rewrite (clear_dir t _ Hwf (resolve_dir_slash ds Hds)).
Qed.
End runs.

Lemma delete_tree_wf t ns : ns ≠ [] → vfs_wf t → vfs_wf (delete_tree t ns).
Proof.
  intros Hne Hwf q n x. rewrite lookup_delete_tree. case_decide as Hp; [done|].
  intros Hx%Hwf. rewrite node_delete_tree; [done..|].
  intros Hq. apply Hp. etrans; [exact Hq|]. by exists [n].
Qed.

Lemma delete_tree_dirs t ds n : dirs_exist t ds → dirs_exist (delete_tree t (ds ++ [n])) ds.
Proof.
  intros Hd k Hk. rewrite node_delete_tree; [by apply Hd|by destruct ds|].
  apply not_prefix_shorter. rewrite length_take. lia.
Qed.

Lemma insert_wf t ns n x :
  vfs_wf t → node_at t ns = Some VDir → t !! (ns ++ [n]) = None → vfs_wf (<[ns ++ [n] := x]> t).
Proof.
  intros Hwf Hns Hnone q m y Hy.
  assert (node_at t q = Some VDir) as Hq.
  { destruct (decide (q ++ [m] = ns ++ [n])) as [He|He].
    - by apply app_inj_tail in He as [-> _].
    - rewrite lookup_insert_ne in Hy by done. by eapply Hwf. }
  unfold node_at in *. destruct q as [|a q]; [done|].
  rewrite lookup_insert_ne; [done|]. intros He. congruence.
Qed.

Lemma node_insert_eq t ns n x : node_at (<[ns ++ [n] := x]> t) (ns ++ [n]) = Some x.
Proof. unfold node_at. destruct (ns ++ [n]) eqn:He; [by destruct ns|]. apply lookup_insert_eq. Qed.

Lemma linked_wf t ds f i : vfs_wf t → dirs_exist t ds → vfs_wf (linked t ds f i).
Proof.
  intros Hwf Hd. unfold linked.
  change (ds ++ [updated_name; f]) with (ds ++ ([updated_name] ++ [f])).
  rewrite (assoc_L (++)). fold (link_tree ds). apply insert_wf.
  - apply insert_wf; [by apply delete_tree_wf; [apply link_tree_ne|]| |].
    + specialize (delete_tree_dirs t ds updated_name Hd (length ds) (le_n _)).
      by rewrite firstn_all.
    + by rewrite lookup_delete_tree, decide_True.
  - apply node_insert_eq.
  - rewrite lookup_insert_ne, lookup_delete_tree, decide_True; [done|by exists [f]|].
    intros He%(f_equal length). rewrite length_app in He. simpl in He. lia.
Qed.

(** ** Properties *)

Section properties.
Context `{FsEnv} (Hok : ∀ p, fs_fails p = None).

(** For a regular file with an absolute path, in a directory that
    exists, the object's path is beside the file in the directory "updated"
    and names the same file; the file keeps its name, and nothing outside
    that directory changes. *)
Theorem payload_link_created ds f i t :
  Forall good_name ds → good_name f → f ≠ updated_name →
  vfs_wf t → dirs_exist t ds → t !! (ds ++ [f]) = Some (VFile i) →
  ∃ p t', PayloadHardLink (source_of ds f) t = Ok p t' ∧
    resolve (PayloadHardLink_get p) = ds ++ [updated_name; f] ∧
    t' !! (ds ++ [updated_name; f]) = Some (VFile i) ∧
    t' !! (ds ++ [f]) = Some (VFile i) ∧
    ∀ q, ¬ (ds ++ [updated_name]) `prefix_of` q → t' !! q = t !! q.
Proof using Hok.
  intros Hds Hf Hne Hwf Hd Ht. eexists _, _. split; [by apply create_run|].
  split; [by apply resolve_link|]. split; [apply lookup_insert_eq|]. split.
  - rewrite lookup_linked_other; [done|]. intros [r Hr]. unfold link_tree in Hr.
    rewrite <-(assoc_L (++)) in Hr. apply (inj (ds ++.)) in Hr. injection Hr as Hr _. done.
  - intros q Hq. by apply lookup_linked_other.
Qed.

(** C29: creating the object and destroying it gives back the file system as
    it was, less the directory "updated" if there was one. *)
Theorem payload_link_roundtrip ds f i t :
  Forall good_name ds → good_name f → f ≠ updated_name →
  vfs_wf t → dirs_exist t ds → t !! (ds ++ [f]) = Some (VFile i) →
  (p ← PayloadHardLink (source_of ds f); PayloadHardLink_destroy p) t =
    Ok tt (delete_tree t (ds ++ [updated_name])) ∧
  (t !! (ds ++ [updated_name]) = None → delete_tree t (ds ++ [updated_name]) = t).
Proof using Hok.
  intros Hds Hf Hne Hwf Hd Ht. split.
  - unfold mbind, C_bind. rewrite (create_run Hok ds f Hds Hf t i) by done.
    rewrite destroy_run; [|done..|by apply linked_wf]. by rewrite delete_linked.
  - apply delete_tree_absent; [done|apply link_tree_ne].
Qed.

(** a payload that is itself named "updated" is deleted by the
    constructor, which then fails. *)
Theorem payload_named_updated_is_lost ds i t :
  Forall good_name ds → vfs_wf t → dirs_exist t ds →
  t !! (ds ++ [updated_name]) = Some (VFile i) →
  ∃ t', PayloadHardLink (source_of ds updated_name) t = Threw (filesystem_error EPERM) t' ∧
        t' !! (ds ++ [updated_name]) = Some VDir.
Proof using Hok.
  intros Hds Hwf Hd Ht. eexists. split.
  - unfold PayloadHardLink.
    rewrite payload_dir_source, payload_path_source by (done || apply updated_good).
    assert (is_absolute (source_of ds updated_name) = true) as ->
      by (unfold source_of; by destruct ds).
    pose proof (clear_dir Hok ds Hds t (dir_of ds) Hwf (resolve_dir ds Hds)) as Hclear.
    unfold mbind, C_bind in Hclear |- *. simpl. simpl in Hclear. rewrite Hclear.
    unfold call. rewrite make_dir by done.
    unfold create_hard_link. rewrite Hok, resolve_source by (done || apply updated_good).
    unfold link_tree. by rewrite node_insert_eq.
  - apply lookup_insert_eq.
Qed.
End properties.

(** ** The properties at a concrete file system *)

Section witnesses.
#[local] Existing Instance reliable_fs.

Lemma reliable_ok : ∀ p, fs_fails p = None.
Proof. done. Qed.

Definition tmp_dir : list path := [("tmp" : path)].
Definition a_swu : path := "a.swu".

Lemma tmp_good : Forall good_name tmp_dir.
Proof. apply (bool_decide_unpack _). vm_compute. exact I. Qed.

Lemma a_good : good_name a_swu.
Proof. apply (bool_decide_unpack _). vm_compute. exact I. Qed.

Definition parents_exist (t : vfs) : bool :=
  forallb (λ q, match q with
                | [] => true
                | _ => bool_decide (node_at t (removelast q) = Some VDir)
                end) (map_to_list t).*1.

Lemma parents_exist_wf t : parents_exist t = true → vfs_wf t.
Proof.
  intros Hp ns n x Hx. unfold parents_exist in Hp. rewrite forallb_forall in Hp.
  specialize (Hp (ns ++ [n])).
  destruct (ns ++ [n]) eqn:He; [by destruct ns|]. rewrite <-He in *.
  rewrite removelast_last in Hp. apply bool_decide_eq_true in Hp; [done|].
  apply list_elem_of_In, list_elem_of_fmap. exists (ns ++ [n], x).
  by rewrite elem_of_map_to_list.
Qed.

Lemma demo_vfs_wf : vfs_wf demo_vfs.
Proof. apply parents_exist_wf. vm_compute. reflexivity. Qed.

Lemma demo_dirs : dirs_exist demo_vfs tmp_dir.
Proof. intros k Hk. simpl in Hk. destruct k as [|[|k]]; [done|done|lia]. Qed.

Lemma payload_link_created_witness :
  ∃ p t', PayloadHardLink "/tmp/a.swu" demo_vfs = Ok p t' ∧
    resolve (PayloadHardLink_get p) = tmp_dir ++ [updated_name; a_swu] ∧
    t' !! (tmp_dir ++ [updated_name; a_swu]) = Some (VFile 7) ∧
    t' !! (tmp_dir ++ [a_swu]) = Some (VFile 7) ∧
    ∀ q, ¬ (tmp_dir ++ [updated_name]) `prefix_of` q → t' !! q = demo_vfs !! q.
Proof.
  exact (payload_link_created reliable_ok tmp_dir a_swu 7 demo_vfs tmp_good a_good
           ltac:(done) demo_vfs_wf demo_dirs eq_refl).
Defined.

Lemma payload_link_roundtrip_witness :
  (p ← PayloadHardLink "/tmp/a.swu"; PayloadHardLink_destroy p) demo_vfs = Ok tt demo_vfs.
Proof.
  destruct (payload_link_roundtrip reliable_ok tmp_dir a_swu 7 demo_vfs tmp_good a_good
              ltac:(done) demo_vfs_wf demo_dirs eq_refl) as [H1 H2].
  rewrite (H2 eq_refl) in H1. exact H1.
Defined.

Definition bad_vfs : vfs :=
  list_to_map [(["tmp" : path], VDir); (["tmp" : path; "updated" : path], VFile 7)].

Lemma payload_named_updated_is_lost_witness :
  ∃ t', PayloadHardLink "/tmp/updated" bad_vfs = Threw (filesystem_error EPERM) t' ∧
        t' !! (tmp_dir ++ [updated_name]) = Some VDir.
Proof.
  apply (payload_named_updated_is_lost reliable_ok tmp_dir 7 bad_vfs tmp_good);
    [apply parents_exist_wf; vm_compute; reflexivity| |vm_compute; reflexivity].
  intros k Hk. simpl in Hk. destruct k as [|[|k]]; [done|done|lia].
Defined.
End witnesses.
