(* ===== verification/UpdatedCoordinator.v ===== *)
(** * updated: the update coordinator and its threads

    [firmware-management/updated/updated/source/UpdateCoordinator.cpp] and
    [Manifest.h]: the object, its methods as one thread runs them, and the
    interleavings of the thread that runs updates with the threads of the RPC
    server, which share the object through a mutex and a condition variable. *)

From stdpp Require Import base gmap strings list relations.
From Stdlib Require Import ZArith Ascii Lia.
From S2P Require Import Prelude.
From S2P Require Import Cxx.
From S2P Require Import UpdatedPayload.

Open Scope Z_scope.
Open Scope list_scope.

(** ** The object *)

Record Manifest := { header : cstring }.

(** The members the mutex protects. [payload_link] is the [unique_ptr]. *)
Record UpdateCoordinator := {
  updating : bool;
  payload_link : option path;
  update_manifest : Manifest
}.

Definition new_coordinator : UpdateCoordinator :=
  {| updating := false; payload_link := None; update_manifest := {| header := [] |} |}.

Inductive log_line :=
| Trace (text : cstring) (flag : option bool)
| Info (text : cstring) (payload : path).

Record shared := { coord : UpdateCoordinator; files : vfs; logged : list log_line }.

Definition set_coord (c : UpdateCoordinator) (s : shared) : shared :=
  {| coord := c; files := files s; logged := logged s |}.
Definition set_files (f : vfs) (s : shared) : shared :=
  {| coord := coord s; files := f; logged := logged s |}.
Definition add_line (l : log_line) (s : shared) : shared :=
  {| coord := coord s; files := files s; logged := logged s ++ [l] |}.
Definition set_updating (b : bool) (c : UpdateCoordinator) : UpdateCoordinator :=
  {| updating := b; payload_link := payload_link c; update_manifest := update_manifest c |}.
Definition set_link (l : option path) (c : UpdateCoordinator) : UpdateCoordinator :=
  {| updating := updating c; payload_link := l; update_manifest := update_manifest c |}.
Definition set_header (h : cstring) (c : UpdateCoordinator) : UpdateCoordinator :=
  {| updating := updating c; payload_link := payload_link c;
     update_manifest := {| header := h |} |}.

Definition on_coord (f : UpdateCoordinator → UpdateCoordinator) : C shared unit :=
  cput (λ s, set_coord (f (coord s)) s).
Definition log_line_ (l : log_line) : C shared unit := cput (add_line l).

Section methods.
Context `{FsEnv}.

Definition on_files {A} (m : C vfs A) : C shared A := λ s,
  match m (files s) with
  | Ok a f => Ok a (set_files f s)
  | Threw e f => Threw e (set_files f s)
  | Died h f => Died h (set_files f s)
  end.

(** [payload_link = std::move(link)]: the old object is destroyed last. *)
Definition assign_link (link : option path) : C shared unit :=
  old ← cget (λ s, payload_link (coord s));
  on_coord (set_link link);;
  match old with
  | Some p => on_files (PayloadHardLink_destroy p)
  | None => mret tt
  end.

(** *** [start], with the lock *)

Definition start_asserts (payload_path header_data : cstring) : C shared unit :=
  cassert (bool_decide (payload_path ≠ []));;
  cassert (bool_decide (header_data ≠ [])).

Definition start_flag : C shared unit :=
  on_coord (set_updating true);;
  log_line_ (Trace "starting update: updating flag = {}" (Some true)).

Definition start (payload_path header_data : cstring) : C shared unit :=
  noexcept
    (start_asserts payload_path header_data;;
     on_coord (set_header header_data);;
     link ← on_files (PayloadHardLink payload_path);
     assign_link (Some link);;
     start_flag).

(** *** [run], after the wait *)

Definition run_body : C shared unit :=
  flag ← cget (λ s, updating (coord s));
  log_line_ (Trace "run thread wakeup: updating flag = {}" (Some flag));;
  link ← cget (λ s, payload_link (coord s));
  match link with
  | None => die Aborted
  | Some p =>
      log_line_ (Info "call swupdate with payload {}" (PayloadHardLink_get p));;
      on_coord (set_updating false);;
      log_line_ (Trace "Removing payload hard link" None);;
      assign_link None
  end.

Definition manifest : C shared Manifest := cget (λ s, update_manifest (coord s)).
End methods.

(** ** The threads *)

(** Where a thread is inside [start]. *)
Inductive start_pc :=
| SEntered                (** before the lock *)
| SLocked
| SHeader                 (** the manifest is written *)
| SLinked (link : path)   (** the new object exists *)
| SAssigned               (** the old object is gone *)
| SFlagged
| SUnlocked.              (** before [notify_all] *)

(** Where the main thread is inside [run], and around it. *)
Inductive run_pc :=
| RLoop                   (** the condition of [while] in [main] *)
| REntered                (** before the lock *)
| RChecking               (** the predicate of [wait] *)
| RSleeping
| RWoken                  (** before [wait] locks again *)
| RRunning                (** after [wait] *)
| RUnlocking
| RExited.

#[export] Instance start_pc_eq_dec : EqDecision start_pc.
Proof. solve_decision. Defined.
#[export] Instance run_pc_eq_dec : EqDecision run_pc.
Proof. solve_decision. Defined.

Inductive owner := Runner | Starter (t : nat).

#[export] Instance owner_eq_dec : EqDecision owner.
Proof. solve_decision. Defined.

Record starter := { s_pc : start_pc; s_path : cstring; s_header : cstring }.

(** [sigint] is declared [static] in a header: the main program and the file
    of the handlers have a variable each. *)
Record system := {
  sh : shared;
  mutex : option owner;
  runner : run_pc;
  starters : gmap nat starter;
  main_sigint : Z;
  handlers_sigint : Z;
  dead : bool
}.

Inductive action :=
| ARpc (t : nat) (payload_path header_data : cstring)   (** the server calls [start] *)
| AStart (t : nat)                                      (** that thread goes on *)
| ARun                                                  (** the main thread goes on *)
| ASpurious                                             (** a spurious wakeup *)
| ASignal (sig : Z).                                    (** SIGINT is delivered *)

Definition update_sys (x : shared) (m : option owner) (r : run_pc) (ts : gmap nat starter)
    (s : system) : system :=
  {| sh := x; mutex := m; runner := r; starters := ts; main_sigint := main_sigint s;
     handlers_sigint := handlers_sigint s; dead := dead s |}.

Definition kill (x : shared) (s : system) : system :=
  {| sh := x; mutex := mutex s; runner := runner s; starters := starters s;
     main_sigint := main_sigint s; handlers_sigint := handlers_sigint s; dead := true |}.

Definition initial (f : vfs) : system := {|
  sh := {| coord := new_coordinator; files := f; logged := [] |};
  mutex := None; runner := RLoop; starters := ∅;
  main_sigint := 0; handlers_sigint := 0; dead := false |}.

Section threads.
Context `{FsEnv}.

(** A step of thread [t] to [pc'], after the code [m]; an exception leaves the
    [noexcept] function. *)
Definition start_step (s : system) (t : nat) (st : starter) {A} (m : C shared A)
    (mx : option owner) (pc' : A → start_pc) : option system :=
  match noexcept m (sh s) with
  | Ok a x =>
      Some (update_sys x mx (runner s)
              (<[t := {| s_pc := pc' a; s_path := s_path st; s_header := s_header st |}]>
                 (starters s)) s)
  | Threw _ x | Died _ x => Some (kill x s)
  end.

Definition notified (r : run_pc) : run_pc :=
  match r with RSleeping => RWoken | _ => r end.

Definition step_start (t : nat) (s : system) : option system :=
  match starters s !! t with
  | None => None
  | Some st =>
      match s_pc st with
      | SEntered =>
          match mutex s with
          | None => start_step s t st (mret tt) (Some (Starter t)) (λ _, SLocked)
          | Some _ => None
          end
      | SLocked =>
          start_step s t st (on_coord (set_header (s_header st))) (mutex s) (λ _, SHeader)
      | SHeader => start_step s t st (on_files (PayloadHardLink (s_path st))) (mutex s) SLinked
      | SLinked l => start_step s t st (assign_link (Some l)) (mutex s) (λ _, SAssigned)
      | SAssigned => start_step s t st start_flag (mutex s) (λ _, SFlagged)
      | SFlagged => start_step s t st (mret tt) None (λ _, SUnlocked)
      | SUnlocked =>
          Some (update_sys (sh s) (mutex s) (notified (runner s)) (delete t (starters s)) s)
      end
  end.

Definition waiting_trace (s : system) : shared :=
  add_line (Trace "run thread waiting: updating flag = {}" (Some (updating (coord (sh s)))))
    (sh s).

Definition step_run (s : system) : option system :=
  let go x m r := Some (update_sys x m r (starters s) s) in
  match runner s with
  | RLoop => if main_sigint s =? 0 then go (sh s) (mutex s) REntered
             else go (sh s) (mutex s) RExited
  | REntered =>
      match mutex s with
      | None => go (waiting_trace s) (Some Runner) RChecking
      | Some _ => None
      end
  | RChecking =>
      if updating (coord (sh s)) then go (sh s) (mutex s) RRunning
      else go (sh s) None RSleeping
  | RSleeping => None
  | RWoken =>
      match mutex s with
      | None => go (sh s) (Some Runner) RChecking
      | Some _ => None
      end
  | RRunning =>
      match run_body (sh s) with
      | Ok _ x => go x (mutex s) RUnlocking
      | Threw _ x | Died _ x => Some (kill x s)
      end
  | RUnlocking => go (sh s) None RLoop
  | RExited => None
  end.

Definition step_rpc (t : nat) (p h : cstring) (s : system) : option system :=
  match starters s !! t with
  | Some _ => None
  | None =>
      match start_asserts p h (sh s) with
      | Ok _ x =>
          Some (update_sys x (mutex s) (runner s)
                  (<[t := {| s_pc := SEntered; s_path := p; s_header := h |}]> (starters s)) s)
      | Threw _ x | Died _ x => Some (kill x s)
      end
  end.

(** The handler writes its own copy of the variable. *)
Definition deliver (sig : Z) (s : system) : system :=
  {| sh := sh s; mutex := mutex s; runner := runner s; starters := starters s;
     main_sigint := main_sigint s; handlers_sigint := sig; dead := dead s |}.

Definition exec (a : action) (s : system) : option system :=
  if dead s then None
  else match a with
       | ARpc t p h => step_rpc t p h s
       | AStart t => step_start t s
       | ARun => step_run s
       | ASpurious =>
           match runner s with
           | RSleeping => Some (update_sys (sh s) (mutex s) RWoken (starters s) s)
           | _ => None
           end
       | ASignal sig => Some (deliver sig s)
       end.

Definition step (s s' : system) : Prop := ∃ a, exec a s = Some s'.
Definition reachable (f : vfs) (s : system) : Prop := rtc step (initial f) s.

(** A schedule; nothing happens once the process is gone. *)
Fixpoint exec_all (l : list action) (s : system) : option system :=
  match l with
  | [] => Some s
  | a :: l' => if dead s then Some s else exec a s ≫= exec_all l'
  end.

Lemma exec_all_reachable f l s s' :
  reachable f s → exec_all l s = Some s' → reachable f s'.
Proof.
  revert s. induction l as [|a l IH]; intros s Hr; simpl; [by intros [= <-]|].
  destruct (dead s); [by intros [= <-]|].
  intros (s1 & Hs1 & H1)%bind_Some. eapply IH; [|done].
  eapply rtc_r; [done|]. by exists a.
Qed.
End threads.

(** One update through both threads. *)
Definition one_update : list action :=
  [ARun; ARun; ARun; ARpc 0 "/tmp/a.swu" "header"; AStart 0; AStart 0; AStart 0; AStart 0;
   AStart 0; AStart 0; AStart 0; ARun; ARun; ARun; ARun].

Example one_update_runs :
  option_map (λ s, (logged (sh s), files (sh s) !! ["tmp" : path; "updated" : path], dead s))
    (@exec_all reliable_fs one_update (initial demo_vfs)) =
  Some ([Trace "run thread waiting: updating flag = {}" (Some false);
         Trace "starting update: updating flag = {}" (Some true);
         Trace "run thread wakeup: updating flag = {}" (Some true);
         Info "call swupdate with payload {}" "/tmp/updated/a.swu";
         Trace "Removing payload hard link" None], None, false).
Proof. vm_compute. reflexivity. Qed.
