(* ===== verification/UpdatedCoordinatorProps.v ===== *)
(** * updated: properties of the update coordinator

    The invariant of the threads, the sequential methods as a refinement of
    their steps, the wakeups, and what two updates in a row do to the payload
    of the second. *)

From stdpp Require Import base gmap strings list relations.
From Stdlib Require Import ZArith Ascii Lia.
From S2P Require Import Prelude.
From S2P Require Import Cxx.
From S2P Require Import UpdatedPayload.
From S2P Require Import UpdatedPayloadProps.
From S2P Require Import UpdatedCoordinator.

Open Scope Z_scope.
Open Scope list_scope.

(** ** The invariant *)

Definition start_holds (pc : start_pc) : bool :=
  match pc with SEntered | SUnlocked => false | _ => true end.
Definition run_holds (r : run_pc) : bool :=
  match r with RChecking | RRunning | RUnlocking => true | _ => false end.

(** The flag says whether there is a payload. *)
Definition paired (c : UpdateCoordinator) : Prop :=
  updating c = true ↔ payload_link c ≠ None.

Definition at_pc (s : system) (t : nat) (pc : start_pc) : Prop :=
  ∃ st, starters s !! t = Some st ∧ s_pc st = pc.

Record inv (s : system) : Prop := {
  inv_start : ∀ t pc, at_pc s t pc → start_holds pc = true → mutex s = Some (Starter t);
  inv_run : run_holds (runner s) = true ↔ mutex s = Some Runner;
  inv_assigned : ∀ t, at_pc s t SAssigned → payload_link (coord (sh s)) ≠ None;
  inv_paired : (∀ t, ¬ at_pc s t SAssigned) → paired (coord (sh s));
  inv_running : runner s = RRunning → updating (coord (sh s)) = true;
  inv_wake : runner s = RSleeping → updating (coord (sh s)) = true →
             ∃ t, at_pc s t SFlagged ∨ at_pc s t SUnlocked;
  inv_signal : main_sigint s = 0 ∧ runner s ≠ RExited
}.

Definition live_inv (s : system) : Prop := dead s = false → inv s.

Section preservation.
Context `{FsEnv}.

(** What the code between two program points does to the members. *)
Lemma on_files_coord {A} (m : C vfs A) x a x' :
  on_files m x = Ok a x' → coord x' = coord x.
Proof. unfold on_files. destruct (m (files x)); naive_solver. Qed.

Lemma assign_link_coord l x a x' :
  assign_link l x = Ok a x' → coord x' = set_link l (coord x).
Proof.
  unfold assign_link, mbind, C_bind, cget, on_coord, cput.
  destruct (payload_link (coord x)); [|by intros [= _ <-]].
  intros H'. by apply on_files_coord in H'.
Qed.

Lemma run_body_coord x a x' :
  run_body x = Ok a x' →
  coord x' = set_link None (set_updating false (coord x)) ∧ payload_link (coord x) ≠ None.
Proof.
  unfold run_body, mbind, C_bind, cget, log_line_, cput; simpl.
  destruct (payload_link (coord x)) as [p|]; [|done].
  simpl. intros H'%assign_link_coord. by rewrite H'.
Qed.

Lemma noexcept_ok {S A} (m : C S A) s a s' : noexcept m s = Ok a s' → m s = Ok a s'.
Proof. unfold noexcept. by destruct (m s). Qed.

Lemma start_step_inv s t st {A} (m : C shared A) mx pc' s' :
  start_step s t st m mx pc' = Some s' →
  dead s' = true ∨
  ∃ a x, m (sh s) = Ok a x ∧
    s' = update_sys x mx (runner s)
           (<[t := {| s_pc := pc' a; s_path := s_path st; s_header := s_header st |}]>
              (starters s)) s.
Proof.
  unfold start_step. destruct (noexcept m (sh s)) as [a x| |] eqn:Hm; intros [= <-];
    [right|by left..]. exists a, x. by apply noexcept_ok in Hm.
Qed.

Lemma at_pc_insert s t st x mx r pc t' :
  at_pc (update_sys x mx r (<[t:=st]> (starters s)) s) t' pc ↔
  (t' = t ∧ s_pc st = pc) ∨ (t' ≠ t ∧ at_pc s t' pc).
Proof.
  unfold at_pc; simpl. split.
  - intros (st' & [[<- <-]|[? Hl]]%lookup_insert_Some & Hpc); eauto 10.
  - intros [[-> Hpc]|[Hne (st' & Hl & Hpc)]].
    + exists st. by rewrite lookup_insert_eq.
    + exists st'. by rewrite lookup_insert_ne.
Qed.

(** Two program points of one thread. *)
Lemma at_pc_det s t pc pc' : at_pc s t pc → at_pc s t pc' → pc = pc'.
Proof. intros (st&H1&<-) (st'&H2&<-). congruence. Qed.

Definition announced (pc : start_pc) : bool :=
  match pc with SFlagged | SUnlocked => true | _ => false end.

Lemma free_not_holding s t pc :
  inv s → mutex s = None → at_pc s t pc → start_holds pc = false.
Proof.
  intros Hi Hm Hpc. destruct (start_holds pc) eqn:Hh; [|done].
  apply (inv_start s Hi t pc Hpc) in Hh. congruence.
Qed.

(** Thread [t] goes from [pc] to [s_pc st], holding the mutex before, after,
    or both. *)
Lemma inv_move s t pc st x mx :
  inv s → at_pc s t pc →
  (start_holds pc = false → mutex s = None) →
  start_holds pc || start_holds (s_pc st) = true →
  mx = (if start_holds (s_pc st) then Some (Starter t) else None) →
  (pc ≠ SAssigned → paired (coord (sh s)) → paired (coord x) ∨ s_pc st = SAssigned) →
  (pc = SAssigned → payload_link (coord (sh s)) ≠ None → paired (coord x)) →
  (s_pc st = SAssigned → payload_link (coord x) ≠ None) →
  (updating (coord x) = true → updating (coord (sh s)) = true ∨ announced (s_pc st) = true) →
  (announced pc = true → announced (s_pc st) = true) →
  inv (update_sys x mx (runner s) (<[t:=st]> (starters s)) s).
Proof.
  intros Hi Hpc Hfree Hhold -> Hpair Hass Hlink Hupd Hann.
  assert (Hother : ∀ t' pc', t' ≠ t → at_pc s t' pc' → start_holds pc' = false).
  { intros t' pc' Hne Hpc'. destruct (start_holds pc') eqn:Hh'; [|done].
    apply (inv_start s Hi t' pc' Hpc') in Hh'. destruct (start_holds pc) eqn:Hh.
    - apply (inv_start s Hi t pc Hpc) in Hh. congruence.
    - specialize (Hfree eq_refl). congruence. }
  assert (Hrun : run_holds (runner s) = false).
  { destruct (run_holds (runner s)) eqn:Hr; [|done].
    apply (inv_run s Hi) in Hr. destruct (start_holds pc) eqn:Hh.
    - apply (inv_start s Hi t pc Hpc) in Hh. congruence.
    - specialize (Hfree eq_refl). congruence. }
  assert (Hsole : ∀ t', t' ≠ t → ¬ at_pc s t' SAssigned).
  { intros t' Hne Ha. by apply (Hother t' SAssigned) in Ha. }
  split; simpl.
  - intros t' pc' [[-> <-]|[Hne H']]%at_pc_insert Hh; [by rewrite Hh|].
    rewrite (Hother t' pc') in Hh by done. done.
  - rewrite Hrun. split; [done|]. by case_match.
  - intros t' [[-> ?]|[Hne H']]%at_pc_insert; [auto|]. by apply Hsole in H'.
  - intros Hno. destruct (decide (pc = SAssigned)) as [->|Hn].
    + apply Hass; [done|]. by apply (inv_assigned s Hi t).
    + destruct Hpair as [|Hs]; [done| |done|].
      * apply (inv_paired s Hi). intros t' Ha. destruct (decide (t' = t)) as [->|Hne].
        -- by apply Hn, (at_pc_det s t).
        -- by apply (Hsole t').
      * exfalso. apply (Hno t), at_pc_insert. by left.
  - intros Hr. by rewrite Hr in Hrun.
  - intros Hsl Hu. destruct (Hupd Hu) as [Hu'|Ha].
    + destruct (inv_wake s Hi Hsl Hu') as (t' & Ht').
      destruct (decide (t' = t)) as [->|Hne].
      * exists t. rewrite !at_pc_insert.
        destruct Ht' as [Ht'|Ht'].
        -- rewrite (at_pc_det s t _ _ Hpc Ht') in Hann. specialize (Hann eq_refl).
           destruct (s_pc st) eqn:?; try done; naive_solver.
        -- rewrite (at_pc_det s t _ _ Hpc Ht') in Hann. specialize (Hann eq_refl).
           destruct (s_pc st) eqn:?; try done; naive_solver.
      * exists t'. rewrite !at_pc_insert. naive_solver.
    + exists t. rewrite !at_pc_insert. destruct (s_pc st) eqn:?; try done; naive_solver.
  - apply (inv_signal s Hi).
Qed.

Lemma inv_step_start s t s' : inv s → step_start t s = Some s' → live_inv s'.
Proof.
  intros Hi Hs. unfold step_start in Hs.
  destruct (starters s !! t) as [st|] eqn:Hst; [|done].
  assert (Hat : at_pc s t (s_pc st)) by by exists st.
  destruct (s_pc st) eqn:Hpc.
  - destruct (mutex s) eqn:Hm; [done|].
    apply start_step_inv in Hs as [Hd|(a & x & [= <- <-] & ->)]; [by intros ?; congruence|].
    intros _. eapply inv_move; simpl; eauto; try done; tauto.
  - apply start_step_inv in Hs as [Hd|(a & x & [= <- <-] & ->)]; [by intros ?; congruence|].
    intros _. eapply inv_move; simpl; eauto; try done; try tauto.
    by apply (inv_start s Hi t SLocked).
  - apply start_step_inv in Hs as [Hd|(a & x & Hx & ->)]; [by intros ?; congruence|].
    apply on_files_coord in Hx.
    intros _. eapply inv_move; simpl; eauto; rewrite ?Hx; try done; try tauto.
    by apply (inv_start s Hi t SHeader).
  - apply start_step_inv in Hs as [Hd|(a & x & Hx & ->)]; [by intros ?; congruence|].
    apply assign_link_coord in Hx.
    intros _. eapply inv_move; simpl; eauto; rewrite ?Hx; try done; try tauto.
    by apply (inv_start s Hi t (SLinked link)).
  - apply start_step_inv in Hs as [Hd|(a & x & [= <- <-] & ->)]; [by intros ?; congruence|].
    intros _. eapply inv_move; simpl; eauto; try done; try tauto.
    by apply (inv_start s Hi t SAssigned).
  - apply start_step_inv in Hs as [Hd|(a & x & [= <- <-] & ->)]; [by intros ?; congruence|].
    intros _. eapply inv_move; simpl; eauto; try done; tauto.
  - injection Hs as <-. intros _.
    assert (Hdel : ∀ t' pc, at_pc (update_sys (sh s) (mutex s) (notified (runner s))
              (delete t (starters s)) s) t' pc ↔ t' ≠ t ∧ at_pc s t' pc).
    { intros t' pc. unfold at_pc; simpl. setoid_rewrite lookup_delete_Some. naive_solver. }
    destruct Hi as [I1 I2 I3 I4 I5 I6 I7]. split; simpl.
    + intros t' pc [_ H']%Hdel. by apply I1.
    + by destruct (runner s).
    + intros t' [_ H']%Hdel. by eapply I3.
    + intros Hno. apply I4. intros t' Ha. apply (Hno t'), Hdel. split; [|done].
      intros ->. by pose proof (at_pc_det s t _ _ Hat Ha).
    + destruct (runner s); naive_solver.
    + by destruct (runner s).
    + destruct I7. split; [done|]. by destruct (runner s).
Qed.

(** No thread is between two program points of [start] while the main thread
    has the mutex. *)
Lemma runner_alone s t pc :
  inv s → mutex s = Some Runner → at_pc s t pc → start_holds pc = false.
Proof.
  intros Hi Hm Hpc. destruct (start_holds pc) eqn:Hh; [|done].
  apply (inv_start s Hi t pc Hpc) in Hh. congruence.
Qed.

Lemma paired_quiet s :
  inv s → mutex s = None ∨ mutex s = Some Runner → paired (coord (sh s)).
Proof.
  intros Hi Hm. apply (inv_paired s Hi). intros t Ha.
  destruct Hm as [Hm|Hm].
  - by apply free_not_holding in Ha.
  - by apply runner_alone in Ha.
Qed.

(** The main thread moves from [r] to [r'] and only changes the members. *)
Lemma inv_runner_move s x mx r' :
  inv s → (mutex s = None ∨ mutex s = Some Runner) → (mx = None ∨ mx = Some Runner) →
  (run_holds r' = true ↔ mx = Some Runner) →
  paired (coord x) → (r' = RRunning → updating (coord x) = true) →
  (r' = RSleeping → updating (coord x) = false) → r' ≠ RExited →
  inv (update_sys x mx r' (starters s) s).
Proof.
  intros Hi Hm Hmx Hh Hp Hr Hsl Hx.
  assert (Hnone : ∀ t pc, at_pc s t pc → start_holds pc = false).
  { intros t pc Hpc. destruct Hm; [by eapply free_not_holding|by eapply runner_alone]. }
  split; simpl; try done.
  - intros t pc Hpc Hho. by rewrite (Hnone t pc) in Hho.
  - intros t Ha. by apply Hnone in Ha.
  - intros Hs Hu. rewrite Hsl in Hu; done.
  - split; [apply (inv_signal s Hi)|done].
Qed.

Lemma inv_step_run s s' : inv s → step_run s = Some s' → live_inv s'.
Proof.
  intros Hi Hs. unfold step_run in Hs. pose proof (inv_signal s Hi) as [Hsig Hex].
  destruct (runner s) eqn:Hr; try done.
  - rewrite Hsig in Hs. injection Hs as <-. intros _.
    assert (mutex s ≠ Some Runner) as Hm.
    { intros Hm%(inv_run s Hi). by rewrite Hr in Hm. }
    destruct Hi as [I1 I2 I3 I4 I5 I6 I7]. by split; simpl; try done; split.
  - destruct (mutex s) eqn:Hm; [done|]. injection Hs as <-. intros _.
    apply inv_runner_move; simpl; auto; try done. apply paired_quiet; auto.
  - assert (mutex s = Some Runner) as Hm by (apply (inv_run s Hi); by rewrite Hr).
    destruct (updating (coord (sh s))) eqn:Hu; injection Hs as <-; intros _;
      apply inv_runner_move; simpl; auto; try done; apply paired_quiet; auto.
  - destruct (mutex s) eqn:Hm; [done|]. injection Hs as <-. intros _.
    apply inv_runner_move; simpl; auto; try done. apply paired_quiet; auto.
  - assert (mutex s = Some Runner) as Hm by (apply (inv_run s Hi); by rewrite Hr).
    destruct (run_body (sh s)) as [a x| |] eqn:Hb; injection Hs as <-; [|by intros ?..].
    intros _. apply run_body_coord in Hb as [Hx _].
    apply inv_runner_move; simpl; auto; try done. by rewrite Hx.
  - assert (mutex s = Some Runner) as Hm by (apply (inv_run s Hi); by rewrite Hr).
    injection Hs as <-. intros _.
    apply inv_runner_move; simpl; auto; try done. apply paired_quiet; auto.
Qed.

Lemma start_asserts_shared p h x a x' : start_asserts p h x = Ok a x' → x' = x.
Proof.
  unfold start_asserts, cassert, mbind, C_bind.
  destruct (bool_decide (p ≠ [])); [|done]. destruct (bool_decide (h ≠ [])); [|done].
  by intros [= <-].
Qed.

Lemma inv_step_rpc t p h s s' : inv s → step_rpc t p h s = Some s' → live_inv s'.
Proof.
  intros Hi Hs. unfold step_rpc in Hs. destruct (starters s !! t) eqn:Ht; [done|].
  destruct (start_asserts p h (sh s)) as [a x| |] eqn:Ha; injection Hs as <-;
    [|by intros ?..].
  intros _. apply start_asserts_shared in Ha as ->.
  assert (Hno : ∀ pc, ¬ at_pc s t pc) by (intros pc (st & Hst & _); congruence).
  destruct Hi as [I1 I2 I3 I4 I5 I6 I7]. split; simpl; try done.
  - intros t' pc [[-> <-]|[_ H']]%at_pc_insert; [done|by apply I1].
  - intros t' [[-> ?]|[_ H']]%at_pc_insert; [done|by eapply I3].
  - intros Hnone. apply I4. intros t' Ha. destruct (decide (t' = t)) as [->|Hne].
    + by apply (Hno SAssigned).
    + apply (Hnone t'), at_pc_insert. by right.
  - intros Hr Hu. destruct (I6 Hr Hu) as (t' & Ht'). exists t'. rewrite !at_pc_insert.
    destruct (decide (t' = t)) as [->|Hne]; [|naive_solver].
    exfalso. destruct Ht' as [Ht'|Ht']; by eapply Hno.
Qed.

Lemma inv_step s s' : live_inv s → step s s' → live_inv s'.
Proof.
  intros Hi (a & Ha). unfold exec in Ha. destruct (dead s) eqn:Hd; [done|].
  specialize (Hi Hd). destruct a.
  - by eapply inv_step_rpc.
  - by eapply inv_step_start.
  - by eapply inv_step_run.
  - destruct (runner s) eqn:Hr; try done. injection Ha as <-. intros _.
    assert (Hh := inv_run s Hi). rewrite Hr in Hh.
    destruct Hi as [I1 I2 I3 I4 I5 I6 [I7 I8]]. by split.
  - injection Ha as <-. intros _. destruct Hi as [I1 I2 I3 I4 I5 I6 I7]. by split.
Qed.

Lemma inv_initial f : inv (initial f).
Proof.
  split; simpl; try done.
  - by intros t pc (st & Hst & _).
  - by intros t (st & Hst & _).
Qed.

Lemma inv_reachable f s : reachable f s → dead s = false → inv s.
Proof.
  intros Hr. change (live_inv s). eapply invariant_reachable, Hr.
  - intros _. apply inv_initial.
  - apply inv_step.
Qed.
End preservation.

(** ** Properties of the threads *)

Section properties.
Context `{FsEnv}.

Lemma destroy_ok p t : (∀ q, fs_fails q = None) → ∃ t', PayloadHardLink_destroy p t = Ok tt t'.
Proof.
  intros Hok. unfold PayloadHardLink_destroy, noexcept, mbind, C_bind, cget.
  destruct (exists_ t _); [|by eexists].
  unfold call, remove_all. rewrite Hok. by eexists.
Qed.

Lemma run_body_ok x p :
  (∀ q, fs_fails q = None) → payload_link (coord x) = Some p →
  ∃ x', run_body x = Ok tt x'.
Proof.
  intros Hok Hp. destruct (destroy_ok p (files x) Hok) as [t' Ht'].
  unfold run_body, assign_link, on_coord, log_line_, cput, mbind, C_bind, cget; simpl.
  rewrite Hp. simpl. rewrite Hp. unfold on_files; simpl. rewrite Ht'. by eexists.
Qed.

(** C13: whatever the server's threads do, the main thread finds a payload
    when it wakes up to run an update: the assertion of [run] never fails, and
    where the file system works [run] never ends the process. *)
Theorem run_always_finds_payload f s :
  reachable f s → dead s = false → runner s = RRunning →
  updating (coord (sh s)) = true ∧ payload_link (coord (sh s)) ≠ None ∧
  ((∀ q, fs_fails q = None) → ∃ s', exec ARun s = Some s' ∧ dead s' = false ∧
     updating (coord (sh s')) = false ∧ payload_link (coord (sh s')) = None).
Proof.
  intros Hr Hd Hrun. pose proof (inv_reachable f s Hr Hd) as Hi.
  assert (mutex s = Some Runner) as Hm by (apply (inv_run s Hi); by rewrite Hrun).
  assert (updating (coord (sh s)) = true) as Hu by by apply (inv_running s Hi).
  assert (payload_link (coord (sh s)) ≠ None) as Hl by (apply paired_quiet; auto).
  split_and!; [done..|]. intros Hok.
  destruct (payload_link (coord (sh s))) as [p|] eqn:Hp; [|done].
  destruct (run_body_ok (sh s) p Hok Hp) as [x' Hx'].
  apply run_body_coord in Hx' as Hc. destruct Hc as [Hc _].
  eexists. unfold exec. rewrite Hd. unfold step_run. rewrite Hrun, Hx'.
  split; [reflexivity|]. simpl. by rewrite Hc.
Qed.

(** A schedule runs by evaluation. *)
Ltac main_steps :=
  cbn [replicate exec_all]; unfold exec, step_start, step_run, update_sys;
  repeat match goal with
         | H : ?l = _ |- context [?l] => progress (rewrite H; simpl)
         end; done.

(** C28: no wakeup is lost: when an update was started and the mutex is free,
    at most three steps of the main thread and of a thread that is about to
    notify lead to [run] handling it. *)
Theorem started_update_is_run f s :
  reachable f s → dead s = false → updating (coord (sh s)) = true → mutex s = None →
  ∃ l s', Forall (λ a, a = ARun ∨ ∃ t, a = AStart t) l ∧ (length l ≤ 3)%nat ∧
          exec_all l s = Some s' ∧ runner s' = RRunning ∧ dead s' = false.
Proof.
  intros Hr Hd Hu Hm. pose proof (inv_reachable f s Hr Hd) as Hi.
  pose proof (inv_signal s Hi) as [Hsig Hex].
  assert (Hnot : run_holds (runner s) = false).
  { destruct (run_holds (runner s)) eqn:He; [|done]. apply (inv_run s Hi) in He. congruence. }
  assert (Hrun : ∀ n, Forall (λ a, a = ARun ∨ ∃ t, a = AStart t) (replicate n ARun)).
  { intros n. apply Forall_replicate. by left. }
  destruct (runner s) eqn:Hrn; try done.
  - exists (replicate 3 ARun). eexists. split; [apply Hrun|]. split; [simpl; lia|].
    main_steps.
  - exists (replicate 2 ARun). eexists. split; [apply Hrun|]. split; [simpl; lia|].
    main_steps.
  - destruct (inv_wake s Hi) as (t & Ht); [done..|].
    destruct Ht as [Ht|(st & Hst & Hpc)].
    { apply free_not_holding in Ht; done. }
    exists (AStart t :: replicate 2 ARun). eexists. split; [constructor; eauto|].
    split; [simpl; lia|].
    main_steps.
  - exists (replicate 2 ARun). eexists. split; [apply Hrun|]. split; [simpl; lia|].
    main_steps.
Qed.

(** The state where thread [t] is at [pc] of [start p h]. *)
Definition thread_at (s : system) (t : nat) (p h : cstring) (x : shared)
    (mx : option owner) (pc : start_pc) : system :=
  update_sys x mx (runner s)
    (<[t := {| s_pc := pc; s_path := p; s_header := h |}]> (starters s)) s.

Lemma exec_start_at s t p h x mx pc :
  dead s = false →
  exec (AStart t) (thread_at s t p h x mx pc) =
    step_start t (thread_at s t p h x mx pc).
Proof. intros Hd. unfold exec. simpl. by rewrite Hd. Qed.

Lemma start_step_at s t p h x mx pc {A} (m : C shared A) mx' pc' :
  start_step (thread_at s t p h x mx pc) t {| s_pc := pc; s_path := p; s_header := h |}
    m mx' pc' =
  match noexcept m x with
  | Ok a x' => Some (thread_at s t p h x' mx' (pc' a))
  | Threw _ x' | Died _ x' => Some (kill x' (thread_at s t p h x mx pc))
  end.
Proof.
  unfold start_step, thread_at; simpl. destruct (noexcept m x); [|done..].
  unfold update_sys; simpl. by rewrite insert_insert_eq.
Qed.

Lemma mutex_at s t p h x mx pc : mutex (thread_at s t p h x mx pc) = mx.
Proof. reflexivity. Qed.

(** One more step of the schedule. *)
Ltac thread_step :=
  cbn [replicate exec_all mbind option_bind];
  match goal with
  | Hd : dead ?s = false |- context [dead (thread_at ?s ?t ?p ?h ?x ?mx ?pc)] =>
      change (dead (thread_at s t p h x mx pc)) with (dead s); rewrite Hd
  end;
  rewrite exec_start_at by done; unfold step_start at 1; cbn [thread_at update_sys starters];
  rewrite lookup_insert_eq; cbn [s_pc s_path s_header]; rewrite ?mutex_at, ?start_step_at.

(** without interference, the steps of a server thread compute what the
    method [start] computes, free the mutex and wake the main thread; when
    [start] ends the process, so do they. *)
Theorem start_refines s t p h :
  dead s = false → mutex s = None → starters s !! t = None →
  ∃ s', exec_all (ARpc t p h :: replicate 7 (AStart t)) s = Some s' ∧
    match start p h (sh s) with
    | Ok _ x => s' = update_sys x None (notified (runner s)) (starters s) s
    | Died _ x => dead s' = true ∧ sh s' = x
    | Threw _ _ => False
    end.
Proof.
  intros Hd Hm Ht. cbn [exec_all]. rewrite Hd.
  unfold exec at 1. rewrite Hd. unfold step_rpc. rewrite Ht.
  unfold start. rewrite noexcept_bind.
  destruct (start_asserts p h (sh s)) as [[] x| |] eqn:Ha.
  2:{ exfalso. revert Ha. unfold start_asserts, mbind, C_bind, cassert.
      destruct (bool_decide _); [|done]. by destruct (bool_decide _). }
  2:{ cbn [mbind option_bind replicate exec_all dead kill]. by eexists. }
  apply start_asserts_shared in Ha as ->. rewrite noexcept_bind.
  rewrite Hm. fold (thread_at s t p h (sh s) None SEntered).
  thread_step. cbn [noexcept mret C_ret]. thread_step.
  set (x1 := set_coord (set_header h (coord (sh s))) (sh s)).
  change (on_coord (set_header h) (sh s)) with (Ok tt x1).
  change (noexcept (on_coord (set_header h)) (sh s)) with (Ok tt x1).
  cbn iota. rewrite noexcept_bind. thread_step. unfold noexcept at 1.
  destruct (on_files (PayloadHardLink p) x1) as [l x2| |]; [|by eexists..].
  rewrite noexcept_bind. thread_step. unfold noexcept at 1.
  destruct (assign_link (Some l) x2) as [u x3| |]; [|by eexists..].
  thread_step. destruct (noexcept start_flag x3) as [[] x4| |] eqn:Hf; [|done..].
  thread_step. cbn [noexcept mret C_ret]. thread_step.
  eexists. split; [reflexivity|]. unfold thread_at, update_sys; simpl.
  by rewrite delete_insert_id.
Qed.

(** SIGINT does not end the daemon: the main thread never leaves its
    loop, whatever signals are delivered, since the handler writes another
    variable than the one the loop reads. *)
Theorem main_never_exits f s :
  reachable f s → dead s = false → main_sigint s = 0 ∧ runner s ≠ RExited.
Proof. intros Hr Hd. apply (inv_signal s). by eapply inv_reachable. Qed.
End properties.

Section two_updates.
Context `{FsEnv} (Hok : ∀ p, fs_fails p = None).
Context (ds : list path) (Hds : Forall good_name ds).

Lemma source_not_below f : f ≠ updated_name → ¬ link_tree ds `prefix_of` ds ++ [f].
Proof using.
  intros Hne [r Hr]. unfold link_tree in Hr. rewrite <-(assoc_L (++)) in Hr.
  apply (inj (ds ++.)) in Hr. injection Hr as Hr _. done.
Qed.

Lemma linked_dirs t f i : dirs_exist t ds → dirs_exist (linked t ds f i) ds.
Proof using.
  intros Hd k Hk. specialize (Hd k Hk). unfold node_at in *.
  destruct (take k ds) eqn:He; [done|]. rewrite <-He in *.
  rewrite lookup_linked_other; [done|]. unfold link_tree.
  apply not_prefix_shorter. rewrite length_take. lia.
Qed.

(** What [start] leaves when it returns. *)
Definition started (f : path) (i : nat) (h : cstring) (x : shared) : shared :=
  {| coord := {| updating := true; payload_link := Some (link_of ds f);
                 update_manifest := {| header := h |} |};
     files := match payload_link (coord x) with
              | None => linked (files x) ds f i
              | Some _ => delete_tree (files x) (link_tree ds)
              end;
     logged := logged x ++ [Trace "starting update: updating flag = {}" (Some true)] |}.

(** The object holds nothing, or a link beside sources of this directory. *)
Definition holds_link_here (x : shared) : Prop :=
  match payload_link (coord x) with
  | None => True
  | Some p => ∃ f, good_name f ∧ p = link_of ds f
  end.

Lemma start_run f i h x :
  good_name f → f ≠ updated_name → h ≠ [] → holds_link_here x →
  vfs_wf (files x) → dirs_exist (files x) ds → files x !! (ds ++ [f]) = Some (VFile i) →
  start (source_of ds f) h x = Ok tt (started f i h x).
Proof using Hok Hds.
  intros Hf Hne Hh Hhere Hwf Hd Hfile. unfold start.
  rewrite noexcept_bind.
  assert (start_asserts (source_of ds f) h x = Ok tt x) as ->.
  { assert (source_of ds f ≠ []) as Hs.
    { unfold source_of. rewrite abs_path_snoc. by destruct (abs_path ds). }
    unfold start_asserts, cassert, mbind, C_bind.
    by rewrite !bool_decide_eq_true_2 by done. }
  rewrite noexcept_bind. cbn [on_coord cput]. rewrite noexcept_bind.
  unfold on_files at 1. cbn [files set_coord].
  rewrite (create_run Hok ds f Hds Hf (files x) i) by done.
  rewrite noexcept_bind. unfold assign_link, holds_link_here, started in *.
  erewrite cbind_ok by reflexivity. erewrite cbind_ok by reflexivity.
  cbn [coord files set_files set_coord set_header set_link payload_link].
  destruct (payload_link (coord x)) as [p|]; [|reflexivity].
  destruct Hhere as (f0 & Hf0 & ->). unfold on_files. cbn [files].
  rewrite destroy_run by (done || by apply linked_wf).
  cbn [files set_files set_coord]. by rewrite delete_linked.
Qed.

(** C39: of two updates that start before the main thread ran, from payloads
    in one directory, the second one's hard link is deleted together with the
    first one's: [run] then hands swupdate a path that does not exist. *)
Theorem second_start_loses_payload f1 f2 i1 i2 h1 h2 x :
  good_name f1 → good_name f2 → f1 ≠ updated_name → f2 ≠ updated_name →
  h1 ≠ [] → h2 ≠ [] → payload_link (coord x) = None →
  vfs_wf (files x) → dirs_exist (files x) ds →
  files x !! (ds ++ [f1]) = Some (VFile i1) → files x !! (ds ++ [f2]) = Some (VFile i2) →
  ∃ x', (start (source_of ds f1) h1;; start (source_of ds f2) h2) x = Ok tt x' ∧
    updating (coord x') = true ∧ payload_link (coord x') = Some (link_of ds f2) ∧
    exists_ (files x') (link_of ds f2) = false ∧ header (update_manifest (coord x')) = h2.
Proof using Hok Hds.
  intros Hf1 Hf2 Hne1 Hne2 Hh1 Hh2 Hnone Hwf Hd Hx1 Hx2.
  assert (files (started f1 i1 h1 x) = linked (files x) ds f1 i1) as Hfiles.
  { unfold started. simpl. by rewrite Hnone. }
  erewrite cbind_ok by (apply (start_run f1 i1); try done; unfold holds_link_here;
                        by rewrite Hnone).
  rewrite (start_run f2 i2); try done.
  - eexists. split; [done|]. split_and!; [done|done| |done].
    unfold exists_. rewrite resolve_link by done. unfold node_at, started at 1. simpl.
    destruct (ds ++ [updated_name; f2]) eqn:He; [by destruct ds|]. rewrite <-He.
    rewrite lookup_delete_tree, decide_True; [done|apply link_below].
  - by exists f1.
  - rewrite Hfiles. by apply linked_wf.
  - rewrite Hfiles. by apply linked_dirs.
  - rewrite Hfiles, lookup_linked_other; [done|]. by apply source_not_below.
Qed.
End two_updates.

(** ** The properties on a concrete schedule *)

Section witnesses.
#[local] Existing Instance reliable_fs.

Definition run_schedule (l : list action) : system :=
  default (initial demo_vfs) (exec_all l (initial demo_vfs)).

Definition runs (l : list action) : bool :=
  match exec_all l (initial demo_vfs) with Some _ => true | None => false end.

Lemma schedule_reachable l : runs l = true → reachable demo_vfs (run_schedule l).
Proof.
  unfold run_schedule, runs. intros Hl. destruct (exec_all l (initial demo_vfs)) as [s|] eqn:He;
    [|done]. eapply exec_all_reachable, He. apply rtc_refl.
Qed.

(** The main thread is about to run the update. *)
Definition at_run : list action := take 13 one_update.
(** It sleeps, and the server's thread has left the mutex. *)
Definition before_notify : list action := take 10 one_update.

Lemma schedules_run :
  runs at_run = true ∧ runs before_notify = true.
Proof. split; vm_compute; reflexivity. Qed.

Lemma run_always_finds_payload_witness :
  updating (coord (sh (run_schedule at_run))) = true ∧
  payload_link (coord (sh (run_schedule at_run))) ≠ None ∧
  ((∀ q, fs_fails q = None) → ∃ s', exec ARun (run_schedule at_run) = Some s' ∧
     dead s' = false ∧ updating (coord (sh s')) = false ∧
     payload_link (coord (sh s')) = None).
Proof.
  apply (run_always_finds_payload demo_vfs);
    [apply schedule_reachable, schedules_run|vm_compute; reflexivity..].
Defined.

Lemma started_update_is_run_witness :
  ∃ l s', Forall (λ a, a = ARun ∨ ∃ t, a = AStart t) l ∧ (length l ≤ 3)%nat ∧
          exec_all l (run_schedule before_notify) = Some s' ∧ runner s' = RRunning ∧
          dead s' = false.
Proof.
  apply (started_update_is_run demo_vfs);
    [apply schedule_reachable, schedules_run|vm_compute; reflexivity..].
Defined.

Lemma start_refines_witness :
  ∃ s', exec_all (ARpc 0 "/tmp/a.swu" "h" :: replicate 7 (AStart 0)) (initial demo_vfs)
          = Some s' ∧
    match start "/tmp/a.swu" "h" (sh (initial demo_vfs)) with
    | Ok _ x => s' = update_sys x None (notified RLoop) ∅ (initial demo_vfs)
    | Died _ x => dead s' = true ∧ sh s' = x
    | Threw _ _ => False
    end.
Proof. exact (start_refines (initial demo_vfs) 0 "/tmp/a.swu" "h" eq_refl eq_refl eq_refl). Defined.

Definition signalled : list action := [ARun; ASignal 2; ARun; ARun].

Lemma main_never_exits_witness :
  main_sigint (run_schedule signalled) = 0 ∧ runner (run_schedule signalled) ≠ RExited.
Proof.
  apply (main_never_exits demo_vfs); [apply schedule_reachable|]; vm_compute; reflexivity.
Defined.

Definition b_swu : path := "b.swu".

Lemma second_start_loses_payload_witness :
  ∃ x', (start "/tmp/a.swu" "h1";; start "/tmp/b.swu" "h2") (sh (initial demo_vfs)) = Ok tt x' ∧
    updating (coord x') = true ∧ payload_link (coord x') = Some ("/tmp/updated/b.swu" : path) ∧
    exists_ (files x') "/tmp/updated/b.swu" = false ∧
    header (update_manifest (coord x')) = "h2".
Proof.
  apply (second_start_loses_payload reliable_ok tmp_dir tmp_good a_swu b_swu 7 8 "h1" "h2"
           (sh (initial demo_vfs))); try done; try apply demo_vfs_wf; try apply demo_dirs;
    try (apply (bool_decide_unpack _); vm_compute; exact I).
Defined.
End witnesses.
