(* ===== verification/UpdatedAtomic.v ===== *)
(** * updated: the threads refine an atomic service

    What the coordinator promises its callers is a service whose methods run
    one at a time. This file states that service and shows that the machine of
    [UpdatedCoordinator], in every interleaving, is one of its runs: the
    methods take effect in the order in which the threads get the mutex. *)

From stdpp Require Import base gmap strings list relations.
From Stdlib Require Import ZArith Ascii Lia.
From S2P Require Import Prelude.
From S2P Require Import Cxx.
From S2P Require Import UpdatedPayload.
From S2P Require Import UpdatedCoordinator.
From S2P Require Import UpdatedCoordinatorProps.

Open Scope Z_scope.
Open Scope list_scope.

(** ** The atomic service *)

(** The calls: an update is started, the main thread announces that it waits,
    the main thread handles an update. *)
Inductive op := OStart (payload_path header_data : cstring) | OWait | ORun.

#[export] Instance op_eq_dec : EqDecision op.
Proof. solve_decision. Defined.

(** The state the methods share, or the process has ended. *)
Inductive service := Live (x : shared) | Gone.

Definition settle {A} (r : cres shared A) : service :=
  match r with Ok _ x => Live x | _ => Gone end.

Section service.
Context `{FsEnv}.

(** [None]: the call waits. An update is handled only when there is one. *)
Definition serve1 (o : op) (x : shared) : option service :=
  match o with
  | OStart p h => Some (settle (start p h x))
  | OWait =>
      Some (Live (add_line (Trace "run thread waiting: updating flag = {}"
                              (Some (updating (coord x)))) x))
  | ORun => if updating (coord x) then Some (settle (run_body x)) else None
  end.

Fixpoint serve (ops : list op) (a : service) : option service :=
  match ops, a with
  | [], _ => Some a
  | _, Gone => Some Gone
  | o :: ops', Live x => serve1 o x ≫= serve ops'
  end.

Lemma serve_gone ops : serve ops Gone = Some Gone.
Proof. by destruct ops. Qed.

Lemma serve_app ops ops' a : serve (ops ++ ops') a = serve ops a ≫= serve ops'.
Proof.
  revert a. induction ops as [|o ops IH]; intros [x|]; simpl; try done.
  - destruct (serve1 o x) as [a|]; simpl; [apply IH|done].
  - by rewrite serve_gone.
Qed.

(** ** Where a schedule makes the calls *)

Definition bad_request (p h : cstring) : bool :=
  bool_decide (p = []) || bool_decide (h = []).

Definition calls1 (a : action) (s : system) : list op :=
  match a with
  | ARpc t p h => if bad_request p h then [OStart p h] else []
  | AStart t =>
      match starters s !! t with
      | Some st => if decide (s_pc st = SEntered) then [OStart (s_path st) (s_header st)] else []
      | None => []
      end
  | ARun => match runner s with REntered => [OWait] | RRunning => [ORun] | _ => [] end
  | _ => []
  end.

Fixpoint calls (l : list action) (s : system) : list op :=
  match l with
  | [] => []
  | a :: l' =>
      if dead s then []
      else match exec a s with
           | Some s' => calls1 a s ++ calls l' s'
           | None => []
           end
  end.

(** ** The simulation *)

(** What a thread inside [start] has still to do. *)
Definition rest (st : starter) : C shared unit :=
  match s_pc st with
  | SLocked =>
      on_coord (set_header (s_header st));;
      link ← on_files (PayloadHardLink (s_path st));
      assign_link (Some link);; start_flag
  | SHeader =>
      link ← on_files (PayloadHardLink (s_path st));
      assign_link (Some link);; start_flag
  | SLinked link => assign_link (Some link);; start_flag
  | SAssigned => start_flag
  | _ => mret tt
  end.

(** The state of the service that stands for a state of the machine: the one
    the holder of the mutex will leave. *)
Definition stands_for (s : system) (a : service) : Prop :=
  if dead s then a = Gone
  else match mutex s with
       | Some (Starter t) =>
           ∃ st, starters s !! t = Some st ∧ start_holds (s_pc st) = true ∧
                 settle (rest st (sh s)) = a
       | _ => Live (sh s) = a
       end.

(** The requests that passed the assertions. *)
Definition asked (s : system) : Prop :=
  ∀ t st, starters s !! t = Some st → bad_request (s_path st) (s_header st) = false.

Lemma start_asserts_spec p h x :
  start_asserts p h x = if bad_request p h then Died Aborted x else Ok tt x.
Proof.
  unfold start_asserts, bad_request, mbind, C_bind, cassert.
  by destruct (bool_decide_reflect (p = [])), (bool_decide_reflect (h = []));
    rewrite ?bool_decide_true, ?bool_decide_false by congruence; simplify_eq/=.
Qed.

Lemma settle_noexcept {A} (m : C shared A) x : settle (noexcept m x) = settle (m x).
Proof. unfold noexcept. by destruct (m x). Qed.

Lemma start_settles p h x :
  bad_request p h = false →
  settle (start p h x) =
    settle (rest {| s_pc := SLocked; s_path := p; s_header := h |} x).
Proof.
  intros Hb. unfold start. rewrite settle_noexcept, cbind_cases, start_asserts_spec, Hb.
  reflexivity.
Qed.

Lemma bad_start_settles p h x : bad_request p h = true → settle (start p h x) = Gone.
Proof.
  intros Hb. unfold start. by rewrite settle_noexcept, cbind_cases, start_asserts_spec, Hb.
Qed.

(** One step of a thread that holds the mutex. *)
Lemma start_step_simulates s t st a {A} (m : C shared A) mx pc' s' :
  dead s = false →
  (∀ x, settle (rest st x) =
        settle ((v ← m; rest {| s_pc := pc' v; s_path := s_path st; s_header := s_header st |}) x)) →
  (mx = Some (Starter t) ∧ (∀ v, start_holds (pc' v) = true) ∨
   mx = None ∧ ∀ v, pc' v = SUnlocked) →
  settle (rest st (sh s)) = a → start_step s t st m mx pc' = Some s' → stands_for s' a.
Proof.
  intros Hd Hrest Hmx <- Hs. rewrite Hrest, cbind_cases. unfold start_step, noexcept in Hs.
  destruct (m (sh s)) as [v x|e x|e x]; injection Hs as <-; [|done..].
  unfold stands_for. cbn [dead update_sys mutex starters sh]. rewrite Hd.
  destruct Hmx as [[-> Hv]|[-> Hv]]; [|rewrite Hv].
  - eexists. rewrite lookup_insert_eq. split_and!; [done|apply Hv|].
    done.
  - done.
Qed.

Lemma stands_for_free s a : dead s = false → (∀ t, mutex s ≠ Some (Starter t)) →
  stands_for s a ↔ Live (sh s) = a.
Proof. unfold stands_for. intros -> Hm. destruct (mutex s) as [[|t]|]; [done| |done]. by destruct (Hm t). Qed.

Lemma step_start_simulates t s s' a :
  inv s → asked s → dead s = false → stands_for s a → step_start t s = Some s' →
  ∃ a', serve (calls1 (AStart t) s) a = Some a' ∧ stands_for s' a'.
Proof.
  intros I Q Hd Hst Hs. unfold step_start in Hs. simpl.
  destruct (starters s !! t) as [st|] eqn:Et; [|done].
  assert (Hown : start_holds (s_pc st) = true →
    mutex s = Some (Starter t) ∧ settle (rest st (sh s)) = a).
  { intros Hh. assert (mutex s = Some (Starter t)) as Hm by (eapply (inv_start s I); [by exists st|done]).
    split; [done|]. unfold stands_for in Hst. rewrite Hd, Hm in Hst.
    destruct Hst as (st' & Hst' & _ & ?). congruence. }
  destruct st as [pc p h]; simpl in *. specialize (Q t _ Et). simpl in Q.
  destruct pc as [| | |l| | |]; simpl; try specialize (Hown eq_refl) as [Hm Ha].
  - destruct (mutex s) eqn:Em; [done|]. apply stands_for_free in Hst; [|done|by rewrite Em].
    subst a. simpl. eexists. split; [reflexivity|]. rewrite start_settles by done.
    injection Hs as <-. unfold stands_for. simpl. rewrite Hd.
    eexists. by rewrite lookup_insert_eq.
  - exists a. split; [done|]. eapply start_step_simulates; [done| | |exact Ha|exact Hs];
      [done|left]. by rewrite Hm.
  - exists a. split; [done|]. eapply start_step_simulates; [done| | |exact Ha|exact Hs];
      [done|left]. by rewrite Hm.
  - exists a. split; [done|]. eapply start_step_simulates; [done| | |exact Ha|exact Hs];
      [done|left]. by rewrite Hm.
  - exists a. split; [done|]. eapply start_step_simulates; [done| | |exact Ha|exact Hs];
      [|left; by rewrite Hm]. intros x. rewrite cbind_cases. unfold rest. simpl.
    by destruct (start_flag x) as [[]| |].
  - exists a. split; [done|]. eapply start_step_simulates; [done| | |exact Ha|exact Hs];
      [done|by right].
  - exists a. split; [done|]. injection Hs as <-. unfold stands_for in *. simpl. rewrite Hd in *.
    destruct (mutex s) as [[|t']|] eqn:Em; [done| |done].
    destruct Hst as (st' & Hst' & Hh & Ha). exists st'. split_and!; [|done..].
    rewrite lookup_delete_ne; [done|]. intros ->. rewrite Et in Hst'. by simplify_eq/=.
Qed.

Lemma step_run_simulates s s' a :
  inv s → dead s = false → stands_for s a → step_run s = Some s' →
  ∃ a', serve (calls1 ARun s) a = Some a' ∧ stands_for s' a'.
Proof.
  intros I Hd Hst Hs. unfold step_run in Hs. simpl.
  pose proof (inv_run s I) as Hr. pose proof (inv_running s I) as Hu.
  destruct (runner s) eqn:Er; simpl in *.
  - exists a. split; [done|]. destruct (main_sigint s =? 0); injection Hs as <-; done.
  - destruct (mutex s) eqn:Em; [done|]. injection Hs as <-.
    apply stands_for_free in Hst as <-; [|done|by rewrite Em].
    eexists. split; [reflexivity|]. unfold stands_for. simpl. by rewrite Hd.
  - assert (mutex s = Some Runner) as Em by by apply Hr.
    apply stands_for_free in Hst as <-; [|done|by rewrite Em].
    eexists. split; [done|]. destruct (updating (coord (sh s))); injection Hs as <-;
      unfold stands_for; simpl; by rewrite Hd, ?Em.
  - done.
  - destruct (mutex s) eqn:Em; [done|]. injection Hs as <-.
    apply stands_for_free in Hst as <-; [|done|by rewrite Em].
    eexists. split; [reflexivity|]. unfold stands_for. simpl. by rewrite Hd.
  - assert (mutex s = Some Runner) as Em by by apply Hr.
    apply stands_for_free in Hst as <-; [|done|by rewrite Em].
    simpl. rewrite Hu by done. simpl. eexists. split; [reflexivity|].
    destruct (run_body (sh s)) as [[] x|e x|e x]; injection Hs as <-; unfold stands_for; simpl;
      [by rewrite Hd, Em|done..].
  - assert (mutex s = Some Runner) as Em by by apply Hr.
    apply stands_for_free in Hst as <-; [|done|by rewrite Em].
    eexists. split; [done|]. injection Hs as <-. unfold stands_for; simpl. by rewrite Hd.
  - done.
Qed.
End service.

(** ** The requests *)

Definition request (a : action) : list (cstring * cstring) :=
  match a with ARpc _ p h => [(p, h)] | _ => [] end.
Definition requests (l : list action) : list (cstring * cstring) := l ≫= request.

Definition start_of (o : op) : list (cstring * cstring) :=
  match o with OStart p h => [(p, h)] | _ => [] end.
Definition starts (ops : list op) : list (cstring * cstring) := ops ≫= start_of.

Lemma starts_app ops ops' : starts (ops ++ ops') = starts ops ++ starts ops'.
Proof. apply bind_app. Qed.

(** The requests of the threads that wait for the mutex. *)
Definition entered (st : starter) : list (cstring * cstring) :=
  if decide (s_pc st = SEntered) then [(s_path st, s_header st)] else [].
Definition waiting (m : gmap nat starter) : list (cstring * cstring) :=
  (map_to_list m).*2 ≫= entered.

Lemma waiting_insert m t st :
  waiting (<[t := st]> m) ≡ₚ entered st ++ waiting (delete t m).
Proof.
  unfold waiting. rewrite <- (insert_delete_eq m t st).
  rewrite map_to_list_insert by apply lookup_delete_eq. reflexivity.
Qed.

Lemma waiting_lookup m t st :
  m !! t = Some st → waiting m ≡ₚ entered st ++ waiting (delete t m).
Proof. intros Ht. rewrite <- (insert_id m t st Ht) at 1. apply waiting_insert. Qed.

Lemma waiting_new m t st : m !! t = None → waiting (<[t := st]> m) ≡ₚ entered st ++ waiting m.
Proof. intros Ht. by rewrite waiting_insert, delete_id. Qed.

(** Each request is made once: it waits, or its call was made. *)
Definition accounted (a : action) (s s' : system) : Prop :=
  waiting (starters s) ++ request a ≡ₚ starts (calls1 a s) ++ waiting (starters s').

Section accounts.
Context `{FsEnv}.

Lemma not_entered st : s_pc st ≠ SEntered → entered st = [].
Proof. intros Hpc. unfold entered. by rewrite decide_False. Qed.

Lemma start_step_accounts s t st {A} (m : C shared A) mx pc' s' :
  starters s !! t = Some st → start_step s t st m mx pc' = Some s' → dead s' = false →
  (∀ v, pc' v ≠ SEntered) →
  waiting (starters s) ≡ₚ entered st ++ waiting (starters s').
Proof.
  intros Ht Hs Hd Hpc. destruct (start_step_inv _ _ _ _ _ _ _ Hs) as [?|(v & x & _ & ->)]; [congruence|].
  simpl. rewrite (waiting_lookup _ _ _ Ht), waiting_insert.
  rewrite (not_entered {| s_pc := pc' v; s_path := _; s_header := _ |}); [done|apply Hpc].
Qed.

Lemma step_start_accounts t s s' :
  step_start t s = Some s' → dead s' = false → accounted (AStart t) s s'.
Proof.
  intros Hs Hd. unfold accounted. simpl. rewrite (right_id_L [] (++)).
  unfold step_start in Hs. destruct (starters s !! t) as [st|] eqn:Et; [|done].
  assert (starts (if decide (s_pc st = SEntered) then [OStart (s_path st) (s_header st)] else [])
    = entered st) as -> by (unfold entered, starts; by destruct (decide (s_pc st = SEntered))).
  destruct (s_pc st) eqn:Ep.
  - destruct (mutex s); [done|]. by eapply start_step_accounts.
  - by eapply start_step_accounts.
  - by eapply start_step_accounts.
  - by eapply start_step_accounts.
  - by eapply start_step_accounts.
  - by eapply start_step_accounts.
  - injection Hs as <-. by apply waiting_lookup.
Qed.

Lemma step_run_starters s s' : step_run s = Some s' → starters s' = starters s.
Proof.
  unfold step_run. destruct (runner s); try done; repeat case_match; try done;
    by intros [= <-].
Qed.

Lemma exec_accounts a s s' :
  dead s = false → exec a s = Some s' → dead s' = false → accounted a s s'.
Proof.
  intros Hd Hs Hd'. unfold exec in Hs. rewrite Hd in Hs. destruct a as [t p h|t| | |sig].
  - unfold step_rpc in Hs. destruct (starters s !! t) eqn:Et; [done|].
    rewrite start_asserts_spec in Hs. unfold accounted. simpl.
    destruct (bad_request p h); injection Hs as <-; [done|]. simpl.
    rewrite waiting_new by done. by rewrite (comm (++)).
  - by apply step_start_accounts.
  - unfold accounted. simpl. rewrite (right_id_L [] (++)), (step_run_starters _ _ Hs).
    by destruct (runner s).
  - unfold accounted. simpl. rewrite (right_id_L [] (++)). destruct (runner s); simplify_eq/=. done.
  - unfold accounted. simpl. rewrite (right_id_L [] (++)). by simplify_eq/=.
Qed.

(** ** Every run *)

Lemma exec_simulates a s s' x :
  inv s → asked s → dead s = false → stands_for s x → exec a s = Some s' →
  asked s' ∧ ∃ x', serve (calls1 a s) x = Some x' ∧ stands_for s' x'.
Proof.
  intros I Q Hd Hst Hs. pose proof Hs as Hs0. unfold exec in Hs. rewrite Hd in Hs.
  destruct a as [t p h|t| | |sig].
  - unfold step_rpc in Hs. destruct (starters s !! t) eqn:Et; [done|].
    rewrite start_asserts_spec in Hs. simpl. destruct (bad_request p h) eqn:Hb.
    + injection Hs as <-. split; [exact Q|]. exists Gone. split; [|done].
      destruct x; simpl; [|done]. by rewrite bad_start_settles.
    + injection Hs as <-. split.
      * intros t' st. simpl. intros [[<- <-]|[_ ?]]%lookup_insert_Some; [done|by eapply Q].
      * exists x. split; [done|]. unfold stands_for in *. simpl. rewrite Hd in *.
        destruct (mutex s) as [[|t']|]; [done| |done]. destruct Hst as (st & Hst & ?).
        exists st. split; [|done]. rewrite lookup_insert_ne; [done|]. congruence.
  - split; [|by apply step_start_simulates]. intros t' st'. unfold step_start in Hs.
    destruct (starters s !! t) as [st|] eqn:Et; [|done].
    assert (Hone : ∀ A (m : C shared A) mx pc', start_step s t st m mx pc' = Some s' →
      starters s' !! t' = Some st' → bad_request (s_path st') (s_header st') = false).
    { intros A m mx pc' Hs'. unfold start_step in Hs'.
      destruct (noexcept m (sh s)); injection Hs' as <-; simpl; [|apply Q..].
      intros [[<- <-]|[_ ?]]%lookup_insert_Some; [exact (Q t st Et)|by eapply Q]. }
    destruct (s_pc st); try (by eapply Hone; exact Hs).
    + destruct (mutex s); [done|]. eapply Hone; exact Hs.
    + injection Hs as <-. simpl. intros [_ ?]%lookup_delete_Some. by eapply Q.
  - split; [|by apply step_run_simulates]. intros t st.
    rewrite (step_run_starters _ _ Hs). apply Q.
  - simpl. destruct (runner s); simplify_eq/=. split; [done|]. by exists x.
  - simpl. simplify_eq/=. split; [done|]. by exists x.
Qed.

Lemma exec_all_simulates l s s' x :
  live_inv s → asked s → stands_for s x → exec_all l s = Some s' →
  ∃ x', serve (calls l s) x = Some x' ∧ stands_for s' x' ∧
    (dead s' = false →
     waiting (starters s) ++ requests l ≡ₚ starts (calls l s) ++ waiting (starters s')).
Proof.
  revert s x. induction l as [|a l IH]; intros s x I Q Hst; simpl.
  - intros [= <-]. exists x. split_and!; [done..|]. intros _. unfold requests. simpl.
    by rewrite (right_id_L [] (++)).
  - destruct (dead s) eqn:Hd.
    + intros [= <-]. exists x. split_and!; [done..|]. by rewrite Hd.
    + intros (s1 & H1 & Hl)%bind_Some. rewrite H1.
      destruct (exec_simulates _ _ _ _ (I Hd) Q Hd Hst H1) as (Q1 & x1 & Hx1 & Hst1).
      destruct (IH s1 x1 (inv_step s s1 I ltac:(by exists a)) Q1 Hst1 Hl) as (x' & Hx' & Hst' & Hp).
      exists x'. split_and!; [by rewrite serve_app, Hx1|done|]. intros Hd'.
      assert (dead s1 = false) as Hd1.
      { destruct (dead s1) eqn:E; [|done]. rewrite <- E, <- Hd'. f_equal.
        destruct l; simpl in Hl; rewrite ?E in Hl; congruence. }
      change (requests (a :: l)) with (request a ++ requests l).
      pose proof (exec_accounts _ _ _ Hd H1 Hd1) as Ha. unfold accounted in Ha.
      rewrite (assoc_L (++)), Ha, starts_app.
      by rewrite <- !(assoc_L (++)), (Hp Hd').
Qed.

(** C5: The coordinator is atomic. Whatever the interleaving of the server's
    threads, the main thread and the signals, there is an order of whole calls
    of [start] and of the main thread's update, the order in which they got
    the mutex, that a service serves one at a time with the same result: when
    none of the calls ends the process, it lives, and when no thread is inside
    [start] the shared state is the service's; when one does, the process has
    ended, or the thread inside [start] will end it; an update is handled only
    when one was started. No request is lost or made twice: each one waits
    for the mutex or is one of the calls. *)
Theorem threads_are_atomic f l s :
  exec_all l (initial f) = Some s →
  let order := calls l (initial f) in
  match serve order (Live (sh (initial f))) with
  | Some Gone => dead s = true ∨ ∃ t, mutex s = Some (Starter t)
  | Some (Live x) => dead s = false ∧ ((∀ t, mutex s ≠ Some (Starter t)) → sh s = x)
  | None => False
  end ∧
  (dead s = false → requests l ≡ₚ starts order ++ waiting (starters s)).
Proof.
  intros Hl. cbv zeta.
  destruct (exec_all_simulates l (initial f) s (Live (sh (initial f)))) as (x & -> & Hst & Hp).
  - intros _. apply inv_initial.
  - intros t st Hx. by destruct (lookup_empty_Some t st).
  - done.
  - done.
  - split; [|exact Hp]. unfold stands_for in Hst. destruct (dead s); [subst x; by left|].
    destruct (mutex s) as [[|t]|]; [by subst x| |by subst x].
    destruct x; [|right; by exists t]. split; [done|]. intros Hm. by destruct (Hm t).
Qed.
End accounts.

(** ** The property on a schedule *)

Section witnesses.
#[local] Existing Instance reliable_fs.

(** Two requests: the second one comes while the first one's thread has the
    mutex, and still waits when the main thread has handled the first. *)
Definition overlap : list action :=
  [ARun; ARun; ARun; ARpc 0 "/tmp/a.swu" "header"; AStart 0; AStart 0;
   ARpc 1 "/tmp/a.swu" "other"; AStart 0; AStart 0; AStart 0; AStart 0; AStart 0;
   ARun; ARun; ARun; ARun].

Definition overlap_calls : list op := [OWait; OStart "/tmp/a.swu" "header"; ORun].

Lemma threads_are_atomic_witness :
  serve overlap_calls (Live (sh (initial demo_vfs))) = Some (Live (sh (run_schedule overlap))) ∧
  requests overlap ≡ₚ starts overlap_calls ++ [("/tmp/a.swu" : cstring, "other" : cstring)].
Proof.
  assert (Hl : exec_all overlap (initial demo_vfs) = Some (run_schedule overlap))
    by (apply returns_default; vm_compute; reflexivity).
  destruct (threads_are_atomic demo_vfs overlap _ Hl) as [Hs Hp].
  assert (Hc : calls overlap (initial demo_vfs) = overlap_calls) by (vm_compute; reflexivity).
  rewrite Hc in Hs, Hp. split.
  - destruct (serve overlap_calls (Live (sh (initial demo_vfs)))) as [[x|]|] eqn:He.
    + destruct Hs as [_ ->]; [done|]. intros t. vm_compute. discriminate.
    + exfalso. revert He. vm_compute. discriminate.
    + destruct Hs.
  - refine (Hp _). vm_compute. reflexivity.
Defined.
End witnesses.
