(* ===== verification/UpdatedRpc.v ===== *)
(** * updated: the RPC interface, its service and its client

    [firmware-management/updated/updated-rpc] (messages, errors, port),
    [updated/source/rpc] (the service and the server in the daemon) and
    [updated-client/source/rpc] (the client library). gRPC itself is the class
    [GrpcLib] and, for the calls, the class [Stub], with what the client relies
    on in [RpcLaws]. *)

From stdpp Require Import base gmap strings list.
From Stdlib Require Import ZArith Ascii Lia.
From S2P Require Import Prelude.
From S2P Require Import Cxx.
From S2P Require Import UpdatedPayload.
From S2P Require Import UpdatedCoordinator.
From S2P Require Import UpdatedCoordinatorProps.
From S2P Require Import UpdatedAtomic.

Open Scope Z_scope.
Open Scope list_scope.

(** ** config.h *)

Definition UPDATED_RPC_DEFAULT_PORT : Z := 50051.
Definition UPDATED_RPC_DEFAULT_PORT_STR : cstring := "50051".

(** ** updated-rpc.proto

    The enumeration is open: a message holds any 32-bit value. *)

Definition UNKNOWN_ERROR : Z := 0.
Definition SUCCESS : Z := 1.

Record ErrorCodeMessage := { value : Z }.
Record GetUpdateHeaderResponse := { update_header : cstring; error_code : ErrorCodeMessage }.
Record StartUpdateRequest := { payload_path : cstring; request_header : cstring }.

Definition default_error_code : ErrorCodeMessage := {| value := UNKNOWN_ERROR |}.

(** ** Error.cpp *)

Record Status := { status_code : StatusCode }.
Definition status_ok (s : Status) : bool := bool_decide (status_code s = OK).

Definition grpc_status_to_str (s : Status) : cstring :=
  match status_code s with
  | OK => "grpc::OK"
  | CANCELLED => "grpc::CANCELLED"
  | UNKNOWN => "grpc::UNKNOWN"
  | DEADLINE_EXCEEDED => "grpc::DEADLINE_EXCEEDED"
  | UNAUTHENTICATED => "grpc::UNAUTHENTICATED"
  | RESOURCE_EXHAUSTED => "grpc::RESOURCE_EXHAUSTED"
  | UNIMPLEMENTED => "grpc::UNIMPLEMENTED"
  | INTERNAL => "grpc::INTERNAL"
  | UNAVAILABLE => "grpc::UNAVAILABLE"
  | INVALID_ARGUMENT => "grpc::INVALID_ARGUMENT"
  | NOT_FOUND => "grpc::NOT_FOUND"
  | ALREADY_EXISTS => "grpc::ALREADY_EXISTS"
  | PERMISSION_DENIED => "grpc::PERMISSION_DENIED"
  | FAILED_PRECONDITION => "grpc::FAILED_PRECONDITION"
  | ABORTED => "grpc::ABORTED"
  | OUT_OF_RANGE => "grpc::OUT_OF_RANGE"
  | DATA_LOSS => "grpc::DATA_LOSS"
  | DO_NOT_USE => "grpc::DO_NOT_USE"
  | OtherStatus _ => "<UNRECOGNIZED GRPC STATUS>"
  end.

Definition make_GrpcError (s : Status) : exn := GrpcError (grpc_status_to_str s) (status_code s).

(** The values protobuf reserves fall out of the switch like the others. *)
Definition updated_rpc_error_code_message_to_str (m : ErrorCodeMessage) : cstring :=
  if value m =? UNKNOWN_ERROR then "UNKOWN_ERROR"
  else if value m =? SUCCESS then "SUCCESS"
  else "<UNRECOGNIZED UPDATED RPC ERROR>".

Definition make_UpdateDRpcError (m : ErrorCodeMessage) : exn :=
  UpdateDRpcError (updated_rpc_error_code_message_to_str m) (value m).

Section errors.
Context {W : Type}.

Definition throw_on_grpc_error (s : Status) : C W unit :=
  if negb (status_ok s) then throw (make_GrpcError s) else mret tt.

Definition throw_on_updated_rpc_error (m : ErrorCodeMessage) : C W unit :=
  if negb (value m =? SUCCESS) then throw (make_UpdateDRpcError m) else mret tt.
End errors.

(** The accessors of the two classes. *)
Definition grpc_status (e : exn) : option StatusCode :=
  match e with GrpcError _ s => Some s | _ => None end.
Definition error_code_message (e : exn) : option Z :=
  match e with UpdateDRpcError _ c => Some c | _ => None end.

(** ** ServiceImpl.cpp *)

Section service.
Context `{FsEnv}.

Definition GetUpdateHeader : C shared (Status * GetUpdateHeaderResponse) :=
  m ← manifest;
  mret ({| status_code := OK |},
        {| update_header := header m; error_code := {| value := SUCCESS |} |}).

Definition StartUpdate (request : StartUpdateRequest) : C shared (Status * ErrorCodeMessage) :=
  try_catch
    (start (payload_path request) (request_header request);;
     mret ({| status_code := OK |}, {| value := SUCCESS |}))
    is_std_exception
    (λ e, mret ({| status_code := CANCELLED |}, {| value := UNKNOWN_ERROR |})).
End service.

(** ** Server.cpp *)

Definition g_listen_addr : cstring := "0.0.0.0:" ++ UPDATED_RPC_DEFAULT_PORT_STR.
Definition g_server_addr : cstring := "localhost:" ++ UPDATED_RPC_DEFAULT_PORT_STR.

(** What the programs ask of gRPC besides the calls. *)
Class GrpcLib := {
  build_and_start : cstring → bool;    (** a listening server, or null *)
  create_channel : cstring → bool;
  new_stub : bool
}.

Record grpc_server := { srv_addr : cstring; srv_running : bool; srv_waited : bool }.

Section server.
Context `{GrpcLib} {W : Type}.

(** [service] is the pointer the server gets. *)
Definition create_grpc_server (service : option unit) : C W grpc_server :=
  cassert (bool_decide (service ≠ None));;
  if build_and_start g_listen_addr
  then mret {| srv_addr := g_listen_addr; srv_running := true; srv_waited := false |}
  else throw (RpcError "Failed to build and start gRPC server.").

(** The constructor makes the service first. *)
Definition Server : C W grpc_server := create_grpc_server (Some tt).

Definition shut_down (s : grpc_server) : grpc_server :=
  {| srv_addr := srv_addr s; srv_running := false; srv_waited := srv_waited s |}.

(** The destructor also waits for the calls in progress. *)
Definition Server_destroy (s : grpc_server) : grpc_server :=
  {| srv_addr := srv_addr s; srv_running := false; srv_waited := true |}.
End server.

(** ** Client.cpp *)

(** The stub: what a call returns to the client. *)
Class Stub (W : Type) := {
  stub_GetUpdateHeader : C W (Status * GetUpdateHeaderResponse);
  stub_StartUpdate : StartUpdateRequest → C W (Status * ErrorCodeMessage)
}.

Section client.
Context `{GrpcLib} {W : Type} `{!Stub W}.

Definition create_grpc_service_stub : C W unit :=
  if negb (create_channel g_server_addr) then throw (RpcError "Failed to create gRPC channel")
  else if negb new_stub then throw (RpcError "Failed to create gRPC service")
  else mret tt.

Definition Client : C W unit := create_grpc_service_stub.

Definition Client_GetUpdateHeader : C W cstring :=
  r ← stub_GetUpdateHeader;
  throw_on_grpc_error r.1;;
  throw_on_updated_rpc_error (error_code r.2);;
  mret (update_header r.2).

Definition Client_StartUpdate (path header : cstring) : C W unit :=
  r ← stub_StartUpdate {| payload_path := path; request_header := header |};
  throw_on_grpc_error r.1;;
  throw_on_updated_rpc_error r.2.
End client.

(** ** Client and daemon together *)

(** What gRPC promises of a call, for a client whose world has the daemon
    [daemon_of] in it: the stub gives a status and throws nothing; the status OK
    comes from the daemon, whose handler ran once and returned it with the answer
    the client gets. Before and after the handler the daemon may serve anybody
    else. Nothing is said of another status. *)
Class RpcLaws {W : Type} `{FsEnv} `{Stub W} (daemon_of : W → service) : Prop := {
  start_returns r w : ∃ s m w', stub_StartUpdate r w = Ok (s, m) w';
  header_returns w : ∃ s m w', stub_GetUpdateHeader w = Ok (s, m) w';
  start_runs r w s m w' :
    stub_StartUpdate r w = Ok (s, m) w' → status_ok s = true →
    ∃ before after x x', serve before (daemon_of w) = Some (Live x) ∧
      StartUpdate r x = Ok (s, m) x' ∧ serve after (Live x') = Some (daemon_of w');
  header_runs w s m w' :
    stub_GetUpdateHeader w = Ok (s, m) w' → status_ok s = true →
    ∃ before after x x', serve before (daemon_of w) = Some (Live x) ∧
      GetUpdateHeader x = Ok (s, m) x' ∧ serve after (Live x') = Some (daemon_of w')
}.

(** ** Properties *)

Section properties.
Context `{FsEnv}.

Lemma start_no_throw p h : NoThrow (start p h).
Proof. apply nothrow_noexcept. Qed.

Lemma start_manifest p h x x' :
  start p h x = Ok tt x' → header (update_manifest (coord x')) = h.
Proof.
  unfold start. rewrite !noexcept_bind.
  destruct (start_asserts p h x) as [[] x1| |]; [|done..].
  rewrite noexcept_bind. cbn [on_coord cput]. rewrite noexcept_bind.
  set (x2 := set_coord _ _).
  assert (header (update_manifest (coord x2)) = h) as Hh by done. clearbody x2.
  unfold on_files at 1. destruct (PayloadHardLink p (files x2)) as [l f| |]; [|done..].
  rewrite noexcept_bind.
  assert (∀ l y u y', assign_link l y = Ok u y' →
            update_manifest (coord y') = update_manifest (coord y)) as Hassign.
  { intros l' y u y'. unfold assign_link, mbind, C_bind, cget, on_coord, cput.
    destruct (payload_link (coord y)); [|by intros [= _ <-]].
    unfold on_files. destruct (PayloadHardLink_destroy _ _); by intros [= _ <-]. }
  destruct (assign_link (Some l) (set_files f x2)) as [u x3| |] eqn:Ha; [|done..].
  apply Hassign in Ha. intros [= <-]. simpl. rewrite Ha. done.
Qed.

(** The handler in terms of the method. *)
Lemma start_update_result request x :
  StartUpdate request x =
    match start (payload_path request) (request_header request) x with
    | Ok _ x' => Ok ({| status_code := OK |}, {| value := SUCCESS |}) x'
    | Threw e x' => Ok ({| status_code := CANCELLED |}, {| value := UNKNOWN_ERROR |}) x'
    | Died h x' => Died h x'
    end.
Proof.
  unfold StartUpdate, try_catch, mbind, C_bind. by destruct (start _ _ x).
Qed.

(** A call of StartUpdate answers success or ends the daemon: the branch
    that would answer CANCELLED is never taken, since [start] lets no
    exception out. *)
Theorem start_update_answers request x :
  match StartUpdate request x with
  | Ok (s, m) x' => status_code s = OK ∧ value m = SUCCESS ∧
                    start (payload_path request) (request_header request) x = Ok tt x'
  | Died _ x' => ∃ h, start (payload_path request) (request_header request) x = Died h x'
  | Threw _ _ => False
  end.
Proof.
  rewrite start_update_result.
  pose proof (start_no_throw (payload_path request) (request_header request) x) as Hn.
  destruct (start _ _ x) as [[] x'|e x'|h x']; [done|by destruct (Hn e x')|by exists h].
Qed.

(** The header that the daemon has after some calls: of the last start. *)
Definition latest_header (h : cstring) (ops : list op) : cstring :=
  default h (last (snd <$> starts ops)).

Lemma serve_header ops x x' :
  serve ops (Live x) = Some (Live x') →
  header (update_manifest (coord x')) = latest_header (header (update_manifest (coord x))) ops.
Proof.
  revert x. induction ops as [|o ops IH]; intros x; [by intros [= ->]|].
  cbn [serve]. destruct (serve1 o x) as [[x1|]|] eqn:Ho; cbn [mbind option_bind]; [|by rewrite serve_gone|done].
  intros Hx. rewrite (IH x1 Hx). destruct o as [p h| |]; simpl in Ho.
  - injection Ho as Ho. destruct (start p h x) as [[] x2| |] eqn:Hs; [|done..].
    injection Ho as ->. apply start_manifest in Hs as ->. unfold latest_header.
    change (starts (OStart p h :: ops)) with ((p, h) :: starts ops).
    rewrite fmap_cons, last_cons. by destruct (last (snd <$> starts ops)).
  - by injection Ho as <-.
  - destruct (updating (coord x)); [|done]. injection Ho as Ho.
    destruct (run_body x) as [u x2| |] eqn:Hr; [|done..]. injection Ho as ->.
    apply run_body_coord in Hr as [Hr _]. by rewrite Hr.
Qed.

Lemma serve_trans ops1 ops2 a b c :
  serve ops1 a = Some b → serve ops2 b = Some c → serve (ops1 ++ ops2) a = Some c.
Proof. intros H1 H2. by rewrite serve_app, H1. Qed.

Section clients.
Context {W : Type} `{Stub W} (daemon_of : W → service) `{!RpcLaws daemon_of}.
Implicit Type w : W.

(** The client library throws exactly when the status is not OK: the service
    never answers OK with another code. *)
Lemma client_start_result path h w :
  ∃ s m w', stub_StartUpdate {| payload_path := path; request_header := h |} w = Ok (s, m) w' ∧
    if status_ok s
    then Client_StartUpdate path h w = Ok tt w' ∧
         ∃ before after x x', serve before (daemon_of w) = Some (Live x) ∧
           start path h x = Ok tt x' ∧ serve after (Live x') = Some (daemon_of w')
    else Client_StartUpdate path h w = Threw (make_GrpcError s) w'.
Proof using All.
  destruct (start_returns {| payload_path := path; request_header := h |} w) as (s & m & w' & Hr).
  exists s, m, w'. split; [done|]. unfold Client_StartUpdate. rewrite (cbind_ok _ _ _ _ _ Hr). cbn [fst snd].
  unfold throw_on_grpc_error. destruct (status_ok s) eqn:Hs; [|done]. cbn [negb].
  destruct (start_runs _ _ _ _ _ Hr Hs) as (before & after & x & x' & Hb & Hx & Ha).
  pose proof (start_update_answers {| payload_path := path; request_header := h |} x) as Hans.
  rewrite Hx in Hans. destruct Hans as (_ & Hm & Hst). split; [|by exists before, after, x, x'].
  unfold throw_on_updated_rpc_error. by rewrite Hm.
Qed.

Lemma client_header_result w :
  ∃ s m w', stub_GetUpdateHeader w = Ok (s, m) w' ∧
    if status_ok s
    then ∃ before after x, serve before (daemon_of w) = Some (Live x) ∧
           serve after (Live x) = Some (daemon_of w') ∧
           Client_GetUpdateHeader w = Ok (header (update_manifest (coord x))) w'
    else Client_GetUpdateHeader w = Threw (make_GrpcError s) w'.
Proof using All.
  destruct (header_returns w) as (s & m & w' & Hr). exists s, m, w'. split; [done|].
  unfold Client_GetUpdateHeader. rewrite (cbind_ok _ _ _ _ _ Hr). cbn [fst snd].
  unfold throw_on_grpc_error. destruct (status_ok s) eqn:Hs; [|done]. cbn [negb].
  destruct (header_runs _ _ _ _ Hr Hs) as (before & after & x & x' & Hb & Hx & Ha).
  injection Hx as _ <- <-. by exists before, after, x.
Qed.

(** C36: a client that starts an update and then asks for the header gets, when
    neither call throws, the header of the update that was started last on the
    daemon: its own, unless another client started one between its two calls;
    whether an update was carried out, succeeded or failed does not matter. Its
    own start happened, on the daemon, between other calls of the clients and of
    the main thread, in any order. The calls throw only for a gRPC status that is
    not OK, with that status in the exception. (The transport is a parameter, of
    which [RpcLaws] is assumed: an OK status comes from one run of the handler;
    both calls reach one daemon process.) *)
Theorem client_reads_header_back p h w :
  match (Client_StartUpdate p h;; Client_GetUpdateHeader) w with
  | Ok h' w' =>
      ∃ before between after x0 x1 x2,
        serve before (daemon_of w) = Some (Live x0) ∧ start p h x0 = Ok tt x1 ∧
        serve between (Live x1) = Some (Live x2) ∧ h' = latest_header h between ∧
        serve after (Live x2) = Some (daemon_of w')
  | Threw e _ => ∃ s, status_ok s = false ∧ e = make_GrpcError s
  | Died _ _ => False
  end.
Proof using All.
  destruct (client_start_result p h w) as (s & m & w1 & _ & Hs). destruct (status_ok s) eqn:Hok.
  2: { rewrite cbind_cases, Hs. by exists s. }
  destruct Hs as (Hs & before & after1 & x0 & x1 & Hb & Hst & Ha1).
  rewrite (cbind_ok _ _ _ _ _ Hs).
  destruct (client_header_result w1) as (s2 & m2 & w2 & _ & Hh). destruct (status_ok s2) eqn:Hok2.
  2: { rewrite Hh. by exists s2. }
  destruct Hh as (before2 & after & x2 & Hb2 & Ha & ->).
  pose proof (serve_trans _ _ _ _ _ Ha1 Hb2) as Hbetween.
  exists before, (after1 ++ before2), after, x0, x1, x2. split_and!; [done..| |done].
  rewrite (serve_header _ _ _ Hbetween). by rewrite (start_manifest p h x0 x1 Hst).
Qed.
End clients.

(** a request whose path is empty or relative, or without a header,
    ends the daemon: [assert] in the service's thread. *)
Theorem bad_request_kills_daemon p h x :
  p = [] ∨ h = [] ∨ is_absolute p = false →
  ∃ y, StartUpdate {| payload_path := p; request_header := h |} x = Died Aborted y.
Proof.
  intros Hbad. rewrite start_update_result. cbn [payload_path request_header].
  unfold start. rewrite noexcept_bind. unfold start_asserts, cassert.
  destruct (bool_decide (p ≠ [])) eqn:Hp; [|by eexists].
  destruct (bool_decide (h ≠ [])) eqn:Hh; [|by eexists].
  apply bool_decide_eq_true in Hp, Hh. destruct Hbad as [?|[?|Habs]]; [done..|].
  rewrite (cbind_ok (mret tt) _ x tt x) by done. cbn [mret C_ret].
  rewrite noexcept_bind. cbn [on_coord cput]. rewrite noexcept_bind.
  unfold on_files at 1, PayloadHardLink. rewrite Habs. by eexists.
Qed.
End properties.

(** ** The properties at a concrete request *)

(** A transport that runs the handler at once, and serves [others] before it. *)
Section transport.
Context `{FsEnv} (others : list op).

Definition run_remotely {A} (m : C shared (Status * A)) (none : A) : C service (Status * A) := λ d,
  match serve others d with
  | Some (Live x) =>
      match m x with
      | Ok r x' => Ok r (Live x')
      | Threw _ _ | Died _ _ => Ok ({| status_code := UNAVAILABLE |}, none) Gone
      end
  | _ => Ok ({| status_code := UNAVAILABLE |}, none) Gone
  end.

Definition transport : Stub service := {|
  stub_GetUpdateHeader := run_remotely GetUpdateHeader
    {| update_header := []; error_code := default_error_code |};
  stub_StartUpdate := λ r, run_remotely (StartUpdate r) default_error_code
|}.

Lemma run_remotely_law {A} (m : C shared (Status * A)) none d :
  (∃ s a d', run_remotely m none d = Ok (s, a) d') ∧
  ∀ s a d', run_remotely m none d = Ok (s, a) d' → status_ok s = true →
    ∃ before after x x', serve before d = Some (Live x) ∧ m x = Ok (s, a) x' ∧
      serve after (Live x') = Some d'.
Proof.
  unfold run_remotely.
  destruct (serve others d) as [[x|]|] eqn:Hd; [|split; [by eauto|by intros ? ? ? [= <- _ _] ]..].
  destruct (m x) as [[s0 a0] x'| |] eqn:Hm; [|split; [by eauto|by intros ? ? ? [= <- _ _] ]..].
  split; [by eauto|]. intros s a d' [= <- <- <-] _. by exists others, [], x, x'.
Qed.

Lemma transport_laws : RpcLaws (H0 := transport) id.
Proof.
  split; intros *; apply run_remotely_law.
Qed.
End transport.

Section witnesses.
#[local] Existing Instance reliable_fs.

Lemma bad_request_kills_daemon_witness :
  ∃ y, StartUpdate {| payload_path := "a.swu"; request_header := "h" |}
         (sh (initial demo_vfs)) = Died Aborted y.
Proof. apply (bad_request_kills_daemon "a.swu" "h"). right; right. reflexivity. Defined.

(** Before each call of the client the main thread waits, or another client
    starts an update. *)
Definition read_back (others : list op) : C service cstring :=
  Client_StartUpdate (Stub0 := transport others) "/tmp/a.swu" "mine";;
  Client_GetUpdateHeader (Stub0 := transport others).
Definition header_read (others : list op) : option cstring :=
  match read_back others (Live (sh (initial demo_vfs))) with Ok h _ => Some h | _ => None end.

Example own_header : header_read [OWait] = Some ("mine" : cstring).
Proof. vm_compute. reflexivity. Qed.
Example header_of_another : header_read [OStart "/tmp/a.swu" "other"] = Some ("other" : cstring).
Proof. vm_compute. reflexivity. Qed.

Lemma client_reads_header_back_witness :
  header_read [OStart "/tmp/a.swu" "other"] = Some ("other" : cstring) ∧
  ∃ between, ("other" : cstring) = latest_header "mine" between.
Proof.
  split; [vm_compute; reflexivity|].
  pose proof (client_reads_header_back (H0 := transport [OStart "/tmp/a.swu" "other"]) id
    (RpcLaws0 := transport_laws [OStart "/tmp/a.swu" "other"])
    "/tmp/a.swu" "mine" (Live (sh (initial demo_vfs)))) as Hr.
  fold (read_back [OStart "/tmp/a.swu" "other"]) in Hr.
  destruct (read_back _ _) as [h' w'|e w'|hh w'] eqn:Hc;
    [|exfalso; apply (f_equal (λ r, match r with Ok _ _ => true | _ => false end)) in Hc;
      vm_compute in Hc; discriminate Hc..].
  assert (h' = ("other" : cstring)) as ->.
  { apply (f_equal (λ r, match r with Ok h _ => h | _ => [] end)) in Hc. rewrite <- Hc. vm_compute. reflexivity. }
  destruct Hr as (before & between & after & x0 & x1 & x2 & _ & _ & _ & Hh & _). by exists between.
Defined.
End witnesses.
