(* ===== verification/UpdatedDaemon.v ===== *)
(** * updated: the daemon's start and the two command line clients

    [firmware-management/updated/updated/source]: [cli/parser.h],
    [logging], [fileutils/LockFile], [signal], [daemon/init] and [updated.cpp];
    [updated-client/source]: [updated-start-update.cpp] and
    [updated-get-status.cpp]. *)

From stdpp Require Import base gmap strings list.
From Stdlib Require Import ZArith Ascii Lia.
From S2P Require Import Prelude.
From S2P Require Import Cxx.
From S2P Require Import Getopt.
From S2P Require Import UpdatedPayload.
From S2P Require Import UpdatedCoordinator.
From S2P Require Import UpdatedAtomic.
From S2P Require Import UpdatedRpc.

Open Scope Z_scope.
Open Scope list_scope.

(** ** logging *)

Inductive Level := CRITICAL_ | ERROR_ | WARN_ | INFO_ | DEBUG_ | TRACE_.

#[export] Instance Level_eq_dec : EqDecision Level.
Proof. solve_decision. Defined.

(** The levels of spdlog that [set_global_level] selects. *)
Inductive spdlog_level := spd_critical | spd_err | spd_warn | spd_info | spd_debug | spd_trace.

(** ** State of a process *)

Record proc := {
  cout : list cstring;
  cerr : list cstring;
  fds : gmap nat path;                    (** open descriptors *)
  logger : option cstring;                (** the registered logger *)
  global_level : option spdlog_level;
  error_log : list cstring;               (** what [logging::error] printed *)
  handlers : list Z;                      (** signals with a handler *)
  notified_init : list cstring;           (** [sd_notify] *)
  remote : service                        (** the daemon a client calls *)
}.

Definition new_proc (d : service) : proc := {|
  cout := []; cerr := []; fds := ∅; logger := None; global_level := None;
  error_log := []; handlers := []; notified_init := []; remote := d |}.

Definition print_out (t : cstring) (p : proc) : proc :=
  {| cout := cout p ++ [t]; cerr := cerr p; fds := fds p; logger := logger p;
     global_level := global_level p; error_log := error_log p; handlers := handlers p;
     notified_init := notified_init p; remote := remote p |}.
Definition print_err (t : cstring) (p : proc) : proc :=
  {| cout := cout p; cerr := cerr p ++ [t]; fds := fds p; logger := logger p;
     global_level := global_level p; error_log := error_log p; handlers := handlers p;
     notified_init := notified_init p; remote := remote p |}.
Definition set_fds (f : gmap nat path) (p : proc) : proc :=
  {| cout := cout p; cerr := cerr p; fds := f; logger := logger p;
     global_level := global_level p; error_log := error_log p; handlers := handlers p;
     notified_init := notified_init p; remote := remote p |}.
Definition set_logger (name : cstring) (l : spdlog_level) (p : proc) : proc :=
  {| cout := cout p; cerr := cerr p; fds := fds p; logger := Some name;
     global_level := Some l; error_log := error_log p; handlers := handlers p;
     notified_init := notified_init p; remote := remote p |}.
Definition log_error_line (t : cstring) (p : proc) : proc :=
  {| cout := cout p; cerr := cerr p; fds := fds p; logger := logger p;
     global_level := global_level p; error_log := error_log p ++ [t]; handlers := handlers p;
     notified_init := notified_init p; remote := remote p |}.
Definition add_handler (s : Z) (p : proc) : proc :=
  {| cout := cout p; cerr := cerr p; fds := fds p; logger := logger p;
     global_level := global_level p; error_log := error_log p; handlers := handlers p ++ [s];
     notified_init := notified_init p; remote := remote p |}.
Definition add_notification (t : cstring) (p : proc) : proc :=
  {| cout := cout p; cerr := cerr p; fds := fds p; logger := logger p;
     global_level := global_level p; error_log := error_log p; handlers := handlers p;
     notified_init := notified_init p ++ [t]; remote := remote p |}.
Definition set_remote (d : service) (p : proc) : proc :=
  {| cout := cout p; cerr := cerr p; fds := fds p; logger := logger p;
     global_level := global_level p; error_log := error_log p; handlers := handlers p;
     notified_init := notified_init p; remote := d |}.

(** The kernel's answers about the lock file and the payload. The code reads
    [errno] after it logs, so logging may have replaced it. *)
Class ProcEnv := {
  open_lock : path → option Z;     (** [Some errno]: [open] fails *)
  try_lock : path → option Z;      (** [Some errno]: another process has it *)
  after_log : Z → Z;
  file_exists : path → bool
}.

Definition SIGHUP : Z := 1.
Definition SIGINT : Z := 2.

(** ** logger.cpp *)

Definition LOGGER_NAME : cstring := "systemd".

Definition set_global_level (level : Level) : spdlog_level :=
  match level with
  | CRITICAL_ => spd_critical
  | ERROR_ => spd_err
  | WARN_ => spd_warn
  | INFO_ => spd_info
  | DEBUG_ => spd_debug
  | TRACE_ => spd_trace
  end.

Definition level_from_string (str : cstring) : C proc Level :=
  if bool_decide (str = "CRITICAL") then mret CRITICAL_
  else if bool_decide (str = "ERROR") then mret ERROR_
  else if bool_decide (str = "WARNING") then mret WARN_
  else if bool_decide (str = "INFO") then mret INFO_
  else if bool_decide (str = "DEBUG") then mret DEBUG_
  else if bool_decide (str = "TRACE") then mret TRACE_
  else throw (invalid_argument "Unrecognized string level.").

(** The logger of that name must not be registered yet. *)
Definition create_systemd_logger (level : Level) : C proc cstring :=
  known ← cget logger;
  match known with
  | Some _ => throw (runtime_error "logger with name 'systemd' already exists")
  | None => cput (set_logger LOGGER_NAME (set_global_level level));; mret LOGGER_NAME
  end.

Definition get_logger : C proc (option cstring) := cget logger.

(** ** cli/parser.h *)

Definition updated_usage : cstring :=
"Usage: updated [-l] CRITICAL|ERROR|WARNING|INFO|DEBUG|TRACE
UpdateD, a system daemon that coordinates firmware updates.
Example: updated -l CRITICAL

Options:
    -l          Set the logging level (default INFO). Possible values: CRITICAL|ERROR|WARNING|INFO|DEBUG|TRACE
".

(** How a parser leaves: [Return v] or a thrown exception. *)
Inductive leaves (A : Type) := Return (a : A) | Raise (e : exn).
Arguments Return {A} a.
Arguments Raise {A} e.

Definition leave {A} (r : leaves A) : C proc A :=
  match r with Return a => mret a | Raise e => throw e end.

Definition raise_usage {A B} (usage what : cstring) : M proc (A + leaves B) :=
  modify (print_out usage);; mret (inr (Raise (invalid_argument what))).

(** Neither table of long options ends with an entry of zeros. *)
Definition updated_opts : opt_table := {|
  ot_short := "l:h";
  ot_long := [ {| lo_name := "log-level"; lo_has_arg := optional_argument; lo_val := "l" |};
               {| lo_name := "help"; lo_has_arg := no_argument; lo_val := "h" |} ];
  ot_terminated := false
|}.

Definition log_levels : list cstring :=
  ["CRITICAL" : cstring; "ERROR" : cstring; "WARNING" : cstring; "INFO" : cstring;
   "DEBUG" : cstring; "TRACE" : cstring].

Definition updated_option (a : unit) (c : ascii) (optarg : option cstring)
  : M proc (unit + leaves cstring) :=
  if decide (c = "l"%char) then
    s ← of_option "null pointer passed to strcmp" optarg;
    if bool_decide (s ∈ log_levels) then mret (inr (Return s))
    else raise_usage updated_usage "Invalid log level given!"
  else if decide (c = "h"%char) then modify (print_out updated_usage);; stop (Exited 0)
  else if decide (c = "?"%char) then raise_usage updated_usage "Unrecognized argument!"
  else mret (inl tt).

Definition updated_parse_args (args : list cstring) : C proc cstring :=
  match args with
  | [] => mret ("INFO" : cstring)
  | _ =>
      r ← lift (opt_loop updated_opts updated_option tt (opt_start args));
      match r with
      | inr l => leave l
      | inl _ =>
          cput (print_out updated_usage);;
          throw (invalid_argument "Unrecognized arguments!")
      end
  end.

Section daemon.
Context `{ProcEnv} `{GrpcLib}.

(** ** LockFile.cpp *)

(** A constructor that throws does not run the destructor: the descriptor of
    a file that could not be locked stays open. *)
Definition LockFile (p : path) : C proc nat :=
  match open_lock p with
  | Some e =>
      cput (log_error_line "Failed to open the lock file at path {}");;
      throw (system_error (after_log e))
  | None =>
      used ← cget fds;
      let fd := fresh (dom used) in
      cput (set_fds (<[fd:=p]> used));;
      match try_lock p with
      | Some e =>
          cput (log_error_line "Failed to obtain a lock on the lock file. Path {}, FD {}");;
          throw (system_error (after_log e))
      | None => mret fd
      end
  end.

Definition LockFile_destroy (fd : nat) : C proc unit :=
  cput (λ s, set_fds (delete fd (fds s)) s).

(** ** signal/handlers.cpp *)

Definition register_handlers : C proc unit :=
  cput (add_handler SIGINT);; cput (add_handler SIGHUP).

(** ** daemon/init.cpp *)

Inductive init_status := Started | FailedToStart.

Definition initialise (log_level : cstring) : C proc init_status :=
  level ← level_from_string log_level;
  _ ← create_systemd_logger level;
  register_handlers;;
  mret Started.

Definition notify_start (s : init_status) : C proc unit :=
  match s with
  | Started => cput (add_notification "READY=1")
  | FailedToStart => cput (add_notification ("STATUS=Failed to start" ++ ["010"%char]))
  end.

(** The lock is a member: it is released when the rest of the constructor
    throws. *)
Definition DaemonInitialiser (log_level : cstring) : C proc nat :=
  instance_lock ← LockFile "/tmp/updated_lock";
  try_catch
    (s ← initialise log_level; notify_start s;; mret instance_lock)
    (λ _, true)
    (λ e, LockFile_destroy instance_lock;; throw e).

(** ** updated.cpp *)

(** [main] up to its loop: the exit status, or the lock and the server. *)
Definition updated_main (args : list cstring) : C proc (Z + nat * grpc_server) :=
  log_level ← try_catch
    (l ← updated_parse_args args; mret (Some l))
    is_invalid_argument
    (λ e, cput (print_err (match e with invalid_argument w => w | _ => [] end));; mret None);
  match log_level with
  | None => mret (inl 1)
  | Some l =>
      lock ← DaemonInitialiser l;
      server ← Server;
      mret (inr (lock, server))
  end.
End daemon.

(** ** updated-start-update.cpp *)

Definition start_usage : cstring :=
"Usage: updated-start-update [-p] PATH [-u] HEADER_DATA
Send an RPC to UpdateD, passing the update payload file and header data.
Example: updated-start-update -p /tmp/payload.swu -u $(cat /tmp/update-header)".

Definition start_opts : opt_table := {|
  ot_short := "p:u:h";
  ot_long := [ {| lo_name := "payload-filepath"; lo_has_arg := required_argument; lo_val := "p" |};
               {| lo_name := "update-header"; lo_has_arg := required_argument; lo_val := "u" |};
               {| lo_name := "help"; lo_has_arg := no_argument; lo_val := "h" |} ];
  ot_terminated := false
|}.

Definition start_option (v : cstring * cstring) (c : ascii) (optarg : option cstring)
  : M proc (cstring * cstring + leaves (cstring * cstring)) :=
  if decide (c = "p"%char) then
    s ← of_option "null pointer assigned to a string" optarg; mret (inl (s, v.2))
  else if decide (c = "u"%char) then
    s ← of_option "null pointer assigned to a string" optarg; mret (inl (v.1, s))
  else if decide (c = "h"%char) then modify (print_out start_usage);; stop (Exited 0)
  else if decide (c = "?"%char) then raise_usage start_usage "Unrecognized argument!"
  else mret (inl v).

Section clients.
Context `{ProcEnv} `{GrpcLib} `{Stub service}.

Definition start_parse_args (args : list cstring) : C proc (cstring * cstring) :=
  match args with
  | [] => throw (invalid_argument "No arguments given!")
  | _ =>
      r ← lift (opt_loop start_opts start_option ([], []) (opt_start args));
      match r with
      | inr l => leave l
      | inl (first, second) =>
          if bool_decide (first = []) || negb (file_exists first) then
            throw (invalid_argument "Must provide a valid path to an update payload!")
          else if bool_decide (second = []) then
            throw (invalid_argument "Must provide HEADER data!")
          else mret (first, second)
      end
  end.

(** A call of the client library in this process. *)
Definition on_remote {A} (m : C service A) : C proc A := λ p,
  match m (remote p) with
  | Ok a d => Ok a (set_remote d p)
  | Threw e d => Threw e (set_remote d p)
  | Died h d => Died h (set_remote d p)
  end.

Definition start_update_main (args : list cstring) : C proc Z :=
  try_catch
    (r ← start_parse_args args;
     on_remote Client;;
     on_remote (Client_StartUpdate r.1 r.2);;
     mret 0)
    is_invalid_argument
    (λ e, cput (print_err (match e with invalid_argument w => w | _ => [] end));; mret 1).

(** ** updated-get-status.cpp *)

Definition get_status_main : C proc Z :=
  on_remote Client;;
  h ← on_remote Client_GetUpdateHeader;
  if bool_decide (h = []) then
    cput (print_err "UpdateD returned an empty update HEADER.");; mret 1
  else cput (print_out h);; mret 0.
End clients.

(** ** A concrete system *)

Definition demo_proc_env : ProcEnv := {|
  open_lock := λ _, None; try_lock := λ _, None; after_log := λ e, e;
  file_exists := λ _, true |}.
Definition demo_grpc : GrpcLib := {|
  build_and_start := λ _, true; create_channel := λ _, true; new_stub := true |}.
Definition idle_daemon : service :=
  Live {| coord := new_coordinator; files := demo_vfs; logged := [] |}.

Definition demo_start (args : list cstring) : outcome proc Z :=
  process (@start_update_main demo_proc_env demo_grpc (@transport reliable_fs []) args) (new_proc idle_daemon).

Example demo_start_ok :
  result (demo_start ["-p" : cstring; "/tmp/a.swu" : cstring; "--update-header=x" : cstring])
    = Some 0.
Proof. vm_compute. reflexivity. Qed.
Example demo_start_bad : result (demo_start ["-p" : cstring; "/tmp/a.swu" : cstring]) = Some 1.
Proof. vm_compute. reflexivity. Qed.
