(* ===== verification/UpdatedDaemonProps.v ===== *)
(** * updated: properties of the daemon's start and of the clients *)

From stdpp Require Import base gmap strings list.
From Stdlib Require Import ZArith Ascii Lia.
From S2P Require Import Prelude.
From S2P Require Import Cxx.
From S2P Require Import Getopt.
From S2P Require Import UpdatedPayload.
From S2P Require Import UpdatedCoordinator.
From S2P Require Import UpdatedAtomic.
From S2P Require Import UpdatedRpc.
From S2P Require Import UpdatedDaemon.

Open Scope Z_scope.
Open Scope list_scope.

(** ** What a command line can end with *)

(** A loop that returns early returns what some pass through its body returned,
    and the loop keeps what every pass keeps. *)
Lemma opt_loop_inr {W A R} (t : opt_table) (body : A → ascii → option cstring → M W (A + R))
    (P : R → Prop) (I : W → Prop) a s w :
  I w →
  (∀ a c arg w r w', I w → body a c arg w = Done r w' →
     I w' ∧ match r with inr x => P x | inl _ => True end) →
  ∀ r w', opt_loop t body a s w = Done r w' →
  I w' ∧ match r with inr x => P x | inl _ => True end.
Proof.
  intros Hw Hbody. unfold opt_loop. generalize (S (opt_size s)) as n. intros n.
  revert a s w Hw. induction n as [|n IH]; intros a s w Hw r w'; simpl; [by intros [= <- <-]|].
  destruct (getopt_long t s) as [[|c arg|] s']; [by intros [= <- <-]| |done].
  unfold mbind, M_bind. destruct (body a c arg w) as [r1 w1|] eqn:Hb; [|done].
  destruct (Hbody _ _ _ _ _ _ Hw Hb) as [Hw1 Hr1]. destruct r1 as [a'|x]; [by apply IH|].
  by intros [= <- <-].
Qed.

Definition valid_leave (l : leaves cstring) : Prop :=
  match l with Return s => s ∈ log_levels | Raise e => is_invalid_argument e = true end.

Definition only_invalid {A} (l : leaves A) : Prop :=
  match l with Return _ => True | Raise e => is_invalid_argument e = true end.

(** The daemon of the process is the same. *)
Definition same_remote (d : service) (p : proc) : Prop := remote p = d.

Lemma updated_option_leaves d a c arg w r w' :
  same_remote d w → updated_option a c arg w = Done r w' →
  same_remote d w' ∧ match r with inr x => valid_leave x | inl _ => True end.
Proof.
  unfold same_remote, updated_option, raise_usage, mbind, M_bind, modify. intros Hd.
  repeat case_decide; simpl; try done.
  - destruct arg as [s|]; simpl; [|done].
    case_bool_decide; simpl; by intros [= <- <-].
  - by intros [= <- <-].
  - by intros [= <- <-].
Qed.

Lemma start_option_leaves d a c arg w r w' :
  same_remote d w → start_option a c arg w = Done r w' →
  same_remote d w' ∧ match r with inr x => only_invalid x | inl _ => True end.
Proof.
  unfold same_remote, start_option, raise_usage, mbind, M_bind, modify. intros Hd.
  repeat case_decide; simpl; try done.
  - destruct arg; simpl; [|done]. by intros [= <- <-].
  - destruct arg; simpl; [|done]. by intros [= <- <-].
  - by intros [= <- <-].
  - by intros [= <- <-].
Qed.

Section properties.
Context `{FsEnv} `{ProcEnv} `{GrpcLib}.

Lemma level_known s p : s ∈ log_levels → ∃ l, level_from_string s p = Ok l p.
Proof.
  unfold log_levels. rewrite !elem_of_cons, elem_of_nil.
  intros [Hs|[Hs|[Hs|[Hs|[Hs|[Hs|[]]]]]]]; subst; eexists; reflexivity.
Qed.

(** every level the command line parser returns is a level the logger
    knows, so the daemon's logger is set up; everything else the parser
    throws is the exception [main] reports. *)
Theorem parsed_level_is_known args p :
  match updated_parse_args args p with
  | Ok s p' => ∃ l, level_from_string s p' = Ok l p'
  | Threw e _ => is_invalid_argument e = true
  | Died h _ => h = Exited 0 ∨ ∃ why, h = Undefined why
  end.
Proof.
  unfold updated_parse_args. destruct args as [|a args].
  { apply level_known, (bool_decide_unpack _). vm_compute. exact I. }
  unfold mbind, C_bind, lift.
  destruct (opt_loop updated_opts updated_option tt (opt_start (a :: args)) p) as [r p'|h p']
    eqn:Hl.
  - apply (opt_loop_inr _ _ valid_leave (same_remote (remote p))) in Hl as [_ Hr];
      [|done|intros *; apply updated_option_leaves].
    destruct r as [|[s|e]]; [done|exact (level_known s p' Hr)|exact Hr].
  - revert Hl. unfold opt_loop. generalize (S (opt_size (opt_start (a :: args)))) as n.
    generalize (opt_start (a :: args)) as s. intros s n. revert s p.
    induction n as [|n IH]; intros s p; simpl; [done|].
    destruct (getopt_long updated_opts s) as [[|c arg|] s']; [done| |].
    2:{ intros [= <- <-]. eauto. }
    unfold mbind, M_bind.
    destruct (updated_option tt c arg p) as [[[]|x] w1|h1 w1] eqn:Hb; [apply IH|done|].
    intros [= <- <-]. revert Hb. unfold updated_option, raise_usage, mbind, M_bind, modify.
    repeat case_decide; simpl; try done.
    + destruct arg; simpl; [by case_bool_decide|]. intros [= <- <-]. eauto.
    + intros [= <- <-]. auto.
Qed.

Definition lock_path : path := "/tmp/updated_lock".

(** C34: with a valid command line, the daemon serves exactly when no other
    instance has the lock and the RPC server starts; it then has the lock, the
    logger and both signal handlers, and told the init system that it is
    ready. When the lock is taken it ends with the exception and announces
    nothing; when the server fails, readiness was announced already. *)
Theorem daemon_start args p s p1 :
  updated_parse_args args p = Ok s p1 → logger p1 = None →
  match open_lock lock_path, try_lock lock_path with
  | None, None =>
      ∃ r p', updated_main args p = r p' ∧
        notified_init p' = notified_init p1 ++ [("READY=1" : cstring)] ∧
        handlers p' = handlers p1 ++ [SIGINT; SIGHUP] ∧ logger p' = Some LOGGER_NAME ∧
        if build_and_start g_listen_addr
        then ∃ fd, fds p' !! fd = Some lock_path ∧
               r = Ok (inr (fd, {| srv_addr := g_listen_addr; srv_running := true;
                                   srv_waited := false |}))
        else r = Threw (RpcError "Failed to build and start gRPC server.")
  | Some e, _ | None, Some e =>
      ∃ p', updated_main args p = Threw (system_error (after_log e)) p' ∧
            notified_init p' = notified_init p1 ∧ handlers p' = handlers p1
  end.
Proof.
  intros Hparse Hlog.
  assert (Hlevel : ∃ l, level_from_string s p1 = Ok l p1).
  { pose proof (parsed_level_is_known args p) as Hk. by rewrite Hparse in Hk. }
  destruct Hlevel as [l Hlevel].
  assert (Hlevel' : ∀ q, level_from_string s q = Ok l q).
  { intros q. revert Hlevel. unfold level_from_string. repeat case_bool_decide; try done;
      by intros [= <-]. }
  unfold updated_main. erewrite cbind_ok.
  2:{ unfold try_catch. erewrite cbind_ok by exact Hparse. reflexivity. }
  cbn iota. unfold DaemonInitialiser, LockFile. fold lock_path.
  destruct (open_lock lock_path) as [e|]; [by eexists|].
  destruct (try_lock lock_path) as [e|]; [by eexists|].
  set (fd := fresh (dom (fds p1))). set (p2 := set_fds (<[fd:=lock_path]> (fds p1)) p1).
  assert (Hinit : initialise s p2 = Ok Started
            (add_handler SIGHUP (add_handler SIGINT
               (set_logger LOGGER_NAME (set_global_level l) p2)))).
  { unfold initialise. rewrite (cbind_ok _ _ _ _ _ (Hlevel' p2)).
    erewrite (cbind_ok (create_systemd_logger l) _ p2 LOGGER_NAME
                (set_logger LOGGER_NAME (set_global_level l) p2)); [reflexivity|].
    unfold create_systemd_logger. rewrite (cbind_ok _ _ p2 None p2); [reflexivity|].
    unfold cget. by rewrite <-Hlog. }
  set (p3 := add_notification "READY=1" (add_handler SIGHUP (add_handler SIGINT
               (set_logger LOGGER_NAME (set_global_level l) p2)))).
  assert (Hserver : (x ← Server; mret (inr (fd, x)) : C proc (Z + nat * grpc_server)) p3 =
    if build_and_start g_listen_addr
    then Ok (inr (fd, {| srv_addr := g_listen_addr; srv_running := true;
                         srv_waited := false |})) p3
    else Threw (RpcError "Failed to build and start gRPC server.") p3).
  { unfold Server, create_grpc_server, mbind, C_bind. simpl.
    by destruct (build_and_start g_listen_addr). }
  erewrite cbind_ok.
  2:{ erewrite cbind_ok; [|reflexivity]. unfold try_catch.
      fold fd. fold p2. rewrite (cbind_ok _ _ _ _ _ Hinit). reflexivity. }
  fold p3. cbv beta. rewrite Hserver.
  destruct (build_and_start g_listen_addr).
  - eexists (Ok _), p3. split; [reflexivity|]. split_and!; try done.
    + simpl. by rewrite <-(assoc_L (++)).
    + exists fd. split; [apply lookup_insert_eq|done].
  - eexists (Threw _), p3. split; [reflexivity|]. split_and!; try done.
    simpl. by rewrite <-(assoc_L (++)).
Qed.

Lemma start_parse_throws args p e p1 :
  start_parse_args args p = Threw e p1 → is_invalid_argument e = true ∧ remote p1 = remote p.
Proof.
  unfold start_parse_args. destruct args as [|a args]; [by intros [= <- <-]|].
  unfold mbind, C_bind, lift.
  destruct (opt_loop start_opts start_option ([], []) (opt_start (a :: args)) p) as [r p'|h p']
    eqn:Hl; [|done].
  apply (opt_loop_inr _ _ only_invalid (same_remote (remote p))) in Hl as [Hrem Hr];
    [|done|intros *; apply start_option_leaves].
  destruct r as [[first second]|[v|e']]; simpl.
  - destruct (bool_decide (first = []) || negb (file_exists first)); [by intros [= <- <-]|].
    destruct (bool_decide (second = [])); [by intros [= <- <-]|done].
  - done.
  - intros [= <- <-]. done.
Qed.

(** the program exits with status 0 exactly when its arguments name an
    existing payload and a header and the call came back with the status OK: then
    the daemon started that update; with status 1, after the reason, when they do
    not, and then the daemon was not called; and it is terminated by the uncaught
    exception when the call failed. *)
Theorem start_update_exit_status `{Stub service} `{!RpcLaws id} args p :
  create_channel g_server_addr = true → new_stub = true →
  match start_parse_args args p with
  | Ok (path, h) p1 =>
      ∃ s d, process (start_update_main args) p =
               (if status_ok s then Done 0 (set_remote d p1) else Halted Aborted (set_remote d p1)) ∧
        (status_ok s = true → ∃ before after x x', serve before (remote p1) = Some (Live x) ∧
           start path h x = Ok tt x' ∧ serve after (Live x') = Some d)
  | Threw e p1 =>
      ∃ what, e = invalid_argument what ∧ remote p1 = remote p ∧
              process (start_update_main args) p = Done 1 (print_err what p1)
  | Died h p1 => process (start_update_main args) p = Halted h p1
  end.
Proof using All.
  intros Hc Hs. unfold process, start_update_main, try_catch.
  rewrite (cbind_cases (start_parse_args args)).
  destruct (start_parse_args args p) as [[path h] p1|e p1|hl p1] eqn:Hp; [| |reflexivity].
  - erewrite (cbind_ok (on_remote Client) _ p1 tt (set_remote (remote p1) p1)).
    2:{ unfold on_remote, Client, create_grpc_service_stub. by rewrite Hc, Hs. }
    rewrite cbind_cases. unfold on_remote. cbn [remote set_remote fst snd].
    destruct (client_start_result id path h (remote p1)) as (s & m & d & _ & Hcall).
    exists s, d. destruct (status_ok s).
    + destruct Hcall as (-> & Hrun). by split.
    + rewrite Hcall. by split.
  - apply start_parse_throws in Hp as [Hi Hr]. destruct e; try done. eauto.
Qed.

(** the long option of the log level takes an optional value, and the
    parser compares it without looking: given without "=", it passes a null
    pointer to [strcmp]. *)
Theorem log_level_without_value rest p :
  updated_parse_args (("--log-level" : cstring) :: rest) p =
    Died (Undefined "null pointer passed to strcmp") p.
Proof.
  unfold updated_parse_args, mbind, C_bind, lift. by rewrite opt_loop_unfold.
Qed.
End properties.

(** ** The properties at a concrete system *)

Section witnesses.
#[local] Existing Instance reliable_fs.
#[local] Existing Instance demo_proc_env.
#[local] Existing Instance demo_grpc.

Lemma daemon_start_witness :
  ∃ r p', updated_main [("-lDEBUG" : cstring)] (new_proc Gone) = r p' ∧
    notified_init p' = [("READY=1" : cstring)] ∧ handlers p' = [SIGINT; SIGHUP] ∧
    logger p' = Some LOGGER_NAME ∧
    ∃ fd, fds p' !! fd = Some lock_path ∧
      r = Ok (inr (fd, {| srv_addr := g_listen_addr; srv_running := true;
                          srv_waited := false |})).
Proof.
  exact (daemon_start [("-lDEBUG" : cstring)] (new_proc Gone) "DEBUG" (new_proc Gone)
           eq_refl eq_refl).
Defined.

Definition start_command : list cstring :=
  ["-p" : cstring; "/tmp/a.swu" : cstring; "-u" : cstring; "h" : cstring].

Lemma start_update_exit_status_witness :
  match start_parse_args start_command (new_proc idle_daemon) with
  | Ok (path, h) p1 =>
      ∃ s d, process (start_update_main (H1 := transport []) start_command) (new_proc idle_daemon) =
               (if status_ok s then Done 0 (set_remote d p1) else Halted Aborted (set_remote d p1)) ∧
        (status_ok s = true → ∃ before after x x', serve before (remote p1) = Some (Live x) ∧
           start path h x = Ok tt x' ∧ serve after (Live x') = Some d)
  | Threw e p1 =>
      ∃ what, e = invalid_argument what ∧ remote p1 = idle_daemon ∧
              process (start_update_main (H1 := transport []) start_command) (new_proc idle_daemon) =
                Done 1 (print_err what p1)
  | Died h p1 =>
      process (start_update_main (H1 := transport []) start_command) (new_proc idle_daemon) = Halted h p1
  end.
Proof.
  exact (start_update_exit_status (H2 := transport []) (RpcLaws0 := transport_laws [])
           start_command (new_proc idle_daemon) eq_refl eq_refl).
Defined.
End witnesses.
