(* ===== verification/CloudError.v ===== *)
(** * mbl-cloud-client: the error codes

    [source/MblError.h] and [MblError.cpp]. The enumeration of the Mbed Cloud
    Client library is known here by the names the conversion uses; any other
    value it may hold is [OtherError]. *)

From stdpp Require Import base strings list.
From Stdlib Require Import ZArith Ascii Lia.
From S2P Require Import Prelude.

Open Scope Z_scope.
Open Scope list_scope.

(** [mbl::Error::Type]. *)
Module Error.
Inductive Type_ :=
| None_ | Unknown | LogInitFopen
| LogInitMutexCreate | SignalsInitSigaction | DeviceUnregistered
| ShutdownRequested | ConnectAlreadyExists | ConnectBootstrapFailed
| ConnectInvalidParameters | ConnectNotRegistered | ConnectTimeout
| ConnectNetworkError | ConnectResponseParseFailed | ConnectUnknownError
| ConnectMemoryConnectFail | ConnectNotAllowed | ConnectSecureConnectionFailed
| ConnectDnsResolvingFailed | ConnectorFailedToReadCredentials | ConnectorInvalidCredentials
| ConnectorFailedToStoreCredentials | UpdateWarningCertificateNotFound | UpdateWarningIdentityNotFound
| UpdateWarningCertificateInvalid | UpdateWarningSignatureInvalid | UpdateWarningVendorMismatch
| UpdateWarningClassMismatch | UpdateWarningDeviceMismatch | UpdateWarningURINotFound
| UpdateWarningRollbackProtection | UpdateWarningAuthorizationRejected | UpdateWarningAuthorizationUnavailable
| UpdateWarningUnknown | UpdateErrorWriteToStorage | UpdateWarningNoActionRequired
| UpdateErrorUserActionRequired | UpdateFatalRebootRequired | UpdateErrorInvalidHash
| UpdateWarningBadKeytable | UpdateCertificateInsertion | UpdateErrorConnection
| EnrollmentErrorBase | EnrollmentErrorEnd.

#[global] Instance Type_eq_dec : EqDecision Type_.
Proof. solve_decision. Defined.

(** The numbers of the enumeration. *)
Definition code (e : Type_) : Z :=
  match e with
  | None_ => 0
  | Unknown => 1
  | LogInitFopen => 2
  | LogInitMutexCreate => 3
  | SignalsInitSigaction => 4
  | DeviceUnregistered => 5
  | ShutdownRequested => 6
  | ConnectAlreadyExists => 256
  | ConnectBootstrapFailed => 257
  | ConnectInvalidParameters => 258
  | ConnectNotRegistered => 259
  | ConnectTimeout => 260
  | ConnectNetworkError => 261
  | ConnectResponseParseFailed => 262
  | ConnectUnknownError => 263
  | ConnectMemoryConnectFail => 264
  | ConnectNotAllowed => 265
  | ConnectSecureConnectionFailed => 266
  | ConnectDnsResolvingFailed => 267
  | ConnectorFailedToReadCredentials => 268
  | ConnectorInvalidCredentials => 269
  | ConnectorFailedToStoreCredentials => 270
  | UpdateWarningCertificateNotFound => 512
  | UpdateWarningIdentityNotFound => 513
  | UpdateWarningCertificateInvalid => 514
  | UpdateWarningSignatureInvalid => 515
  | UpdateWarningVendorMismatch => 516
  | UpdateWarningClassMismatch => 517
  | UpdateWarningDeviceMismatch => 518
  | UpdateWarningURINotFound => 519
  | UpdateWarningRollbackProtection => 520
  | UpdateWarningAuthorizationRejected => 521
  | UpdateWarningAuthorizationUnavailable => 522
  | UpdateWarningUnknown => 523
  | UpdateErrorWriteToStorage => 524
  | UpdateWarningNoActionRequired => 525
  | UpdateErrorUserActionRequired => 526
  | UpdateFatalRebootRequired => 527
  | UpdateErrorInvalidHash => 528
  | UpdateWarningBadKeytable => 529
  | UpdateCertificateInsertion => 530
  | UpdateErrorConnection => 531
  | EnrollmentErrorBase => 768
  | EnrollmentErrorEnd => 769
  end.

Definition all : list Type_ :=
  [None_; Unknown;
   LogInitFopen; LogInitMutexCreate;
   SignalsInitSigaction; DeviceUnregistered;
   ShutdownRequested; ConnectAlreadyExists;
   ConnectBootstrapFailed; ConnectInvalidParameters;
   ConnectNotRegistered; ConnectTimeout;
   ConnectNetworkError; ConnectResponseParseFailed;
   ConnectUnknownError; ConnectMemoryConnectFail;
   ConnectNotAllowed; ConnectSecureConnectionFailed;
   ConnectDnsResolvingFailed; ConnectorFailedToReadCredentials;
   ConnectorInvalidCredentials; ConnectorFailedToStoreCredentials;
   UpdateWarningCertificateNotFound; UpdateWarningIdentityNotFound;
   UpdateWarningCertificateInvalid; UpdateWarningSignatureInvalid;
   UpdateWarningVendorMismatch; UpdateWarningClassMismatch;
   UpdateWarningDeviceMismatch; UpdateWarningURINotFound;
   UpdateWarningRollbackProtection; UpdateWarningAuthorizationRejected;
   UpdateWarningAuthorizationUnavailable; UpdateWarningUnknown;
   UpdateErrorWriteToStorage; UpdateWarningNoActionRequired;
   UpdateErrorUserActionRequired; UpdateFatalRebootRequired;
   UpdateErrorInvalidHash; UpdateWarningBadKeytable;
   UpdateCertificateInsertion; UpdateErrorConnection;
   EnrollmentErrorBase; EnrollmentErrorEnd].
End Error.

Abbreviation MblError := Error.Type_.

(** [MbedCloudClient::Error]. *)
Module MbedCloudClient.
Inductive Error_ :=
| ConnectErrorNone | ConnectAlreadyExists
| ConnectBootstrapFailed | ConnectInvalidParameters
| ConnectNotRegistered | ConnectTimeout
| ConnectNetworkError | ConnectResponseParseFailed
| ConnectUnknownError | ConnectMemoryConnectFail
| ConnectNotAllowed | ConnectSecureConnectionFailed
| ConnectDnsResolvingFailed | ConnectorFailedToReadCredentials
| ConnectorInvalidCredentials | ConnectorFailedToStoreCredentials
| UpdateWarningCertificateNotFound | UpdateWarningIdentityNotFound
| UpdateWarningCertificateInvalid | UpdateWarningSignatureInvalid
| UpdateWarningVendorMismatch | UpdateWarningClassMismatch
| UpdateWarningDeviceMismatch | UpdateWarningURINotFound
| UpdateWarningRollbackProtection | UpdateWarningAuthorizationRejected
| UpdateWarningAuthorizationUnavailable | UpdateWarningUnknown
| UpdateErrorWriteToStorage | UpdateWarningNoActionRequired
| UpdateErrorUserActionRequired | UpdateFatalRebootRequired
| UpdateErrorInvalidHash | UpdateWarningBadKeytable
| UpdateCertificateInsertion | UpdateErrorConnection
| EnrollmentErrorBase | EnrollmentErrorEnd
| OtherError (n : Z).
End MbedCloudClient.

Definition MblError_to_str (error : MblError) : cstring :=
  match error with
  | Error.None_ => "None"
  | Error.Unknown => "Unknown"
  | Error.LogInitFopen => "fopen failed"
  | Error.LogInitMutexCreate => "Failed to create mutex for logging"
  | Error.SignalsInitSigaction => "Failed to register signal handler"
  | Error.DeviceUnregistered => "Device became unregistered"
  | Error.ShutdownRequested => "Shutdown requested"
  | Error.ConnectAlreadyExists => "ConnectAlreadyExists"
  | Error.ConnectBootstrapFailed => "ConnectBootstrapFailed"
  | Error.ConnectInvalidParameters => "ConnectInvalidParameters"
  | Error.ConnectNotRegistered => "ConnectNotRegistered"
  | Error.ConnectTimeout => "ConnectTimeout"
  | Error.ConnectNetworkError => "ConnectNetworkError"
  | Error.ConnectResponseParseFailed => "ConnectResponseParseFailed"
  | Error.ConnectUnknownError => "ConnectUnknownError"
  | Error.ConnectMemoryConnectFail => "ConnectMemoryConnectFail"
  | Error.ConnectNotAllowed => "ConnectNotAllowed"
  | Error.ConnectSecureConnectionFailed => "ConnectSecureConnectionFailed"
  | Error.ConnectDnsResolvingFailed => "ConnectDnsResolvingFailed"
  | Error.ConnectorFailedToReadCredentials => "ConnectorFailedToReadCredentials"
  | Error.ConnectorInvalidCredentials => "ConnectorInvalidCredentials"
  | Error.ConnectorFailedToStoreCredentials => "ConnectorFailedToStoreCredentials"
  | Error.UpdateWarningCertificateNotFound => "UpdateWarningCertificateNotFound"
  | Error.UpdateWarningIdentityNotFound => "UpdateWarningIdentityNotFound"
  | Error.UpdateWarningCertificateInvalid => "UpdateWarningCertificateInvalid"
  | Error.UpdateWarningSignatureInvalid => "UpdateWarningSignatureInvalid"
  | Error.UpdateWarningVendorMismatch => "UpdateWarningVendorMismatch"
  | Error.UpdateWarningClassMismatch => "UpdateWarningClassMismatch"
  | Error.UpdateWarningDeviceMismatch => "UpdateWarningDeviceMismatch"
  | Error.UpdateWarningURINotFound => "UpdateWarningURINotFound"
  | Error.UpdateWarningRollbackProtection => "UpdateWarningRollbackProtection"
  | Error.UpdateWarningAuthorizationRejected => "UpdateWarningAuthorizationRejected"
  | Error.UpdateWarningAuthorizationUnavailable => "UpdateWarningAuthorizationUnavailable"
  | Error.UpdateWarningUnknown => "UpdateWarningUnknown"
  | Error.UpdateErrorWriteToStorage => "UpdateErrorWriteToStorage"
  | Error.UpdateWarningNoActionRequired => "UpdateWarningNoActionRequired"
  | Error.UpdateErrorUserActionRequired => "UpdateErrorUserActionRequired"
  | Error.UpdateFatalRebootRequired => "UpdateFatalRebootRequired"
  | Error.UpdateErrorInvalidHash => "UpdateErrorInvalidHash"
  | Error.UpdateWarningBadKeytable => "UpdateWarningBadKeytable"
  | Error.UpdateCertificateInsertion => "UpdateCertificateInsertion"
  | Error.UpdateErrorConnection => "UpdateErrorConnection"
  | Error.EnrollmentErrorBase => "EnrollmentErrorBase"
  | Error.EnrollmentErrorEnd => "EnrollmentErrorEnd"
  end.

Definition CloudClientError_to_MblError (error : MbedCloudClient.Error_) : MblError :=
  match error with
  | MbedCloudClient.ConnectErrorNone => Error.None_
  | MbedCloudClient.ConnectAlreadyExists => Error.ConnectAlreadyExists
  | MbedCloudClient.ConnectBootstrapFailed => Error.ConnectBootstrapFailed
  | MbedCloudClient.ConnectInvalidParameters => Error.ConnectInvalidParameters
  | MbedCloudClient.ConnectNotRegistered => Error.ConnectNotRegistered
  | MbedCloudClient.ConnectTimeout => Error.ConnectTimeout
  | MbedCloudClient.ConnectNetworkError => Error.ConnectNetworkError
  | MbedCloudClient.ConnectResponseParseFailed => Error.ConnectResponseParseFailed
  | MbedCloudClient.ConnectUnknownError => Error.ConnectUnknownError
  | MbedCloudClient.ConnectMemoryConnectFail => Error.ConnectMemoryConnectFail
  | MbedCloudClient.ConnectNotAllowed => Error.ConnectNotAllowed
  | MbedCloudClient.ConnectSecureConnectionFailed => Error.ConnectSecureConnectionFailed
  | MbedCloudClient.ConnectDnsResolvingFailed => Error.ConnectDnsResolvingFailed
  | MbedCloudClient.ConnectorFailedToReadCredentials => Error.ConnectorFailedToReadCredentials
  | MbedCloudClient.ConnectorInvalidCredentials => Error.ConnectorInvalidCredentials
  | MbedCloudClient.ConnectorFailedToStoreCredentials => Error.ConnectorFailedToStoreCredentials
  | MbedCloudClient.UpdateWarningCertificateNotFound => Error.UpdateWarningCertificateNotFound
  | MbedCloudClient.UpdateWarningIdentityNotFound => Error.UpdateWarningIdentityNotFound
  | MbedCloudClient.UpdateWarningCertificateInvalid => Error.UpdateWarningCertificateInvalid
  | MbedCloudClient.UpdateWarningSignatureInvalid => Error.UpdateWarningSignatureInvalid
  | MbedCloudClient.UpdateWarningVendorMismatch => Error.UpdateWarningVendorMismatch
  | MbedCloudClient.UpdateWarningClassMismatch => Error.UpdateWarningClassMismatch
  | MbedCloudClient.UpdateWarningDeviceMismatch => Error.UpdateWarningDeviceMismatch
  | MbedCloudClient.UpdateWarningURINotFound => Error.UpdateWarningURINotFound
  | MbedCloudClient.UpdateWarningRollbackProtection => Error.UpdateWarningRollbackProtection
  | MbedCloudClient.UpdateWarningAuthorizationRejected => Error.UpdateWarningAuthorizationRejected
  | MbedCloudClient.UpdateWarningAuthorizationUnavailable => Error.UpdateWarningAuthorizationUnavailable
  | MbedCloudClient.UpdateWarningUnknown => Error.UpdateWarningUnknown
  | MbedCloudClient.UpdateErrorWriteToStorage => Error.UpdateErrorWriteToStorage
  | MbedCloudClient.UpdateWarningNoActionRequired => Error.UpdateWarningNoActionRequired
  | MbedCloudClient.UpdateErrorUserActionRequired => Error.UpdateErrorUserActionRequired
  | MbedCloudClient.UpdateFatalRebootRequired => Error.UpdateFatalRebootRequired
  | MbedCloudClient.UpdateErrorInvalidHash => Error.UpdateErrorInvalidHash
  | MbedCloudClient.UpdateWarningBadKeytable => Error.UpdateWarningBadKeytable
  | MbedCloudClient.UpdateCertificateInsertion => Error.UpdateCertificateInsertion
  | MbedCloudClient.UpdateErrorConnection => Error.UpdateErrorConnection
  | MbedCloudClient.EnrollmentErrorBase => Error.EnrollmentErrorBase
  | MbedCloudClient.EnrollmentErrorEnd => Error.EnrollmentErrorEnd
  | MbedCloudClient.OtherError _ => Error.Unknown
  end.

(** The name the source gives the enumerator. *)
Definition cloud_error_name (error : MbedCloudClient.Error_) : cstring :=
  match error with
  | MbedCloudClient.ConnectErrorNone => "None"
  | MbedCloudClient.ConnectAlreadyExists => "ConnectAlreadyExists"
  | MbedCloudClient.ConnectBootstrapFailed => "ConnectBootstrapFailed"
  | MbedCloudClient.ConnectInvalidParameters => "ConnectInvalidParameters"
  | MbedCloudClient.ConnectNotRegistered => "ConnectNotRegistered"
  | MbedCloudClient.ConnectTimeout => "ConnectTimeout"
  | MbedCloudClient.ConnectNetworkError => "ConnectNetworkError"
  | MbedCloudClient.ConnectResponseParseFailed => "ConnectResponseParseFailed"
  | MbedCloudClient.ConnectUnknownError => "ConnectUnknownError"
  | MbedCloudClient.ConnectMemoryConnectFail => "ConnectMemoryConnectFail"
  | MbedCloudClient.ConnectNotAllowed => "ConnectNotAllowed"
  | MbedCloudClient.ConnectSecureConnectionFailed => "ConnectSecureConnectionFailed"
  | MbedCloudClient.ConnectDnsResolvingFailed => "ConnectDnsResolvingFailed"
  | MbedCloudClient.ConnectorFailedToReadCredentials => "ConnectorFailedToReadCredentials"
  | MbedCloudClient.ConnectorInvalidCredentials => "ConnectorInvalidCredentials"
  | MbedCloudClient.ConnectorFailedToStoreCredentials => "ConnectorFailedToStoreCredentials"
  | MbedCloudClient.UpdateWarningCertificateNotFound => "UpdateWarningCertificateNotFound"
  | MbedCloudClient.UpdateWarningIdentityNotFound => "UpdateWarningIdentityNotFound"
  | MbedCloudClient.UpdateWarningCertificateInvalid => "UpdateWarningCertificateInvalid"
  | MbedCloudClient.UpdateWarningSignatureInvalid => "UpdateWarningSignatureInvalid"
  | MbedCloudClient.UpdateWarningVendorMismatch => "UpdateWarningVendorMismatch"
  | MbedCloudClient.UpdateWarningClassMismatch => "UpdateWarningClassMismatch"
  | MbedCloudClient.UpdateWarningDeviceMismatch => "UpdateWarningDeviceMismatch"
  | MbedCloudClient.UpdateWarningURINotFound => "UpdateWarningURINotFound"
  | MbedCloudClient.UpdateWarningRollbackProtection => "UpdateWarningRollbackProtection"
  | MbedCloudClient.UpdateWarningAuthorizationRejected => "UpdateWarningAuthorizationRejected"
  | MbedCloudClient.UpdateWarningAuthorizationUnavailable => "UpdateWarningAuthorizationUnavailable"
  | MbedCloudClient.UpdateWarningUnknown => "UpdateWarningUnknown"
  | MbedCloudClient.UpdateErrorWriteToStorage => "UpdateErrorWriteToStorage"
  | MbedCloudClient.UpdateWarningNoActionRequired => "UpdateWarningNoActionRequired"
  | MbedCloudClient.UpdateErrorUserActionRequired => "UpdateErrorUserActionRequired"
  | MbedCloudClient.UpdateFatalRebootRequired => "UpdateFatalRebootRequired"
  | MbedCloudClient.UpdateErrorInvalidHash => "UpdateErrorInvalidHash"
  | MbedCloudClient.UpdateWarningBadKeytable => "UpdateWarningBadKeytable"
  | MbedCloudClient.UpdateCertificateInsertion => "UpdateCertificateInsertion"
  | MbedCloudClient.UpdateErrorConnection => "UpdateErrorConnection"
  | MbedCloudClient.EnrollmentErrorBase => "EnrollmentErrorBase"
  | MbedCloudClient.EnrollmentErrorEnd => "EnrollmentErrorEnd"
  | MbedCloudClient.OtherError _ => "Unknown"
  end.

(** ** Properties *)

Lemma all_complete e : e ∈ Error.all.
Proof. destruct e; apply (bool_decide_unpack _); vm_compute; exact I. Qed.

(** Functions on the enumeration that give distinct results are injective. *)
Lemma injective_by_evaluation {A} `{EqDecision A} (f : MblError → A) :
  forallb (λ e, forallb (λ e', bool_decide (f e = f e' → e = e')) Error.all) Error.all = true →
  Inj (=) (=) f.
Proof.
  intros Hall e e'. rewrite forallb_forall in Hall.
  specialize (Hall e (proj1 (list_elem_of_In _ _) (all_complete e))).
  rewrite forallb_forall in Hall.
  specialize (Hall e' (proj1 (list_elem_of_In _ _) (all_complete e'))).
  by apply bool_decide_eq_true in Hall.
Qed.

(** no two error codes share a number or a text, so a log line tells the
    errors apart; and an error of the cloud library keeps its name through the
    conversion, whatever value it has. *)
Theorem error_texts_identify :
  Inj (=) (=) Error.code ∧ Inj (=) (=) MblError_to_str ∧
  ∀ e, MblError_to_str (CloudClientError_to_MblError e) = cloud_error_name e.
Proof.
  split; [|split].
  - apply injective_by_evaluation. vm_compute. reflexivity.
  - apply injective_by_evaluation. vm_compute. reflexivity.
  - by intros [].
Qed.
