(* ===== verification/CloudClient.v ===== *)
(** * mbl-cloud-client: the sequential parts

    [cloud-services/mbl-cloud-client]: [source/update_handlers.cpp], [log.cpp],
    [signals.cpp], [application_init.cpp], [callbacks.cpp],
    [cloud-connect-resource-broker] and [main.cpp]. The object that talks to the
    cloud, and its threads, are in [CloudLifecycle]. *)

From stdpp Require Import base gmap strings list.
From Stdlib Require Import ZArith Ascii Lia.
From S2P Require Import Prelude.
From S2P Require Import CString.
From S2P Require Import Posix.
From S2P Require Import CloudError.

Open Scope Z_scope.
Open Scope list_scope.

(** ** State of the process *)

Inductive trace_level := TrDebug | TrInfo | TrWarn | TrErr.

Record app := {
  traces : list (trace_level * list logarg);   (** what went to mbed-trace *)
  err_out : list (list logarg);                (** stderr *)
  g_log_stream : option nat;
  g_log_need_reopen : bool;
  streams : gset nat;                          (** streams that are open *)
  written : list (nat * cstring);              (** lines, by stream *)
  next_stream : nat;
  trace_ready : bool;                          (** [log_init] set the hooks *)
  sa_handlers : list (Z * cstring)             (** signals, by handler *)
}.

Definition start_app : app := {|
  traces := []; err_out := []; g_log_stream := None; g_log_need_reopen := false;
  streams := ∅; written := []; next_stream := 0; trace_ready := false; sa_handlers := [] |}.

Definition add_trace (l : trace_level) (args : list logarg) (a : app) : app :=
  {| traces := traces a ++ [(l, args)]; err_out := err_out a;
     g_log_stream := g_log_stream a; g_log_need_reopen := g_log_need_reopen a;
     streams := streams a; written := written a; next_stream := next_stream a;
     trace_ready := trace_ready a; sa_handlers := sa_handlers a |}.
Definition add_stderr (args : list logarg) (a : app) : app :=
  {| traces := traces a; err_out := err_out a ++ [args];
     g_log_stream := g_log_stream a; g_log_need_reopen := g_log_need_reopen a;
     streams := streams a; written := written a; next_stream := next_stream a;
     trace_ready := trace_ready a; sa_handlers := sa_handlers a |}.
Definition set_log (s : option nat) (need : bool) (open : gset nat) (w : list (nat * cstring))
    (n : nat) (a : app) : app :=
  {| traces := traces a; err_out := err_out a; g_log_stream := s; g_log_need_reopen := need;
     streams := open; written := w; next_stream := n; trace_ready := trace_ready a;
     sa_handlers := sa_handlers a |}.
Definition set_trace_ready (b : bool) (a : app) : app :=
  {| traces := traces a; err_out := err_out a;
     g_log_stream := g_log_stream a; g_log_need_reopen := g_log_need_reopen a;
     streams := streams a; written := written a; next_stream := next_stream a;
     trace_ready := b; sa_handlers := sa_handlers a |}.
Definition add_sa (sig : Z) (h : cstring) (a : app) : app :=
  {| traces := traces a; err_out := err_out a;
     g_log_stream := g_log_stream a; g_log_need_reopen := g_log_need_reopen a;
     streams := streams a; written := written a; next_stream := next_stream a;
     trace_ready := trace_ready a; sa_handlers := sa_handlers a ++ [(sig, h)] |}.

Definition tr (l : trace_level) (args : list logarg) : M app unit := modify (add_trace l args).
Definition tr_debug := tr TrDebug.
Definition tr_info := tr TrInfo.
Definition tr_warn := tr TrWarn.
Definition tr_err := tr TrErr.

(** What the process asks of the system and of the Mbed libraries.
    The clock and the calendar are the functions [make_time_prefix] uses:
    [gettimeofday], [localtime_r], and [strftime] as the text it would write. *)
Class AppEnv := {
  UpdateRequestDownload : Z;
  UpdateRequestInstall : Z;
  fopen_log : nat → bool;                (** the n-th [fopen] of the log works *)
  time_of_day : nat → option Z;
  local_time : Z → option cstring;
  trace_mutex_ok : bool;                 (** [mbed_trace_helper_create_mutex] *)
  sigaction_errno : Z → option Z;
  daemon_errno : option Z;
  FCC_STATUS_SUCCESS : Z;
  FCC_STATUS_KCM_FILE_EXIST_ERROR : Z;
  fcc_init : Z;
  fcc_developer_flow : Z;
  fcc_verify_device_configured_4mbed_cloud : Z;
  MBED_CONF_APP_DEVELOPER_MODE : bool    (** the macro is defined *)
}.

Definition SIGHUP : Z := 1.
Definition SIGINT : Z := 2.
Definition SIGTERM : Z := 15.

Section operations.
Context `{AppEnv}.

(** ** update_handlers.cpp *)

Definition handle_download_request : M app bool :=
  tr_info [LStr "Firmware download requested"];;
  tr_info [LStr "Authorization granted"];;
  mret true.

Definition handle_install_request : M app bool :=
  tr_info [LStr "Firmware install requested"];;
  tr_info [LStr "Authorization granted"];;
  mret true.

(** The product is computed in 64 bits, the quotient is cut to [unsigned]. *)
Definition download_percent (progress total : Z) : option Z :=
  if total =? 0 then None
  else Some (wrap_uint ((progress * 100) mod 2 ^ 64 / total)).

Definition handle_download_progress (progress total : Z) : M app unit :=
  percent ← of_option "division by zero" (download_percent progress total);
  tr_info [LStr "Downloading: %"; LInt percent];;
  if progress =? total then tr_info [LStr "Download completed"] else mret tt.

Definition handle_authorize (request : Z) : M app bool :=
  if request =? UpdateRequestDownload then handle_download_request
  else if request =? UpdateRequestInstall then handle_install_request
  else
    tr_warn [LStr "Uknown update authorization request"; LInt request];;
    mret false.

(** ** log.cpp *)

Definition g_log_path : cstring := "/var/log/mbl-cloud-client.log".
Definition g_time_prefix_buffer_size : Z := 26.
Definition fail_str : cstring := "TIME UNAVAILABLE ".

Definition mbl_log_reopen_signal_handler : M app unit :=
  modify (λ a, set_log (g_log_stream a) true (streams a) (written a) (next_stream a) a).

Definition strncpy_with_nul (dest : cbuf) (src : cstring) (n : Z) : M app cbuf :=
  c_assert (1 <=? n);;
  b ← of_option "strncpy past the end" (strncpy dest src (n - 1));
  of_option "store past the end" (
    if Nat.ltb (Z.to_nat (n - 1)) (length b)
    then Some (<[Z.to_nat (n - 1) := Some NUL]> b) else None).

(** [strftime] writes the text and its terminator, or returns 0 when they do
    not fit. *)
Definition strftime (buffer : cbuf) (size : Z) (text : cstring) : option (Z * cbuf) :=
  if strlen text + 1 <=? size
  then b ← buf_write (text ++ [NUL]) buffer; Some (strlen text, b)
  else Some (0, buffer).

(** [tick] is the time of the call. *)
Definition make_time_prefix (tick : nat) (buffer : cbuf) (buffer_size : Z) : M app cbuf :=
  c_assert (g_time_prefix_buffer_size <=? buffer_size);;
  match time_of_day tick with
  | None => strncpy_with_nul buffer fail_str buffer_size
  | Some tv_sec =>
      match local_time tv_sec with
      | None => strncpy_with_nul buffer fail_str buffer_size
      | Some text =>
          r ← of_option "strftime past the end" (strftime buffer buffer_size text);
          if r.1 =? 0 then strncpy_with_nul r.2 fail_str buffer_size else mret r.2
      end
  end.

(** [std::fopen(g_log_path, "a")]. *)
Definition open_log : M app (option nat) :=
  n ← gets next_stream;
  if fopen_log n then
    modify (λ a, set_log (g_log_stream a) (g_log_need_reopen a) ({[n]} ∪ streams a)
                   (written a) (S n) a);;
    mret (Some n)
  else
    modify (λ a, set_log (g_log_stream a) (g_log_need_reopen a) (streams a)
                   (written a) (S n) a);;
    mret None.

(** [std::fclose] and [std::fprintf] need an open stream. *)
Definition close_log (s : nat) : M app unit :=
  a ← gets streams;
  if bool_decide (s ∈ a) then
    modify (λ a, set_log (g_log_stream a) (g_log_need_reopen a) (streams a ∖ {[s]})
                   (written a) (next_stream a) a)
  else undefined "fclose of a closed stream".

Definition write_log (s : nat) (line : cstring) : M app unit :=
  a ← gets streams;
  if bool_decide (s ∈ a) then
    modify (λ a, set_log (g_log_stream a) (g_log_need_reopen a) (streams a)
                   (written a ++ [(s, line)]) (next_stream a) a)
  else undefined "write to a closed stream".

Definition set_stream (s : option nat) (need : bool) : M app unit :=
  modify (λ a, set_log s need (streams a) (written a) (next_stream a) a).

Definition mbl_trace_print_handler (tick : nat) (str : cstring) : M app unit :=
  s ← gets g_log_stream;
  need ← gets g_log_need_reopen;
  (if negb (bool_decide (is_Some s)) || need then
     match s with Some f => close_log f | None => mret tt end;;
     f ← open_log;
     set_stream f false;;
     match f with
     | Some f =>
         b ← make_time_prefix tick (buf_uninit g_time_prefix_buffer_size)
               g_time_prefix_buffer_size;
         p ← of_option "unterminated prefix" (buf_cstr b);
         write_log f (p ++ "[INFO][mbl ]: Log file reopened")
     | None => mret tt
     end
   else mret tt);;
  s' ← gets g_log_stream;
  match s' with Some f => write_log f str | None => mret tt end.

Definition mbl_trace_prefix_handler (tick : nat) (buffer : cbuf) : M app cbuf :=
  make_time_prefix tick buffer g_time_prefix_buffer_size.

Definition log_init : M app MblError :=
  s ← gets g_log_stream;
  c_assert (bool_decide (s = None));;
  f ← open_log;
  need ← gets g_log_need_reopen;
  set_stream f need;;
  match f with
  | None =>
      modify (add_stderr [LStr "log_init: fopen"]);; mret Error.LogInitFopen
  | Some _ =>
      modify (set_trace_ready true);;
      if negb trace_mutex_ok then mret Error.LogInitMutexCreate else mret Error.None_
  end.

(** ** signals.cpp *)

Definition set_signal (sig : Z) (handler : cstring) (text : cstring) (k : M app MblError)
  : M app MblError :=
  match sigaction_errno sig with
  | Some e => tr_err [LStr text; LErrno e];; mret Error.SignalsInitSigaction
  | None => modify (add_sa sig handler);; k
  end.

Definition signals_init : M app MblError :=
  set_signal SIGTERM "mbl_shutdown_handler" "Failed to set SIGTERM signal handler"
    (set_signal SIGINT "mbl_shutdown_handler" "Failed to set SIGINT signal handler"
      (set_signal SIGHUP "mbl_log_reopen_signal_handler" "Failed to set SIGHUP signal handler"
        (mret Error.None_))).

(** ** application_init.cpp *)

(** The result is the C++ [bool]: true means that it failed. *)
Definition application_init_fcc : M app bool :=
  let verify :=
    if negb (fcc_verify_device_configured_4mbed_cloud =? FCC_STATUS_SUCCESS)
    then tr_err [LStr "Device not configured for mbed Cloud - exit"];; mret true
    else mret false in
  if negb (fcc_init =? FCC_STATUS_SUCCESS)
  then tr_err [LStr "fcc_init failed with status - exit"; LInt fcc_init];; mret true
  else if MBED_CONF_APP_DEVELOPER_MODE then
    tr_info [LStr "Start developer flow"];;
    if fcc_developer_flow =? FCC_STATUS_KCM_FILE_EXIST_ERROR
    then tr_info [LStr "Developer credentials already exists"];; verify
    else if negb (fcc_developer_flow =? FCC_STATUS_SUCCESS)
    then tr_err [LStr "Failed to load developer credentials - exit"];; mret true
    else verify
  else verify.

Definition application_init : M app bool :=
  tr_info [LStr "Start mbed Linux Cloud Client"];;
  failed ← application_init_fcc;
  if (failed : bool) then tr_err [LStr "Failed initializing FCC"];; mret false
  else mret true.

(** ** cloud-connect-resource-broker *)

(** [MblCloudConnectIpcInterface]: the one operation every mechanism has. *)
Class IpcInterface := { ipc_Init : M app MblError }.

Definition MblCloudConnectIpcDBus_Init : M app MblError :=
  tr_debug [LStr "MblCloudConnectIpcDBus::Init"];; mret Error.None_.

Definition MblCloudConnectIpcDBus : IpcInterface :=
  {| ipc_Init := MblCloudConnectIpcDBus_Init |}.

(** The broker's only member is the pointer to its mechanism. *)
Definition broker : Type := option IpcInterface.

Definition MblCloudConnectResourceBroker : M app broker :=
  tr_info [LStr "MblCloudConnectIpcDBus::MblCloudConnectIpcDBus"];;
  tr_debug [LStr "MblCloudConnectResourceBroker::MblCloudConnectResourceBroker"];;
  mret (Some MblCloudConnectIpcDBus).

Definition MblCloudConnectResourceBroker_Init (b : broker) : M app MblError :=
  tr_debug [LStr "MblCloudConnectResourceBroker::Init"];;
  ipc ← match b with Some ipc => mret ipc | None => stop Aborted end;
  ret ← @ipc_Init ipc;
  (if negb (bool_decide (ret = Error.None_))
   then tr_err [LStr "Init ipc failed with error"; LStr (MblError_to_str ret)]
   else mret tt);;
  mret ret.

(** ** main.cpp *)

(** [run] is [MblCloudClient::run]. *)
Definition main (run : M app MblError) : M app Z :=
  match daemon_errno with
  | Some e =>
      modify (add_stderr [LStr "Daemonization failed, exiting application!"; LErrno e]);;
      tr_err [LStr "Daemonization failed, exiting application!"; LErrno e];;
      mret 1
  | None =>
      log_err ← log_init;
      if negb (bool_decide (log_err = Error.None_)) then
        modify (add_stderr [LStr "Log initialization failed"; LStr (MblError_to_str log_err)]);;
        mret 1
      else
        sig_err ← signals_init;
        if negb (bool_decide (sig_err = Error.None_)) then
          modify (add_stderr [LStr "Signal handler initialization failed";
                              LStr (MblError_to_str sig_err)]);;
          mret 1
        else
          ok ← application_init;
          if negb ok then
            tr_err [LStr "Cloud Client library initialization failed, exiting application!"];;
            mret 1
          else
            run_err ← run;
            tr_info [LStr "Exiting application"];;
            mret (if decide (run_err = Error.ShutdownRequested) then 0 else 1)
  end.
End operations.

(** ** callbacks.cpp *)

Section reboot.
Context `{Env}.

(** [reboot] is [pal_plat_osReboot]. *)
Definition pal_plat_osApplicationReboot (reboot : M world unit) : M world unit :=
  fp ← fopen_r "/tmp/do_not_reboot";
  match fp with
  | Some f =>
      close f;;
      log_at SevInfo [LStr "Not rebooting the system (application update)"]
  | None =>
      log_at SevInfo [LStr "Rebooting the system"];;
      reboot
  end.
End reboot.
