(* ===== verification/CloudClientProps.v ===== *)
(** * mbl-cloud-client: properties of the sequential parts *)

From stdpp Require Import base gmap strings list.
From Stdlib Require Import ZArith Ascii Lia.
From S2P Require Import Prelude.
From S2P Require Import CString.
From S2P Require Import Posix.
From S2P Require Import Swupdate.
From S2P Require Import SwupdateProps.
From S2P Require Import SwupdateHandler.
From S2P Require Import SwupdateClaims.
From S2P Require Import CloudError.
From S2P Require Import CloudClient.

Open Scope Z_scope.
Open Scope list_scope.

Section properties.
Context `{AppEnv}.

(** For 32-bit counts with progress up to a total that is not 0, the
    percentage that is logged is the exact quotient rounded down, from 0 to
    100, and is 100 only at the end; a total of 0 divides by zero. *)
Theorem download_percent_exact progress total a :
  0 ≤ progress ≤ total → total < 2 ^ 32 →
  if total =? 0
  then handle_download_progress progress total a = Halted (Undefined "division by zero") a
  else ∃ p, download_percent progress total = Some p ∧ 0 ≤ p ≤ 100 ∧
            p * total ≤ progress * 100 < (p + 1) * total ∧
            (p = 100 ↔ progress = total) ∧
            traces (final (handle_download_progress progress total a)) =
              traces a ++ [(TrInfo, [LStr "Downloading: %"; LInt p])] ++
              (if progress =? total then [(TrInfo, [LStr "Download completed"])] else []).
Proof.
  intros Hp Ht. unfold handle_download_progress, download_percent.
  destruct (Z.eqb_spec total 0) as [Hz|Hz]; [done|].
  assert (0 < total) as Hpos by lia.
  rewrite (Z.mod_small (progress * 100)) by lia.
  set (q := progress * 100 / total).
  assert (q * total ≤ progress * 100 < (q + 1) * total) as Hq.
  { pose proof (Z.div_mod (progress * 100) total Hz) as Hdm.
    pose proof (Z.mod_pos_bound (progress * 100) total Hpos). fold q in Hdm. nia. }
  assert (0 ≤ q ≤ 100) as Hb by nia.
  assert (wrap_uint q = q) as -> by (unfold wrap_uint; apply Z.mod_small; lia).
  exists q. split; [done|]. split; [done|]. split; [done|]. split; [nia|].
  unfold mbind, M_bind; simpl. destruct (progress =? total); simpl.
  - by rewrite <-(assoc_L (++)).
  - done.
Qed.

(** *** The log *)

(** The log is the one open stream. *)
Definition log_ok (a : app) : Prop :=
  match g_log_stream a with
  | Some s => streams a = {[s]} ∧ (s < next_stream a)%nat
  | None => streams a = ∅
  end.

Definition calendar_ok : Prop := ∀ t text, local_time t = Some text → no_nul text.

(** What leaves everything but the buffer alone. *)
Lemma wp_strncpy_with_nul dest src n Q (E : halt → app → Prop) a :
  1 ≤ n → n = Z.of_nat (length dest) → no_nul src → strlen src < n →
  (∀ b, buf_cstr b = Some src → length b = length dest → Q b a) →
  wp (strncpy_with_nul dest src n) Q E a.
Proof.
  intros Hn Hd Hs Hlen HQ. unfold strncpy_with_nul.
  apply wp_bind. rewrite (proj2 (Z.leb_le 1 n)) by done. apply wp_ret, wp_bind.
  rewrite strncpy_defined by lia. apply wp_ret.
  set (b := (Some <$> strncpy_bytes src (n - 1)) ++ drop (Z.to_nat (n - 1)) dest).
  assert (length b = length dest) as Hb.
  { unfold b. rewrite length_app, length_fmap, strncpy_bytes_length, length_drop by lia. lia. }
  rewrite (proj2 (Nat.ltb_lt _ _)) by lia. apply wp_ret, HQ; [|by rewrite length_insert].
  assert (∃ pad, <[Z.to_nat (n - 1) := Some NUL]> b = (Some <$> src ++ [NUL]) ++ pad)
    as [pad ->]; [|by apply buf_cstr_app].
  unfold b. destruct (Z.lt_ge_cases (strlen src) (n - 1)) as [Hl|Hl].
  - destruct (strncpy_bytes_fits src (n - 1) Hl) as [pad Hpad]. rewrite Hpad.
    rewrite (assoc_L (++)), (fmap_app _ (src ++ [NUL])), <-(assoc_L (++)).
    rewrite insert_app_r_alt by (rewrite length_fmap, length_app; unfold strlen in *; simpl; lia).
    by eexists.
  - assert (length src = Z.to_nat (n - 1)) as Hls by (unfold strlen in *; lia).
    unfold strncpy_bytes. rewrite take_ge by lia.
    replace (Z.to_nat (n - 1) - length src)%nat with 0%nat by lia.
    cbn [replicate]. rewrite app_nil_r.
    rewrite insert_app_r_alt by (rewrite length_fmap; lia).
    rewrite length_fmap, Hls, Nat.sub_diag.
    destruct (drop (Z.to_nat (n - 1)) dest) as [|c cs] eqn:Hdr.
    + apply (f_equal length) in Hdr. rewrite length_drop in Hdr. simpl in Hdr. lia.
    + exists cs. rewrite fmap_app, <-(assoc_L (++)). done.
Qed.
Lemma fail_str_ok : no_nul fail_str ∧ strlen fail_str < g_time_prefix_buffer_size.
Proof. split; [|done]. apply (bool_decide_unpack _). vm_compute. exact I. Qed.

(** The prefix is a terminated string in its buffer, whatever the clock and
    the calendar answer. *)
Lemma wp_make_time_prefix tick buffer Q (E : halt → app → Prop) a :
  calendar_ok → Z.of_nat (length buffer) = g_time_prefix_buffer_size →
  (∀ b s, buf_cstr b = Some s → length b = length buffer →
     (s = fail_str ∨ ∃ t, time_of_day tick = Some t ∧ local_time t = Some s) → Q b a) →
  wp (make_time_prefix tick buffer g_time_prefix_buffer_size) Q E a.
Proof.
  intros Hcal Hlen HQ. unfold make_time_prefix. apply wp_bind. rewrite Z.leb_refl.
  apply wp_ret.
  assert (Hfail : ∀ buf, length buf = length buffer →
            wp (strncpy_with_nul buf fail_str g_time_prefix_buffer_size) Q E a).
  { intros buf Hb. apply wp_strncpy_with_nul; [done|by rewrite Hb|apply fail_str_ok..|].
    intros b Hc Hb'. eapply HQ; [done|congruence|by left]. }
  destruct (time_of_day tick) as [t|] eqn:Ht; [|by apply Hfail].
  destruct (local_time t) as [text|] eqn:Hl; [|by apply Hfail].
  unfold strftime. destruct (Z.leb_spec (strlen text + 1) g_time_prefix_buffer_size) as [Hs|Hs].
  - rewrite buf_write_fits.
    2:{ unfold strlen in Hs. rewrite length_app. simpl. lia. }
    cbn [mbind option_bind of_option]. apply wp_bind, wp_ret. cbn [fst snd].
    assert (length ((Some <$> text ++ [NUL]) ++ drop (length (text ++ [NUL])) buffer)
            = length buffer) as Hb.
    { rewrite length_app, length_fmap, length_drop, length_app. simpl.
      unfold strlen in Hs. lia. }
    destruct (strlen text =? 0); [by apply Hfail|].
    apply wp_ret. eapply HQ; [apply buf_cstr_app; by eapply Hcal|done|eauto].
  - apply wp_bind, wp_ret. cbn [fst snd Z.eqb]. by apply Hfail.
Qed.

Lemma wp_write_log f line Q (E : halt → app → Prop) a :
  f ∈ streams a →
  Q tt (set_log (g_log_stream a) (g_log_need_reopen a) (streams a)
          (written a ++ [(f, line)]) (next_stream a) a) →
  wp (write_log f line) Q E a.
Proof.
  intros Hf HQ. unfold write_log. apply wp_bind, wp_gets.
  rewrite bool_decide_eq_true_2 by done. by apply wp_modify.
Qed.

(** Closing the old stream and opening the log again. *)
Lemma wp_reopen {B} (K : option nat → M app B) Q (E : halt → app → Prop) a :
  log_ok a →
  (∀ a', log_ok a' → g_log_need_reopen a' = false → written a' = written a →
     wp (K (g_log_stream a')) Q E a') →
  wp (match g_log_stream a with Some f => close_log f | None => mret tt end;;
      f ← open_log; set_stream f false;; K f) Q E a.
Proof.
  intros Hok HQ. apply wp_bind.
  assert (wp (match g_log_stream a with Some f => close_log f | None => mret tt end)
            (λ _ a', streams a' = ∅ ∧ next_stream a' = next_stream a ∧ written a' = written a)
            E a) as Hclose.
  { unfold log_ok in Hok. destruct (g_log_stream a) as [s|]; [|by apply wp_ret].
    destruct Hok as [Hs _]. unfold close_log. apply wp_bind, wp_gets.
    rewrite bool_decide_eq_true_2 by (rewrite Hs; by apply elem_of_singleton).
    apply wp_modify. simpl. rewrite Hs. split_and!; [set_solver|done..]. }
  eapply wp_mono; [exact Hclose| |done]. intros [] a1 (Hs & Hn & Hw).
  unfold open_log. apply wp_bind, wp_bind, wp_gets.
  destruct (fopen_log (next_stream a1)); apply wp_bind, wp_modify, wp_ret, wp_bind, wp_modify.
  - apply (HQ (set_log (Some (next_stream a1)) false ({[next_stream a1]} ∪ streams a1)
                 (written a1) (S (next_stream a1)) a1)); [|done..].
    unfold log_ok; simpl. rewrite Hs. split; [set_solver|lia].
  - by apply (HQ (set_log None false (streams a1) (written a1) (S (next_stream a1)) a1)).
Qed.

Definition line_post (str : cstring) (a a' : app) : Prop :=
  log_ok a' ∧ g_log_need_reopen a' = false ∧
  match g_log_stream a' with
  | Some s => last (written a') = Some (s, str)
  | None => written a' = written a
  end.

Lemma wp_last_line str a0 a :
  log_ok a → g_log_need_reopen a = false →
  (g_log_stream a = None → written a = written a0) →
  wp (s' ← gets g_log_stream;
      match s' with Some f => write_log f str | None => mret tt end)
    (λ _, line_post str a0) (λ _ _, False) a.
Proof.
  intros Hok Hneed Hw. apply wp_bind, wp_gets. unfold log_ok in Hok. unfold line_post.
  destruct (g_log_stream a) as [f|] eqn:Hf.
  - destruct Hok as [Hs Hlt]. apply wp_write_log; [rewrite Hs; by apply elem_of_singleton|].
    unfold log_ok; simpl. rewrite Hf. split_and!; [done..|]. by rewrite last_snoc.
  - apply wp_ret. unfold log_ok. rewrite Hf. auto.
Qed.

(** printing a line never uses a closed stream and never leaks one,
    whether or not the log must be reopened, [fopen] works or the time is
    known: afterwards the log is still the only open stream, no reopening is
    pending, and the line is the last one written unless the log could not be
    opened. *)
Theorem log_line_is_written tick str a :
  calendar_ok → log_ok a →
  ∃ a', mbl_trace_print_handler tick str a = Done tt a' ∧ line_post str a a'.
Proof.
  intros Hcal Hok.
  assert (wp (mbl_trace_print_handler tick str) (λ _, line_post str a) (λ _ _, False) a) as Hwp.
  { unfold mbl_trace_print_handler. apply wp_bind, wp_gets, wp_bind, wp_gets, wp_bind.
    destruct (negb (bool_decide (is_Some (g_log_stream a))) || g_log_need_reopen a) eqn:Hc.
    - apply wp_reopen; [done|]. intros a1 Hok1 Hn1 Hw1.
      destruct (g_log_stream a1) as [f|] eqn:Hf.
      + apply wp_bind, wp_make_time_prefix; [done|done|]. intros b s Hb _ _.
        rewrite Hb. apply wp_bind, wp_ret. unfold log_ok in Hok1. rewrite Hf in Hok1.
        apply wp_write_log; [rewrite (proj1 Hok1); by apply elem_of_singleton|].
        apply wp_last_line; [|done|by rewrite Hf]. unfold log_ok; simpl. by rewrite Hf.
      + apply wp_ret, wp_last_line; auto.
    - apply orb_false_iff in Hc as [Hsome Hneed]. apply wp_ret, wp_last_line; auto. }
  unfold wp in Hwp. destruct (mbl_trace_print_handler tick str a) as [[] a'|]; [eauto|done].
Qed.

(** *** The program *)

(** [only_traces]: nothing but the trace output changed. *)
Definition only_traces (a a' : app) : Prop :=
  g_log_stream a' = g_log_stream a ∧ trace_ready a' = trace_ready a ∧
  sa_handlers a' = sa_handlers a.

#[export] Instance only_traces_preorder : PreOrder only_traces.
Proof.
  split; [done|]. unfold only_traces. intros x y z (?&?&?) (?&?&?). split_and!; congruence.
Qed.
#[export] Instance traces_tr l args : Preserves only_traces (tr l args).
Proof. by apply preserves_modify. Qed.
#[export] Instance traces_info args : Preserves only_traces (tr_info args).
Proof. apply _. Qed.
#[export] Instance traces_err args : Preserves only_traces (tr_err args).
Proof. apply _. Qed.
#[export] Instance total_tr l args : Total (tr l args).
Proof. apply total_modify. Qed.
#[export] Instance total_tr_info args : Total (tr_info args).
Proof. apply _. Qed.
#[export] Instance total_tr_err args : Total (tr_err args).
Proof. apply _. Qed.

Lemma wp_traces {A} (m : M app A) Q (E : halt → app → Prop) a :
  Preserves only_traces m → Total m → (∀ x a', only_traces a a' → Q x a') → wp m Q E a.
Proof. apply wp_frame. Qed.

Lemma wp_application_init Q (E : halt → app → Prop) a :
  (∀ a', only_traces a a' → Q false a') →
  (∀ a', only_traces a a' → fcc_init = FCC_STATUS_SUCCESS →
     fcc_verify_device_configured_4mbed_cloud = FCC_STATUS_SUCCESS → Q true a') →
  wp application_init Q E a.
Proof.
  intros HF HT. unfold application_init. apply wp_bind, wp_traces; [apply _..|].
  intros _ a1 H1. apply wp_bind.
  assert (Hend : ∀ failed a2, only_traces a1 a2 →
    (failed = false → fcc_init = FCC_STATUS_SUCCESS ∧
       fcc_verify_device_configured_4mbed_cloud = FCC_STATUS_SUCCESS) →
    wp (if (failed : bool) then tr_err [LStr "Failed initializing FCC"];; mret false
        else mret true) Q E a2).
  { intros [] a2 H2 Hok.
    - apply wp_bind, wp_traces; [apply _..|]. intros _ a3 H3. apply wp_ret, HF.
      etrans; [exact H1|]. by etrans.
    - destruct Hok; [done|]. apply wp_ret, HT; [by etrans|done..]. }
  assert (Herr : ∀ args a2, only_traces a1 a2 →
    wp (tr_err args;; mret true) (λ failed, wp (if (failed : bool)
        then tr_err [LStr "Failed initializing FCC"];; mret false else mret true) Q E) E a2).
  { intros args a2 H2. apply wp_bind, wp_traces; [apply _..|]. intros _ a3 H3.
    apply wp_ret, (Hend true); [by etrans|done]. }
  unfold application_init_fcc.
  destruct (Z.eqb_spec fcc_init FCC_STATUS_SUCCESS) as [Hi|Hi]; [|by apply Herr].
  cbn [negb].
  assert (Hverify : ∀ a2, only_traces a1 a2 →
    wp (if negb (fcc_verify_device_configured_4mbed_cloud =? FCC_STATUS_SUCCESS)
        then tr_err [LStr "Device not configured for mbed Cloud - exit"];; mret true
        else mret false) (λ failed, wp (if (failed : bool)
        then tr_err [LStr "Failed initializing FCC"];; mret false else mret true) Q E) E a2).
  { intros a2 H2. destruct (Z.eqb_spec fcc_verify_device_configured_4mbed_cloud
                              FCC_STATUS_SUCCESS); cbn [negb]; [|by apply Herr].
    by apply wp_ret, (Hend false). }
  destruct MBED_CONF_APP_DEVELOPER_MODE; [|by apply Hverify].
  apply wp_bind, wp_traces; [apply _..|]. intros _ a2 H2.
  destruct (fcc_developer_flow =? FCC_STATUS_KCM_FILE_EXIST_ERROR).
  - apply wp_bind, wp_traces; [apply _..|]. intros _ a3 H3. apply Hverify. by etrans.
  - destruct (negb (fcc_developer_flow =? FCC_STATUS_SUCCESS)); [by apply Herr|by apply Hverify].
Qed.

(** C35: the program exits with status 0 only when it became a daemon, the log,
    all three signal handlers and the factory configuration were set up, and
    then the client ran until a shutdown was requested. *)
Theorem exit_success_means_shutdown run a a' :
  main run a = Done 0 a' →
  ∃ a1 a2, run a1 = Done Error.ShutdownRequested a2 ∧
    daemon_errno = None ∧ trace_ready a1 = true ∧ is_Some (g_log_stream a1) ∧
    sa_handlers a1 = sa_handlers a ++
      [(SIGTERM, "mbl_shutdown_handler" : cstring); (SIGINT, "mbl_shutdown_handler" : cstring);
       (SIGHUP, "mbl_log_reopen_signal_handler" : cstring)] ∧
    fcc_init = FCC_STATUS_SUCCESS ∧
    fcc_verify_device_configured_4mbed_cloud = FCC_STATUS_SUCCESS.
Proof.
  unfold main. destruct daemon_errno eqn:Hd; [done|].
  unfold log_init, open_log, set_stream, mbind, M_bind, gets, modify; simpl.
  destruct (bool_decide (g_log_stream a = None)); simpl; [|done].
  destruct (fopen_log (next_stream a)); simpl; [|done].
  destruct trace_mutex_ok; simpl; [|done].
  unfold signals_init, set_signal, tr_err, tr, mbind, M_bind, modify; simpl.
  destruct (sigaction_errno SIGTERM); simpl; [done|].
  destruct (sigaction_errno SIGINT); simpl; [done|].
  destruct (sigaction_errno SIGHUP); simpl; [done|].
  set (a1 := add_sa _ _ _).
  assert (wp application_init
    (λ ok a2, only_traces a1 a2 ∧ (ok = true → fcc_init = FCC_STATUS_SUCCESS ∧
       fcc_verify_device_configured_4mbed_cloud = FCC_STATUS_SUCCESS)) (λ _ _, True) a1)
    as Hwp by (apply wp_application_init; intros; split; auto; done).
  unfold wp in Hwp. destruct (application_init a1) as [ok a2|]; [|done].
  destruct Hwp as [(Hs&Ht&Hh) Hok]. destruct ok; simpl; [|done].
  destruct (Hok eq_refl) as [Hi Hv]. destruct (run a2) as [e a3|] eqn:Hr; [|done].
  case_decide as He; [subst e|done]. intros _.
  exists a2, a3. rewrite Hs, Ht, Hh. split_and!; try done. simpl.
  by rewrite <-!(assoc_L (++)).
Qed.
End properties.

(** ** The reboot after an update *)

Section reboot.
Context `{Env} `{!HonestEnv} `{Config} `{!ConfigOk} `{SwupdateLib} `{!SwupdateLaws}.

Lemma reboot_allowed w (reboot : M world unit) :
  f_nodes (w_fs w) !! ("/tmp/do_not_reboot" : cstring) = None →
  ∃ w2, pal_plat_osApplicationReboot reboot w = reboot w2 ∧ w_fs w2 = w_fs w.
Proof.
  intros Hnone.
  unfold pal_plat_osApplicationReboot, fopen_r, syscall, mbind, M_bind, log_at, modify.
  destruct (fault (w_tick w)); [by eexists|].
  change (w_fs (tick w)) with (w_fs w). rewrite Hnone. by eexists.
Qed.

(** After a root file system update that succeeded, the cloud client
    reboots the device: the handler removed the file that prevents it, in the
    directory the callback looks at. While that file is there and can be
    opened, the callback does not reboot. *)
Theorem reboot_follows_update img m t b1 b2 w w' (reboot : M world unit) :
  ready w m t b1 b2 → BOOTFLAGS_DIR ≠ reboot_flag_path → TMP_DIR = "/tmp" →
  rootfsv4_handler img w = Done 0 w' →
  (∃ w2, pal_plat_osApplicationReboot reboot w' = reboot w2 ∧ w_fs w2 = w_fs w') ∧
  (f_nodes (w_fs w) !! reboot_flag_path ≠ None → fault (w_tick w) = None →
   ∃ w2, pal_plat_osApplicationReboot reboot w = Done tt w2 ∧ w_fs w2 = w_fs w).
Proof.
  intros Hrd Hne Htmp Hrun.
  assert (reboot_flag_path = "/tmp/do_not_reboot") as Hpath.
  { unfold reboot_flag_path. by rewrite Htmp. }
  split.
  - pose proof (handler_run img m t b1 b2 w Hrd Hne) as Hwp.
    unfold wp in Hwp. rewrite Hrun in Hwp.
    destruct Hwp as [_ [(?&_)|(_&[(?&_)|(_&_&Hnone&_)])]]; [done..|].
    rewrite Hpath in Hnone. by apply reboot_allowed.
  - rewrite Hpath. intros Hsome Hok.
    unfold pal_plat_osApplicationReboot, fopen_r, syscall, mbind, M_bind. rewrite Hok.
    change (w_fs (tick w)) with (w_fs w).
    destruct (f_nodes (w_fs w) !! _) eqn:Hn; [|done].
    unfold new_fd, close, log_at, modify; simpl. rewrite lookup_insert_eq.
    destruct (fault (S (w_tick w))); eexists; (split; [reflexivity|reflexivity]).
Qed.
End reboot.

(** ** The properties at a concrete system *)

Definition demo_app_env : AppEnv := {|
  UpdateRequestDownload := 1; UpdateRequestInstall := 2; fopen_log := λ _, true;
  time_of_day := λ _, Some 0; local_time := λ _, Some ("1970-01-01T00:00:00+0000 " : cstring);
  trace_mutex_ok := true; sigaction_errno := λ _, None; daemon_errno := None;
  FCC_STATUS_SUCCESS := 0; FCC_STATUS_KCM_FILE_EXIST_ERROR := 21; fcc_init := 0;
  fcc_developer_flow := 21; fcc_verify_device_configured_4mbed_cloud := 0;
  MBED_CONF_APP_DEVELOPER_MODE := true |}.

Section witnesses.
#[local] Existing Instance demo_app_env.

Lemma download_percent_exact_witness :
  ∃ p, download_percent 1 3 = Some p ∧ 0 ≤ p ≤ 100 ∧ p * 3 ≤ 1 * 100 < (p + 1) * 3 ∧
       (p = 100 ↔ 1 = 3) ∧
       traces (final (handle_download_progress 1 3 start_app)) =
         [(TrInfo, [LStr "Downloading: %"; LInt p])].
Proof. apply (download_percent_exact 1 3 start_app); lia. Defined.

Lemma demo_calendar : calendar_ok.
Proof. intros t text [= <-]. apply (bool_decide_unpack _). vm_compute. exact I. Qed.

Lemma log_line_is_written_witness :
  ∃ a', mbl_trace_print_handler 0 "line" start_app = Done tt a' ∧ line_post "line" start_app a'.
Proof. exact (log_line_is_written 0 "line" start_app demo_calendar eq_refl). Defined.

Definition demo_run_ok : M app MblError := mret Error.ShutdownRequested.

Definition demo_main : outcome app Z := main demo_run_ok start_app.

Lemma demo_main_done : main demo_run_ok start_app = Done 0 (final demo_main).
Proof.
  assert (result demo_main = Some 0) as Hr by (vm_compute; reflexivity).
  exact (result_final _ _ Hr).
Qed.

Lemma exit_success_means_shutdown_witness :
  ∃ a1 a2, demo_run_ok a1 = Done Error.ShutdownRequested a2 ∧
    daemon_errno = None ∧ trace_ready a1 = true ∧ is_Some (g_log_stream a1) ∧
    sa_handlers a1 =
      [(SIGTERM, "mbl_shutdown_handler" : cstring); (SIGINT, "mbl_shutdown_handler" : cstring);
       (SIGHUP, "mbl_log_reopen_signal_handler" : cstring)] ∧
    fcc_init = FCC_STATUS_SUCCESS ∧
    fcc_verify_device_configured_4mbed_cloud = FCC_STATUS_SUCCESS.
Proof.
  exact (exit_success_means_shutdown demo_run_ok start_app (final demo_main)
           demo_main_done).
Defined.

Definition demo_reboot : M world unit := log_at SevInfo [].

Lemma reboot_follows_update_witness :
  ∃ w2, @pal_plat_osApplicationReboot no_faults demo_reboot board35_after = demo_reboot w2 ∧
        w_fs w2 = w_fs board35_after.
Proof.
  apply (@reboot_follows_update no_faults no_faults_honest default_config default_config_ok
           ref_swupdate ref_swupdate_laws demo_img _ _ _ _ board35 board35_after demo_reboot
           board_ready_35 default_dirs eq_refl update_board).
Defined.
End witnesses.
