(* ===== verification/DeviceCycle.v ===== *)
(** * The device across updates and reboots

    The root file system handler, the cloud client's reboot callback and the
    boot loader together. The handler writes the bank the device does not run
    from and moves the boot flag; the callback reboots; the boot loader mounts
    the bank the flag selects. A device that updates at most once between two
    boots is shown to follow an abstract machine with one running image, and
    to boot a complete image whatever fails, but for an error of the copy itself,
    which the handler reports as a success. The boot loader is not in the
    repository: it is a parameter with the laws of [BootLaws]. *)

From stdpp Require Import base gmap strings list.
From Stdlib Require Import ZArith Ascii Lia.
From S2P Require Import Prelude.
From S2P Require Import CString.
From S2P Require Import Posix.
From S2P Require Import Swupdate.
From S2P Require Import SwupdateProps.
From S2P Require Import SwupdateHandler.
From S2P Require Import SwupdateClaims.
From S2P Require Import CloudClient.
From S2P Require Import CloudClientProps.

Open Scope Z_scope.
Open Scope list_scope.

(** ** The boot loader *)

(** [boot] is a reboot, seen by what is left of the world; [volatile] tells
    the names that do not survive it, such as those under /tmp. *)
Class Bootloader := {
  boot : world → world;
  volatile : cstring → Prop
}.

Section device.
Context `{Env} `{!HonestEnv} `{Config} `{!ConfigOk} `{SwupdateLib} `{!SwupdateLaws}.
Context `{Bootloader} (dev b1 b2 : cstring).

(** The second bank is the one the flag file selects. *)
Definition bank (second : bool) : cstring := partition dev (if second then b2 else b1).
Definition flag_set (f : fs) : bool := bool_decide (is_Some (f_nodes f !! bootflag_path)).
Definition selected (f : fs) : cstring := bank (flag_set f).
Definition spare (f : fs) : cstring := bank (negb (flag_set f)).

(** Names an update and a reboot leave alone. *)
Inductive kept : cstring → Prop :=
| kept_flag : kept bootflag_path
| kept_file1 : kept (bank_file "1")
| kept_file2 : kept (bank_file "2")
| kept_bank s : kept (bank s).

(** A file with one of these names has no other name. *)
Definition links_ok (f : fs) : Prop := ∀ q p, kept q → alias f q p → kept p.

Class BootLaws : Prop := {
  boot_fresh w : Fresh (boot w);
  boot_wf w : fs_wf (w_fs w) → fs_wf (w_fs (boot w));
  boot_frame w : frame volatile (w_fs w) (w_fs (boot w));
  boot_names w : Forall (λ e, no_nul (mnt_fsname e)) (w_mtab (boot w));
  boot_mounts w : mounted_on "/" (w_mtab (boot w)) = Some (selected (w_fs w));
  boot_keeps q : kept q → ¬ volatile q;
  boot_links w p q : alias (w_fs (boot w)) p q → alias (w_fs w) p q
}.

(** The names of the device are apart from each other. *)
Record layout : Prop := {
  ly_banks : banks_ok dev b1 b2;
  ly_nul1 : no_nul b1;
  ly_nul2 : no_nul b2;
  ly_nul s : no_nul (bank s);
  ly_flags s : ¬ flag_names (bank s);
  ly_file1 : ¬ flag_names (bank_file "1") ∧ ∀ s, bank_file "1" ≠ bank s;
  ly_file2 : ¬ flag_names (bank_file "2") ∧ ∀ s, bank_file "2" ≠ bank s;
  ly_dirs : BOOTFLAGS_DIR ≠ reboot_flag_path
}.

(** ** A device that has just booted *)

Record booted (w : world) : Prop := {
  bd_fresh : Fresh w;
  bd_wf : fs_wf (w_fs w);
  bd_names : Forall (λ e, no_nul (mnt_fsname e)) (w_mtab w);
  bd_mounted : mounted_on "/" (w_mtab w) = Some (selected (w_fs w));
  bd_b1 : file_string (w_fs w) (bank_file "1") = Some b1;
  bd_b2 : file_string (w_fs w) (bank_file "2") = Some b2;
  bd_links s q : kept q → q ≠ bank s → ¬ alias (w_fs w) (bank s) q;
  bd_private : links_ok (w_fs w)
}.

Lemma bank_ne s : banks_ok dev b1 b2 → bank s ≠ bank (negb s).
Proof.
  intros Hb. apply (other_bank_ne dev b1 b2); [done|]. destruct s; constructor.
Qed.

Lemma bank_target s :
  banks_ok dev b1 b2 → target_path (bank s) b1 b2 = Some (bank (negb s)).
Proof.
  intros Hb. apply (other_bank_target dev); [done|]. destruct s; constructor.
Qed.

Lemma booted_ready w :
  layout → booted w → sizes_ok (w_fs w) →
  ready w (selected (w_fs w)) (spare (w_fs w)) b1 b2.
Proof.
  intros [] [] Hs. split; try done; [apply ly_nul0|by apply bank_target|].
  split; intros Hn; apply (ly_flags0 (negb (flag_set (w_fs w)))); [by left|by right].
Qed.

Lemma matches_flag s f : banks_ok dev b1 b2 → flag_matches b2 (bank s) f → flag_set f = s.
Proof.
  intros [_ _ _ Hb]. unfold flag_matches, flag_set, bank. destruct s.
  - rewrite bool_decide_true by apply suffix_partition. intros [i ->]. by apply bool_decide_true.
  - rewrite (bool_decide_false (b2 `suffix_of` _)) by done. intros ->.
    apply bool_decide_false. by intros [].
Qed.

(** ** What one update may leave *)

(** Whatever its result, an update changed the spare bank and the flags. *)
Definition spare_update (f f' : fs) : Prop :=
  no_new_links (spare f) f f' ∧ frame (λ q, alias f (spare f) q ∨ flag_names q) f f'.

Lemma handler_spare_update img m b2' t w r w' :
  t = spare (w_fs w) → handler_post img m b2' t w r w' →
  spare_update (w_fs w) (w_fs w').
Proof.
  intros -> [[_ [Hs _]] Hp]. split; [done|].
  destruct Hp as [(_&Hf&_)|(_&[(_&Hf&_)|(_&Hf&_)])]; [| |done];
    (eapply frame_mono, Hf; intros q [?|?]; [by left|right; by left]).
Qed.

Lemma spare_update_refl f : fs_wf f → spare_update f f.
Proof. intros. split; [apply only_path_links; [split; [apply frame_refl|done]|done]|apply frame_refl]. Qed.

Lemma spare_update_only f f' :
  only_path (spare f) f f' → fs_wf f' → spare_update f f'.
Proof.
  intros Hop Hwf. split; [by apply only_path_links|]. eapply frame_mono, Hop. auto.
Qed.

Lemma alias_sym f p q : alias f p q → alias f q p.
Proof. intros [->|(i&?&?)]; [by left|right; eauto]. Qed.

(** A name the flags and the spare bank leave alone is the same after the
    update and the reboot. *)
Lemma kept_same w w' q `{!BootLaws} :
  booted w → spare_update (w_fs w) (w_fs w') → kept q → ¬ flag_names q →
  q ≠ spare (w_fs w) →
  f_nodes (w_fs (boot w')) !! q = f_nodes (w_fs w) !! q ∧
  fs_read (w_fs (boot w')) q = fs_read (w_fs w) q.
Proof.
  intros Hb [_ Hf] Hk Hn Hne.
  destruct (boot_frame w' q) as [-> ->]; [by apply boot_keeps|].
  apply Hf. intros [Ha|?]; [|done]. by eapply bd_links.
Qed.

Lemma boot_flag w `{!BootLaws} : flag_set (w_fs (boot w)) = flag_set (w_fs w).
Proof.
  unfold flag_set. destruct (boot_frame w bootflag_path) as [-> _]; [|done].
  apply boot_keeps. constructor.
Qed.

Lemma booted_links w w' s q `{!BootLaws} :
  layout → booted w → spare_update (w_fs w) (w_fs w') → kept q → q ≠ bank s →
  ¬ alias (w_fs (boot w')) (bank s) q.
Proof.
  intros Hly Hb [(_&Ht&Hx) _] Hk Hne Ha.
  assert (alias (w_fs w') (bank s) q) as Ha'.
  { destruct Ha as [?|(i & Hi & Hq)]; [by left|right]. exists i.
    rewrite <-(proj1 (boot_frame w' (bank s) (boot_keeps _ (kept_bank s)))).
    by rewrite <-(proj1 (boot_frame w' q (boot_keeps _ Hk))). }
  apply (bd_links w Hb s q Hk Hne).
  destruct (decide (bank s = spare (w_fs w))) as [Heq|Hs]; [rewrite Heq in *; by apply Ht|].
  destruct (decide (q = spare (w_fs w))) as [->|Hq]; [by apply alias_sym, Ht, alias_sym|].
  apply Hx; [| |done]; apply bd_links; try done. constructor.
Qed.

Lemma alias_em f p q : alias f p q ∨ ¬ alias f p q.
Proof.
  destruct (decide (q = p)) as [->|Hne]; [by left; left|].
  destruct (f_nodes f !! p) as [[|i]|] eqn:Hp.
  - right. intros [?|(i & Hi & _)]; congruence.
  - destruct (decide (f_nodes f !! q = Some (Reg i))) as [Hq|Hq]; [left; right; by exists i|].
    right. intros [?|(j & Hj & Hq')]; congruence.
  - right. intros [?|(i & Hi & _)]; congruence.
Qed.

Lemma update_private w w' : booted w → spare_update (w_fs w) (w_fs w') → links_ok (w_fs w').
Proof.
  intros Hb [(_ & Ht & Hx) _] q p Hk Ha. pose proof (bd_private w Hb) as Hp.
  assert (kept (spare (w_fs w))) as Hs by constructor.
  destruct (decide (q = spare (w_fs w))) as [->|Hq]; [by eapply (Hp _ p Hs), Ht|].
  destruct (alias_em (w_fs w) (spare (w_fs w)) p) as [Hal|Hal]; [by eapply (Hp _ p Hs)|].
  apply (Hp q p Hk), Hx; [by apply bd_links|done..].
Qed.

(** The invariant holds again after the reboot. *)
Lemma booted_again w w' `{!BootLaws} :
  layout → booted w → spare_update (w_fs w) (w_fs w') → booted (boot w').
Proof.
  intros Hly Hb Hu. pose proof Hly as []. split.
  - apply boot_fresh.
  - apply boot_wf, Hu.
  - apply boot_names.
  - rewrite boot_mounts. unfold selected. by rewrite boot_flag.
  - unfold file_string. destruct ly_file3 as [Hn Hne].
    destruct (kept_same w w' _ Hb Hu kept_file1 Hn (Hne _)) as [_ ->].
    by apply bd_b1.
  - unfold file_string. destruct ly_file4 as [Hn Hne].
    destruct (kept_same w w' _ Hb Hu kept_file2 Hn (Hne _)) as [_ ->].
    by apply bd_b2.
  - intros s q Hk Hne. by eapply booted_links.
  - intros q p Hk Ha%boot_links. by apply (update_private w w' Hb Hu q).
Qed.

(** ** The abstract machine *)

(** The device as its owner sees it: the bank in use and the image in it. *)
Record slots := { in_use : bool; image : list ascii }.

(** swupdate writes the image to either bank without an error. When it cannot,
    the handler selects the bank all the same ([copy_failure_is_lost]). *)
Definition copied (img : img_type) : Prop := ∀ s, copies img (bank s).

Inductive event :=
| Idle                                   (** a reboot without an update *)
| Update (img : img_type) (r : option Z) (** the handler's result, [None] if it stopped *)
| PowerCut.                              (** power was lost while the image was copied *)

Inductive machine : slots → event → slots → Prop :=
| m_idle a : machine a Idle a
| m_cut a : machine a PowerCut a
| m_failed a img r : r ≠ Some 0 → machine a (Update img r) a
| m_updated a img r d : r = Some 0 ∨ r = Some 1 → (copied img → d = img_data img) →
    machine a (Update img r) {| in_use := negb (in_use a); image := d |}.

Inductive machine_run : slots → list event → slots → Prop :=
| run_nil a : machine_run a [] a
| run_cons a b c e es : machine a e b → machine_run b es c → machine_run a (e :: es) c.

(** ** The device *)

Inductive cycle : world → event → world → Prop :=
| cy_idle w : cycle w Idle (boot w)
| cy_update w img : sizes_ok (w_fs w) →
    cycle w (Update img (result (rootfsv4_handler img w)))
      (boot (final (rootfsv4_handler img w)))
| cy_cut w f : only_path (spare (w_fs w)) (w_fs w) f → fs_wf f →
    cycle w PowerCut (boot (set_fs f w)).

Lemma cycle_ran w img r w1 :
  sizes_ok (w_fs w) → rootfsv4_handler img w = Done r w1 →
  cycle w (Update img (Some r)) (boot w1).
Proof. intros Hs Hr. pose proof (cy_update w img Hs) as Hc. by rewrite Hr in Hc. Qed.

Inductive cycles : world → list event → world → Prop :=
| cys_nil w : cycles w [] w
| cys_cons w1 w2 w3 e es : cycle w1 e w2 → cycles w2 es w3 → cycles w1 (e :: es) w3.

(** The device shows [a]: it has booted from the bank in use, which holds the
    whole image. *)
Definition shows (w : world) (a : slots) : Prop :=
  booted w ∧ flag_set (w_fs w) = in_use a ∧
  i_data <$> fs_read (w_fs w) (bank (in_use a)) = Some (image a).

Section laws.
Context `{!BootLaws} (Hly : layout).

(** The reboot shows the old image when the flag did not move. *)
Lemma shows_boot_same w w' a :
  shows w a → spare_update (w_fs w) (w_fs w') → flag_set (w_fs w') = in_use a →
  shows (boot w') a.
Proof.
  intros (Hb & Ha & Hd) Hu Hf.
  split_and!; [by eapply booted_again|by rewrite (boot_flag w')|].
  destruct (kept_same w w' (bank (in_use a)) Hb Hu (kept_bank _)) as [_ ->]; try done.
  - apply Hly.
  - unfold spare. rewrite Ha. apply bank_ne, Hly.
Qed.

(** It shows the new one when the flag moved to the bank that holds it. *)
Lemma shows_boot_new w w' a d :
  shows w a → spare_update (w_fs w) (w_fs w') → flag_set (w_fs w') = negb (in_use a) →
  i_data <$> fs_read (w_fs w') (spare (w_fs w)) = Some d →
  shows (boot w') {| in_use := negb (in_use a); image := d |}.
Proof.
  intros (Hb & Ha & Hd) Hu Hf Hi.
  split_and!; [by eapply booted_again|by rewrite (boot_flag w')|]. simpl.
  destruct (boot_frame w' (bank (negb (in_use a)))) as [_ ->]; [|by rewrite <-Ha].
  apply boot_keeps. constructor.
Qed.

Lemma only_path_flag w f :
  booted w → only_path (spare (w_fs w)) (w_fs w) f → flag_set f = flag_set (w_fs w).
Proof.
  intros Hb [Hf _]. unfold flag_set. destruct (Hf bootflag_path) as [-> _]; [|done].
  apply bd_links; [done|constructor|]. intros Heq.
  apply (ly_flags Hly (negb (flag_set (w_fs w)))). left. right. done.
Qed.

(** A handler that returns, or stops, leaves the old image selected or has
    written the new one. *)
Lemma cycle_update_shows img w a :
  shows w a → sizes_ok (w_fs w) →
  ∃ b, shows (boot (final (rootfsv4_handler img w))) b ∧
       machine a (Update img (result (rootfsv4_handler img w))) b.
Proof.
  intros Hsh Hs. pose proof Hsh as (Hb & Ha & _).
  pose proof (handler_run img _ _ b1 b2 w (booted_ready _ Hly Hb Hs) (ly_dirs Hly)) as Hwp.
  unfold wp in Hwp. destruct (rootfsv4_handler img w) as [r w'|h w']; simpl.
  2:{ destruct Hwp as [Hfs _]. exists a. split; [|by constructor].
      apply (shows_boot_same w w' a Hsh); rewrite Hfs; [apply spare_update_refl, Hb|done]. }
  pose proof (handler_spare_update img _ b2 _ w r w' eq_refl Hwp) as Hu.
  destruct Hwp as [[_ [_ Hor]] [(->&_&_)|(->&[(?&_)|(_&_&_&Hm&Hd)])]]; [|done|].
  - destruct (decide (flag_set (w_fs w') = in_use a)) as [Heq|Hne].
    { exists a. split; [by apply (shows_boot_same w)|by constructor]. }
    destruct Hor as [Hop|Hd]; [apply only_path_flag in Hop; [congruence|done]|].
    destruct (Hd (ly_flags Hly _)) as (d & Hread & Hdata).
    eexists. split; [apply (shows_boot_new w w' a d Hsh Hu); [|done]|constructor; [by right|] ].
    + revert Hne. destruct (flag_set (w_fs w')), (in_use a); simpl; intros ?; congruence.
    + intros Hc. apply Hdata, Hc.
  - destruct (Hd (ly_flags Hly _)) as (d & Hread & Hdata).
    eexists. split; [apply (shows_boot_new w w' a d Hsh Hu); [|done]|constructor; [by left|] ].
    + rewrite <-Ha. apply matches_flag; [apply Hly|exact Hm].
    + intros Hc. apply Hdata, Hc.
Qed.

Lemma handler_private img w a :
  shows w a → sizes_ok (w_fs w) →
  fs_wf (w_fs (final (rootfsv4_handler img w))) ∧ links_ok (w_fs (final (rootfsv4_handler img w))).
Proof.
  intros (Hb & _) Hs.
  pose proof (handler_run img _ _ b1 b2 w (booted_ready _ Hly Hb Hs) (ly_dirs Hly)) as Hwp.
  unfold wp in Hwp. destruct (rootfsv4_handler img w) as [r w'|h w']; simpl.
  - pose proof (handler_spare_update img _ b2 _ w r w' eq_refl Hwp) as Hu.
    split; [apply Hu|by eapply update_private].
  - destruct Hwp as [-> _]. split; apply Hb.
Qed.

(** One cycle of the device is a step of the machine. *)
Lemma cycle_shows w e w' a :
  shows w a → cycle w e w' → ∃ b, shows w' b ∧ machine a e b.
Proof.
  intros Hsh Hc. pose proof Hsh as (Hb & Ha & _). destruct Hc as [w|w img Hs|w f Hop Hwf].
  - exists a. split; [|constructor].
    apply (shows_boot_same w w a Hsh); [apply spare_update_refl, Hb|done].
  - by apply cycle_update_shows.
  - exists a. split; [|constructor].
    apply (shows_boot_same w (set_fs f w) a Hsh); [by apply spare_update_only|].
    rewrite <-Ha. by apply only_path_flag.
Qed.

Lemma cycles_show w es w' a :
  shows w a → cycles w es w' → ∃ b, shows w' b ∧ machine_run a es b.
Proof.
  intros Hsh Hc. revert a Hsh. induction Hc as [w|w1 w2 w3 e es Hc _ IH]; intros a Hsh.
  - exists a. split; [done|constructor].
  - destruct (cycle_shows _ _ _ _ Hsh Hc) as (b & Hb & Hm).
    destruct (IH b Hb) as (c & ? & ?). exists c. split; [done|by econstructor].
Qed.
End laws.

(** *** Around an update *)

Definition private (f : fs) : Prop := fs_wf f ∧ links_ok f.

(** What other programs do to the world: they leave the banks, the files about
    them and the flag alone, unless these have other names, and the mounts. *)
Record calm (w w' : world) : Prop := {
  calm_fresh : Fresh w → Fresh w';
  calm_private : private (w_fs w) → private (w_fs w');
  calm_sizes : sizes_ok (w_fs w) → sizes_ok (w_fs w');
  calm_mtab : w_mtab w' = w_mtab w;
  calm_kept q : private (w_fs w) → kept q →
    f_nodes (w_fs w') !! q = f_nodes (w_fs w) !! q ∧ fs_read (w_fs w') q = fs_read (w_fs w) q
}.

#[export] Instance calm_preorder : PreOrder calm.
Proof.
  split; [by split|]. intros w1 w2 w3 [F1 W1 S1 M1 K1] [F2 W2 S2 M2 K2].
  split; [auto..|by rewrite M2|]. intros q Hp Hq.
  destruct (K1 q Hp Hq) as [<- <-], (K2 q (W1 Hp) Hq) as [<- <-]. done.
Qed.

Lemma kept_aliases f f' p q :
  f_nodes f' !! p = f_nodes f !! p → f_nodes f' !! q = f_nodes f !! q → alias f' p q → alias f p q.
Proof. unfold alias. by intros -> ->. Qed.

Lemma calm_flag w w' : private (w_fs w) → calm w w' → flag_set (w_fs w') = flag_set (w_fs w).
Proof.
  intros Hp Hc. unfold flag_set. by destruct (calm_kept w w' Hc bootflag_path Hp kept_flag) as [-> _].
Qed.

Lemma shows_calm w w' a : shows w a → calm w w' → shows w' a.
Proof.
  intros (Hb & Ha & Hd) Hc. pose proof Hb as [].
  assert (private (w_fs w)) as Hp by done. pose proof (calm_private w w' Hc Hp) as [Hwf' Hp'].
  split_and!; [|by rewrite (calm_flag w)|].
  - split; [by apply (calm_fresh w)|done|by rewrite (calm_mtab w w' Hc)|..|done].
    + rewrite (calm_mtab w w' Hc). unfold selected. by rewrite (calm_flag w).
    + unfold file_string. by destruct (calm_kept w w' Hc _ Hp kept_file1) as [_ ->].
    + unfold file_string. by destruct (calm_kept w w' Hc _ Hp kept_file2) as [_ ->].
    + intros s q Hk Hne Hal. apply (bd_links0 s q Hk Hne). revert Hal.
      apply kept_aliases; by apply (calm_kept w); [done..|constructor || done].
  - by destruct (calm_kept w w' Hc _ Hp (kept_bank (in_use a))) as [_ ->].
Qed.

Lemma shows_boot_calm `{!BootLaws} w w' a :
  private (w_fs w) → shows (boot w) a → calm w w' → shows (boot w') a.
Proof.
  intros Hp (Hb & Ha & Hd) Hc. pose proof Hb as []. pose proof (calm_private w w' Hc Hp) as [Hwf' Hp'].
  assert (∀ q, kept q →
    f_nodes (w_fs (boot w')) !! q = f_nodes (w_fs (boot w)) !! q ∧
    fs_read (w_fs (boot w')) q = fs_read (w_fs (boot w)) q) as Hsame.
  { intros q Hq. destruct (boot_frame w q (boot_keeps q Hq)) as [-> ->].
    destruct (boot_frame w' q (boot_keeps q Hq)) as [-> ->]. by apply calm_kept. }
  assert (flag_set (w_fs (boot w')) = flag_set (w_fs (boot w))) as Hfl.
  { unfold flag_set. by destruct (Hsame _ kept_flag) as [-> _]. }
  split_and!; [|by rewrite Hfl|].
  - split; [apply boot_fresh|by apply boot_wf|apply boot_names|..].
    + rewrite boot_mounts. unfold selected. by rewrite boot_flag.
    + unfold file_string. by destruct (Hsame _ kept_file1) as [_ ->].
    + unfold file_string. by destruct (Hsame _ kept_file2) as [_ ->].
    + intros s q Hk Hne Hal. apply (bd_links0 s q Hk Hne). revert Hal.
      apply kept_aliases; by apply Hsame; [constructor || done].
    + intros q p Hk Hal%boot_links. by apply (Hp' q).
  - by destruct (Hsame _ (kept_bank (in_use a))) as [_ ->].
Qed.

(** The image in use is the first one or one of the updates'. *)
Lemma machine_image a es b :
  machine_run a es b →
  image b = image a ∨ ∃ img r, Update img r ∈ es ∧ (copied img → image b = img_data img).
Proof.
  induction 1 as [|a b c e es Hm _ IH]; [by left|].
  destruct IH as [->|(img & r & Hin & Hd)]; [|right; exists img, r; split; [by right|done]].
  destruct Hm as [| | |a img r d _ Hd]; [by left..|]. right. exists img, r. split; [by left|done].
Qed.

(** ** The properties of the device *)

(** C4: over any number of boots with at most one update each, whatever the
    handler returns, wherever a system call fails or the process stops, and even
    when power is lost while the image is copied, the device follows the abstract
    machine: it boots the bank the flag selects, the banks alternate with the
    updates that succeed, and the bank holds the first image or, in full, the
    image of an update, provided that swupdate's copyimage reports no error for
    that image. (When copyimage fails the handler still selects the bank, which
    then holds what the copy left: [copy_failure_is_lost].) The names of the
    device are as [layout] says, and the boot loader has the laws of [BootLaws]. *)
Theorem device_follows_machine `{!BootLaws} w es w' a :
  layout → shows w a → cycles w es w' →
  ∃ b, shows w' b ∧ machine_run a es b ∧
       (image b = image a ∨ ∃ img r, Update img r ∈ es ∧ (copied img → image b = img_data img)).
Proof.
  intros Hly Hsh Hcs. destruct (cycles_show Hly _ _ _ _ Hsh Hcs) as (b & Hb & Hm).
  exists b. split_and!; [done..|by apply machine_image].
Qed.

(** C17: on a sound device where no call fails, the update returns 0, the
    cloud client's callback then reboots, and the device comes up from the
    other bank with the new image. *)
Theorem update_reaches_new_image `{!BootLaws} w img a :
  layout → (∀ s, copy_works (bank s)) → shows w a → sizes_ok (w_fs w) →
  sound w (selected (w_fs w)) (spare (w_fs w)) → ¬ unreliable → TMP_DIR = "/tmp" →
  ∃ w1 w2,
    rootfsv4_handler img w = Done 0 w1 ∧
    pal_plat_osApplicationReboot (modify boot) w1 = Done tt w2 ∧
    shows w2 {| in_use := negb (in_use a); image := img_data img |}.
Proof.
  intros Hly Hc Hsh Hs Hso Hu Htmp. pose proof Hsh as (Hb & Ha & _).
  pose proof (handler_run img _ _ b1 b2 w (booted_ready _ Hly Hb Hs) (ly_dirs Hly)) as Hwp.
  unfold wp in Hwp.
  destruct (rootfsv4_handler img w) as [r w1|h w1]; [|by destruct Hwp as [_ [?|[]]]].
  pose proof (handler_spare_update img _ b2 _ w r w1 eq_refl Hwp) as Hup.
  destruct Hwp as [_ [(_&_&[?|[]])|(->&[(?&_)|(_&_&Hn&Hm&Hd)])]]; [done..|].
  unfold reboot_flag_path in Hn. rewrite Htmp in Hn.
  destruct (reboot_allowed w1 (modify boot) Hn) as (w2 & Hcall & Hf2).
  exists w1, (boot w2). split_and!; [done|done|].
  apply (shows_boot_new Hly w w2 a _ Hsh); rewrite ?Hf2; [done| |].
  - rewrite <-Ha. apply matches_flag; [apply Hly|exact Hm].
  - apply holds_image; [apply Hc|]. by apply Hd, (ly_flags Hly).
Qed.

(** Between a successful update and the reboot, the bank the flag selects
    is the one the next update writes: if power is lost during that copy, the
    device boots what the copy left there. *)
Theorem second_update_overwrites_selected `{!BootLaws} w img a w1 f :
  layout → shows w a → sizes_ok (w_fs w) → rootfsv4_handler img w = Done 0 w1 →
  target_path (selected (w_fs w)) b1 b2 = Some (selected (w_fs w1)) ∧
  (only_path (selected (w_fs w1)) (w_fs w1) f →
   mounted_on "/" (w_mtab (boot (set_fs f w1))) = Some (selected (w_fs w1))).
Proof.
  intros Hly (Hb & Ha & _) Hs Hrun.
  pose proof (handler_run img _ _ b1 b2 w (booted_ready _ Hly Hb Hs) (ly_dirs Hly)) as Hwp.
  unfold wp in Hwp. rewrite Hrun in Hwp.
  pose proof (handler_spare_update img _ b2 _ w 0 w1 eq_refl Hwp) as [Hl Hf].
  destruct Hwp as [_ [(?&_)|(_&[(?&_)|(_&_&_&Hm&_)])]]; [done..|].
  apply matches_flag in Hm; [|apply Hly].
  assert (selected (w_fs w1) = spare (w_fs w)) as -> by (unfold selected, spare; by rewrite Hm).
  split; [apply bank_target, Hly|]. intros [Hfr _]. rewrite boot_mounts. f_equal.
  unfold selected, spare. f_equal. rewrite <-Hm. unfold flag_set; simpl.
  destruct (Hfr bootflag_path) as [-> _]; [|done]. intros Hal.
  apply (bd_links w Hb (negb (flag_set (w_fs w))) _ kept_flag); [|by apply (proj1 (proj2 Hl))].
  intros Heq. apply (ly_flags Hly (negb (flag_set (w_fs w)))). left. right. done.
Qed.
End device.

(** ** A board *)

Section board.
#[local] Existing Instance ref_swupdate.
#[local] Existing Instance no_faults.
#[local] Existing Instance default_config.

(** A boot loader that keeps every file and mounts the selected bank. *)
#[local] Instance board_boot : Bootloader := {|
  boot := λ w, {|
    w_fs := w_fs w;
    w_mtab := [{| mnt_fsname := selected "/dev/mmcblk0" "3" "5" (w_fs w); mnt_dir := "/" |}];
    w_fds := ∅; w_heap := ∅; w_next := 0; w_log := []; w_errno := 0; w_tick := 0 |};
  volatile := λ _, False
|}.

Lemma board_nul s : no_nul (bank "/dev/mmcblk0" "3" "5" s).
Proof. destruct s; apply (bool_decide_unpack _); vm_compute; exact I. Qed.

#[local] Instance board_boot_laws : BootLaws "/dev/mmcblk0" "3" "5".
Proof.
  split; try done.
  - intros w. repeat constructor. apply board_nul.
  - by intros q _ ?.
Qed.

Lemma board_layout : layout "/dev/mmcblk0" "3" "5".
Proof.
  split; [apply board_banks|apply board_ready_35|apply board_ready_35|apply board_nul| | | |done].
  - intros s. destruct s; by apply not_flag_name.
  - split; [by apply not_flag_name|by intros []].
  - split; [by apply not_flag_name|by intros []].
Qed.

(** The names that must have no other, and whether they have. *)
Definition board_kept : list cstring :=
  [bootflag_path; bank_file "1"; bank_file "2"; ("/dev/mmcblk0p3" : cstring); ("/dev/mmcblk0p5" : cstring)].

Definition no_other_names (f : fs) : bool :=
  forallb (λ pn, match pn.2 with
    | Reg i => bool_decide (pn.1 ∈ board_kept) ||
        forallb (λ q, negb (bool_decide (f_nodes f !! q = Some (Reg i)))) board_kept
    | Dir => true
    end) (map_to_list (f_nodes f)).

Lemma board_kept_list q : kept "/dev/mmcblk0" "3" "5" q ↔ q ∈ board_kept.
Proof.
  split.
  - by destruct 1 as [| | |[]]; apply (bool_decide_unpack _); vm_compute.
  - unfold board_kept. rewrite !elem_of_cons, elem_of_nil.
    intros [->|[->|[->|[->|[->|[]]]]]]; [constructor..| |]; [exact (kept_bank _ _ _ false)|exact (kept_bank _ _ _ true)].
Qed.

Lemma no_other_names_ok f : no_other_names f = true → links_ok "/dev/mmcblk0" "3" "5" f.
Proof.
  intros Hn q p Hq [->|(i & Hi & Hp)]; [done|]. unfold no_other_names in Hn. rewrite forallb_forall in Hn.
  apply elem_of_map_to_list, list_elem_of_In, Hn in Hp. cbn [fst snd] in Hp.
  apply orb_true_iff in Hp as [Hp|Hp]; [by apply board_kept_list, (bool_decide_eq_true_1 _ Hp)|].
  rewrite forallb_forall in Hp. apply board_kept_list, list_elem_of_In, Hp in Hq.
  by rewrite bool_decide_true in Hq.
Qed.

Definition board_slots : slots := {| in_use := false; image := "old" |}.

Lemma board_shows : shows "/dev/mmcblk0" "3" "5" board35 board_slots.
Proof.
  split; [|split; reflexivity]. destruct board_ready_35. split; try done.
  - intros s q Hk Hne. destruct s; destruct Hk as [| | |[]];
      first [by destruct Hne|eapply regular_alias; [vm_compute; reflexivity|done|vm_compute; reflexivity|done]].
  - apply no_other_names_ok. vm_compute. reflexivity.
Qed.

Definition board_updated : world := boot board35_after.
Definition board_event : event := Update (demo_img) (Some 0).

Lemma board_cycle :
  cycles "/dev/mmcblk0" "3" "5" board35 [board_event; Idle] (boot board_updated).
Proof.
  apply (cys_cons _ _ _ _ board_updated); [|econstructor; [constructor|constructor]].
  apply cycle_ran; [exact (rd_sizes _ _ _ _ _ board_ready_35)|exact update_board].
Qed.

Lemma device_follows_machine_witness :
  ∃ b, shows "/dev/mmcblk0" "3" "5" (boot board_updated) b ∧
       machine_run "/dev/mmcblk0" "3" "5" board_slots [board_event; Idle] b ∧
       (image b = "old" ∨
        ∃ img r, Update img r ∈ [board_event; Idle] ∧
          (copied "/dev/mmcblk0" "3" "5" img → image b = img_data img)).
Proof.
  apply (device_follows_machine "/dev/mmcblk0" "3" "5" board35 _ _ board_slots
           board_layout board_shows board_cycle).
Defined.

Lemma board_copied img : copied "/dev/mmcblk0" "3" "5" img.
Proof. intros s. apply ref_copy_works. Qed.

Lemma update_reaches_new_image_witness :
  ∃ w1 w2, update board35 = Done 0 w1 ∧
    pal_plat_osApplicationReboot (modify boot) w1 = Done tt w2 ∧
    shows "/dev/mmcblk0" "3" "5" w2 {| in_use := true; image := "new" |}.
Proof.
  apply (update_reaches_new_image "/dev/mmcblk0" "3" "5" board35 demo_img board_slots
           board_layout (λ s, ref_copy_works _) board_shows);
    first [exact (rd_sizes _ _ _ _ _ board_ready_35)|exact board_sound_35
          |exact no_faults_reliable|reflexivity].
Defined.

Lemma second_update_overwrites_selected_witness :
  target_path "/dev/mmcblk0p3" "3" "5" = Some ("/dev/mmcblk0p5" : cstring) ∧
  (only_path "/dev/mmcblk0p5" (w_fs board35_after)
     (fs_write (w_fs board35_after) "/dev/mmcblk0p5" "ne") →
   mounted_on "/" (w_mtab (boot (set_fs (fs_write (w_fs board35_after) "/dev/mmcblk0p5" "ne")
     board35_after))) = Some ("/dev/mmcblk0p5" : cstring)).
Proof.
  assert (selected "/dev/mmcblk0" "3" "5" (w_fs board35_after) = "/dev/mmcblk0p5") as Hsel
    by (vm_compute; reflexivity).
  pose proof (second_update_overwrites_selected "/dev/mmcblk0" "3" "5" board35 demo_img
    board_slots board35_after (fs_write (w_fs board35_after) "/dev/mmcblk0p5" "ne")
    board_layout board_shows (rd_sizes _ _ _ _ _ board_ready_35) update_board) as H.
  rewrite Hsel in H. exact H.
Defined.
End board.
