(* ===== verification/CloudLifecycle.v ===== *)
(** * mbl-cloud-client: the client object and its threads

    [cloud-services/mbl-cloud-client/source/MblCloudClient.cpp], with
    [MblMutex], [MblScopedLock] and [monotonic_time]: the thread that runs
    [MblCloudClient::run], the event loop that calls the handlers, the mutex
    and the pointer [s_instance] they share, and the signal that ends it. *)

From stdpp Require Import base gmap strings list relations.
From Stdlib Require Import ZArith Ascii Lia.
From S2P Require Import Prelude.
From S2P Require Import CString.
From S2P Require Import Posix.
From S2P Require Import CloudError.
From S2P Require Import CloudClient.

Open Scope Z_scope.
Open Scope list_scope.

(** ** mbed_cloud_client_user_config.h *)

Definition MBED_CLOUD_CLIENT_LIFETIME : Z := 600.
Definition SN_COAP_MAX_BLOCKWISE_PAYLOAD_SIZE : Z := 512.
Definition MBED_CLOUD_CLIENT_UPDATE_BUFFER : Z := 2 * 1024 * 1024.

Definition g_reregister_period_s : Z := Z.quot MBED_CLOUD_CLIENT_LIFETIME 2.

(** ** The object *)

(** [MblCloudClient::State]. *)
Inductive State := State_Unregistered | State_CalledRegister | State_Registered.

#[export] Instance State_eq_dec : EqDecision State.
Proof. solve_decision. Defined.

(** What [cloud_client_] points to. *)
Inductive cloud_client := Open | Closed | Deleted.

#[export] Instance cloud_client_eq_dec : EqDecision cloud_client.
Proof. solve_decision. Defined.

Record MblCloudClient := {
  cloud_client_ : cloud_client;
  state_ : State;
  cloud_connect_resource_broker_ : broker
}.

(** The constructor, with the broker its member's constructor made. *)
Definition new_MblCloudClient (b : broker) : MblCloudClient :=
  {| cloud_client_ := Open; state_ := State_Unregistered;
     cloud_connect_resource_broker_ := b |}.

(** ** The threads *)

(** The handlers the event loop calls. *)
Inductive callback :=
| handle_client_registered
| handle_client_unregistered
| handle_error (e : MbedCloudClient.Error_)
| handle_authorize_request (request : Z)
| handle_progress (progress total : Z).   (** update_handlers::handle_download_progress *)

Inductive holder := MainThread | EventLoop.

#[export] Instance holder_eq_dec : EqDecision holder.
Proof. solve_decision. Defined.

(** Where the main thread is. *)
Inductive main_pc :=
| MConstruct                  (** InstanceScoper::InstanceScoper *)
| MRegister                   (** register_handlers, add_resources *)
| MSetupLock | MSetupState | MSetup
| MBroker
| MLoop                       (** the check of the signal *)
| MCheckLock | MCheckState
| MTime                       (** the check of the time, then sleep *)
| MExit (e : MblError)        (** ~InstanceScoper: before the lock *)
| MClear (e : MblError)       (** s_instance = 0, under the lock *)
| MClose (e : MblError)
| MDelete (e : MblError)
| MStop (e : MblError)        (** ns_event_loop_thread_stop *)
| MDone (e : MblError).

#[export] Instance main_pc_eq_dec : EqDecision main_pc.
Proof. solve_decision. Defined.

(** Where the event loop is. *)
Inductive cb_pc :=
| CIdle
| CWaiting (c : callback)     (** before the lock *)
| CLocked (c : callback)
| CUnlocking (c : callback) (seen : bool).  (** whether s_instance was there *)

Record sys := {
  s_instance : bool;                    (** the pointer is not null *)
  object : option MblCloudClient;       (** the memory of the object *)
  s_mutex : option holder;
  main_at : main_pc;
  cb_at : cb_pc;
  event_loop : bool;                    (** the event loop runs *)
  g_shutdown_signal : Z;
  monotonic_time : Z;
  next_registration_s : Z;
  register_updates : list Z;            (** when register_update was called *)
  authorized : list Z;                  (** update_authorize calls *)
  handlers_registered : bool;
  papp : app;
  broken : option string                (** a broken rule of the language *)
}.

Definition initial (a : app) : sys := {|
  s_instance := false; object := None; s_mutex := None; main_at := MConstruct;
  cb_at := CIdle; event_loop := false; g_shutdown_signal := 0; monotonic_time := 0;
  next_registration_s := 0; register_updates := []; authorized := [];
  handlers_registered := false; papp := a; broken := None |}.

(** ** Updates of the state *)

Definition set_main (pc : main_pc) (s : sys) : sys :=
  {| s_instance := s_instance s; object := object s; s_mutex := s_mutex s; main_at := pc;
     cb_at := cb_at s; event_loop := event_loop s; g_shutdown_signal := g_shutdown_signal s;
     monotonic_time := monotonic_time s; next_registration_s := next_registration_s s;
     register_updates := register_updates s; authorized := authorized s;
     handlers_registered := handlers_registered s; papp := papp s; broken := broken s |}.
Definition set_cb (pc : cb_pc) (s : sys) : sys :=
  {| s_instance := s_instance s; object := object s; s_mutex := s_mutex s; main_at := main_at s;
     cb_at := pc; event_loop := event_loop s; g_shutdown_signal := g_shutdown_signal s;
     monotonic_time := monotonic_time s; next_registration_s := next_registration_s s;
     register_updates := register_updates s; authorized := authorized s;
     handlers_registered := handlers_registered s; papp := papp s; broken := broken s |}.
Definition set_object (i : bool) (o : option MblCloudClient) (s : sys) : sys :=
  {| s_instance := i; object := o; s_mutex := s_mutex s; main_at := main_at s;
     cb_at := cb_at s; event_loop := event_loop s; g_shutdown_signal := g_shutdown_signal s;
     monotonic_time := monotonic_time s; next_registration_s := next_registration_s s;
     register_updates := register_updates s; authorized := authorized s;
     handlers_registered := handlers_registered s; papp := papp s; broken := broken s |}.
Definition set_mutex (m : option holder) (s : sys) : sys :=
  {| s_instance := s_instance s; object := object s; s_mutex := m; main_at := main_at s;
     cb_at := cb_at s; event_loop := event_loop s; g_shutdown_signal := g_shutdown_signal s;
     monotonic_time := monotonic_time s; next_registration_s := next_registration_s s;
     register_updates := register_updates s; authorized := authorized s;
     handlers_registered := handlers_registered s; papp := papp s; broken := broken s |}.
Definition set_loop (b : bool) (s : sys) : sys :=
  {| s_instance := s_instance s; object := object s; s_mutex := s_mutex s; main_at := main_at s;
     cb_at := cb_at s; event_loop := b; g_shutdown_signal := g_shutdown_signal s;
     monotonic_time := monotonic_time s; next_registration_s := next_registration_s s;
     register_updates := register_updates s; authorized := authorized s;
     handlers_registered := handlers_registered s; papp := papp s; broken := broken s |}.
Definition set_clock (sig now : Z) (s : sys) : sys :=
  {| s_instance := s_instance s; object := object s; s_mutex := s_mutex s; main_at := main_at s;
     cb_at := cb_at s; event_loop := event_loop s; g_shutdown_signal := sig;
     monotonic_time := now; next_registration_s := next_registration_s s;
     register_updates := register_updates s; authorized := authorized s;
     handlers_registered := handlers_registered s; papp := papp s; broken := broken s |}.
Definition set_registration (next : Z) (updates auth : list Z) (h : bool) (s : sys) : sys :=
  {| s_instance := s_instance s; object := object s; s_mutex := s_mutex s; main_at := main_at s;
     cb_at := cb_at s; event_loop := event_loop s; g_shutdown_signal := g_shutdown_signal s;
     monotonic_time := monotonic_time s; next_registration_s := next;
     register_updates := updates; authorized := auth;
     handlers_registered := h; papp := papp s; broken := broken s |}.
Definition set_app (a : app) (s : sys) : sys :=
  {| s_instance := s_instance s; object := object s; s_mutex := s_mutex s; main_at := main_at s;
     cb_at := cb_at s; event_loop := event_loop s; g_shutdown_signal := g_shutdown_signal s;
     monotonic_time := monotonic_time s; next_registration_s := next_registration_s s;
     register_updates := register_updates s; authorized := authorized s;
     handlers_registered := handlers_registered s; papp := a; broken := broken s |}.
Definition break (why : string) (s : sys) : sys :=
  {| s_instance := s_instance s; object := object s; s_mutex := s_mutex s; main_at := main_at s;
     cb_at := cb_at s; event_loop := event_loop s; g_shutdown_signal := g_shutdown_signal s;
     monotonic_time := monotonic_time s; next_registration_s := next_registration_s s;
     register_updates := register_updates s; authorized := authorized s;
     handlers_registered := handlers_registered s; papp := papp s; broken := Some why |}.

Definition log (l : trace_level) (args : list logarg) (s : sys) : sys :=
  set_app (add_trace l args (papp s)) s.

(** [MblMutex::lock]: a thread waits while another has the mutex. *)
Definition lock (h : holder) (k : sys → sys) (s : sys) : option sys :=
  match s_mutex s with
  | None => Some (k (set_mutex (Some h) s))
  | Some _ => None
  end.

Definition unlock (s : sys) : sys := set_mutex None s.

Definition try_lock (h : holder) (s : sys) : bool * sys :=
  match s_mutex s with
  | None => (true, set_mutex (Some h) s)
  | Some _ => (false, s)
  end.

(** [clock_gettime] with CLOCK_MONOTONIC, in seconds. *)
Definition get_monotonic_time_s (s : sys) : Z := monotonic_time s.

(** Access to the object, and to the library's client it owns. *)
Definition with_object (f : MblCloudClient → sys → sys) (s : sys) : sys :=
  match object s with
  | Some o => f o s
  | None => break "use of the object after its deletion" s
  end.

Definition with_client (f : sys → sys) : sys → sys :=
  with_object (λ o s,
    if decide (cloud_client_ o = Open) then f s
    else break "use of the cloud client after close or delete" s).

Definition set_state (st : State) : sys → sys :=
  with_object (λ o s,
    set_object (s_instance s) (Some {| cloud_client_ := cloud_client_ o; state_ := st;
                                       cloud_connect_resource_broker_ :=
                                         cloud_connect_resource_broker_ o |}) s).

Definition set_client (c : cloud_client) : sys → sys :=
  with_object (λ o s,
    set_object (s_instance s) (Some {| cloud_client_ := c; state_ := state_ o;
                                       cloud_connect_resource_broker_ :=
                                         cloud_connect_resource_broker_ o |}) s).

(** The check of one pass of the loop: the next time, and whether the
    registration is renewed. *)
Definition poll (next time_s : Z) : Z * bool :=
  if next <=? time_s then (time_s + g_reregister_period_s, true) else (next, false).

(** The signal that ends a process which divides by zero. *)
Definition division_by_zero : string := "division by zero".

Class CloudEnv := {
  setup_ok : bool;                      (** MbedCloudClient::setup *)
  endpoint : option (cstring * cstring);
  error_description : cstring
}.

Section steps.
Context `{AppEnv} `{CloudEnv}.

(** *** The handlers, while they have the mutex *)

Definition callback_body (c : callback) (s : sys) : sys :=
  match c with
  | handle_client_registered =>
      if s_instance s then
        with_client (λ s,
          match endpoint with
          | Some (name, device) =>
              log TrInfo [LStr "Device Id:"; LStr device]
                (log TrInfo [LStr "Endpoint Name:"; LStr name] s)
          | None => log TrWarn [LStr "Failed to get endpoint info"] s
          end) (set_state State_Registered s)
      else s
  | handle_client_unregistered =>
      if s_instance s then set_state State_Unregistered s else s
  | handle_error _ =>
      if s_instance s
      then with_client (log TrErr [LStr "Error details :"; LStr error_description]) s
      else log TrErr [LStr "Error details : Failed to obtain error description"] s
  | handle_authorize_request request =>
      if s_instance s
      then with_client (λ s, set_registration (next_registration_s s) (register_updates s)
             (authorized s ++ [request]) (handlers_registered s) s) s
      else s
  | handle_progress _ _ => s
  end.

(** Before the lock; [None]: the handler returns without it. *)
Definition callback_start (c : callback) (s : sys) : sys * bool :=
  match c with
  | handle_client_registered => (log TrInfo [LStr "Client registered"] s, true)
  | handle_client_unregistered => (s, true)
  | handle_error e =>
      let mbl_code := CloudClientError_to_MblError e in
      (log TrErr [LStr "Error code :"; LInt (Error.code mbl_code)]
         (log TrErr [LStr "Error occurred :"; LStr (MblError_to_str mbl_code)] s), true)
  | handle_authorize_request request =>
      match handle_authorize request (papp s) with
      | Done ok a => (set_app a s, ok)
      | Halted _ a => (set_app a s, false)
      end
  | handle_progress progress total =>
      match handle_download_progress progress total (papp s) with
      | Done _ a => (set_app a s, false)
      | Halted _ a => (break division_by_zero (set_app a s), false)
      end
  end.

(** After the unlock. *)
Definition callback_end (c : callback) (seen : bool) (s : sys) : sys :=
  match c with
  | handle_client_unregistered => if seen then log TrWarn [LStr "Client unregistered"] s else s
  | _ => s
  end.

(** *** The main thread *)

(** The broker of the object is initialised; an error of it is only logged. *)
Definition broker_init (o : MblCloudClient) (s : sys) : sys :=
  match MblCloudConnectResourceBroker_Init (cloud_connect_resource_broker_ o) (papp s) with
  | Halted _ a => break "assert(ipc_)" (set_app a s)
  | Done ccrb_init a =>
      let s := set_app a s in
      let s := if decide (ccrb_init = Error.None_) then s
               else log TrErr [LStr "Init cloud_connect_resource_broker_ failed with error";
                               LStr (MblError_to_str ccrb_init)] s in
      set_main MLoop
        (set_registration (get_monotonic_time_s s + g_reregister_period_s) (register_updates s)
           (authorized s) (handlers_registered s) s)
  end.

Definition step_main (s : sys) : option sys :=
  match main_at s with
  | MConstruct =>
      Some (if s_instance s then break "assert(!s_instance)" s
            else match MblCloudConnectResourceBroker (papp s) with
                 | Halted _ a => break "constructor of the broker" (set_app a s)
                 | Done b a =>
                     set_main MRegister
                       (set_loop true (set_object true (Some (new_MblCloudClient b)) (set_app a s)))
                 end)
  | MRegister =>
      Some (if s_instance s
            then set_main MSetupLock (with_client (λ s,
              set_registration (next_registration_s s) (register_updates s) (authorized s) true s) s)
            else break "assert(s_instance)" s)
  | MSetupLock => lock MainThread (set_main MSetupState) s
  | MSetupState => Some (set_main MSetup (unlock (set_state State_CalledRegister s)))
  | MSetup =>
      Some (with_client (λ s,
        if setup_ok then set_main MBroker s
        else set_main (MExit Error.ConnectUnknownError)
               (log TrErr [LStr "Client setup failed"] s)) s)
  | MBroker => Some (with_object broker_init s)
  | MLoop =>
      if negb (g_shutdown_signal s =? 0) then
        Some (set_main (MExit Error.ShutdownRequested)
                (log TrWarn [LStr "Recieved signal, shutting down"; LInt (g_shutdown_signal s)] s))
      else Some (set_main MCheckLock s)
  | MCheckLock => lock MainThread (set_main MCheckState) s
  | MCheckState =>
      Some (unlock (with_object (λ o s,
        if decide (state_ o = State_Unregistered)
        then set_main (MExit Error.DeviceUnregistered) s
        else set_main MTime s) s))
  | MTime =>
      let time_s := get_monotonic_time_s s in
      let (next, update) := poll (next_registration_s s) time_s in
      Some (set_main MLoop
        (if update
         then with_client (λ s,
                set_registration next (register_updates s ++ [time_s]) (authorized s)
                  (handlers_registered s) s)
                (log TrDebug [LStr "Updating registration with LWM2M server"] s)
         else s))
  | MExit e =>
      if s_instance s then lock MainThread (set_main (MClear e)) s
      else Some (break "assert(s_instance)" s)
  | MClear e =>
      Some (if s_instance s
            then set_main (MClose e) (unlock (set_object false (object s) s))
            else break "assert(s_instance)" s)
  | MClose e => Some (set_main (MDelete e) (with_client (set_client Closed) s))
  | MDelete e => Some (set_main (MStop e) (set_client Deleted s))
  | MStop e =>
      match cb_at s with
      | CIdle =>
          Some (set_main (MDone e)
            (log TrDebug [LStr "MblCloudConnectIpcDBus::~MblCloudConnectIpcDBus"]
            (log TrDebug [LStr "MblCloudConnectResourceBroker::~MblCloudConnectResourceBroker"]
            (set_loop false (set_object (s_instance s) None s)))))
      | _ => None
      end
  | MDone _ => None
  end.

(** *** The event loop *)

Definition step_callback (s : sys) : option sys :=
  match cb_at s with
  | CIdle => None
  | CWaiting c => lock EventLoop (set_cb (CLocked c)) s
  | CLocked c => Some (set_cb (CUnlocking c (s_instance s)) (callback_body c s))
  | CUnlocking c seen => Some (set_cb CIdle (callback_end c seen (unlock s)))
  end.

Definition start_callback (c : callback) (s : sys) : option sys :=
  if event_loop s then
    match cb_at s with
    | CIdle => let (s', go) := callback_start c s in
               Some (if go then set_cb (CWaiting c) s' else s')
    | _ => None
    end
  else None.

Inductive action :=
| AMain
| ACall (c : callback)          (** the event loop calls a handler *)
| ACallback                     (** the handler goes on *)
| ASignal (signal : Z)          (** mbl_shutdown_handler, with the number of a signal *)
| ATick (d : nat).              (** time passes *)

Definition exec (a : action) (s : sys) : option sys :=
  match broken s with
  | Some _ => None
  | None =>
      match a with
      | AMain => step_main s
      | ACall c => start_callback c s
      | ACallback => step_callback s
      | ASignal signal =>
          if 0 <? signal then Some (set_clock signal (monotonic_time s) s) else None
      | ATick d => Some (set_clock (g_shutdown_signal s) (monotonic_time s + Z.of_nat d) s)
      end
  end.

Fixpoint exec_all (l : list action) (s : sys) : option sys :=
  match l with [] => Some s | a :: l' => exec a s ≫= exec_all l' end.

End steps.
