(* ===== verification/CloudLifecycleProps.v ===== *)
(** * mbl-cloud-client: the threads never meet a dead object

    The theorems on [CloudLifecycle]: what holds of [s_instance], the object,
    the mutex and the event loop in every interleaving of the main thread, the
    handlers and the signals; why [run] returns; when the registration is
    renewed. *)

From stdpp Require Import base gmap strings list relations.
From Stdlib Require Import ZArith Ascii Lia.
From S2P Require Import Prelude.
From S2P Require Import CString.
From S2P Require Import Posix.
From S2P Require Import CloudError.
From S2P Require Import CloudClient.
From S2P Require Import CloudClientProps.
From S2P Require Import CloudLifecycle.

Open Scope Z_scope.
Open Scope list_scope.

(** ** What the place of the main thread says of the shared state *)

(** [s_instance], the library's client in the object, the event loop. *)
Definition expected (pc : main_pc) : bool * option (cloud_client * broker) * bool :=
  let ipc := Some MblCloudConnectIpcDBus in
  match pc with
  | MConstruct => (false, None, false)
  | MClose _ => (false, Some (Open, ipc), true)
  | MDelete _ => (false, Some (Closed, ipc), true)
  | MStop _ => (false, Some (Deleted, ipc), true)
  | MDone _ => (false, None, false)
  | _ => (true, Some (Open, ipc), true)
  end.

Definition shared (s : sys) : bool * option (cloud_client * broker) * bool :=
  (s_instance s, (λ o, (cloud_client_ o, cloud_connect_resource_broker_ o)) <$> object s,
   event_loop s).

(** Who has the mutex. *)
Definition main_holds (pc : main_pc) : bool :=
  match pc with MSetupState | MCheckState | MClear _ => true | _ => false end.
Definition cb_holds (pc : cb_pc) : bool :=
  match pc with CLocked _ | CUnlocking _ _ => true | _ => false end.

Definition owner (m : main_pc) (c : cb_pc) : option (option holder) :=
  match main_holds m, cb_holds c with
  | true, true => None
  | true, false => Some (Some MainThread)
  | false, true => Some (Some EventLoop)
  | false, false => Some None
  end.

(** The invariant of the life of the object. *)
Record alive (s : sys) : Prop := {
  alive_broken : broken s = None;
  alive_shared : shared s = expected (main_at s);
  alive_owner : owner (main_at s) (cb_at s) = Some (s_mutex s);
  alive_idle : event_loop s = false → cb_at s = CIdle
}.

(** ** The invariant holds *)

Lemma with_object_some f s o : object s = Some o → with_object f s = f o s.
Proof. unfold with_object. by intros ->. Qed.

Lemma with_client_open f s o :
  object s = Some o → cloud_client_ o = Open → with_client f s = f s.
Proof. intros Ho Hc. unfold with_client. rewrite (with_object_some _ _ _ Ho). by rewrite decide_True. Qed.

(** A step that changes only the object's state, the application and the
    record of what was asked of the library. *)
Definition same_life (s s' : sys) : Prop :=
  shared s' = shared s ∧ main_at s' = main_at s ∧ cb_at s' = cb_at s ∧
  s_mutex s' = s_mutex s ∧ broken s' = broken s ∧
  g_shutdown_signal s' = g_shutdown_signal s.

#[export] Instance same_life_preorder : PreOrder same_life.
Proof.
  split; [by intros s|].
  intros s1 s2 s3 (?&?&?&?&?&?) (?&?&?&?&?&?). repeat split; congruence.
Qed.

Lemma log_same l args s : same_life s (log l args s).
Proof. done. Qed.

Lemma set_app_same a s : same_life s (set_app a s).
Proof. done. Qed.

Lemma set_registration_same n u a h s : same_life s (set_registration n u a h s).
Proof. done. Qed.

Lemma set_state_same st s o : object s = Some o → same_life s (set_state st s).
Proof.
  intros Ho. unfold set_state. rewrite (with_object_some _ _ _ Ho).
  repeat split; try done. unfold shared. simpl. by rewrite Ho.
Qed.

Lemma set_state_object st s o :
  object s = Some o →
  object (set_state st s) =
    Some {| cloud_client_ := cloud_client_ o; state_ := st;
            cloud_connect_resource_broker_ := cloud_connect_resource_broker_ o |}.
Proof. intros Ho. unfold set_state. by rewrite (with_object_some _ _ _ Ho). Qed.

Section alive.
Context `{AppEnv} `{CloudEnv}.

Lemma callback_body_same c s :
  (s_instance s = true → ∃ o, object s = Some o ∧ cloud_client_ o = Open ∧
     cloud_connect_resource_broker_ o = Some MblCloudConnectIpcDBus) →
  same_life s (callback_body c s).
Proof.
  intros Hi. unfold callback_body.
  destruct c as [| |e|r|p t]; [..|done]; destruct (s_instance s); try done;
    destruct (Hi eq_refl) as (o & Ho & Hc & _).
  - rewrite (with_client_open _ _ _ (set_state_object _ _ _ Ho)) by done.
    etrans; [by eapply set_state_same|]. by destruct endpoint as [[]|].
  - by eapply set_state_same.
  - by rewrite (with_client_open _ _ _ Ho).
  - by rewrite (with_client_open _ _ _ Ho).
Qed.

(** A handler starts by logging, or divides by a total of zero. *)
Lemma callback_start_cases c s :
  (∃ a go, callback_start c s = (set_app a s, go)) ∨
  (∃ p, c = handle_progress p 0 ∧ callback_start c s = (break division_by_zero s, false)).
Proof.
  destruct c as [| |e|r|p t]; simpl.
  - left. by eexists _, _.
  - left. exists (papp s), true. by destruct s.
  - left. by eexists _, _.
  - left. destruct (CloudClient.handle_authorize r (papp s)); by eexists _, _.
  - unfold handle_download_progress, download_percent.
    destruct (Z.eqb_spec t 0) as [->|Ht]; [right; exists p|left].
    + split; [done|]. simpl. by destruct s.
    + simpl. destruct (p =? t); by eexists _, _.
Qed.

Lemma callback_end_same c seen s : same_life s (callback_end c seen s).
Proof. by destruct c, seen. Qed.

Lemma alive_open s :
  alive s → s_instance s = true → ∃ o, object s = Some o ∧ cloud_client_ o = Open ∧
    cloud_connect_resource_broker_ o = Some MblCloudConnectIpcDBus.
Proof.
  intros [_ Hs _ _] Hi. unfold shared in Hs. rewrite Hi in Hs.
  destruct (object s) as [o|], (main_at s); simplify_eq/=; eauto.
Qed.

Lemma same_life_alive s s' : same_life s s' → alive s → alive s'.
Proof.
  intros (Hs & Hm & Hc & Hx & Hb & _) [A1 A2 A3 A4].
  split; [congruence..|]. rewrite Hc. intros Hl. apply A4.
  unfold shared in Hs. congruence.
Qed.

(** The process died of the last action: the library reported the progress of
    a download of no bytes. *)
Definition died (a : action) (s s' : sys) : Prop :=
  ∃ p, a = ACall (handle_progress p 0) ∧ s' = break division_by_zero s.

Lemma start_callback_alive c s s' :
  alive s → start_callback c s = Some s' → alive s' ∨ died (ACall c) s s'.
Proof.
  intros A. unfold start_callback.
  destruct (event_loop s) eqn:El; [|done]. destruct (cb_at s) eqn:Ec; try done.
  destruct A as [A1 A2 A3 A4]. rewrite Ec in A3.
  destruct (callback_start_cases c s) as [(a & go & ->)|(p & -> & ->)]; intros [= <-].
  - left. destruct go; split; simpl; rewrite ?Ec, ?El; done.
  - right. by exists p.
Qed.

Lemma step_callback_alive s s' : alive s → step_callback s = Some s' → alive s'.
Proof.
  intros A. unfold step_callback. destruct (cb_at s) as [|c|c|c seen] eqn:Ec; [done| | |].
  - unfold lock. destruct (s_mutex s) eqn:Em; [done|]. intros [= <-].
    destruct A as [A1 A2 A3 A4]. split; [done..| |].
    + rewrite Ec, Em in A3. unfold owner in *. simpl in *. by destruct (main_holds (main_at s)).
    + simpl. intros Hl%A4. congruence.
  - intros [= <-]. pose proof (callback_body_same c s (alive_open s A)) as Hs.
    pose proof (same_life_alive _ _ Hs A) as [A1 A2 A3 A4].
    destruct Hs as (_ & _ & Hc & _). rewrite Hc, Ec in *.
    split; [done..| |]; simpl; [done|]. by intros ?%A4.
  - intros [= <-]. destruct (callback_end_same c seen (unlock s)) as (Hs & Hm & _ & Hx & Hb & _).
    destruct A as [A1 A2 A3 A4]. split; [| | |done].
    + simpl. by rewrite Hb.
    + change (shared (callback_end c seen (unlock s)) = expected (main_at (callback_end c seen (unlock s)))).
      by rewrite Hs, Hm.
    + simpl. rewrite Hm, Hx. rewrite Ec in A3. unfold owner in *. simpl in *.
      by destruct (main_holds (main_at s)).
Qed.

(** A step of the main thread goes on from a state with the same life. *)
Lemma main_alive s s1 pc :
  alive s → same_life s s1 → main_holds pc = main_holds (main_at s) →
  expected pc = expected (main_at s) → alive (set_main pc s1).
Proof.
  intros A Hs Hh He. pose proof (same_life_alive _ _ Hs A) as [A1 A2 A3 A4].
  destruct Hs as (_ & Hm & _). rewrite Hm in *. split; [done| |  |done].
  - simpl. rewrite He. done.
  - simpl. unfold owner in *. by rewrite Hh.
Qed.

Lemma main_lock_alive s s' pc :
  alive s → main_holds (main_at s) = false → main_holds pc = true →
  expected pc = expected (main_at s) → lock MainThread (set_main pc) s = Some s' → alive s'.
Proof.
  intros [A1 A2 A3 A4] H1 H2 He. unfold lock. destruct (s_mutex s) eqn:Em; [done|].
  intros [= <-]. split; [done| | |done]; simpl; [by rewrite He|].
  unfold owner in *. rewrite H2. rewrite H1 in A3. by destruct (cb_holds (cb_at s)).
Qed.

Lemma owner_unlock m m' c x :
  owner m c = Some x → main_holds m = true → main_holds m' = false → owner m' c = Some None.
Proof. unfold owner. intros Ho Hm ->. rewrite Hm in Ho. by destruct (cb_holds c). Qed.

Lemma main_unlock_alive s s1 pc :
  alive s → same_life s s1 → main_holds (main_at s) = true → main_holds pc = false →
  expected pc = expected (main_at s) → alive (set_main pc (unlock s1)).
Proof.
  intros A Hs H1 H2 He. pose proof (same_life_alive _ _ Hs A) as [A1 A2 A3 A4].
  destruct Hs as (_ & Hm & _). rewrite Hm in *. split; [done| | |done]; simpl.
  - rewrite He. done.
  - by eapply owner_unlock.
Qed.

(** The end of the object: each step gives up what the next place no longer
    has. *)
Lemma main_end_alive s s' pc :
  alive s → broken s' = None → main_at s' = pc → cb_at s' = cb_at s →
  s_mutex s' = (if main_holds (main_at s) then None else s_mutex s) →
  main_holds pc = false → shared s' = expected pc →
  (event_loop s' = false → cb_at s = CIdle) → alive s'.
Proof.
  intros [A1 A2 A3 A4] Hb Hm Hc Hx Hp Hs Hi. split; [done|congruence| |].
  - rewrite Hm, Hc, Hx. destruct (main_holds (main_at s)) eqn:E; [by eapply owner_unlock|].
    rewrite <- A3. unfold owner. by rewrite E, Hp.
  - by rewrite Hc.
Qed.

Lemma alive_instance s : alive s → s_instance s = (expected (main_at s)).1.1.
Proof. intros A. by rewrite <- (alive_shared s A). Qed.

Lemma step_main_alive s s' : alive s → step_main s = Some s' → alive s'.
Proof.
  intros A. pose proof (alive_open s A) as Ho. pose proof (alive_shared s A) as Hs.
  pose proof (alive_instance s A) as Hi. unfold step_main. unfold shared in Hs. destruct (main_at s) eqn:Em; simpl in Hi; rewrite ?Hi;
    simplify_eq/=.
  all: try (destruct (Ho ltac:(congruence)) as (o & Hobj & Hopen & Hipc);
            rewrite ?(with_client_open _ _ _ Hobj Hopen), ?(with_object_some _ _ _ Hobj)).
  all: try (intros Hl; refine (main_lock_alive s s' _ A _ _ _ Hl); rewrite ?Em; done).
  - intros [= <-].
    apply (main_end_alive s _ MRegister A); rewrite ?Em; try done. apply A.
  - intros [= <-]. apply (main_alive s); rewrite ?Em; done.
  - intros [= <-]. apply (main_unlock_alive s); rewrite ?Em; try done. by eapply set_state_same.
  - intros [= <-]. destruct setup_ok; apply (main_alive s); rewrite ?Em; done.
  - intros [= <-]. unfold broker_init. rewrite Hipc. apply (main_alive s); rewrite ?Em; done.
  - destruct (g_shutdown_signal s =? 0); intros [= <-]; apply (main_alive s); rewrite ?Em; done.
  - intros [= <-]. case_decide; apply (main_unlock_alive s s); rewrite ?Em; done.
  - destruct (poll _ _) as [n u]. destruct u; intros [= <-]; [|apply (main_alive s); rewrite ?Em; done].
    rewrite (with_client_open _ (log _ _ s) o) by done. apply (main_alive s); rewrite ?Em; done.
  - intros [= <-].
    apply (main_end_alive s _ (MClose e) A); rewrite ?Em; try done.
    + apply A.
    + unfold shared. simpl. by repeat f_equal.
    + simpl. congruence.
  - destruct (fmap_Some_1 _ _ _ H1) as (o & Hobj & Hv). simplify_eq.
    rewrite (with_client_open _ _ o) by congruence. unfold set_client.
    rewrite (with_object_some _ _ _ Hobj). intros [= <-].
    apply (main_end_alive s _ (MDelete e) A); rewrite ?Em; try done; [apply A| |simpl; congruence].
    unfold shared. simpl. by repeat f_equal.
  - destruct (fmap_Some_1 _ _ _ H1) as (o & Hobj & Hv). simplify_eq. unfold set_client.
    rewrite (with_object_some _ _ _ Hobj). intros [= <-].
    apply (main_end_alive s _ (MStop e) A); rewrite ?Em; try done; [apply A| |simpl; congruence].
    unfold shared. simpl. by repeat f_equal.
  - destruct (cb_at s) eqn:Ec; [|done..]. intros [= <-].
    apply (main_end_alive s _ (MDone e) A); rewrite ?Em; try done. apply A.
  - done.
Qed.

Lemma exec_alive a s s' : alive s → exec a s = Some s' → alive s' ∨ died a s s'.
Proof.
  intros A. unfold exec. rewrite (alive_broken s A).
  destruct a as [|c| |sig|d]; [left; by eapply step_main_alive|by apply start_callback_alive|
    left; by eapply step_callback_alive| |].
  - destruct (0 <? sig); [|done]. intros [= <-]. left. by destruct A.
  - intros [= <-]. left. by destruct A.
Qed.

(** An invariant of the runs: it holds at the end, or it held when the process
    died of the last action. *)
Lemma exec_all_invariant (I : list action → sys → Prop) :
  (∀ l a s s', alive s → I l s → exec a s = Some s' → alive s' → I (l ++ [a]) s') →
  ∀ l0 l s s', alive s → I l0 s → exec_all l s = Some s' →
  alive s' ∧ I (l0 ++ l) s' ∨
  ∃ l' a s1, l = l' ++ [a] ∧ exec_all l' s = Some s1 ∧ alive s1 ∧ I (l0 ++ l') s1 ∧ died a s1 s'.
Proof.
  intros HI l0 l. revert l0. induction l as [|a l IH]; intros l0 s s' A HIs; simpl.
  { intros [= <-]. left. by rewrite (right_id_L [] (++)). }
  intros (s1 & H1 & Hl)%bind_Some.
  destruct (exec_alive _ _ _ A H1) as [A1|Hd].
  - destruct (IH (l0 ++ [a]) s1 s' A1 (HI _ _ _ _ A HIs H1 A1) Hl)
      as [[A' HI']|(l' & b & s2 & -> & H2 & A2 & HI2 & Hd)]; [left|right].
    + by rewrite <- (assoc_L (++)) in HI'.
    + exists (a :: l'), b, s2. rewrite <- (assoc_L (++)) in HI2. split_and!; try done.
      simpl. by rewrite H1.
  - right. exists [], a, s. rewrite (right_id_L [] (++)).
    destruct l as [|b l];
      [|destruct Hd as (p & _ & ->); simpl in Hl; unfold exec in Hl; discriminate Hl].
    simpl in Hl. injection Hl as <-. by split_and!.
Qed.

(** ** Why [run] returns *)

(** What happened before [run] returned [e]. *)
Definition reason (l : list action) (e : MblError) : Prop :=
  match e with
  | Error.ShutdownRequested => ∃ sig, ASignal sig ∈ l ∧ 0 < sig
  | Error.DeviceUnregistered => ACall handle_client_unregistered ∈ l
  | Error.ConnectUnknownError => setup_ok = false
  | _ => False
  end.

Definition exiting (pc : main_pc) : option MblError :=
  match pc with
  | MExit e | MClear e | MClose e | MDelete e | MStop e | MDone e => Some e
  | _ => None
  end.

Definition before_setup (pc : main_pc) : bool :=
  match pc with MConstruct | MRegister | MSetupLock | MSetupState => true | _ => false end.

Definition unregistering (pc : cb_pc) : bool :=
  match pc with
  | CWaiting handle_client_unregistered | CLocked handle_client_unregistered => true
  | _ => false
  end.

Definition unregistered (s : sys) : Prop :=
  before_setup (main_at s) = false ∧ state_ <$> object s = Some State_Unregistered.

(** The invariant of a run with the actions [l]. *)
Record caused (l : list action) (s : sys) : Prop := {
  caused_signal : g_shutdown_signal s ≠ 0 → ∃ sig, ASignal sig ∈ l ∧ 0 < sig;
  caused_callback : unregistering (cb_at s) = true → ACall handle_client_unregistered ∈ l;
  caused_state : unregistered s → ACall handle_client_unregistered ∈ l;
  caused_exit : ∀ e, exiting (main_at s) = Some e → reason l e
}.

Lemma reason_mono l l' e : l ⊆ l' → reason l e → reason l' e.
Proof. intros Hl. destruct e; simpl; try done; naive_solver. Qed.

Lemma caused_mono l l' s : l ⊆ l' → caused l s → caused l' s.
Proof.
  intros Hl [C1 C2 C3 C4]. split; [naive_solver..|].
  intros e He. eapply reason_mono; [done|by apply C4].
Qed.

(** A step of the main thread to [pc]. *)
Lemma caused_goto l s s1 pc :
  caused l s → g_shutdown_signal s1 = g_shutdown_signal s → cb_at s1 = cb_at s →
  (before_setup pc = false →
   before_setup (main_at s) = false ∧ state_ <$> object s1 = state_ <$> object s ∨
   state_ <$> object s1 ≠ Some State_Unregistered) →
  (∀ e, exiting pc = Some e → exiting (main_at s) = Some e ∨ reason l e) →
  caused l (set_main pc s1).
Proof.
  intros [C1 C2 C3 C4] Hg Hc Ho He. split; simpl; [by rewrite Hg|by rewrite Hc| |].
  - intros [Hp Hu]. simpl in *. destruct (Ho Hp) as [[Hb Ho']|Ho']; [|done].
    apply C3. split; congruence.
  - intros e [?|?]%He; auto.
Qed.

#[local] Ltac goto s :=
  match goal with
  | C : caused ?l s, Em : main_at s = _ |- caused ?l _ =>
      apply (caused_goto l s); rewrite ?Em; simpl;
      try first [exact C|done|by left|by intros e' [= <-]; left]
  end.

Lemma callback_body_object c s :
  alive s →
  object (callback_body c s) = object s ∨
  (∃ o, object (callback_body c s) = Some o ∧ state_ o = State_Registered) ∨
  (c = handle_client_unregistered).
Proof.
  intros A. destruct c as [| |e|r|p t]; [| by auto | | |by left]; simpl;
    (destruct (s_instance s) eqn:Hi; [|by left]);
    destruct (alive_open s A Hi) as (o & Ho & Hc & _).
  - right; left. rewrite (with_client_open _ _ _ (set_state_object _ _ _ Ho)) by done.
    eexists. split; [destruct endpoint as [[]|]; apply (set_state_object _ _ _ Ho)|reflexivity].
  - left. by rewrite (with_client_open _ _ _ Ho).
  - left. by rewrite (with_client_open _ _ _ Ho).
Qed.
Lemma step_callback_caused l s s' :
  alive s → caused l s → step_callback s = Some s' → caused l s'.
Proof.
  intros A [C1 C2 C3 C4]. unfold step_callback.
  destruct (cb_at s) as [|c|c|c seen] eqn:Ec; [done| | |].
  - unfold lock. destruct (s_mutex s); [done|]. intros [= <-]. by split.
  - pose proof (callback_body_same c s (alive_open s A)) as (_ & Hm & _ & _ & _ & Hg).
    intros [= <-]. split; unfold unregistered; simpl; rewrite ?Hm, ?Hg; try done.
    destruct (callback_body_object c s A) as [->|[(o & -> & Ho)| ->]]; [done| |by intros; apply C2].
    intros [_ He]. simpl in He. congruence.
  - destruct (callback_end_same c seen (unlock s)) as (_ & Hm & _ & _ & _ & Hg).
    assert (object (callback_end c seen (unlock s)) = object s) as Ho by (by destruct c, seen).
    intros [= <-]. split; unfold unregistered; simpl; rewrite ?Hm, ?Hg, ?Ho; done.
Qed.

Lemma start_callback_caused l c s s' :
  caused l s → start_callback c s = Some s' → caused (l ++ [ACall c]) s'.
Proof.
  intros C. apply (caused_mono _ (l ++ [ACall c])) in C; [|set_solver].
  unfold start_callback. destruct (event_loop s); [|done]. destruct (cb_at s) eqn:Ec; try done.
  destruct C as [C1 C2 C3 C4].
  destruct (callback_start_cases c s) as [(a & go & ->)|(p & -> & ->)]; intros [= <-].
  - destruct go; split; unfold unregistered; simpl; rewrite ?Ec; try done.
    destruct c; try done. intros _. set_solver.
  - split; unfold unregistered; simpl; rewrite ?Ec; done.
Qed.

Lemma lock_main s s' pc :
  lock MainThread (set_main pc) s = Some s' →
  s' = set_main pc (set_mutex (Some MainThread) s).
Proof. unfold lock. destruct (s_mutex s); [done|]. by intros [= <-]. Qed.

Lemma alive_object s :
  alive s → is_Some (expected (main_at s)).1.2 → ∃ o, object s = Some o ∧
    (expected (main_at s)).1.2 = Some (cloud_client_ o, cloud_connect_resource_broker_ o).
Proof.
  intros A [v Hv]. pose proof (alive_shared s A) as Hs. unfold shared in Hs.
  rewrite <- Hs in *. simpl in *. destruct (object s) as [o|]; [|done]. by exists o.
Qed.

Lemma step_main_caused l s s' :
  alive s → caused l s → step_main s = Some s' → caused l s'.
Proof.
  intros A C. pose proof (alive_object s A) as Ho. destruct C as [C1 C2 C3 C4].
  pose proof (Build_caused l s C1 C2 C3 C4) as C. pose proof (alive_instance s A) as Hi.
  unfold step_main. destruct (main_at s) eqn:Em; simpl in Ho, Hi; rewrite ?Hi.
  all: try (destruct Ho as (o & Hobj & Hx); [by eexists|]; injection Hx as Hopen Hipc;
            rewrite ?(with_client_open _ _ _ Hobj (eq_sym Hopen)),
              ?(with_object_some _ _ _ Hobj)).
  all: try intros ->%lock_main.
  all: try (intros [= <-]).
  all: try by goto s.
  - unfold set_state. rewrite (with_object_some _ _ _ Hobj). goto s. by right.
  - destruct setup_ok eqn:Hok; [by goto s|]. goto s. intros e [= <-]. by right.
  - unfold broker_init. rewrite <- Hipc. by goto s.
  - destruct (Z.eqb_spec (g_shutdown_signal s) 0); intros [= <-]; [by goto s|].
    goto s. intros e [= <-]. right. by apply C1.
  - destruct (decide (state_ o = State_Unregistered)) as [Hu|Hu].
    2: { change (caused l (set_main MTime (unlock s))). by goto s. }
    change (caused l (set_main (MExit Error.DeviceUnregistered) (unlock s))). goto s. intros e [= <-]. right.
    apply C3. split; [by rewrite Em|]. by rewrite Hobj, <- Hu.
  - destruct (poll _ _) as [n u]. intros [= <-]. destruct u; [|by goto s].
    rewrite (with_client_open _ (log _ _ s) o) by done. by goto s.
  - unfold set_client. rewrite (with_object_some _ _ _ Hobj). goto s. rewrite Hobj. by left.
  - unfold set_client. rewrite (with_object_some _ _ _ Hobj). goto s. rewrite Hobj. by left.
  - destruct (cb_at s) eqn:Ec; [|done..]. intros [= <-]. goto s. by right.
Qed.
Lemma exec_caused l a s s' :
  alive s → caused l s → exec a s = Some s' → caused (l ++ [a]) s'.
Proof.
  intros A C. unfold exec. destruct (broken s); [done|].
  assert (caused (l ++ [a]) s) as C' by (eapply caused_mono; [|done]; set_solver).
  destruct a as [|c| |sig|d]; [by apply step_main_caused|by apply start_callback_caused|
    by apply step_callback_caused| |].
  - destruct (Z.ltb_spec 0 sig); [|done]. intros [= <-]. destruct C' as [C1 C2 C3 C4].
    split; try done. intros _. exists sig. set_solver.
  - intros [= <-]. by destruct C'.
Qed.

Lemma initial_alive a : alive (initial a).
Proof. by split. Qed.

Lemma initial_caused a : caused [] (initial a).
Proof. split; try done. by intros []. Qed.

(** What a run reaches, up to the signal that ends it. *)
Lemma exec_all_caused a l s :
  exec_all l (initial a) = Some s →
  ∃ s1, alive s1 ∧ caused l s1 ∧ (s = s1 ∨ s = break division_by_zero s1).
Proof.
  intros Hl.
  destruct (exec_all_invariant caused (λ l a s s' A C Hs _, exec_caused l a s s' A C Hs)
    [] l _ _ (initial_alive a) (initial_caused a) Hl)
    as [[A C]|(l' & x & s1 & -> & _ & A1 & C & p & -> & ->)]; [by eauto|].
  exists s1. split_and!; [done| |by right]. eapply caused_mono; [|done]. set_solver.
Qed.

(** C12: In every interleaving of the client's main thread, its handlers, the
    signals and the clock, no handler and no step of [run] uses the object
    after its deletion or the library's client after it was closed, and no
    assertion fails: the mutex and the clearing of [s_instance] in the
    destructor protect the object. The one thing that can break the process is
    the library's report of the progress of a download of no bytes. *)
Theorem no_use_after_free a l s :
  exec_all l (initial a) = Some s →
  broken s = None ∨
  broken s = Some division_by_zero ∧ ∃ p, last l = Some (ACall (handle_progress p 0)).
Proof.
  intros Hl. destruct (exec_all_invariant (λ _ _, True) ltac:(done) [] l _ _ (initial_alive a) I Hl)
    as [[A _]|(l' & x & s1 & -> & _ & _ & _ & p & -> & ->)].
  - left. apply (alive_broken s A).
  - right. split; [done|]. exists p. by rewrite last_snoc.
Qed.

(** C25: When [run] has returned, it returned for a reason of the run: a
    shutdown was requested by a signal, the library called the handler that
    says the device was unregistered, or the client's setup failed. Nothing
    of the client is left: no instance, no object, no event loop, no handler
    half way, and the mutex is free. *)
Theorem run_returns_for_a_reason a l s e :
  exec_all l (initial a) = Some s → main_at s = MDone e →
  reason l e ∧ s_instance s = false ∧ object s = None ∧ event_loop s = false ∧
  cb_at s = CIdle ∧ s_mutex s = None.
Proof.
  intros Hl Hm.
  destruct (exec_all_caused a l s Hl) as (s1 & A & C & Hs).
  assert (s_instance s = s_instance s1 ∧ object s = object s1 ∧ event_loop s = event_loop s1 ∧
    cb_at s = cb_at s1 ∧ s_mutex s = s_mutex s1 ∧ main_at s = main_at s1) as (-> & -> & -> & -> & -> & Hm1)
    by (by destruct Hs as [->| ->]).
  rewrite Hm1 in Hm. clear Hs Hm1 Hl s. rename s1 into s.
  pose proof (alive_shared s A) as Hs. pose proof (alive_owner s A) as Ho.
  unfold shared in Hs. rewrite Hm in *. simplify_eq/=.
  assert (object s = None) by (by destruct (object s)).
  assert (cb_at s = CIdle) as Hc by (by apply (alive_idle s A)). rewrite Hc in Ho.
  injection Ho as Ho.
  split_and!; try done. apply (caused_exit _ _ C). by rewrite Hm.
Qed.

(** ** After the signal, [run] ends *)

Definition rank (pc : main_pc) : nat :=
  match pc with
  | MConstruct => 12 | MRegister => 11 | MSetupLock => 10 | MSetupState => 9 | MSetup => 8
  | MBroker => 7 | MCheckLock => 9 | MCheckState => 8 | MTime => 7 | MLoop => 6
  | MExit _ => 5 | MClear _ => 4 | MClose _ => 3 | MDelete _ => 2 | MStop _ => 1
  | MDone _ => 0
  end%nat.

Lemma step_main_rank s s' :
  alive s → g_shutdown_signal s ≠ 0 → step_main s = Some s' →
  (rank (main_at s') < rank (main_at s))%nat ∧ g_shutdown_signal s' = g_shutdown_signal s.
Proof.
  intros A Hg. pose proof (alive_object s A) as Ho. pose proof (alive_instance s A) as Hi.
  unfold step_main. destruct (main_at s) eqn:Em; simpl in Ho, Hi; rewrite ?Hi.
  all: try (destruct Ho as (o & Hobj & Hx); [by eexists|]; injection Hx as Hopen Hipc;
            rewrite ?(with_client_open _ _ _ Hobj (eq_sym Hopen)),
              ?(with_object_some _ _ _ Hobj)).
  all: try intros ->%lock_main.
  all: try (intros [= <-]).
  all: unfold set_state, set_client, broker_init; rewrite ?(with_object_some _ _ _ Hobj), <- ?Hipc.
  all: try (simpl; split; [lia|done]).
  - destruct setup_ok; simpl; split; try done; lia.
  - destruct (Z.eqb_spec (g_shutdown_signal s) 0); [done|]. intros [= <-]. simpl; split; [lia|done].
  - destruct (decide (state_ o = State_Unregistered)); simpl; split; try done; lia.
  - destruct (poll _ _) as [n u]. intros [= <-]. simpl. split; [lia|].
    destruct u; [|done]. by rewrite (with_client_open _ (log _ _ s) o).
  - destruct (cb_at s); [|done..]. intros [= <-]. simpl; split; [lia|done].
Qed.

Definition main_steps (a : action) : nat := match a with AMain => 1 | _ => 0 end.
Definition count_main (l : list action) : nat := sum_list_with main_steps l.

Lemma exec_rank a s s' :
  alive s → g_shutdown_signal s ≠ 0 → exec a s = Some s' →
  g_shutdown_signal s' ≠ 0 ∧
  (rank (main_at s') + main_steps a ≤ rank (main_at s))%nat.
Proof.
  intros A Hg. unfold exec. destruct (broken s); [done|]. destruct a as [|c| |sig|d].
  - intros Hs. destruct (step_main_rank s s' A Hg Hs) as [? ->]. simpl. split; [done|lia].
  - unfold start_callback. destruct (event_loop s), (cb_at s); try done.
    destruct (callback_start_cases c s) as [(a & go & ->)|(p & -> & ->)]; intros [= <-];
      [destruct go|]; simpl; split; try done; lia.
  - unfold step_callback. destruct (cb_at s) as [|c|c|c seen]; [done| | |].
    + unfold lock. destruct (s_mutex s); [done|]. intros [= <-]. simpl. split; [done|lia].
    + destruct (callback_body_same c s (alive_open s A)) as (_ & Hm & _ & _ & _ & Hs).
      intros [= <-]. simpl. rewrite Hm, Hs. split; [done|lia].
    + destruct (callback_end_same c seen (unlock s)) as (_ & Hm & _ & _ & _ & Hs).
      intros [= <-]. simpl. rewrite Hm, Hs. simpl. split; [done|lia].
  - destruct (Z.ltb_spec 0 sig); [|done]. intros [= <-]. simpl. split; lia.
  - intros [= <-]. simpl. split; [done|lia].
Qed.

(** No thread waits for ever. *)
Lemma not_stuck s :
  alive s → (∀ e, main_at s ≠ MDone e) → step_main s ≠ None ∨ step_callback s ≠ None.
Proof.
  intros A Hd. pose proof (alive_owner s A) as Ho. unfold owner in Ho.
  assert (Hl : main_holds (main_at s) = false → ∀ k k',
    lock MainThread k s ≠ None ∨ (match cb_at s with
      | CIdle => None | CWaiting c => lock EventLoop (k' c) s
      | CLocked c => Some (set_cb (CUnlocking c (s_instance s)) (callback_body c s))
      | CUnlocking c seen => Some (set_cb CIdle (callback_end c seen (unlock s)))
      end) ≠ None).
  { intros Hm k k'. rewrite Hm in Ho. unfold lock.
    destruct (cb_at s); simpl in Ho; injection Ho as <-; first [by left|by right]. }
  pose proof (alive_instance s A) as Hi.
  unfold step_main, step_callback. destruct (main_at s) eqn:Em; simpl in Hi.
  all: try (by left).
  all: try (by apply Hl).
  - left. by destruct (negb _).
  - left. by destruct (poll _ _).
  - destruct (Hl eq_refl (set_main (MClear e)) (λ c, set_cb (CLocked c))) as [Hx|Hx];
      [left; by rewrite Hi|by right].
  - simpl in Ho. unfold lock. destruct (cb_at s); simpl in Ho; injection Ho as Ho;
      rewrite <- ?Ho; first [by left|by right].
  - by destruct (Hd e).
Qed.

Lemma count_main_snoc l a : count_main (l ++ [a]) = (count_main l + main_steps a)%nat.
Proof. unfold count_main. rewrite sum_list_with_app. simpl. lia. Qed.

(** After the signal the place of the main thread only comes closer to the end. *)
Lemma shutdown_descends s l s' :
  alive s → g_shutdown_signal s ≠ 0 → exec_all l s = Some s' →
  (rank (main_at s') + count_main l ≤ rank (main_at s))%nat ∧
  (alive s' ∨ broken s' = Some division_by_zero).
Proof.
  intros A Hg Hl.
  pose (closer l x := g_shutdown_signal x ≠ 0 ∧
    (rank (main_at x) + count_main l ≤ rank (main_at s))%nat).
  assert (Hstep : ∀ l a x x', alive x → closer l x → exec a x = Some x' → alive x' →
    closer (l ++ [a]) x').
  { intros l0 a x x' Ax [Hx Hr] Hs _. destruct (exec_rank _ _ _ Ax Hx Hs) as [Hx' Hr'].
    split; [done|]. rewrite count_main_snoc. lia. }
  destruct (exec_all_invariant closer Hstep [] l s s' A) as
    [[A' [_ Hr]]|(l' & a & s1 & -> & _ & _ & [_ Hr] & p & -> & ->)]; [|done|by auto|].
  { split; [done|]. unfold count_main. simpl. lia. }
  rewrite count_main_snoc. simpl in *. split; [lia|by right].
Qed.

(** C15: Once a shutdown was requested, [run] ends: in every interleaving the
    main thread makes at most twelve more steps, and as long as [run] has not
    returned the main thread or the handler it waits for can go on, unless the
    process was ended by a report of the progress of a download of no bytes. *)
Theorem shutdown_terminates a l0 s l s' :
  exec_all l0 (initial a) = Some s → g_shutdown_signal s ≠ 0 →
  exec_all l s = Some s' →
  (count_main l ≤ 12)%nat ∧
  ((∃ e, main_at s' = MDone e) ∨ is_Some (exec AMain s') ∨ is_Some (exec ACallback s') ∨
   broken s' = Some division_by_zero).
Proof.
  intros Hpre Hg Hl. destruct (exec_all_caused a l0 s Hpre) as (s1 & A & _ & [->| ->]).
  2: { destruct l as [|b l]; simpl in Hl; [|unfold exec in Hl; discriminate Hl].
       injection Hl as <-. split; [unfold count_main; simpl; lia|by auto]. }
  destruct (shutdown_descends s1 l s' A Hg Hl) as [Hr HA]. split.
  { assert (rank (main_at s1) ≤ 12)%nat by (destruct (main_at s1); simpl; lia). lia. }
  destruct HA as [A'|]; [|by auto]. unfold exec. rewrite (alive_broken s' A').
  destruct (step_main s') eqn:E1; [by eauto|]. destruct (step_callback s') eqn:E2; [by eauto|].
  left. destruct (main_at s') eqn:Em; try (by eexists);
    (destruct (not_stuck s' A') as [?|?]; [congruence|done|done]).
Qed.

(** ** The registration with the server *)

Definition period : Z := g_reregister_period_s.

Definition spaced (l : list Z) : Prop :=
  ∀ i u v, l !! i = Some u → l !! S i = Some v → u + period ≤ v.

Definition before_loop (pc : main_pc) : bool :=
  before_setup pc || match pc with MSetup | MBroker => true | _ => false end.

Record timely (s : sys) : Prop := {
  timely_spaced : spaced (register_updates s);
  timely_last : ∀ u, last (register_updates s) = Some u → next_registration_s s = u + period;
  timely_next : next_registration_s s ≤ monotonic_time s + period;
  timely_before : before_loop (main_at s) = true → register_updates s = []
}.

Definition same_time (s s' : sys) : Prop :=
  register_updates s' = register_updates s ∧ next_registration_s s' = next_registration_s s ∧
  monotonic_time s' = monotonic_time s.

Lemma with_object_time f s : (∀ o, same_time s (f o s)) → same_time s (with_object f s).
Proof. unfold with_object. by destruct (object s). Qed.

Lemma with_client_time f s : same_time s (f s) → same_time s (with_client f s).
Proof. intros Hf. apply with_object_time. intros o. by case_decide. Qed.

Lemma set_main_time pc s s' : same_time s s' → same_time s (set_main pc s').
Proof. done. Qed.

Lemma spaced_snoc l t :
  spaced l → (∀ u, last l = Some u → u + period ≤ t) → spaced (l ++ [t]).
Proof.
  intros Hl Ht i u v Hu Hv. apply lookup_app_Some in Hv as [Hv|[Hi Hv]].
  - rewrite lookup_app_l in Hu by (apply lookup_lt_Some in Hv; lia). eauto.
  - destruct (S i - length l)%nat eqn:E; [|done]. injection Hv as <-. apply Ht.
    rewrite lookup_app_l in Hu by lia. rewrite last_lookup.
    replace (pred (length l)) with i by lia. done.
Qed.

Lemma timely_same s s' :
  timely s → same_time s s' → (before_loop (main_at s') = true → before_loop (main_at s) = true) →
  timely s'.
Proof.
  intros [T1 T2 T3 T4] (Hu & Hn & Ht) Hb. split; rewrite ?Hu, ?Hn, ?Ht; auto.
Qed.

Lemma callback_body_time c s : same_time s (callback_body c s).
Proof.
  assert (Hst : ∀ st, same_time s (set_state st s)) by (intros st; by apply with_object_time).
  destruct c as [| |e|r|p t]; simpl; destruct (s_instance s); try done.
  - destruct (Hst State_Registered) as (H1 & H2 & H3).
    unfold same_time. rewrite <- H1, <- H2, <- H3. apply with_client_time.
    by destruct endpoint as [[]|].
  - by apply with_client_time.
  - by apply with_client_time.
Qed.

(** The steps of the main thread that do not renew the registration. *)
Lemma step_main_time s s' :
  step_main s = Some s' → main_at s ≠ MBroker → main_at s ≠ MTime → same_time s s'.
Proof.
  unfold step_main. intros Hs Hb Ht. destruct (main_at s) eqn:Em.
  all: try (apply lock_main in Hs; by subst s').
  all: try injection Hs as <-.
  - by destruct (s_instance s).
  - destruct (s_instance s); [|done]. by apply set_main_time, with_client_time.
  - by apply set_main_time, (with_object_time _ s).
  - apply with_client_time. by destruct setup_ok.
  - done.
  - by destruct (negb _); injection Hs as <-.
  - unfold unlock, with_object, same_time. destruct (object s); [by case_decide|done].
  - done.
  - destruct (s_instance s); [apply lock_main in Hs|injection Hs as Hs]; by subst s'.
  - by destruct (s_instance s).
  - by apply set_main_time, with_client_time, with_object_time.
  - by apply set_main_time, with_object_time.
  - by destruct (cb_at s); [injection Hs as <-|..].
  - done.
Qed.

Lemma step_main_loop_time s s' :
  step_main s = Some s' → main_at s = MBroker →
  register_updates s' = register_updates s ∧ monotonic_time s' = monotonic_time s ∧
  (broken s' = None → next_registration_s s' = monotonic_time s + period).
Proof.
  intros Hs Em. unfold step_main in Hs. rewrite Em in Hs. injection Hs as <-.
  unfold with_object, broker_init. destruct (object s) as [o|]; [|done].
  destruct (MblCloudConnectResourceBroker_Init _ _) as [e a|w a]; [|done].
  by case_decide.
Qed.

(** The check of the time, in full. *)
Lemma step_main_check s s' :
  alive s → timely s → step_main s = Some s' → main_at s = MTime →
  timely s' ∧ monotonic_time s' = monotonic_time s ∧
  monotonic_time s < next_registration_s s' ∧
  register_updates s' = register_updates s ++
    (if next_registration_s s <=? monotonic_time s then [monotonic_time s] else []).
Proof.
  intros A [T1 T2 T3 T4] Hs Em. unfold step_main in Hs. rewrite Em in Hs. unfold poll, get_monotonic_time_s in Hs.
  assert (0 < period) by (by vm_compute).
  destruct (Z.leb_spec (next_registration_s s) (monotonic_time s)); injection Hs as <-.
  - destruct (alive_object s A) as (o & Hobj & Hx); rewrite Em in *; [by eexists|].
    injection Hx as Hopen _. rewrite (with_client_open _ (log _ _ s) o) by done.
    change g_reregister_period_s with period.
    split; [|split_and!; [done| |done]; simpl; lia].
    split; simpl; [|intros u|lia|done].
    + apply spaced_snoc; [done|]. intros u Hu%T2. lia.
    + rewrite last_snoc. intros [= <-]. done.
  - split; [by split|]. rewrite (right_id_L [] (++)). by split_and!.
Qed.

Lemma step_main_past s s' :
  step_main s = Some s' → before_loop (main_at s') = true → before_loop (main_at s) = true.
Proof.
  unfold step_main. destruct (main_at s) eqn:Em; try done.
  all: try (intros ->%lock_main; done).
  all: try (intros [= <-]; simpl; try done).
  - by destruct (negb _); intros [= <-].
  - unfold with_object. destruct (object s); [case_decide|]; simpl; by rewrite ?Em.
  - by destruct (poll _ _) as [n u]; intros [= <-].
  - destruct (s_instance s); [by intros ->%lock_main|intros [= <-]; simpl; by rewrite Em].
  - destruct (s_instance s); simpl; by rewrite ?Em.
  - by destruct (cb_at s); [intros [= <-]|..].
Qed.

(** The loop of [run]. *)
Definition in_loop (pc : main_pc) : bool :=
  match pc with MLoop | MCheckLock | MCheckState | MTime => true | _ => false end.

Lemma step_main_in_loop s s' :
  step_main s = Some s' → in_loop (main_at s') = true → main_at s ≠ MBroker → in_loop (main_at s) = true.
Proof.
  unfold step_main. destruct (main_at s) eqn:Em; try done.
  all: try (intros ->%lock_main; done).
  all: try (intros [= <-]; simpl; try done).
  - destruct (s_instance s); simpl; [by rewrite Em|].
    by destruct (MblCloudConnectResourceBroker (papp s)); simpl; rewrite ?Em.
  - destruct (s_instance s); simpl; by rewrite ?Em.
  - unfold with_client, with_object. destruct (object s); [case_decide|]; simpl; rewrite ?Em; [|done..].
    by destruct setup_ok.
  - destruct (s_instance s); [by intros ->%lock_main|intros [= <-]; simpl; by rewrite Em].
  - destruct (s_instance s); simpl; by rewrite ?Em.
  - by destruct (cb_at s); [intros [= <-]|..].
Qed.

(** What the other steps keep. *)
Record quiet_step (s s' : sys) : Prop := {
  qs_updates : register_updates s' = register_updates s;
  qs_next : next_registration_s s' = next_registration_s s;
  qs_time : monotonic_time s ≤ monotonic_time s';
  qs_before : before_loop (main_at s') = true → before_loop (main_at s) = true;
  qs_loop : in_loop (main_at s') = true → in_loop (main_at s) = true
}.

Lemma quiet_same s s' : same_time s s' → main_at s' = main_at s → quiet_step s s'.
Proof. intros (Hu & Hn & Ht) Hm. split; rewrite ?Hm; try done. by rewrite Ht. Qed.

Lemma exec_quiet a s s' :
  alive s → exec a s = Some s' → quiet_step s s' ∨ (a = AMain ∧ (main_at s = MBroker ∨ main_at s = MTime)).
Proof.
  intros A. unfold exec. destruct (broken s) eqn:Eb; [done|]. destruct a as [|c| |sig|d].
  - intros Hs. destruct (decide (main_at s = MBroker)) as [Em|Hb]; [by auto|].
    destruct (decide (main_at s = MTime)) as [Em|Hm]; [by auto|]. left.
    destruct (step_main_time s s' Hs Hb Hm) as (Hu & Hn & Ht). split; [done|done|by rewrite Ht| |].
    + by apply step_main_past.
    + intros Hi. by apply (step_main_in_loop s s').
  - unfold start_callback. destruct (event_loop s), (cb_at s); try done.
    destruct (callback_start_cases c s) as [(a & go & ->)|(p & -> & ->)]; intros [= <-];
      left; apply quiet_same; by try destruct go.
  - unfold step_callback. destruct (cb_at s) as [|c|c|c seen]; [done| | |].
    + unfold lock. destruct (s_mutex s); [done|]. intros [= <-]. left. by apply quiet_same.
    + destruct (callback_body_same c s (alive_open s A)) as (_ & Hm & _).
      intros [= <-]. left. by apply quiet_same; [apply callback_body_time|].
    + intros [= <-]. left. by apply quiet_same; destruct c, seen.
  - destruct (Z.ltb_spec 0 sig); [|done]. intros [= <-]. left. by apply quiet_same.
  - intros [= <-]. left. split; simpl; done || lia.
Qed.

Lemma exec_timely a s s' : alive s → timely s → exec a s = Some s' → alive s' → timely s'.
Proof.
  intros A T Hs A'. destruct (exec_quiet a s s' A Hs) as [[Hu Hn Ht Hb _]|[-> [Em|Em]]].
  - destruct T as [T1 T2 T3 T4]. split; rewrite ?Hu, ?Hn; auto. lia.
  - unfold exec in Hs. rewrite (alive_broken s A) in Hs.
    destruct (step_main_loop_time s s' Hs Em) as (Hu & Ht & Hn).
    specialize (Hn (alive_broken s' A')). pose proof (timely_before s T) as Hu0.
    rewrite Em in Hu0. specialize (Hu0 eq_refl).
    split; rewrite ?Hu, ?Hu0, ?Ht, ?Hn; [by intros []|done|lia|done].
  - unfold exec in Hs. rewrite (alive_broken s A) in Hs. by apply (step_main_check s s' A T Hs).
Qed.

(** [t]: when the set-up had ended and the loop was entered, in the schedule [l]. *)
Definition set_up_at (a : app) (l : list action) (t : Z) : Prop :=
  ∃ l1 l2 s0, l = l1 ++ AMain :: l2 ∧ exec_all l1 (initial a) = Some s0 ∧
    main_at s0 = MBroker ∧ monotonic_time s0 = t.

Definition renewing (a : app) (l : list action) (s : sys) : Prop :=
  exec_all l (initial a) = Some s ∧ timely s ∧
  (in_loop (main_at s) = true →
   ∃ t, set_up_at a l t ∧ (register_updates s = [] → next_registration_s s = t + period)).

Lemma set_up_later a l b t : set_up_at a l t → set_up_at a (l ++ [b]) t.
Proof.
  intros (l1 & l2 & s0 & -> & Hs). exists l1, (l2 ++ [b]), s0. split; [|done].
  by rewrite <- (assoc_L (++)).
Qed.

Lemma check_keeps s s' :
  step_main s = Some s' → main_at s = MTime → register_updates s' = [] → alive s →
  register_updates s = [] ∧ next_registration_s s' = next_registration_s s.
Proof.
  intros Hs Em. unfold step_main in Hs. rewrite Em in Hs. unfold poll in Hs.
  destruct (_ <=? _); injection Hs as <-; [|done]. intros Hno A.
  destruct (alive_object s A) as (o & Hobj & Hx); rewrite Em in *; [by eexists|].
  injection Hx as Hopen _. rewrite (with_client_open _ (log _ _ s) o) in Hno by done.
  simpl in Hno. by destruct (register_updates s).
Qed.

Lemma exec_renewing a l b s s' :
  alive s → renewing a l s → exec b s = Some s' → alive s' → renewing a (l ++ [b]) s'.
Proof.
  intros A (Hl & T & Hset) Hs A'. split; [|split; [by apply (exec_timely b s s')|]].
  { clear - Hl Hs. revert Hl. generalize (initial a). induction l as [|c l IH]; intros s0; simpl.
    - intros [= ->]. by rewrite Hs.
    - intros (s1 & -> & Hl)%bind_Some. by apply IH. }
  destruct (exec_quiet b s s' A Hs) as [[Hu Hn Ht _ Hloop]|[-> [Em|Em]]].
  - intros Hi%Hloop. destruct (Hset Hi) as (t & Ht' & Hnext). exists t. split; [by apply set_up_later|].
    by rewrite Hu, Hn.
  - intros _. exists (monotonic_time s). split; [by exists l, [], s|]. intros _.
    unfold exec in Hs. rewrite (alive_broken s A) in Hs.
    by apply (step_main_loop_time s s' Hs Em), (alive_broken s' A').
  - intros _. destruct Hset as (t & Ht & Hnext); [by rewrite Em|]. exists t.
    split; [by apply set_up_later|]. unfold exec in Hs. rewrite (alive_broken s A) in Hs.
    intros Hno. destruct (check_keeps s s' Hs Em Hno A) as [Hu ->]. auto.
Qed.

(** C26: The client renews its registration on time: each time [run] has
    checked the clock, the last renewal (or the end of the set-up, when there was
    none) is less than half a lifetime ago, and the next one is due half a
    lifetime after it, so the registration lasts unless one pass of the loop
    takes the other half; and it asks the server no more than once in half a
    lifetime. *)
Theorem registration_is_renewed a l s s' :
  exec_all l (initial a) = Some s → main_at s = MTime → exec AMain s = Some s' →
  let now := monotonic_time s in
  (∃ t, set_up_at a l t ∧
     let latest := default t (last (register_updates s')) in
     now < latest + MBED_CLOUD_CLIENT_LIFETIME / 2 ∧
     next_registration_s s' = latest + MBED_CLOUD_CLIENT_LIFETIME / 2) ∧
  now < next_registration_s s' ≤ now + MBED_CLOUD_CLIENT_LIFETIME / 2 ∧
  spaced (register_updates s') ∧
  register_updates s' = register_updates s ++
    (if next_registration_s s <=? now then [now] else []).
Proof.
  intros Hl Em. assert (T0 : renewing a [] (initial a)) by (split; [done|]; by split; [split|]).
  destruct (exec_all_invariant (renewing a) (λ l b x x' A T, exec_renewing a l b x x' A T)
    [] l (initial a) s (initial_alive a) T0 Hl)
    as [[A (_ & T & Hset)]|(l' & x & s1 & _ & _ & _ & _ & p & _ & ->)]; [|done].
  cbv zeta. unfold exec. rewrite (alive_broken s A). intros Hs.
  destruct (step_main_check s s' A T Hs Em) as ([T1 T2 T3 _] & Ht & Hn & Hu).
  rewrite Ht in T3. split; [|by split_and!].
  destruct Hset as (t & Ht' & Hnext); [by rewrite Em|]. exists t. split; [done|].
  destruct (last (register_updates s')) as [u|] eqn:Hlast; cbn [default id].
  - specialize (T2 u eq_refl). by rewrite T2 in Hn |- *.
  - apply last_None in Hlast as Hno. destruct (check_keeps s s' Hs Em Hno A) as [Hno' Heq].
    specialize (Hnext Hno'). change (MBED_CLOUD_CLIENT_LIFETIME / 2) with period. rewrite <- Hnext, <- Heq. done.
Qed.
End alive.

(** ** The properties on a schedule *)

Definition demo_cloud_env : CloudEnv := {|
  setup_ok := true; endpoint := Some ("device" : cstring, "0160" : cstring);
  error_description := "none" |}.

Section witnesses.
#[local] Existing Instance CloudClientProps.demo_app_env.
#[local] Existing Instance demo_cloud_env.

(** The device registers; after the time of a renewal an error is reported
    while the client goes down because of SIGTERM. *)
Definition demo_start : list action :=
  [AMain; AMain; AMain; AMain; AMain; ACall (handle_progress 1 2); ACall handle_client_registered; ACallback; ACallback;
   ACallback; AMain; ATick 300; AMain; AMain; AMain].
Definition demo_renew : list action := demo_start ++ [AMain; ASignal SIGTERM].
Definition demo_stop : list action :=
  [ACall (handle_error MbedCloudClient.ConnectTimeout); AMain; AMain; AMain; ACallback; ACallback; ACallback;
   AMain; AMain; AMain].

Definition demo_state (l : list action) : sys :=
  default (initial start_app) (exec_all l (initial start_app)).

(** The state after the whole schedule, from the state at the signal. *)
Definition demo_end : sys := default (demo_state demo_renew) (exec_all demo_stop (demo_state demo_renew)).

Lemma no_use_after_free_witness : broken (demo_state (demo_renew ++ demo_stop)) = None.
Proof.
  destruct (no_use_after_free start_app (demo_renew ++ demo_stop)
    (demo_state (demo_renew ++ demo_stop))) as [Hb|[_ [p Hp]]].
  - apply returns_default. vm_compute. reflexivity.
  - exact Hb.
  - discriminate Hp.
Defined.

Lemma run_returns_for_a_reason_witness :
  reason (demo_renew ++ demo_stop) Error.ShutdownRequested ∧
  s_instance (demo_state (demo_renew ++ demo_stop)) = false ∧
  object (demo_state (demo_renew ++ demo_stop)) = None ∧
  event_loop (demo_state (demo_renew ++ demo_stop)) = false ∧
  cb_at (demo_state (demo_renew ++ demo_stop)) = CIdle ∧
  s_mutex (demo_state (demo_renew ++ demo_stop)) = None.
Proof.
  apply (run_returns_for_a_reason start_app).
  - apply returns_default. vm_compute. reflexivity.
  - apply (bool_decide_unpack _). vm_compute. exact I.
Defined.

Lemma shutdown_terminates_witness :
  (count_main demo_stop ≤ 12)%nat ∧
  ((∃ e, main_at demo_end = MDone e) ∨ is_Some (exec AMain demo_end) ∨
   is_Some (exec ACallback demo_end) ∨ broken demo_end = Some division_by_zero).
Proof.
  apply (shutdown_terminates start_app demo_renew (demo_state demo_renew)).
  - apply returns_default. vm_compute. reflexivity.
  - apply (bool_decide_unpack _). vm_compute. exact I.
  - apply returns_default. vm_compute. reflexivity.
Defined.

Definition demo_checked : sys := default (initial start_app) (exec AMain (demo_state demo_start)).

Lemma registration_is_renewed_witness :
  (∃ t, set_up_at start_app demo_start t ∧
     monotonic_time (demo_state demo_start) <
       default t (last (register_updates demo_checked)) + MBED_CLOUD_CLIENT_LIFETIME / 2) ∧
  register_updates demo_checked = register_updates (demo_state demo_start) ++
    (if next_registration_s (demo_state demo_start) <=? monotonic_time (demo_state demo_start)
     then [monotonic_time (demo_state demo_start)] else []).
Proof.
  destruct (registration_is_renewed start_app demo_start (demo_state demo_start) demo_checked)
    as ((t & H1 & H2 & _) & _ & _ & H3).
  - apply returns_default. vm_compute. reflexivity.
  - apply (bool_decide_unpack _). vm_compute. exact I.
  - apply returns_default. vm_compute. reflexivity.
  - split; [by exists t|exact H3].
Defined.
End witnesses.
