(* ===== verification/Provisioning.v ===== *)
(** * pelion-provisioning-util

    [cloud-services/mbl-cloud-client/cloud-provisioning]: [provisioning.cpp]
    loads the developer's credentials from files and stores them in the
    key and configuration manager (KCM); [main.cpp] is the command line. *)

From stdpp Require Import base gmap strings list.
From Stdlib Require Import ZArith Ascii Lia.
From S2P Require Import Prelude.
From S2P Require Import CString.

Open Scope Z_scope.
Open Scope list_scope.

(** ** The libraries and the files *)

(** [kcm_item_type_e], as far as the program names it. *)
Inductive kcm_item_type_e := KCM_CERTIFICATE_ITEM | KCM_CONFIG_ITEM | KCM_PRIVATE_KEY_ITEM.

#[export] Instance kcm_item_type_eq_dec : EqDecision kcm_item_type_e.
Proof. solve_decision. Defined.

(** What [std::ifstream] finds at a path: it does not open; the position of its
    end is not available; it cannot be rewound; or it holds [data], of which
    [got] bytes can be read. *)
Inductive cert_file :=
| CannotOpen
| CannotTell
| CannotSeek (data : list ascii)
| Holds (data : list ascii) (got : nat).

(** The functions of the factory configurator client and of KCM, on the state
    [K] of the storage, and the names of the items. *)
Class KcmLib (K : Type) := {
  FCC_STATUS_SUCCESS : Z;
  KCM_STATUS_SUCCESS : Z;
  KCM_STATUS_ITEM_NOT_FOUND : Z;
  fcc_init : K → Z * K;
  fcc_finalize : K → Z * K;
  fcc_verify_device_configured_4mbed_cloud : K → Z * K;
  fcc_get_error_and_warning_data : K → option (option cstring);
  fcc_get_fcc_error_string : Z → cstring;
  fcc_get_kcm_error_string : Z → cstring;
  kcm_item_delete : cstring → kcm_item_type_e → K → Z * K;
  kcm_item_store : cstring → kcm_item_type_e → bool → list ascii → K → Z * K;
  g_fcc_use_bootstrap_parameter_name : cstring;
  g_fcc_endpoint_parameter_name : cstring;
  g_fcc_bootstrap_device_certificate_name : cstring;
  g_fcc_bootstrap_server_ca_certificate_name : cstring;
  g_fcc_bootstrap_device_private_key_name : cstring;
  g_fcc_bootstrap_server_uri_name : cstring;
  g_fcc_manufacturer_parameter_name : cstring;
  g_fcc_model_number_parameter_name : cstring;
  g_fcc_device_serial_number_parameter_name : cstring;
  g_fcc_device_type_parameter_name : cstring;
  g_fcc_hardware_version_parameter_name : cstring;
  g_fcc_memory_size_parameter_name : cstring;
  g_fcc_update_authentication_certificate_name : cstring;
  g_fcc_vendor_id_name : cstring;
  g_fcc_class_id_name : cstring
}.

Class CertDir := {
  MBL_PROVISIONING_CERT_DIR : option cstring;   (** the macro of the build *)
  cert_at : cstring → cert_file
}.

(** ** Data *)

Inductive ProvisionedStatusCode := success | failure.

#[export] Instance ProvisionedStatusCode_eq_dec : EqDecision ProvisionedStatusCode.
Proof. solve_decision. Defined.

Record KCMItem := {
  name : cstring;
  type : kcm_item_type_e;
  data_blob : list ascii
}.

Inductive ExitCode := ExitSuccess | ExitFailure | ExitIncorrectArgs.

#[export] Instance ExitCode_eq_dec : EqDecision ExitCode.
Proof. solve_decision. Defined.

Definition exit_int (e : ExitCode) : Z :=
  match e with ExitSuccess => 0 | ExitFailure => 1 | ExitIncorrectArgs => 2 end.

(** The process: the storage, and what it wrote to [cout] and [cerr]. *)
Record prov (K : Type) := { kcm : K; cout : list cstring; cerr : list cstring }.
Arguments kcm {K} p. Arguments cout {K} p. Arguments cerr {K} p.

Section operations.
Context {K : Type} `{KcmLib K} `{CertDir}.

Definition put_out (t : cstring) : M (prov K) unit :=
  modify (λ s, {| kcm := kcm s; cout := cout s ++ [t]; cerr := cerr s |}).
Definition put_err (t : cstring) : M (prov K) unit :=
  modify (λ s, {| kcm := kcm s; cout := cout s; cerr := cerr s ++ [t] |}).
Definition on_kcm (f : K → Z * K) : M (prov K) Z :=
  λ s, let (r, k) := f (kcm s) in Done r {| kcm := k; cout := cout s; cerr := cerr s |}.

Definition provisioning_cert_path : cstring :=
  default ("/scratch/provisioning-certs" : cstring) MBL_PROVISIONING_CERT_DIR.

Definition print_fcc_error_status (error_msg : cstring) (status : Z) : M (prov K) unit :=
  put_err (error_msg ++ "
Error status is: " ++ fcc_get_fcc_error_string status ++ "
").

Definition print_kcm_error_status (error_msg : cstring) (status : Z) : M (prov K) unit :=
  put_err (error_msg ++ "
Error status is: " ++ fcc_get_kcm_error_string status ++ "
").

(** The path of a file of the directory. *)
Definition cert_path (file_name : cstring) : cstring :=
  let path := provisioning_cert_path in
  (match last path with
   | Some c => if decide (c = "/"%char) then path else path ++ "/"
   | None => path
   end) ++ file_name.

Definition binary_file_to_bytes (file_name : cstring)
  : M (prov K) (list ascii * ProvisionedStatusCode) :=
  let path := cert_path file_name in
  let fail text output :=
    put_err ("File with path " ++ path ++ text);; mret (output, failure) in
  match cert_at path with
  | CannotOpen | CannotTell | CannotSeek _ => fail ("could not be opened
" : cstring) []
  | Holds data got =>
      if decide (data = []) then undefined "operator[] of an empty vector"
      else if decide (got < length data)%nat
      then fail ("could not be read
" : cstring) (take got data ++ replicate (length data - got) NUL)
      else mret (data, success)
  end.

Definition ok (p : list ascii * ProvisionedStatusCode) : bool := bool_decide (p.2 = success).

Definition load_developer_update_certificate
  : M (prov K) (list KCMItem * ProvisionedStatusCode) :=
  default_cert_pair ← binary_file_to_bytes "arm_uc_default_certificate.bin";
  vendor_id_pair ← binary_file_to_bytes "arm_uc_vendor_id.bin";
  class_id_pair ← binary_file_to_bytes "arm_uc_class_id.bin";
  if negb (ok default_cert_pair && ok vendor_id_pair && ok class_id_pair) then
    put_err "There was an error parsing the Update Credentials files
";; mret ([], failure)
  else
    mret ([ {| name := g_fcc_update_authentication_certificate_name;
               type := KCM_CERTIFICATE_ITEM; data_blob := default_cert_pair.1 |};
            {| name := g_fcc_vendor_id_name;
               type := KCM_CONFIG_ITEM; data_blob := vendor_id_pair.1 |};
            {| name := g_fcc_class_id_name;
               type := KCM_CONFIG_ITEM; data_blob := class_id_pair.1 |} ], success).

(** The bytes of the 32-bit integer 1 on a little-endian target. *)
Definition bootstrap_mode_flag : list ascii := ["001"%char; NUL; NUL; NUL].

Definition load_developer_cloud_credentials
  : M (prov K) (list KCMItem * ProvisionedStatusCode) :=
  dev_bootstrap_endpoint_name ←
    binary_file_to_bytes "MBED_CLOUD_DEV_BOOTSTRAP_ENDPOINT_NAME.bin";
  dev_bootstrap_device_certificate ←
    binary_file_to_bytes "MBED_CLOUD_DEV_BOOTSTRAP_DEVICE_CERTIFICATE.bin";
  dev_bootstrap_server_root_ca_certificate ←
    binary_file_to_bytes "MBED_CLOUD_DEV_BOOTSTRAP_SERVER_ROOT_CA_CERTIFICATE.bin";
  dev_bootstrap_device_private_key ←
    binary_file_to_bytes "MBED_CLOUD_DEV_BOOTSTRAP_DEVICE_PRIVATE_KEY.bin";
  dev_bootstrap_server_uri ← binary_file_to_bytes "MBED_CLOUD_DEV_BOOTSTRAP_SERVER_URI.bin";
  dev_manufacturer ← binary_file_to_bytes "MBED_CLOUD_DEV_MANUFACTURER.bin";
  dev_model_number ← binary_file_to_bytes "MBED_CLOUD_DEV_MODEL_NUMBER.bin";
  dev_serial_number ← binary_file_to_bytes "MBED_CLOUD_DEV_SERIAL_NUMBER.bin";
  dev_device_type ← binary_file_to_bytes "MBED_CLOUD_DEV_DEVICE_TYPE.bin";
  dev_hardware_version ← binary_file_to_bytes "MBED_CLOUD_DEV_HARDWARE_VERSION.bin";
  dev_memory_total_kb ← binary_file_to_bytes "MBED_CLOUD_DEV_MEMORY_TOTAL_KB.bin";
  if negb (ok dev_bootstrap_endpoint_name && ok dev_bootstrap_device_certificate &&
           ok dev_bootstrap_server_root_ca_certificate && ok dev_bootstrap_device_private_key &&
           ok dev_bootstrap_server_uri && ok dev_manufacturer && ok dev_model_number &&
           ok dev_serial_number && ok dev_device_type && ok dev_hardware_version &&
           ok dev_memory_total_kb) then
    put_err "There was an error parsing the dev credentials files
";; mret ([], failure)
  else
    mret ([ {| name := g_fcc_use_bootstrap_parameter_name; type := KCM_CONFIG_ITEM;
               data_blob := bootstrap_mode_flag |};
            {| name := g_fcc_endpoint_parameter_name; type := KCM_CONFIG_ITEM;
               data_blob := dev_bootstrap_endpoint_name.1 |};
            {| name := g_fcc_bootstrap_device_certificate_name; type := KCM_CERTIFICATE_ITEM;
               data_blob := dev_bootstrap_device_certificate.1 |};
            {| name := g_fcc_bootstrap_server_ca_certificate_name; type := KCM_CERTIFICATE_ITEM;
               data_blob := dev_bootstrap_server_root_ca_certificate.1 |};
            {| name := g_fcc_bootstrap_device_private_key_name; type := KCM_PRIVATE_KEY_ITEM;
               data_blob := dev_bootstrap_device_private_key.1 |};
            {| name := g_fcc_bootstrap_server_uri_name; type := KCM_CONFIG_ITEM;
               data_blob := dev_bootstrap_server_uri.1 |};
            {| name := g_fcc_manufacturer_parameter_name; type := KCM_CONFIG_ITEM;
               data_blob := dev_manufacturer.1 |};
            {| name := g_fcc_model_number_parameter_name; type := KCM_CONFIG_ITEM;
               data_blob := dev_model_number.1 |};
            {| name := g_fcc_device_serial_number_parameter_name; type := KCM_CONFIG_ITEM;
               data_blob := dev_serial_number.1 |};
            {| name := g_fcc_device_type_parameter_name; type := KCM_CONFIG_ITEM;
               data_blob := dev_device_type.1 |};
            {| name := g_fcc_hardware_version_parameter_name; type := KCM_CONFIG_ITEM;
               data_blob := dev_hardware_version.1 |};
            {| name := g_fcc_memory_size_parameter_name; type := KCM_CONFIG_ITEM;
               data_blob := dev_memory_total_kb.1 |} ], success).

(** ** PelionProvisioner *)

Definition init : M (prov K) ProvisionedStatusCode :=
  fcc_status ← on_kcm fcc_init;
  if negb (fcc_status =? FCC_STATUS_SUCCESS)
  then print_fcc_error_status "FCC init failed!" fcc_status;; mret failure
  else mret success.

(** The destructor. *)
Definition finalize : M (prov K) unit :=
  ret ← on_kcm fcc_finalize;
  if negb (ret =? FCC_STATUS_SUCCESS)
  then print_fcc_error_status "FCC finalise failed!" ret else mret tt.

Fixpoint store (certificate : list KCMItem) : M (prov K) ProvisionedStatusCode :=
  match certificate with
  | [] => mret success
  | item :: certificate' =>
      kcm_delete_status ← on_kcm (kcm_item_delete (name item) (type item));
      if negb (kcm_delete_status =? KCM_STATUS_SUCCESS) &&
         negb (kcm_delete_status =? KCM_STATUS_ITEM_NOT_FOUND)
      then print_kcm_error_status ("Failed to delete KCM Item! Item name: " ++ name item)
             kcm_delete_status;; mret failure
      else
        kcm_store_status ← on_kcm (kcm_item_store (name item) (type item) true (data_blob item));
        if negb (kcm_store_status =? KCM_STATUS_SUCCESS)
        then print_kcm_error_status ("Failed to store KCM Item! Item name: " ++ name item)
               kcm_store_status;; mret failure
        else store certificate'
  end.

Definition get_provisioned_status : M (prov K) ProvisionedStatusCode :=
  ret ← on_kcm fcc_verify_device_configured_4mbed_cloud;
  if negb (ret =? FCC_STATUS_SUCCESS) then
    output_info ← gets (λ s, fcc_get_error_and_warning_data (kcm s));
    match output_info with
    | Some (Some text) => put_err (text ++ "
")
    | _ => mret tt
    end;;
    mret failure
  else mret success.

(** ** main.cpp *)

Definition usage : M (prov K) unit := put_out "Usage:
  pelion-provisioning-util [option]


Options:
  --provision                    Provision device, with developer and update credentials, from a set of binary files located at /scratch/provisioning-certs.
  --get-pelion-status            Get the Pelion status of the device.
  --help                         Show this message and exit.
    ".

(** A block with a [PelionProvisioner] in it. *)
Definition with_provisioner (body : M (prov K) ExitCode) : M (prov K) ExitCode :=
  code ← body; finalize;; mret code.

Definition handle_store_command : M (prov K) ExitCode :=
  with_provisioner (
    init_status ← init;
    if negb (bool_decide (init_status = success)) then mret ExitFailure
    else
      put_out "Provisioning device.
";;
      dev_cert_table ← load_developer_cloud_credentials;
      update_cert_table ← load_developer_update_certificate;
      if negb (bool_decide (dev_cert_table.2 = success) &&
               bool_decide (update_cert_table.2 = success)) then mret ExitFailure
      else
        dev_ret_val ← store dev_cert_table.1;
        uc_ret_val ← store update_cert_table.1;
        if negb (bool_decide (dev_ret_val = success)) then
          put_err "Developer Certificate Provisioning failed.
";; mret ExitFailure
        else if negb (bool_decide (uc_ret_val = success)) then
          put_err "Update Certificate Provisioning failed.
";; mret ExitFailure
        else
          put_out "Provisioning process completed without error.
";; mret ExitSuccess).

Definition handle_status_command : M (prov K) ExitCode :=
  with_provisioner (
    init_status ← init;
    if negb (bool_decide (init_status = success)) then mret ExitFailure
    else
      put_out "Querying device status... 
";;
      ret ← get_provisioned_status;
      if negb (bool_decide (ret = success)) then mret ExitFailure
      else
        put_out "Device is configured correctly. You can connect to Pelion Cloud!
";; mret ExitSuccess).

(** The loop over the arguments; it starts with [argv[0]]. *)
Fixpoint run_arguments (argv : list cstring) : M (prov K) Z :=
  match argv with
  | [] => usage;; mret (exit_int ExitIncorrectArgs)
  | arg :: argv' =>
      if decide (arg = "--provision") then
        code ← handle_store_command; mret (exit_int code)
      else if decide (arg = "--get-pelion-status") then
        code ← handle_status_command; mret (exit_int code)
      else if decide (arg = "--help") then usage;; mret (exit_int ExitSuccess)
      else run_arguments argv'
  end.

Definition main (argv : list cstring) : M (prov K) Z :=
  if (2 <? length argv)%nat then usage;; mret (exit_int ExitIncorrectArgs)
  else run_arguments argv.
End operations.

(** ** What provisioning promises *)

(** Where the data of an item comes from. *)
Inductive source := BootstrapFlag | File (file_name : cstring).

Section specification.
Context {K : Type} `{KcmLib K} `{CertDir}.

Definition content (src : source) : option (list ascii) :=
  match src with
  | BootstrapFlag => Some bootstrap_mode_flag
  | File f =>
      match cert_at (cert_path f) with
      | Holds data got =>
          if decide (data ≠ [] ∧ length data ≤ got)%nat then Some data else None
      | _ => None
      end
  end.

(** The items of a developer device, each with its type and its source. *)
Definition cloud_table : list (cstring * kcm_item_type_e * source) :=
  [(g_fcc_use_bootstrap_parameter_name, KCM_CONFIG_ITEM, BootstrapFlag);
   (g_fcc_endpoint_parameter_name, KCM_CONFIG_ITEM,
    File "MBED_CLOUD_DEV_BOOTSTRAP_ENDPOINT_NAME.bin");
   (g_fcc_bootstrap_device_certificate_name, KCM_CERTIFICATE_ITEM,
    File "MBED_CLOUD_DEV_BOOTSTRAP_DEVICE_CERTIFICATE.bin");
   (g_fcc_bootstrap_server_ca_certificate_name, KCM_CERTIFICATE_ITEM,
    File "MBED_CLOUD_DEV_BOOTSTRAP_SERVER_ROOT_CA_CERTIFICATE.bin");
   (g_fcc_bootstrap_device_private_key_name, KCM_PRIVATE_KEY_ITEM,
    File "MBED_CLOUD_DEV_BOOTSTRAP_DEVICE_PRIVATE_KEY.bin");
   (g_fcc_bootstrap_server_uri_name, KCM_CONFIG_ITEM,
    File "MBED_CLOUD_DEV_BOOTSTRAP_SERVER_URI.bin");
   (g_fcc_manufacturer_parameter_name, KCM_CONFIG_ITEM, File "MBED_CLOUD_DEV_MANUFACTURER.bin");
   (g_fcc_model_number_parameter_name, KCM_CONFIG_ITEM, File "MBED_CLOUD_DEV_MODEL_NUMBER.bin");
   (g_fcc_device_serial_number_parameter_name, KCM_CONFIG_ITEM,
    File "MBED_CLOUD_DEV_SERIAL_NUMBER.bin");
   (g_fcc_device_type_parameter_name, KCM_CONFIG_ITEM, File "MBED_CLOUD_DEV_DEVICE_TYPE.bin");
   (g_fcc_hardware_version_parameter_name, KCM_CONFIG_ITEM,
    File "MBED_CLOUD_DEV_HARDWARE_VERSION.bin");
   (g_fcc_memory_size_parameter_name, KCM_CONFIG_ITEM,
    File "MBED_CLOUD_DEV_MEMORY_TOTAL_KB.bin")].

Definition update_table : list (cstring * kcm_item_type_e * source) :=
  [(g_fcc_update_authentication_certificate_name, KCM_CERTIFICATE_ITEM,
    File "arm_uc_default_certificate.bin");
   (g_fcc_vendor_id_name, KCM_CONFIG_ITEM, File "arm_uc_vendor_id.bin");
   (g_fcc_class_id_name, KCM_CONFIG_ITEM, File "arm_uc_class_id.bin")].

Definition provisioned : list (cstring * kcm_item_type_e * source) := cloud_table ++ update_table.
End specification.

(** What the program relies on: KCM gives back what was stored, an operation
    on one item leaves the others, starting, verifying and closing the library
    keep the items, and the configured names are distinct. *)
Class KcmLaws (K : Type) `{KcmLib K} := {
  kcm_get : K → cstring * kcm_item_type_e → option (list ascii);
  kcm_delete_other n t k x : x ≠ (n, t) → kcm_get (kcm_item_delete n t k).2 x = kcm_get k x;
  kcm_store_same n t b d k :
    (kcm_item_store n t b d k).1 = KCM_STATUS_SUCCESS →
    kcm_get (kcm_item_store n t b d k).2 (n, t) = Some d;
  kcm_store_other n t b d k x :
    x ≠ (n, t) → kcm_get (kcm_item_store n t b d k).2 x = kcm_get k x;
  kcm_init_get k x : kcm_get (fcc_init k).2 x = kcm_get k x;
  kcm_finalize_get k x : kcm_get (fcc_finalize k).2 x = kcm_get k x;
  kcm_verify_get k x :
    kcm_get (fcc_verify_device_configured_4mbed_cloud k).2 x = kcm_get k x;
  fcc_names : NoDup (provisioned.*1.*1)
}.

(** ** The pieces *)

Section properties.
Context {K : Type} `{KcmLaws K} `{CertDir}.
Implicit Types (s : prov K) (E : halt → prov K → Prop).

(** No file of the directory is empty: for an empty one the program has no
    defined meaning. *)
Definition no_empty_file : Prop := ∀ f got, cert_at (cert_path f) ≠ Holds [] got.

(** KCM and the library refuse nothing. *)
Definition kcm_accepts : Prop :=
  (∀ k, (fcc_init k).1 = FCC_STATUS_SUCCESS) ∧
  (∀ n t k, (kcm_item_delete n t k).1 = KCM_STATUS_SUCCESS ∨
            (kcm_item_delete n t k).1 = KCM_STATUS_ITEM_NOT_FOUND) ∧
  (∀ n t b d k, (kcm_item_store n t b d k).1 = KCM_STATUS_SUCCESS).

(** Such a file of a table was opened; nothing was stored yet. *)
Definition empty_vector : halt := Undefined "operator[] of an empty vector".
Definition empty_file (table : list (cstring * kcm_item_type_e * source)) : Prop :=
  ∃ f got, File f ∈ table.*2 ∧ cert_at (cert_path f) = Holds [] got.

Lemma wp_binary_file f Q E s :
  (∀ got, cert_at (cert_path f) = Holds [] got → E empty_vector s) →
  (∀ p s', kcm s' = kcm s →
     (if ok p then content (File f) = Some p.1 else content (File f) = None) → Q p s') →
  wp (binary_file_to_bytes f) Q E s.
Proof.
  intros HE HQ. unfold binary_file_to_bytes. simpl in HQ.
  destruct (cert_at (cert_path f)) as [| | |data got];
    [apply wp_bind, wp_modify, wp_ret, HQ; done..|].
  destruct (decide (data = [])) as [->|Hne]; [by apply wp_stop, (HE got)|].
  destruct (decide (got < length data)%nat) as [Hlt|Hge].
  - apply wp_bind, wp_modify, wp_ret, HQ; [done|]. simpl.
    rewrite decide_False; [done|]. intros [_ ?]. lia.
  - apply wp_ret, HQ; [done|]. simpl. rewrite decide_True; [done|]. split; [done|lia].
Qed.

Definition item_key (i : KCMItem) : cstring * kcm_item_type_e := (name i, type i).

(** What a load returns, against its table. *)
Definition loaded (table : list (cstring * kcm_item_type_e * source))
    (p : list KCMItem * ProvisionedStatusCode) : Prop :=
  match p.2 with
  | success => Forall2 (λ e i, e.1 = item_key i ∧ content e.2 = Some (data_blob i)) table p.1
  | failure => Exists (λ e, content e.2 = None) table
  end.

(** The end of a load: a file that could not be read makes the whole load
    fail; otherwise each item has the content of its file. *)
#[local] Ltac finish_load Hfail :=
  repeat match goal with
  | Hc : if ok ?p then _ else _ |- _ =>
      revert Hc; destruct (ok p); rewrite ?andb_false_r, ?andb_true_r; intros Hc;
      [|apply wp_bind, wp_modify, wp_ret, Hfail;
         [simpl; congruence
         |repeat first [apply Exists_cons_hd; exact Hc | apply Exists_cons_tl]] ]
  end.

#[local] Ltac empty_row HE :=
  intros got Hgot; apply HE; [simpl; congruence|]; eexists _, got; split; [|exact Hgot];
  simpl; repeat first [apply list_elem_of_here | apply list_elem_of_further].

Lemma wp_load_update Q E s :
  (∀ s', kcm s' = kcm s → empty_file update_table → E empty_vector s') →
  (∀ p s', kcm s' = kcm s → loaded update_table p → Q p s') →
  wp load_developer_update_certificate Q E s.
Proof.
  intros HE HQ. unfold load_developer_update_certificate.
  assert (Hfail : ∀ s', kcm s' = kcm s → Exists (λ e, content e.2 = None) update_table →
    Q ([], failure) s') by (intros; by apply HQ).
  do 3 (apply wp_bind, wp_binary_file; [empty_row HE|]; intros ????). finish_load Hfail.
  apply wp_ret, HQ; [congruence|]. unfold loaded. simpl. by repeat constructor.
Qed.

Lemma wp_load_cloud Q E s :
  (∀ s', kcm s' = kcm s → empty_file cloud_table → E empty_vector s') →
  (∀ p s', kcm s' = kcm s → loaded cloud_table p → Q p s') →
  wp load_developer_cloud_credentials Q E s.
Proof.
  intros HE HQ. unfold load_developer_cloud_credentials.
  assert (Hfail : ∀ s', kcm s' = kcm s → Exists (λ e, content e.2 = None) cloud_table →
    Q ([], failure) s') by (intros; by apply HQ).
  do 11 (apply wp_bind, wp_binary_file; [empty_row HE|]; intros ????). finish_load Hfail.
  apply wp_ret, HQ; [congruence|]. unfold loaded. simpl. by repeat constructor.
Qed.

(** [same_items]: the storage holds the same items. *)
Definition same_items s s' : Prop := ∀ x, kcm_get (kcm s') x = kcm_get (kcm s) x.

#[export] Instance same_items_preorder : PreOrder same_items.
Proof. split; [by intros s x|]. intros s1 s2 s3 H12 H23 x. by rewrite H23. Qed.

(** The storage after items were stored one by one. *)
Definition stored (items : list KCMItem) (st : ProvisionedStatusCode) s s' : Prop :=
  (∀ x, x ∉ item_key <$> items → kcm_get (kcm s') x = kcm_get (kcm s) x) ∧
  (st = success → ∀ i, i ∈ items → kcm_get (kcm s') (item_key i) = Some (data_blob i)) ∧
  (kcm_accepts → st = success).

Lemma wp_on_kcm f Q E s :
  Q (f (kcm s)).1 {| kcm := (f (kcm s)).2; cout := cout s; cerr := cerr s |} →
  wp (on_kcm f) Q E s.
Proof. unfold wp, on_kcm. by destruct (f (kcm s)). Qed.

Lemma wp_store items Q E s :
  NoDup (item_key <$> items) → (∀ st s', stored items st s s' → Q st s') →
  wp (store items) Q E s.
Proof.
  revert Q s. induction items as [|i items IH]; intros Q s Hnd HQ; simpl.
  { apply wp_ret, HQ. split_and!; [done| |done]. intros _ i Hi. by apply not_elem_of_nil in Hi. }
  inversion Hnd as [|?? Hi Hnd']; subst.
  apply wp_bind, wp_on_kcm. set (k1 := (kcm_item_delete _ _ _).2).
  assert (Hk1 : ∀ x, x ≠ item_key i → kcm_get k1 x = kcm_get (kcm s) x)
    by (intros; by apply kcm_delete_other).
  destruct (negb _ && _) eqn:Hd.
  { apply wp_bind, wp_modify, wp_ret, HQ. split_and!; [simpl; set_solver|done|].
    intros (_ & Ha & _). exfalso. apply andb_true_iff in Hd as [Hd1 Hd2].
    destruct (Ha (name i) (type i) (kcm s)) as [E1|E1].
    - by rewrite E1, Z.eqb_refl in Hd1.
    - by rewrite E1, Z.eqb_refl in Hd2. }
  apply wp_bind, wp_on_kcm. simpl. set (k2 := (kcm_item_store _ _ _ _ _).2).
  assert (Hk2 : ∀ x, x ≠ item_key i → kcm_get k2 x = kcm_get k1 x)
    by (intros; by apply kcm_store_other).
  destruct (Z.eqb_spec (kcm_item_store (name i) (type i) true (data_blob i) k1).1
              KCM_STATUS_SUCCESS) as [Hok|Hno]; cbn [negb].
  2: { apply wp_bind, wp_modify, wp_ret, HQ. split; [|split; [done|intros (_ & _ & Ha); destruct Hno; apply Ha] ].
       intros x Hx. simpl. rewrite Hk2, Hk1; set_solver. }
  apply IH; [done|]. intros st s' (Ho & Hs & Ha). apply HQ. split; [|split; [|exact Ha] ].
  - intros x [Hx1 Hx2]%not_elem_of_cons. rewrite Ho by done. simpl. by rewrite Hk2, Hk1.
  - intros Hst j [->|Hj]%elem_of_cons; [|auto].
    rewrite Ho by done. apply (kcm_store_same _ _ _ _ _ Hok).
Qed.

Lemma wp_init Q E s :
  (∀ st s', same_items s s' → (kcm_accepts → st = success) → Q st s') → wp init Q E s.
Proof.
  intros HQ. unfold init. apply wp_bind, wp_on_kcm.
  assert (Hk : ∀ o e, same_items s {| kcm := (fcc_init (kcm s)).2; cout := o; cerr := e |})
    by (intros o e x; apply kcm_init_get).
  destruct (negb _) eqn:Hi; [apply wp_bind, wp_modify|]; apply wp_ret, HQ; try apply Hk; [|done].
  intros (Ha & _). by rewrite Ha, Z.eqb_refl in Hi.
Qed.

Lemma wp_provisioner body Q E s :
  wp body (λ code s1, ∀ s', same_items s1 s' → Q code s') E s → wp (with_provisioner body) Q E s.
Proof.
  intros Hb. apply wp_bind. eapply wp_mono; [exact Hb| |done]. intros code s1 HQ.
  apply wp_bind. unfold finalize. apply wp_bind, wp_on_kcm.
  assert (Hk : ∀ o e, same_items s1 {| kcm := (fcc_finalize (kcm s1)).2; cout := o; cerr := e |})
    by (intros o e x; apply kcm_finalize_get).
  destruct (negb _); [apply wp_modify|apply wp_ret]; apply wp_ret, HQ, Hk.
Qed.

(** The items of a load have the keys of its table. *)
Lemma loaded_keys table items :
  loaded table (items, success) → item_key <$> items = table.*1.
Proof.
  unfold loaded. simpl. induction 1 as [|e i table' items' [He _] _ IH]; [done|].
  rewrite !fmap_cons. by rewrite IH, He.
Qed.

Lemma loaded_content table items e :
  loaded table (items, success) → e ∈ table →
  ∃ i, i ∈ items ∧ e.1 = item_key i ∧ content e.2 = Some (data_blob i).
Proof.
  unfold loaded. simpl. induction 1 as [|e' i table' items' [Hk Hc] _ IH]; [set_solver|].
  intros [->|(j&?&?)%IH]%elem_of_cons; [exists i|exists j]; set_solver.
Qed.

Lemma provisioned_keys : NoDup (provisioned.*1).
Proof. eapply NoDup_fmap_1. apply fcc_names. Qed.

(** What is in the storage after the command. *)
Definition provisioned_in s s' (code : ExitCode) : Prop :=
  (∀ x, x ∉ provisioned.*1 → kcm_get (kcm s') x = kcm_get (kcm s) x) ∧
  (code = ExitSuccess → ∀ e, e ∈ provisioned →
     ∃ d, content e.2 = Some d ∧ kcm_get (kcm s') e.1 = Some d) ∧
  (Exists (λ e, content e.2 = None) provisioned → code = ExitFailure ∧ same_items s s') ∧
  (kcm_accepts → Forall (λ e, content e.2 ≠ None) provisioned → code = ExitSuccess).

(** Nothing was stored, because KCM refused or a file could not be read. *)
Lemma nothing_provisioned s s' :
  same_items s s' → ¬ (kcm_accepts ∧ Forall (λ e, content e.2 ≠ None) provisioned) →
  provisioned_in s s' ExitFailure.
Proof. intros Hs Hno. split_and!; [intros; apply Hs|done|done|]. intros. by destruct Hno. Qed.

(** A load that failed names a file that could not be read. *)
Lemma unread_file (table : list (cstring * kcm_item_type_e * source)) items :
  table ⊆ provisioned → loaded table (items, failure) →
  ¬ (kcm_accepts ∧ Forall (λ e, content e.2 ≠ None) provisioned).
Proof.
  intros Hsub [e [He Hn]]%Exists_exists [_ Hall]. rewrite Forall_forall in Hall.
  by apply (Hall e); [apply Hsub|].
Qed.

(** Both loads returned their items, and both were stored one after the other. *)
Lemma both_provisioned cloud update st1 st2 s s1 s2 s' code :
  loaded cloud_table (cloud, success) → loaded update_table (update, success) →
  stored cloud st1 s s1 → stored update st2 s1 s2 → same_items s2 s' →
  (code = ExitSuccess ↔ st1 = success ∧ st2 = success) → provisioned_in s s' code.
Proof.
  intros Hl1 Hl2 (Ho1 & Hs1 & Ha1) (Ho2 & Hs2 & Ha2) Hf Hcode. pose proof provisioned_keys as Hnd.
  unfold provisioned_in, provisioned in *. rewrite fmap_app in *. apply NoDup_app in Hnd as (_ & Hd & _).
  rewrite (loaded_keys _ _ Hl1) in Ho1. rewrite (loaded_keys _ _ Hl2) in Ho2.
  split_and!.
  - intros x [Hx1 Hx2]%not_elem_of_app. by rewrite Hf, Ho2, Ho1.
  - intros [-> ->]%Hcode e [He|He]%elem_of_app.
    + destruct (loaded_content _ _ _ Hl1 He) as (i & Hi & Hk & Hc).
      exists (data_blob i). split; [done|]. rewrite Hf, Ho2, Hk; [by apply Hs1|].
      apply Hd. by apply list_elem_of_fmap_2.
    + destruct (loaded_content _ _ _ Hl2 He) as (i & Hi & Hk & Hc).
      exists (data_blob i). split; [done|]. rewrite Hf, Hk. by apply Hs2.
  - intros [e [He Hn]]%Exists_exists. exfalso.
    apply elem_of_app in He as [He|He];
      [destruct (loaded_content _ _ _ Hl1 He) as (i & _ & _ & Hc)
      |destruct (loaded_content _ _ _ Hl2 He) as (i & _ & _ & Hc)]; congruence.
  - intros Ha _. apply Hcode. auto.
Qed.

(** The program has read an empty file, and has not stored anything. *)
Definition no_meaning s (h : halt) s' : Prop :=
  h = empty_vector ∧ same_items s s' ∧ empty_file provisioned.

Lemma empty_file_app t t' : empty_file t ∨ empty_file t' → empty_file (t ++ t').
Proof.
  intros [(f & got & Hf & Hg)|(f & got & Hf & Hg)]; exists f, got; rewrite fmap_app, elem_of_app; auto.
Qed.

Lemma handle_store_command_wp s :
  wp handle_store_command (λ code s', provisioned_in s s' code) (no_meaning s) s.
Proof.
  apply wp_provisioner, wp_bind, wp_init. intros st s1 Hs1 Hi.
  destruct (bool_decide_reflect (st = success)) as [->|Hst]; simpl.
  2: { intros s' Hs'. apply nothing_provisioned; [by etrans|]. intros [Ha _]. auto. }
  apply wp_bind, wp_modify. simpl. apply wp_bind, wp_load_cloud.
  { intros s' Hk He. split; [done|]. split; [|apply empty_file_app; by left]. intros x. rewrite Hk. apply Hs1. }
  intros [cloud st1] s2 Hk2 Hl1. apply wp_bind, wp_load_update.
  { intros s' Hk He. split; [done|]. split; [|apply empty_file_app; by right].
    intros x. rewrite Hk, Hk2. apply Hs1. }
  intros [update st2] s3 Hk3 Hl2.
  assert (Hs3 : same_items s s3) by (intros x; rewrite Hk3, Hk2; apply Hs1).
  destruct st1; [|simpl; intros s' Hs'; apply nothing_provisioned;
    [by etrans|by eapply (unread_file cloud_table); [unfold provisioned; set_solver|]] ].
  destruct st2; [|simpl; intros s' Hs'; apply nothing_provisioned;
    [by etrans|by eapply (unread_file update_table); [unfold provisioned; set_solver|]] ].
  pose proof provisioned_keys as Hnd. unfold provisioned in Hnd. rewrite fmap_app in Hnd.
  apply NoDup_app in Hnd as (Hnd1 & _ & Hnd2). simpl.
  apply wp_bind, wp_store; [by rewrite (loaded_keys _ _ Hl1)|]. intros r1 s4 H4.
  apply wp_bind, wp_store; [by rewrite (loaded_keys _ _ Hl2)|]. intros r2 s5 H5.
  assert (H4' : stored cloud r1 s s4).
  { destruct H4 as [Ho Hst]. split; [|done]. intros x Hx. rewrite Ho by done. apply Hs3. }
  destruct (bool_decide_reflect (r1 = success)) as [->|Hr1]; cbn [negb].
  2: { apply wp_bind, wp_modify, wp_ret. intros s' Hs'. eapply both_provisioned; naive_solver. }
  destruct (bool_decide_reflect (r2 = success)) as [->|Hr2]; cbn [negb];
    apply wp_bind, wp_modify, wp_ret; intros s' Hs'; eapply both_provisioned; naive_solver.
Qed.

(** [--provision] writes the storage as its table says. It always ends.
    When it exits with success, every item of the developer's and of the
    update credentials is in KCM under its name and type with the bytes of its
    file; when a file is missing or cut short, it fails and stores nothing; when
    every file can be read and KCM refuses nothing, it succeeds; in every case
    the other items of KCM are as they were. *)
Theorem store_command_provisions s :
  no_empty_file →
  ∃ code s', handle_store_command s = Done code s' ∧ provisioned_in s s' code.
Proof.
  intros HE. pose proof (handle_store_command_wp s) as Hwp. unfold wp in Hwp.
  destruct (handle_store_command s) as [code s'|]; [by exists code, s'|].
  destruct Hwp as (_ & _ & f & got & _ & Hf). by destruct (HE f got).
Qed.

(** The verdict of the library on the storage that its start left. *)
Definition verified (k : K) : Prop :=
  (fcc_init k).1 = FCC_STATUS_SUCCESS ∧
  (fcc_verify_device_configured_4mbed_cloud (fcc_init k).2).1 = FCC_STATUS_SUCCESS.

Lemma get_provisioned_status_wp Q E s :
  (∀ st s', same_items s s' →
     (st = success ↔
        (fcc_verify_device_configured_4mbed_cloud (kcm s)).1 = FCC_STATUS_SUCCESS) → Q st s') →
  wp get_provisioned_status Q E s.
Proof.
  intros HQ. unfold get_provisioned_status. apply wp_bind, wp_on_kcm.
  assert (Hk : ∀ o e, same_items s
    {| kcm := (fcc_verify_device_configured_4mbed_cloud (kcm s)).2; cout := o; cerr := e |})
    by (intros o e x; apply kcm_verify_get).
  destruct (Z.eqb_spec (fcc_verify_device_configured_4mbed_cloud (kcm s)).1 FCC_STATUS_SUCCESS)
    as [Hok|Hno]; cbn [negb]; [by apply wp_ret, HQ|].
  apply wp_bind, wp_gets. apply wp_bind.
  destruct (fcc_get_error_and_warning_data _) as [[text|]|];
    [apply wp_modify|apply wp_ret..]; apply wp_ret, HQ; try apply Hk; done.
Qed.

Lemma handle_status_command_wp s :
  wp handle_status_command
    (λ code s', same_items s s' ∧ code ≠ ExitIncorrectArgs ∧ (code = ExitSuccess ↔ verified (kcm s)))
    (λ _ _, False) s.
Proof.
  apply wp_provisioner. unfold init. apply wp_bind, wp_bind, wp_on_kcm. unfold verified.
  set (s1 := {| kcm := (fcc_init (kcm s)).2; cout := cout s; cerr := cerr s |}).
  assert (Hs1 : same_items s s1) by (intros x; apply kcm_init_get).
  destruct (Z.eqb_spec (fcc_init (kcm s)).1 FCC_STATUS_SUCCESS) as [Hi|Hi]; cbn [negb].
  2: { apply wp_bind, wp_modify, wp_ret. simpl. intros s' Hs'. split_and!; [|done|naive_solver].
       etrans; [exact Hs1|]. exact Hs'. }
  apply wp_ret. simpl. apply wp_bind, wp_modify. simpl. apply wp_bind.
  apply get_provisioned_status_wp. intros st s2 Hs2 Hst. simpl in Hst.
  assert (Hs : same_items s s2) by (etrans; [exact Hs1|exact Hs2]).
  destruct (bool_decide_reflect (st = success)) as [->|Hno]; simpl.
  - apply wp_bind, wp_modify, wp_ret. intros s' Hs'. split_and!; [|done|naive_solver].
    etrans; [exact Hs|exact Hs'].
  - intros s' Hs'. split_and!; [by etrans|done|naive_solver].
Qed.

(** The options of the program. *)
Definition options : list cstring := ["--provision" : cstring; "--get-pelion-status" : cstring; "--help" : cstring].

Lemma elem_of_options a :
  a ∈ options ↔ a = ("--provision" : cstring) ∨ a = ("--get-pelion-status" : cstring) ∨
                a = ("--help" : cstring).
Proof. unfold options. rewrite !elem_of_cons, elem_of_nil. tauto. Qed.

(** What the first option of a command line decides. *)
Definition option_effect (a : cstring) s (r : Z) s' : Prop :=
  (a = ("--provision" : cstring) → ∃ code, r = exit_int code ∧ provisioned_in s s' code) ∧
  (a = ("--get-pelion-status" : cstring) →
     same_items s s' ∧ ((r = 0 ∧ verified (kcm s)) ∨ (r = 1 ∧ ¬ verified (kcm s)))) ∧
  (a = ("--help" : cstring) → r = 0 ∧ kcm s' = kcm s).

(** [--provision] decides. *)
Definition provisions argv : Prop :=
  ∃ pre post, argv = pre ++ ("--provision" : cstring) :: post ∧ Forall (.∉ options) pre.

Lemma run_arguments_wp argv s :
  wp (run_arguments argv) (λ r s',
    (Forall (.∉ options) argv → r = 2 ∧ kcm s' = kcm s) ∧
    (∀ pre a post, argv = pre ++ a :: post → Forall (.∉ options) pre → a ∈ options →
       option_effect a s r s')) (λ h s', no_meaning s h s' ∧ provisions argv) s.
Proof.
  induction argv as [|arg argv IH].
  { apply wp_bind, wp_modify, wp_ret. split; [done|]. by intros [] ???. }
  assert (Hfirst : ∀ r s', arg ∈ options → option_effect arg s r s' →
    (Forall (.∉ options) (arg :: argv) → r = 2 ∧ kcm s' = kcm s) ∧
    (∀ pre a post, arg :: argv = pre ++ a :: post → Forall (.∉ options) pre → a ∈ options →
       option_effect a s r s')).
  { intros r s' Ha He. split; [by intros [? _]%Forall_cons|].
    intros [|b pre] a post Heq Hpre Hin; simplify_eq/=; [done|].
    by apply Forall_cons in Hpre as [? _]. }
  cbn [run_arguments]. repeat case_decide; subst.
  - apply wp_bind. eapply wp_mono; [by apply handle_store_command_wp| |by intros h s' Hh; split; [|by exists [], argv] ].
    intros code s' Hp. apply wp_ret, Hfirst; [apply elem_of_options; tauto|].
    split_and!; [intros _; by exists code|done|done].
  - apply wp_bind. eapply wp_mono; [apply handle_status_command_wp| |done].
    intros code s' (Hs & Hc & Hv). apply wp_ret, Hfirst; [apply elem_of_options; tauto|]. split_and!; [done| |done].
    intros _. split; [done|]. destruct code; [left|right|done]; (split; [done|]).
    + by apply Hv.
    + intros ?%Hv. done.
  - apply wp_bind, wp_modify, wp_ret, Hfirst; [apply elem_of_options; tauto|]. by split_and!.
  - assert (Hno : arg ∉ options) by (rewrite elem_of_options; tauto).
    eapply wp_mono; [exact IH| |].
    2: { intros h s' [Hh (pre & post & -> & Hpre)]. split; [done|]. exists (arg :: pre), post. by split; [|constructor]. }
    intros r s' [Hnone Hsome]. split.
    + intros [_ ?]%Forall_cons. auto.
    + intros [|b pre] a post Heq Hpre Hin; simplify_eq/=.
      apply Forall_cons in Hpre as [_ Hpre]. eauto.
Qed.

(** C30: the program, for every command line, storage and directory. It ends,
    unless [--provision] decides and one of the files of its tables is empty: then
    it reaches [provisioning.cpp:84], which has no defined meaning, with nothing
    stored yet. When it ends: with more than one argument, or with none of its
    options, it exits with 2 and does not touch the storage. Otherwise the first
    option decides: [--provision] leaves the storage as its table says, under the
    exit code it says; [--get-pelion-status] keeps every item and exits with 0
    when the library starts and finds the device configured, with 1 when not;
    [--help] exits with 0. *)
Theorem provisioning_program_result argv s :
  match main argv s with
  | Done r s' =>
      ((2 < length argv)%nat ∨ Forall (.∉ options) argv → r = 2 ∧ kcm s' = kcm s) ∧
      (∀ pre a post, argv = pre ++ a :: post → (length argv ≤ 2)%nat →
         Forall (.∉ options) pre → a ∈ options → option_effect a s r s')
  | Halted h s' => (length argv ≤ 2)%nat ∧ provisions argv ∧ no_meaning s h s'
  end.
Proof.
  unfold main. destruct (Nat.ltb_spec 2 (length argv)) as [Hlen|Hlen].
  - cbn. split; [done|]. intros. lia.
  - pose proof (run_arguments_wp argv s) as Hwp. unfold wp in Hwp.
    destruct (run_arguments argv s) as [r s'|h s']; [|by destruct Hwp]. destruct Hwp as [Hnone Hsome].
    split; [|eauto]. intros [?|?]; [lia|auto].
Qed.
End properties.

(** ** The property at a concrete storage *)

#[export] Instance kcm_item_type_countable : Countable kcm_item_type_e.
Proof.
  refine (inj_countable'
    (λ t, match t with KCM_CERTIFICATE_ITEM => 0 | KCM_CONFIG_ITEM => 1
                     | KCM_PRIVATE_KEY_ITEM => 2 end%nat)
    (λ n, match n with 0 => KCM_CERTIFICATE_ITEM | 1 => KCM_CONFIG_ITEM
                     | _ => KCM_PRIVATE_KEY_ITEM end%nat) _).
  by intros [].
Defined.

(** A storage that is a map and never fails. *)
Abbreviation demo_storage := (gmap (cstring * kcm_item_type_e) (list ascii)).

#[local] Instance demo_kcm : KcmLib demo_storage := {|
  FCC_STATUS_SUCCESS := 0; KCM_STATUS_SUCCESS := 0; KCM_STATUS_ITEM_NOT_FOUND := 11;
  fcc_init := λ k, (0, k); fcc_finalize := λ k, (0, k);
  fcc_verify_device_configured_4mbed_cloud := λ k, (0, k);
  fcc_get_error_and_warning_data := λ _, None;
  fcc_get_fcc_error_string := λ _, "fcc"; fcc_get_kcm_error_string := λ _, "kcm";
  kcm_item_delete := λ n t k,
    match k !! (n, t) with Some _ => (0, delete (n, t) k) | None => (11, k) end;
  kcm_item_store := λ n t _ d k, (0, <[(n, t):=d]> k);
  g_fcc_use_bootstrap_parameter_name := "use_bootstrap";
  g_fcc_endpoint_parameter_name := "endpoint";
  g_fcc_bootstrap_device_certificate_name := "device_certificate";
  g_fcc_bootstrap_server_ca_certificate_name := "server_ca";
  g_fcc_bootstrap_device_private_key_name := "private_key";
  g_fcc_bootstrap_server_uri_name := "server_uri";
  g_fcc_manufacturer_parameter_name := "manufacturer";
  g_fcc_model_number_parameter_name := "model_number";
  g_fcc_device_serial_number_parameter_name := "serial_number";
  g_fcc_device_type_parameter_name := "device_type";
  g_fcc_hardware_version_parameter_name := "hardware_version";
  g_fcc_memory_size_parameter_name := "memory_size";
  g_fcc_update_authentication_certificate_name := "update_certificate";
  g_fcc_vendor_id_name := "vendor_id";
  g_fcc_class_id_name := "class_id" |}.

#[local] Instance demo_kcm_laws : KcmLaws demo_storage.
Proof.
  refine {| kcm_get := λ k x, k !! x |}.
  - intros n t k x Hx. simpl. destruct (k !! (n, t)); simpl; [|done].
    by rewrite lookup_delete_ne.
  - intros n t b d k _. simpl. apply lookup_insert_eq.
  - intros n t b d k x Hx. simpl. by rewrite lookup_insert_ne.
  - done.
  - done.
  - done.
  - apply (bool_decide_unpack _). vm_compute. exact I.
Defined.

(** Every file of the directory holds its own path. *)
#[local] Instance demo_dir : CertDir := {|
  MBL_PROVISIONING_CERT_DIR := None; cert_at := λ p, Holds p (length p) |}.

Definition demo_prov : prov demo_storage := {| kcm := ∅; cout := []; cerr := [] |}.

Lemma demo_files : no_empty_file.
Proof. intros f got Hf. injection Hf as Hp _. discriminate. Qed.

Lemma store_command_provisions_witness :
  ∃ code s', handle_store_command demo_prov = Done code s' ∧ provisioned_in demo_prov s' code.
Proof. exact (store_command_provisions demo_prov demo_files). Defined.

Lemma provisioning_program_result_witness :
  ∃ s', main ["pelion-provisioning-util" : cstring; "--provision" : cstring] demo_prov = Done 0 s' ∧
    ∃ code, 0 = exit_int code ∧ provisioned_in demo_prov s' code.
Proof.
  pose proof (provisioning_program_result ["pelion-provisioning-util" : cstring; "--provision" : cstring]
              demo_prov) as Hr.
  destruct (main _ demo_prov) as [r s'|h s'] eqn:Hm; [|exfalso; by apply (f_equal result) in Hm; vm_compute in Hm].
  assert (r = 0) as -> by (apply (f_equal result) in Hm; vm_compute in Hm; by injection Hm).
  exists s'. split; [reflexivity|]. destruct Hr as [_ Ho].
  apply (Ho ["pelion-provisioning-util" : cstring] ("--provision" : cstring) []);
    [reflexivity|simpl; lia| |apply elem_of_options; left; reflexivity|reflexivity].
  constructor; [|constructor]. apply (bool_decide_unpack _). vm_compute. exact I.
Defined.

(** With an empty file. *)
Example empty_file_has_no_meaning :
  let d := {| MBL_PROVISIONING_CERT_DIR := None; cert_at := λ p, Holds [] 0 |} in
  main (H0 := d) ["pelion-provisioning-util" : cstring; "--provision" : cstring] demo_prov =
    Halted empty_vector {| kcm := ∅; cout := ["Provisioning device.
" : cstring]; cerr := [] |}.
Proof. vm_compute. reflexivity. Qed.
