(* ===== verification/Py.v ===== *)
(** * Python functions that raise

    The monad of the Python components: a function works on a state it shares
    with its callers and returns or raises. [try] statements are definitions;
    the classes [Keeps] (a function's frame) and the rules of [pwp] carry the
    proofs. *)

From stdpp Require Import base strings list.
From Stdlib Require Import ZArith Ascii.
From S2P Require Import Prelude.

Open Scope Z_scope.
Open Scope list_scope.

(** ** Numbers as text *)

Definition newline : ascii := "010"%char.

Definition is_digit (c : ascii) : bool :=
  let n := nat_of_ascii c in (48 <=? n)%nat && (n <=? 57)%nat.

Definition digit_value (c : ascii) : Z := Z.of_nat (nat_of_ascii c) - 48.
Definition digit_of (d : Z) : ascii := ascii_of_nat (Z.to_nat (d + 48)).

(** The number a text of digits is. *)
Definition value_from (a : Z) (s : cstring) : Z := fold_left (λ a c, a * 10 + digit_value c) s a.
Definition value (s : cstring) : Z := value_from 0 s.

(** [str] of a number. *)
Fixpoint str_digits (fuel : nat) (n : Z) (acc : cstring) : cstring :=
  match fuel with
  | O => acc
  | S fuel' =>
      let acc' := digit_of (n mod 10) :: acc in
      if n <? 10 then acc' else str_digits fuel' (n / 10) acc'
  end.

Definition str_nat (n : Z) : cstring := str_digits (S (Z.to_nat (Z.log2 n))) n [].
Definition str_int (z : Z) : cstring := if z <? 0 then "-" ++ str_nat (- z) else str_nat z.

Example str_int_example : str_int (-1073) = "-1073" ∧ str_int 0 = "0".
Proof. by vm_compute. Qed.

(** The classes of the exceptions the programs raise, handle or let pass. *)
Inductive exn_class :=
| FormatError | StructError                                   (** the header *)
| HeaderFileError | FmwInstallError                           (** the firmware manager *)
| OSErr | FileNotFound | EOFErr | CalledProcessError
| TypeErr | ValueErr | KeyErr | StopIterationErr
| ContainerStateError | ContainerAlreadyExistError | ContainerCreationError
| ContainerStartError | ContainerKillError | ContainerDeleteError
| AppStopTimeoutError | AppNotInstalled
| AppInfoParserError | AppIdError | AppInstallError | AppUninstallError
| AppPathInexistent | AppListingError
| IllegalPackage | TarError
| SystemExit
| OutOfFuel.

#[export] Instance exn_class_eq_dec : EqDecision exn_class.
Proof. solve_decision. Defined.

(** An exception, with what [str] gives for it. *)
Record exn := { exn_of : exn_class; exn_str : cstring }.

(** [FileNotFoundError] is an [OSError]; [SystemExit] is no [Exception]. *)
Definition isinstance (e : exn) (cs : list exn_class) : bool :=
  bool_decide (exn_of e ∈ cs) ||
  bool_decide (exn_of e = FileNotFound) && bool_decide (OSErr ∈ cs).

(** [except Exception] *)
Definition any_exception : list exn_class :=
  [FormatError; StructError; HeaderFileError; FmwInstallError; OSErr; FileNotFound; EOFErr;
   CalledProcessError; TypeErr; ValueErr; KeyErr; StopIterationErr;
   ContainerStateError; ContainerAlreadyExistError; ContainerCreationError;
   ContainerStartError; ContainerKillError; ContainerDeleteError;
   AppStopTimeoutError; AppNotInstalled; AppInfoParserError; AppIdError; AppInstallError;
   AppUninstallError; AppPathInexistent; AppListingError; IllegalPackage; TarError].

Lemma any_exception_spec e : isinstance e any_exception = true ↔ exn_of e ≠ SystemExit ∧ exn_of e ≠ OutOfFuel.
Proof. unfold isinstance. destruct e as [c t]. destruct c; split; try done; vm_compute; naive_solver. Qed.

Inductive pres (S A : Type) :=
| Ret (a : A) (s : S)
| Raise (e : exn) (s : S).
Arguments Ret {S A} a s.
Arguments Raise {S A} e s.

Definition pstate {S A} (r : pres S A) : S := match r with Ret _ s | Raise _ s => s end.
Definition pvalue {S A} (r : pres S A) : A + exn :=
  match r with Ret a _ => inl a | Raise e _ => inr e end.

Definition P (S A : Type) : Type := S → pres S A.

#[export] Instance P_ret S : MRet (P S) := λ A a s, Ret a s.
#[export] Instance P_bind S : MBind (P S) := λ A B f m s,
  match m s with
  | Ret a s' => f a s'
  | Raise e s' => Raise e s'
  end.

Section statements.
Context {S : Type}.

Definition raise {A} (c : exn_class) (text : cstring) : P S A :=
  λ s, Raise {| exn_of := c; exn_str := text |} s.
Definition reraise {A} (e : exn) : P S A := λ s, Raise e s.
Definition pget {A} (f : S → A) : P S A := λ s, Ret (f s) s.
Definition pput (f : S → S) : P S unit := λ s, Ret tt (f s).

(** [try: m except cs as e: handler(e)] *)
Definition try_except {A} (m : P S A) (cs : list exn_class) (handler : exn → P S A) : P S A :=
  λ s,
  match m s with
  | Raise e s' => if isinstance e cs then handler e s' else Raise e s'
  | r => r
  end.

(** [try: m except cs as e: handler(e) else: k]: the exceptions of [k] are not
    handled. *)
Definition try_else {A B} (m : P S A) (cs : list exn_class) (handler : exn → P S B)
    (k : A → P S B) : P S B :=
  λ s,
  match m s with
  | Ret a s' => k a s'
  | Raise e s' => if isinstance e cs then handler e s' else Raise e s'
  end.

(** [try: m finally: f]: an exception of [f] replaces the one of [m]. *)
Definition try_finally {A} (m : P S A) (f : P S unit) : P S A :=
  λ s,
  match m s with
  | Ret a s' => match f s' with Ret _ s2 => Ret a s2 | Raise e s2 => Raise e s2 end
  | Raise e s' => match f s' with Ret _ s2 => Raise e s2 | Raise e2 s2 => Raise e2 s2 end
  end.

Fixpoint for_each {A} (l : list A) (body : A → P S unit) : P S unit :=
  match l with
  | [] => mret tt
  | x :: l' => body x;; for_each l' body
  end.
End statements.

(** ** Postconditions: one for a return, one for an exception *)

Definition pwp {S A} (m : P S A) (Q : A → S → Prop) (E : exn → S → Prop) (s : S) : Prop :=
  match m s with Ret a s' => Q a s' | Raise e s' => E e s' end.

Section rules.
Context {S : Type}.

Lemma pwp_ret {A} (a : A) (Q : A → S → Prop) E s : Q a s → pwp (mret a) Q E s.
Proof. done. Qed.

Lemma pwp_bind {A B} (m : P S A) (k : A → P S B) Q E s :
  pwp m (λ a, pwp (k a) Q E) E s → pwp (m ≫= k) Q E s.
Proof. unfold pwp, mbind, P_bind. by destruct (m s). Qed.

Lemma pwp_mono {A} (m : P S A) (Q Q' : A → S → Prop) (E E' : exn → S → Prop) s :
  pwp m Q E s → (∀ a s', Q a s' → Q' a s') → (∀ e s', E e s' → E' e s') → pwp m Q' E' s.
Proof. unfold pwp. destruct (m s); auto. Qed.

Lemma pwp_get {A} (f : S → A) Q E s : Q (f s) s → pwp (pget f) Q E s.
Proof. done. Qed.

Lemma pwp_put (f : S → S) Q E s : Q tt (f s) → pwp (pput f) Q E s.
Proof. done. Qed.

Lemma pwp_raise {A} c text (Q : A → S → Prop) E s :
  E {| exn_of := c; exn_str := text |} s → pwp (raise c text) Q E s.
Proof. done. Qed.

Lemma pwp_try_else {A B} (m : P S A) cs (handler : exn → P S B) k Q E s :
  pwp m (λ a s', pwp (k a) Q E s')
    (λ e s', if isinstance e cs then pwp (handler e) Q E s' else E e s') s →
  pwp (try_else m cs handler k) Q E s.
Proof.
  unfold pwp, try_else. destruct (m s) as [a s'|e s']; [done|]. by destruct (isinstance e cs).
Qed.

Lemma pwp_try_except {A} (m : P S A) cs handler Q E s :
  pwp m Q (λ e s', if isinstance e cs then pwp (handler e) Q E s' else E e s') s →
  pwp (try_except m cs handler) Q E s.
Proof.
  unfold pwp, try_except. destruct (m s) as [a s'|e s']; [done|]. by destruct (isinstance e cs).
Qed.

Lemma pwp_try_finally {A} (m : P S A) f (Q : A → S → Prop) E s :
  pwp m (λ a s', pwp f (λ _, Q a) E s') (λ e s', pwp f (λ _, E e) E s') s →
  pwp (try_finally m f) Q E s.
Proof.
  unfold pwp, try_finally. destruct (m s) as [a s'|e s']; by destruct (f s').
Qed.

(** A loop keeps an invariant that its body keeps. *)
Lemma pwp_for_each {A} (l : list A) (body : A → P S unit) (I : list A → S → Prop) E s :
  (∀ x l' s', I (x :: l') s' → pwp (body x) (λ _, I l') E s') → I l s →
  pwp (for_each l body) (λ _, I []) E s.
Proof.
  intros Hb. revert s. induction l as [|x l IH]; intros s HI; simpl; [done|].
  apply pwp_bind. eapply pwp_mono; [by apply Hb| |done]. auto.
Qed.

Lemma pbind_ret {A B} (m : P S A) (k : A → P S B) a s s' :
  m s = Ret a s' → (m ≫= k) s = k a s'.
Proof. unfold mbind, P_bind. by intros ->. Qed.
Lemma pbind_raise {A B} (m : P S A) (k : A → P S B) e s s' :
  m s = Raise e s' → (m ≫= k) s = Raise e s'.
Proof. unfold mbind, P_bind. by intros ->. Qed.

(** The result of a run, from its postcondition. *)
Lemma pwp_result {A} (m : P S A) Q E s :
  pwp m Q E s → (∃ a s', m s = Ret a s' ∧ Q a s') ∨ (∃ e s', m s = Raise e s' ∧ E e s').
Proof. unfold pwp. destruct (m s); eauto. Qed.
End rules.

(** [pwp_go] runs the structural rules as far as the program text allows. *)
Ltac pwp_go :=
  repeat first
    [ progress intros
    | apply pwp_bind
    | apply pwp_ret
    | apply pwp_get
    | apply pwp_put
    | apply pwp_raise
    | progress cbv beta ].

(** ** Which classes of exceptions a function raises *)

Class Raises {S A} (cs : list exn_class) (m : P S A) : Prop :=
  raises : ∀ s e s', m s = Raise e s' → exn_of e ∈ cs.

Section raises.
Context {S : Type}.
Implicit Types cs : list exn_class.

#[export] Instance raises_ret {A} cs (a : A) : Raises cs (mret a : P S A).
Proof. done. Qed.
#[export] Instance raises_get {A} cs (f : S → A) : Raises cs (pget f).
Proof. done. Qed.
#[export] Instance raises_put cs (f : S → S) : Raises cs (pput f).
Proof. done. Qed.
#[export] Instance raises_bind {A B} cs (m : P S A) (k : A → P S B) :
  Raises cs m → (∀ a, Raises cs (k a)) → Raises cs (m ≫= k).
Proof.
  intros Hm Hk s e s'. unfold mbind, P_bind. destruct (m s) as [a s1|e1 s1] eqn:E1.
  - apply (Hk a).
  - intros [= -> ->]. by eapply Hm.
Qed.
#[export] Instance raises_if {A} cs (b : bool) (m1 m2 : P S A) :
  Raises cs m1 → Raises cs m2 → Raises cs (if b then m1 else m2).
Proof. by destruct b. Qed.

Lemma raises_raise {A} cs c text : c ∈ cs → Raises cs (raise c text : P S A).
Proof. by intros Hc s e s' [= <- <-]. Qed.

Lemma raises_mono {A} cs cs' (m : P S A) : cs ⊆ cs' → Raises cs m → Raises cs' m.
Proof. intros Hs Hm s e s' He. apply Hs. by eapply Hm. Qed.
End raises.

(** ** What a function keeps, whether it returns or raises *)

Class Keeps {S A} (I : S → Prop) (m : P S A) : Prop :=
  keeps : ∀ s, I s → I (pstate (m s)).

Section keeps.
Context {S : Type} (I : S → Prop).

#[export] Instance keeps_ret {A} (a : A) : Keeps I (mret a : P S A).
Proof. by intros s Hs. Qed.
#[export] Instance keeps_raise {A} c text : Keeps I (raise c text : P S A).
Proof. by intros s Hs. Qed.
#[export] Instance keeps_reraise {A} e : Keeps I (reraise e : P S A).
Proof. by intros s Hs. Qed.
#[export] Instance keeps_get {A} (f : S → A) : Keeps I (pget f).
Proof. by intros s Hs. Qed.
#[export] Instance keeps_bind {A B} (m : P S A) (k : A → P S B) :
  Keeps I m → (∀ a, Keeps I (k a)) → Keeps I (m ≫= k).
Proof.
  intros Hm Hk s Hs. specialize (Hm s Hs). unfold mbind, P_bind.
  destruct (m s); [by apply (Hk a)|done].
Qed.
Lemma keeps_bind_result {A B} (m : P S A) (k : A → P S B) :
  Keeps I m → (∀ a s s', m s = Ret a s' → Keeps I (k a)) → Keeps I (m ≫= k).
Proof.
  intros Hm Hk s Hs. specialize (Hm s Hs). unfold mbind, P_bind.
  destruct (m s) as [a s'|] eqn:Hr; [by apply (Hk a s s')|done].
Qed.
#[export] Instance keeps_if {A} (b : bool) (m1 m2 : P S A) :
  Keeps I m1 → Keeps I m2 → Keeps I (if b then m1 else m2).
Proof. by destruct b. Qed.
#[export] Instance keeps_try_else {A B} (m : P S A) cs (handler : exn → P S B) k :
  Keeps I m → (∀ e, Keeps I (handler e)) → (∀ a, Keeps I (k a)) →
  Keeps I (try_else m cs handler k).
Proof.
  intros Hm Hh Hk s Hs. specialize (Hm s Hs). unfold try_else.
  destruct (m s); [by apply Hk|]. destruct (isinstance e cs); [by apply Hh|done].
Qed.
#[export] Instance keeps_try_except {A} (m : P S A) cs handler :
  Keeps I m → (∀ e, Keeps I (handler e)) → Keeps I (try_except m cs handler).
Proof.
  intros Hm Hh s Hs. specialize (Hm s Hs). unfold try_except.
  destruct (m s); [done|]. destruct (isinstance e cs); [by apply Hh|done].
Qed.
Lemma keeps_for_each {A} (l : list A) (body : A → P S unit) :
  (∀ x, x ∈ l → Keeps I (body x)) → Keeps I (for_each l body).
Proof.
  induction l as [|x l IH]; intros Hb; simpl; [apply _|].
  apply keeps_bind; [apply Hb|intros _; apply IH; intros y Hy; apply Hb]; by constructor.
Qed.

(** A kept property joins both postconditions. *)
Lemma pwp_keeps {A} (m : P S A) Q E s :
  Keeps I m → I s → pwp m (λ a s', I s' → Q a s') (λ e s', I s' → E e s') s → pwp m Q E s.
Proof. intros Hm Hs. specialize (Hm s Hs). unfold pwp. destruct (m s); auto. Qed.
End keeps.

(** What is kept is all that is known of the results. *)
Lemma pwp_kept {S A} (I : S → Prop) (m : P S A) (Q : A → S → Prop) E s :
  Keeps I m → I s → (∀ a s', m s = Ret a s' → I s' → Q a s') → (∀ e s', I s' → E e s') → pwp m Q E s.
Proof.
  intros Hm Hs HQ HE. specialize (Hm s Hs). unfold pwp. destruct (m s) eqn:Hr; auto.
Qed.

(** [keeps_go] splits on what the program branches on and searches. *)
Ltac keeps_go :=
  repeat first
    [ apply _
    | apply keeps_bind; [|intros]
    | apply keeps_try_else; [|intros|intros]
    | apply keeps_try_except; [|intros]
    | case_match ].
