(* ===== verification/PyLib.v ===== *)
(** * struct, zlib and hashlib

    What the Python components use of Python's library on bytes: big-endian
    integers of [struct], [zlib.crc32] and [hashlib.sha256]. The properties of
    the checksum are those a receiver relies on: an error in a few adjacent
    bytes changes it. *)

From stdpp Require Import base strings list.
From Stdlib Require Import ZArith Ascii Lia.
From Stdlib Require Import Strings.Byte.
From S2P Require Import Prelude.

Open Scope Z_scope.
Open Scope list_scope.

(** ** Bytes *)

Abbreviation bytes := (list byte).

#[export] Instance byte_eq_dec : EqDecision byte := byte_eq_dec.

Definition byte_Z (b : byte) : Z := Z.of_N (Byte.to_N b).
Definition Z_byte (z : Z) : byte := default x00 (Byte.of_N (Z.to_N (z mod 256))).

Lemma byte_Z_range b : 0 <= byte_Z b < 256.
Proof. unfold byte_Z. pose proof (Byte.to_N_bounded b). lia. Qed.

Lemma byte_Z_byte z : byte_Z (Z_byte z) = z mod 256.
Proof.
  unfold byte_Z, Z_byte. pose proof (Z.mod_pos_bound z 256 ltac:(lia)).
  destruct (Byte.of_N (Z.to_N (z mod 256))) eqn:E; simpl.
  - apply Byte.to_of_N in E. rewrite E. lia.
  - apply Byte.of_N_None_iff in E. lia.
Qed.

Lemma Z_byte_Z b : Z_byte (byte_Z b) = b.
Proof.
  unfold Z_byte. rewrite Z.mod_small by apply byte_Z_range. unfold byte_Z.
  by rewrite N2Z.id, Byte.of_to_N.
Qed.

#[export] Instance byte_Z_inj : Inj (=) (=) byte_Z.
Proof. intros b b' Hb. by rewrite <- (Z_byte_Z b), Hb, Z_byte_Z. Qed.

(** ** struct: an unsigned integer of [n] bytes, the most significant first *)

Fixpoint be_pack (n : nat) (z : Z) : bytes :=
  match n with
  | O => []
  | S n' => be_pack n' (z / 256) ++ [Z_byte z]
  end.

Definition be_unpack (l : bytes) : Z := fold_left (λ acc b, acc * 256 + byte_Z b) l 0.

Lemma length_be_pack n z : length (be_pack n z) = n.
Proof. revert z. induction n as [|n IH]; intros z; simpl; [done|]. rewrite length_app, IH. simpl. lia. Qed.

Lemma be_unpack_snoc l b : be_unpack (l ++ [b]) = be_unpack l * 256 + byte_Z b.
Proof. unfold be_unpack. by rewrite fold_left_app. Qed.

Lemma pow256_S n : 256 ^ Z.of_nat (S n) = 256 * 256 ^ Z.of_nat n.
Proof. rewrite Nat2Z.inj_succ, Z.pow_succ_r; lia. Qed.

Lemma be_unpack_pack n z : be_unpack (be_pack n z) = z mod 256 ^ Z.of_nat n.
Proof.
  revert z. induction n as [|n IH]; intros z; [by rewrite Z.mod_1_r|].
  cbn [be_pack]. rewrite be_unpack_snoc, IH, byte_Z_byte, pow256_S.
  rewrite Z.rem_mul_r by (apply Z.pow_nonzero || lia; lia). lia.
Qed.

Lemma be_pack_unpack l : be_pack (length l) (be_unpack l) = l.
Proof.
  induction l as [|b l IH] using rev_ind; [done|].
  rewrite length_app, Nat.add_comm. simpl. rewrite be_unpack_snoc.
  pose proof (byte_Z_range b). f_equal.
  - by rewrite Z.div_add_l, (Z.div_small (byte_Z b)), Z.add_0_r by lia.
  - f_equal. unfold Z_byte. rewrite Z.add_comm, Z_mod_plus_full. apply Z_byte_Z.
Qed.

Lemma be_unpack_range l : 0 <= be_unpack l < 256 ^ Z.of_nat (length l).
Proof.
  induction l as [|b l IH] using rev_ind; [done|].
  rewrite be_unpack_snoc, length_app, Nat.add_comm. simpl (1 + _)%nat. rewrite pow256_S.
  pose proof (byte_Z_range b). lia.
Qed.

Lemma be_unpack_inj l l' : length l = length l' → be_unpack l = be_unpack l' → l = l'.
Proof. intros Hl Hu. by rewrite <- (be_pack_unpack l), Hl, Hu, be_pack_unpack. Qed.

(** ** zlib.crc32 *)

Definition crc_poly : Z := 0xEDB88320.

(** One bit of the register, the lowest first. *)
Definition crc_bit (c : Z) : Z :=
  if Z.odd c then Z.lxor (Z.shiftr c 1) crc_poly else Z.shiftr c 1.

Definition crc_shift8 (c : Z) : Z := Nat.iter 8 crc_bit c.
Definition crc_byte (c : Z) (b : byte) : Z := crc_shift8 (Z.lxor c (byte_Z b)).
Definition crc_register (c : Z) (l : bytes) : Z := fold_left crc_byte l c.

Definition crc32 (l : bytes) : Z :=
  Z.lxor (crc_register (2 ^ 32 - 1) l) (2 ^ 32 - 1).

Example crc32_check : crc32 [x31; x32; x33; x34; x35; x36; x37; x38; x39] = 0xCBF43926.
Proof. vm_compute. reflexivity. Qed.

(** The register has 32 bits. *)
Definition u32 (z : Z) : Prop := 0 <= z < 2 ^ 32.

Lemma u32_bits z : u32 z ↔ 0 <= z ∧ ∀ i, 32 <= i → Z.testbit z i = false.
Proof.
  unfold u32. split.
  - intros [H0 H1]. split; [done|]. intros i Hi.
    rewrite <- (Z.mod_small z (2 ^ 32)) by done. apply Z.mod_pow2_bits_high. lia.
  - intros [H0 Hb]. split; [done|]. destruct (Z.eq_dec z 0) as [->|Hz]; [done|].
    apply Z.log2_lt_pow2; [lia|]. destruct (Z_lt_le_dec (Z.log2 z) 32) as [|Hl]; [done|].
    specialize (Hb _ Hl). rewrite Z.bit_log2 in Hb; [done|lia].
Qed.

Lemma u32_lxor a b : u32 a → u32 b → u32 (Z.lxor a b).
Proof.
  rewrite !u32_bits. intros [Ha Hab] [Hb Hbb]. split; [by apply Z.lxor_nonneg|].
  intros i Hi. by rewrite Z.lxor_spec, Hab, Hbb.
Qed.

Lemma u32_shiftr a n : u32 a → 0 <= n → u32 (Z.shiftr a n).
Proof.
  rewrite !u32_bits. intros [Ha Hb] Hn. split; [by apply Z.shiftr_nonneg|].
  intros i Hi. rewrite Z.shiftr_spec by lia. apply Hb. lia.
Qed.

Lemma u32_poly : u32 crc_poly.
Proof. by vm_compute. Qed.

Lemma u32_byte b : u32 (byte_Z b).
Proof. pose proof (byte_Z_range b). unfold u32. lia. Qed.

Lemma u32_crc_bit c : u32 c → u32 (crc_bit c).
Proof.
  intros Hc. unfold crc_bit. pose proof (u32_shiftr c 1 Hc ltac:(lia)).
  destruct (Z.odd c); [by apply u32_lxor, u32_poly|done].
Qed.

Lemma u32_iter n c : u32 c → u32 (Nat.iter n crc_bit c).
Proof. intros Hc. induction n as [|n IH]; simpl; [done|by apply u32_crc_bit]. Qed.

Lemma u32_crc_byte c b : u32 c → u32 (crc_byte c b).
Proof. intros Hc. apply (u32_iter 8), u32_lxor, u32_byte. done. Qed.

Lemma u32_register l c : u32 c → u32 (crc_register c l).
Proof. revert c. induction l as [|b l IH]; intros c Hc; simpl; [done|]. by apply IH, u32_crc_byte. Qed.

Lemma crc32_u32 l : u32 (crc32 l).
Proof. apply u32_lxor; [apply u32_register|]; by vm_compute. Qed.

(** *** Errors the checksum detects *)

Lemma odd_shiftr c : c = 2 * Z.shiftr c 1 + Z.b2z (Z.odd c).
Proof. rewrite Z.shiftr_div_pow2 by lia. change (2 ^ 1) with 2. pose proof (Zmod_odd c). pose proof (Z.div_mod c 2). destruct (Z.odd c); simpl in *; lia. Qed.

Lemma crc_bit_inj c c' : u32 c → u32 c' → crc_bit c = crc_bit c' → c = c'.
Proof.
  assert (Htop : ∀ c, u32 c → Z.testbit (crc_bit c) 31 = Z.odd c).
  { intros d Hd. unfold crc_bit.
    assert (Z.testbit (Z.shiftr d 1) 31 = false) as Hs.
    { rewrite Z.shiftr_spec by lia. apply (u32_bits d); [done|lia]. }
    destruct (Z.odd d); [|done]. by rewrite Z.lxor_spec, Hs. }
  intros Hc Hc' He. assert (Z.odd c = Z.odd c') as Ho by (by rewrite <- !Htop, He).
  rewrite (odd_shiftr c), (odd_shiftr c'), Ho. f_equal. f_equal.
  unfold crc_bit in He. rewrite Ho in He. destruct (Z.odd c'); [|done].
  apply (f_equal (λ z, Z.lxor z crc_poly)) in He.
  by rewrite !Z.lxor_assoc, !Z.lxor_nilpotent, !Z.lxor_0_r in He.
Qed.

Lemma crc_iter_inj n c c' :
  u32 c → u32 c' → Nat.iter n crc_bit c = Nat.iter n crc_bit c' → c = c'.
Proof.
  intros Hc Hc'. induction n as [|n IH]; simpl; [done|].
  intros He. apply IH, crc_bit_inj; [by apply u32_iter..|done].
Qed.

Lemma lxor_cancel_l r a b : Z.lxor r a = Z.lxor r b → a = b.
Proof.
  intros He. apply (f_equal (Z.lxor r)) in He.
  by rewrite <- !Z.lxor_assoc, !Z.lxor_nilpotent, !Z.lxor_0_l in He.
Qed.

Lemma register_inj l c c' : u32 c → u32 c' → crc_register c l = crc_register c' l → c = c'.
Proof.
  revert c c'. induction l as [|b l IH]; intros c c' Hc Hc'; simpl; [done|].
  intros He%IH; [|by apply u32_crc_byte..]. unfold crc_byte, crc_shift8 in He.
  apply crc_iter_inj in He; [|apply u32_lxor; [done|apply u32_byte]..].
  rewrite !(Z.lxor_comm _ (byte_Z b)) in He. by apply lxor_cancel_l in He.
Qed.

(** What enters above the bits that are shifted out is only added. *)
Lemma crc_bit_above c y : 0 <= y → crc_bit (Z.lxor c (Z.shiftl y 1)) = Z.lxor (crc_bit c) y.
Proof.
  intros Hy. unfold crc_bit.
  assert (Z.odd (Z.lxor c (Z.shiftl y 1)) = Z.odd c) as ->.
  { rewrite <- !Z.bit0_odd, Z.lxor_spec, Z.shiftl_spec by lia.
    by rewrite (Z.testbit_neg_r y) by lia; rewrite xorb_false_r. }
  rewrite Z.shiftr_lxor, Z.shiftr_shiftl_l by lia. rewrite Z.shiftl_0_r.
  destruct (Z.odd c); [|done]. by rewrite !Z.lxor_assoc, (Z.lxor_comm y).
Qed.

Lemma crc_iter_above n c y :
  0 <= y → Nat.iter n crc_bit (Z.lxor c (Z.shiftl y (Z.of_nat n))) = Z.lxor (Nat.iter n crc_bit c) y.
Proof.
  intros Hy. revert c. induction n as [|n IH]; intros c; [by rewrite Z.shiftl_0_r|].
  rewrite !Nat.iter_succ_r, Nat2Z.inj_succ, <- Z.add_1_r, <- Z.shiftl_shiftl by lia.
  rewrite crc_bit_above by (by apply Z.shiftl_nonneg). apply IH.
Qed.

(** The register after some bytes is that of one long word. *)
Fixpoint le_word (l : bytes) : Z :=
  match l with
  | [] => 0
  | b :: l' => Z.lxor (byte_Z b) (Z.shiftl (le_word l') 8)
  end.

Lemma le_word_cons b l : le_word (b :: l) = byte_Z b + 256 * le_word l.
Proof.
  simpl. rewrite <- Z.add_nocarry_lxor; [rewrite Z.shiftl_mul_pow2 by lia; lia|].
  apply Z.bits_inj'. intros i Hi. rewrite Z.land_spec, Z.bits_0.
  destruct (Z_lt_le_dec i 8).
  - rewrite Z.shiftl_spec_low by done. apply andb_false_r.
  - rewrite <- (Z.mod_small (byte_Z b) (2 ^ 8)) by apply byte_Z_range.
    by rewrite Z.mod_pow2_bits_high by lia.
Qed.

Lemma le_word_range l : 0 <= le_word l < 256 ^ Z.of_nat (length l).
Proof.
  induction l as [|b l IH]; [done|]. rewrite le_word_cons. simpl length. rewrite pow256_S.
  pose proof (byte_Z_range b). lia.
Qed.

Lemma le_word_inj l l' : length l = length l' → le_word l = le_word l' → l = l'.
Proof.
  revert l'. induction l as [|b l IH]; intros [|b' l'] Hl; try done.
  rewrite !le_word_cons. intros He. pose proof (byte_Z_range b). pose proof (byte_Z_range b').
  assert (byte_Z b = byte_Z b') as ->%(inj byte_Z) by lia. f_equal.
  apply IH; [by injection Hl|]. lia.
Qed.

Lemma register_word l c :
  crc_register c l = Nat.iter (8 * length l) crc_bit (Z.lxor c (le_word l)).
Proof.
  revert c. induction l as [|b l IH]; intros c; [simpl; by rewrite Z.lxor_0_r|].
  change (crc_register c (b :: l)) with (crc_register (crc_byte c b) l). rewrite IH. unfold crc_byte, crc_shift8.
  rewrite <- (crc_iter_above 8) by apply le_word_range.
  change (8 * length (b :: l))%nat with (8 * S (length l))%nat.
  replace (8 * S (length l))%nat with (8 * length l + 8)%nat by lia.
  rewrite Nat.iter_add. cbn [le_word]. by rewrite Z.lxor_assoc.
Qed.

(** An error within four adjacent bytes changes the checksum. *)
Lemma crc32_burst p w w' q :
  length w = length w' → (length w ≤ 4)%nat → w ≠ w' → crc32 (p ++ w ++ q) ≠ crc32 (p ++ w' ++ q).
Proof.
  intros Hl H4 Hw He. apply Hw, le_word_inj; [done|].
  unfold crc32 in He. rewrite !(Z.lxor_comm _ (2 ^ 32 - 1)) in He. apply lxor_cancel_l in He.
  unfold crc_register in He. rewrite !fold_left_app in He. fold (crc_register (2 ^ 32 - 1) p) in He.
  set (r := crc_register (2 ^ 32 - 1) p) in *. assert (Hr : u32 r) by (apply u32_register; by vm_compute).
  assert (H256 : 256 ^ Z.of_nat (length w) ≤ 2 ^ 32)
    by (change (2 ^ 32) with (256 ^ 4); apply Z.pow_le_mono_r; lia).
  pose proof (le_word_range w) as Rw. pose proof (le_word_range w') as Rw'. rewrite <- Hl in Rw'.
  apply register_inj in He; [|by apply (u32_register)..].
  change (crc_register r w = crc_register r w') in He. rewrite !register_word, <- Hl in He.
  apply crc_iter_inj in He; [|apply u32_lxor; [done|unfold u32; lia]..].
  by apply lxor_cancel_l in He.
Qed.

(** ** hashlib.sha256 *)

Definition add32 (a b : Z) : Z := (a + b) mod 2 ^ 32.
Definition rotr (n x : Z) : Z := Z.lor (Z.shiftr x n) (Z.shiftl x (32 - n) mod 2 ^ 32).
Definition not32 (x : Z) : Z := Z.lxor x (2 ^ 32 - 1).

(** The constants are the first 32 bits of the fractional parts of roots of the
    first primes. *)
Definition is_prime (n : nat) : bool := forallb (λ d, negb (n mod d =? 0)%nat) (seq 2 (n - 2)).
Definition primes : list Z := Z.of_nat <$> List.filter is_prime (seq 2 310).

(** The integer part of a cube root below [2 ^ bits]. *)
Fixpoint cube_root (bits : nat) (root n : Z) : Z :=
  match bits with
  | O => root
  | S bits' =>
      let r := root + 2 ^ Z.of_nat bits' in
      cube_root bits' (if r * r * r <=? n then r else root) n
  end.

Definition sha256_k : list Z :=
  Eval vm_compute in (λ p, cube_root 35 0 (p * 2 ^ 96) mod 2 ^ 32) <$> primes.

Record sha_state := { s_a : Z; s_b : Z; s_c : Z; s_d : Z; s_e : Z; s_f : Z; s_g : Z; s_h : Z }.

Definition sha256_init : sha_state :=
  let h i := Z.sqrt (nth i primes 0 * 2 ^ 64) mod 2 ^ 32 in
  {| s_a := h 0%nat; s_b := h 1%nat; s_c := h 2%nat; s_d := h 3%nat;
     s_e := h 4%nat; s_f := h 5%nat; s_g := h 6%nat; s_h := h 7%nat |}.

(** The schedule, the latest word first. *)
Definition sha_word (ws : list Z) : Z :=
  let w i := nth i ws 0 in
  let s0 := Z.lxor (Z.lxor (rotr 7 (w 14%nat)) (rotr 18 (w 14%nat))) (Z.shiftr (w 14%nat) 3) in
  let s1 := Z.lxor (Z.lxor (rotr 17 (w 1%nat)) (rotr 19 (w 1%nat))) (Z.shiftr (w 1%nat) 10) in
  add32 (add32 (w 15%nat) s0) (add32 (w 6%nat) s1).

Definition sha_schedule (block : list Z) : list Z :=
  rev (Nat.iter 48 (λ ws, sha_word ws :: ws) (rev block)).

Definition sha_round (s : sha_state) (kw : Z * Z) : sha_state :=
  let '(k, w) := kw in
  let S1 := Z.lxor (Z.lxor (rotr 6 (s_e s)) (rotr 11 (s_e s))) (rotr 25 (s_e s)) in
  let ch := Z.lxor (Z.land (s_e s) (s_f s)) (Z.land (not32 (s_e s)) (s_g s)) in
  let t1 := add32 (add32 (s_h s) S1) (add32 ch (add32 k w)) in
  let S0 := Z.lxor (Z.lxor (rotr 2 (s_a s)) (rotr 13 (s_a s))) (rotr 22 (s_a s)) in
  let maj := Z.lxor (Z.lxor (Z.land (s_a s) (s_b s)) (Z.land (s_a s) (s_c s)))
               (Z.land (s_b s) (s_c s)) in
  {| s_a := add32 t1 (add32 S0 maj); s_b := s_a s; s_c := s_b s; s_d := s_c s;
     s_e := add32 (s_d s) t1; s_f := s_e s; s_g := s_f s; s_h := s_g s |}.

Definition sha_add (s t : sha_state) : sha_state :=
  {| s_a := add32 (s_a s) (s_a t); s_b := add32 (s_b s) (s_b t); s_c := add32 (s_c s) (s_c t);
     s_d := add32 (s_d s) (s_d t); s_e := add32 (s_e s) (s_e t); s_f := add32 (s_f s) (s_f t);
     s_g := add32 (s_g s) (s_g t); s_h := add32 (s_h s) (s_h t) |}.

Fixpoint words (n : nat) (l : bytes) : list Z :=
  match n with
  | O => []
  | S n' => be_unpack (take 4 l) :: words n' (drop 4 l)
  end.

Fixpoint sha_blocks (n : nat) (l : bytes) (s : sha_state) : sha_state :=
  match n with
  | O => s
  | S n' =>
      let ws := sha_schedule (words 16 (take 64 l)) in
      sha_blocks n' (drop 64 l) (sha_add s (fold_left sha_round (zip sha256_k ws) s))
  end.

Definition sha_pad (l : bytes) : bytes :=
  l ++ [x80] ++ replicate (Z.to_nat ((55 - Z.of_nat (length l)) mod 64)) x00 ++
  be_pack 8 (8 * Z.of_nat (length l)).

Definition sha256 (l : bytes) : bytes :=
  let p := sha_pad l in
  let s := sha_blocks (length p / 64)%nat p sha256_init in
  be_pack 4 (s_a s) ++ be_pack 4 (s_b s) ++ be_pack 4 (s_c s) ++ be_pack 4 (s_d s) ++
  be_pack 4 (s_e s) ++ be_pack 4 (s_f s) ++ be_pack 4 (s_g s) ++ be_pack 4 (s_h s).

Lemma length_sha256 l : length (sha256 l) = 32%nat.
Proof. unfold sha256. by rewrite !length_app, !length_be_pack. Qed.

Example sha256_test_data :
  be_unpack (sha256 [x74; x65; x73; x74; x20; x64; x61; x74; x61]) =
  0x916f0027a575074ce72a331777c3478d6513f786a591bd892da1a577bf2335f9.
Proof. vm_compute. reflexivity. Qed.
