(* ===== verification/FirmwareHeader.v ===== *)
(** * mbl-firmware-update-header-util

    [firmware-management/mbl-firmware-update-header-util]: the binary HEADER
    that goes with an update. [pack] writes it, [unpack] reads it back and
    refuses what is damaged. The texts of the errors are shortened. *)

From stdpp Require Import base strings list.
From Stdlib Require Import ZArith Ascii Lia.
From Stdlib Require Import Strings.Byte.
From S2P Require Import Prelude.
From S2P Require Import Py.
From S2P Require Import PyLib.

Open Scope Z_scope.
Open Scope list_scope.

(** ** The class *)

Definition _SIZEOF_SHA512 : nat := 64.
Definition _SIZEOF_SHA256 : nat := 32.
Definition _SIZEOF_GUID : nat := 16.
Definition _HEADER_MAGIC : Z := 0x5A51B3D4.
Definition HEADER_FORMAT_VERSION : Z := 2.

Record FirmwareUpdateHeader := {
  firmware_version : Z;
  firmware_size : Z;
  firmware_hash : bytes;
  campaign_id : bytes;
  firmware_signature : bytes
}.

(** [__init__] *)
Definition new_FirmwareUpdateHeader : FirmwareUpdateHeader :=
  {| firmware_version := 0; firmware_size := 0;
     firmware_hash := replicate _SIZEOF_SHA256 x00; campaign_id := replicate _SIZEOF_GUID x00;
     firmware_signature := [] |}.

(** The fields of [_HEADER_FORMAT], ">2I2Q64s16sI". *)
Record header_struct := {
  header_magic : Z;
  header_version : Z;
  version_field : Z;
  size_field : Z;
  firmware_hash_512 : bytes;
  campaign_field : bytes;
  firmware_signature_size : Z
}.

Definition _header_size : nat := 4 + 4 + 8 + 8 + _SIZEOF_SHA512 + _SIZEOF_GUID + 4.
Definition _crc_size : nat := 4.
Definition _header_and_crc_size : nat := _header_size + _crc_size.

(** [l[i : i + n]] *)
Definition slice (i n : nat) (l : bytes) : bytes := take n (drop i l).

(** [struct] refuses an integer that has no [n] bytes. *)
Definition fits (n : nat) (z : Z) : bool := (0 <=? z) && (z <? 256 ^ Z.of_nat n).

(** The format [ns] cuts and pads. *)
Definition pad (n : nat) (l : bytes) : bytes := take n (l ++ replicate n x00).

Definition header_pack (f : header_struct) : option bytes :=
  if fits 4 (header_magic f) && fits 4 (header_version f) && fits 8 (version_field f) &&
     fits 8 (size_field f) && fits 4 (firmware_signature_size f)
  then Some (be_pack 4 (header_magic f) ++ be_pack 4 (header_version f) ++
             be_pack 8 (version_field f) ++ be_pack 8 (size_field f) ++
             pad _SIZEOF_SHA512 (firmware_hash_512 f) ++ pad _SIZEOF_GUID (campaign_field f) ++
             be_pack 4 (firmware_signature_size f))
  else None.

Definition header_unpack (l : bytes) : header_struct :=
  {| header_magic := be_unpack (slice 0 4 l);
     header_version := be_unpack (slice 4 4 l);
     version_field := be_unpack (slice 8 8 l);
     size_field := be_unpack (slice 16 8 l);
     firmware_hash_512 := slice 24 64 l;
     campaign_field := slice 88 16 l;
     firmware_signature_size := be_unpack (slice 104 4 l) |}.

Definition _calculate_crc (header_bytes : bytes) : Z := Z.land (crc32 header_bytes) 0xFFFFFFFF.

Definition set_signature (b : bytes) (h : FirmwareUpdateHeader) : FirmwareUpdateHeader :=
  {| firmware_version := firmware_version h; firmware_size := firmware_size h;
     firmware_hash := firmware_hash h; campaign_id := campaign_id h; firmware_signature := b |}.

(** The attributes [unpack] assigns before it looks at the rest. *)
Definition set_fields (f : header_struct) (h : FirmwareUpdateHeader) : FirmwareUpdateHeader :=
  {| firmware_version := version_field f; firmware_size := size_field f;
     firmware_hash := take _SIZEOF_SHA256 (firmware_hash_512 f); campaign_id := campaign_field f;
     firmware_signature := firmware_signature h |}.

Definition unpack (data : bytes) : P FirmwareUpdateHeader unit :=
  if (length data <? _header_and_crc_size)%nat then raise FormatError "Data is too short"
  else
    let f := header_unpack (take _header_size data) in
    pput (set_fields f);;
    if negb (forallb (λ b, bool_decide (b = x00)) (drop _SIZEOF_SHA256 (firmware_hash_512 f)))
    then raise FormatError "Invalid sha256 value in firmware_hash field"
    else
      let header_crc := be_unpack (slice _header_size _crc_size data) in
      if negb (header_magic f =? _HEADER_MAGIC) then raise FormatError "Invalid header magic value"
      else if negb (header_version f =? HEADER_FORMAT_VERSION)
      then raise FormatError "Unsupported header version"
      else if negb (header_crc =? _calculate_crc (take _header_size data))
      then raise FormatError "Invalid header CRC field"
      else if negb (firmware_signature_size f =? 0) then
        let total_size := Z.of_nat _header_and_crc_size + firmware_signature_size f in
        if Z.of_nat (length data) <? total_size then raise FormatError "Data is too short"
        else pput (set_signature
               (slice _header_and_crc_size (Z.to_nat (firmware_signature_size f)) data))
      else mret tt.

Definition pack : P FirmwareUpdateHeader bytes :=
  h ← pget id;
  if negb (length (firmware_hash h) =? _SIZEOF_SHA256)%nat
  then raise FormatError "Firmware hash has incorrect size"
  else if negb (length (campaign_id h) =? _SIZEOF_GUID)%nat
  then raise FormatError "Campaign ID has incorrect size"
  else
    let hash_512 := firmware_hash h ++ drop _SIZEOF_SHA256 (replicate _SIZEOF_SHA512 x00) in
    match header_pack {|
      header_magic := _HEADER_MAGIC; header_version := HEADER_FORMAT_VERSION;
      version_field := firmware_version h; size_field := firmware_size h;
      firmware_hash_512 := hash_512; campaign_field := campaign_id h;
      firmware_signature_size := Z.of_nat (length (firmware_signature h)) |} with
    | None => raise StructError "argument out of range"
    | Some header =>
        mret (header ++ be_pack _crc_size (_calculate_crc header) ++ firmware_signature h)
    end.

(** [calculate_firmware_hash]: the stream gives the bytes in pieces, each at
    most as long as the buffer; an empty piece is its end. *)
Definition buffer_size : nat := 1024 * 128.

Fixpoint hash_loop (pieces : list bytes) (buffer hashed : bytes) : bytes :=
  match pieces with
  | [] => hashed
  | piece :: pieces' =>
      let read := length piece in
      if (read =? 0)%nat then hashed
      else
        let buffer' := piece ++ drop read buffer in
        hash_loop pieces' buffer' (hashed ++ take read buffer')
  end.

Definition calculate_firmware_hash (pieces : list bytes) : bytes :=
  sha256 (hash_loop pieces (replicate buffer_size x00) []).

(** ** The examples of the package's tests *)

Definition test_hash : bytes :=
  be_pack 32 0x8e755def434ea5943bebd8fb0ba769d4cd01c94221db8eea3bf74f48ebbf41fb.

Definition test_header (signature : bytes) : FirmwareUpdateHeader :=
  {| firmware_version := 1546446988; firmware_size := 34203368; firmware_hash := test_hash;
     campaign_id := replicate 16 x00; firmware_signature := signature |}.

Definition test_data (size crc : Z) (signature : bytes) : bytes :=
  be_pack 4 0x5a51b3d4 ++ be_pack 4 2 ++ be_pack 8 0x5c2ce88c ++ be_pack 8 0x0209e6e8 ++
  test_hash ++ replicate 48 x00 ++ be_pack 4 size ++ be_pack 4 crc ++ signature.

Example pack_without_signature :
  pvalue (pack (test_header [])) = inl (test_data 0 0x74c049f4 []).
Proof. vm_compute. reflexivity. Qed.

Example pack_with_signature :
  pvalue (pack (test_header (be_pack 8 0x0123456789abcdef))) =
  inl (test_data 8 0x7a1bc1c6 (be_pack 8 0x0123456789abcdef)).
Proof. vm_compute. reflexivity. Qed.

Example unpack_with_signature :
  unpack (test_data 8 0x7a1bc1c6 (be_pack 8 0x0123456789abcdef)) new_FirmwareUpdateHeader =
  Ret tt (test_header (be_pack 8 0x0123456789abcdef)).
Proof. vm_compute. reflexivity. Qed.

Example unpack_wrong_crc :
  pvalue (unpack (test_data 0 0x74c049f5 []) new_FirmwareUpdateHeader) =
  inr {| exn_of := FormatError; exn_str := "Invalid header CRC field" |}.
Proof. vm_compute. reflexivity. Qed.

(** ** Slices of concatenations *)

Lemma slice_app_r i n p l : (length p ≤ i)%nat → slice i n (p ++ l) = slice (i - length p) n l.
Proof. intros Hp. unfold slice. by rewrite drop_app_ge. Qed.

Lemma slice_app_l i n p l : (i + n ≤ length p)%nat → slice i n (p ++ l) = slice i n p.
Proof.
  intros Hp. unfold slice. rewrite drop_app_le by lia. apply take_app_le.
  rewrite length_drop. lia.
Qed.

Lemma slice_here i n a l : i = 0%nat → length a = n → slice i n (a ++ l) = a.
Proof. intros -> <-. unfold slice. by rewrite drop_0, take_app_length. Qed.

Lemma slice_all i n a : i = 0%nat → length a = n → slice i n a = a.
Proof. intros -> <-. unfold slice. rewrite drop_0. apply firstn_all. Qed.

Lemma slice_slice i n m l : (i + n ≤ m)%nat → slice i n (take m l) = slice i n l.
Proof.
  intros Hm. unfold slice.
  rewrite skipn_firstn_comm, firstn_firstn. f_equal. lia.
Qed.

Lemma slice_join i n m l : slice i n l ++ slice (i + n) m l = slice i (n + m) l.
Proof.
  unfold slice. rewrite <- drop_drop. generalize (drop i l). intros k.
  rewrite <- (firstn_skipn n (take (n + m) k)), firstn_firstn, firstn_skipn_comm.
  by rewrite Nat.min_l by lia.
Qed.

Lemma length_slice i n l : (i + n ≤ length l)%nat → length (slice i n l) = n.
Proof. intros Hl. unfold slice. rewrite length_take, length_drop. lia. Qed.

(** Finds the part that a slice is. *)
Ltac find_slice :=
  repeat (rewrite slice_app_r by (rewrite ?length_be_pack; lia));
  first [rewrite slice_here by (rewrite ?length_be_pack; lia)
        |rewrite slice_all by (rewrite ?length_be_pack; lia)].

Lemma fits_mod n z : fits n z = true → z mod 256 ^ Z.of_nat n = z.
Proof. unfold fits. intros [H0 H1]%andb_true_iff. apply Z.mod_small. lia. Qed.

Lemma fits_unpack n l : length l = n → fits n (be_unpack l) = true.
Proof. intros <-. unfold fits. pose proof (be_unpack_range l). lia. Qed.

Lemma pad_exact n l : length l = n → pad n l = l.
Proof. intros <-. apply take_app_length. Qed.

(** ** The format of the header *)

Record wf_struct (f : header_struct) : Prop := {
  wf_magic : fits 4 (header_magic f) = true;
  wf_version : fits 4 (header_version f) = true;
  wf_version_field : fits 8 (version_field f) = true;
  wf_size_field : fits 8 (size_field f) = true;
  wf_hash_512 : length (firmware_hash_512 f) = 64%nat;
  wf_campaign : length (campaign_field f) = 16%nat;
  wf_signature_size : fits 4 (firmware_signature_size f) = true
}.

Definition header_bytes (f : header_struct) : bytes :=
  be_pack 4 (header_magic f) ++ be_pack 4 (header_version f) ++
  be_pack 8 (version_field f) ++ be_pack 8 (size_field f) ++
  firmware_hash_512 f ++ campaign_field f ++ be_pack 4 (firmware_signature_size f).

Lemma header_pack_wf f : wf_struct f → header_pack f = Some (header_bytes f).
Proof.
  intros [H1 H2 H3 H4 H5 H6 H7]. unfold header_pack. rewrite H1, H2, H3, H4, H7.
  simpl. unfold _SIZEOF_SHA512, _SIZEOF_GUID. by rewrite !pad_exact.
Qed.

Lemma length_header_bytes f : wf_struct f → length (header_bytes f) = _header_size.
Proof.
  intros [_ _ _ _ H5 H6 _]. unfold header_bytes.
  by rewrite !length_app, !length_be_pack, H5, H6.
Qed.

Lemma header_unpack_bytes f : wf_struct f → header_unpack (header_bytes f) = f.
Proof.
  intros [H1 H2 H3 H4 H5 H6 H7]. unfold header_unpack, header_bytes.
  destruct f as [m v vf sf h c z]; cbn [header_magic header_version version_field size_field
    firmware_hash_512 campaign_field firmware_signature_size] in *.
  f_equal; find_slice; rewrite ?be_unpack_pack; auto using fits_mod.
Qed.

Lemma header_bytes_unpack l :
  length l = _header_size → wf_struct (header_unpack l) ∧ header_bytes (header_unpack l) = l.
Proof.
  intros Hl. change _header_size with 108%nat in Hl.
  assert (Hs : ∀ i n, (i + n ≤ 108)%nat → length (slice i n l) = n)
    by (intros; apply length_slice; lia).
  split.
  - split; simpl; try apply fits_unpack; apply Hs; lia.
  - unfold header_bytes, header_unpack; cbn [header_magic header_version version_field size_field
      firmware_hash_512 campaign_field firmware_signature_size].
    assert (Hp : ∀ i n, (i + n ≤ 108)%nat → be_pack n (be_unpack (slice i n l)) = slice i n l).
    { intros i n Hi. rewrite <- (Hs i n Hi) at 1. apply be_pack_unpack. }
    rewrite !Hp by lia. rewrite (slice_join 88 16 4), (slice_join 24 64 20), (slice_join 16 8 84),
      (slice_join 8 8 92), (slice_join 4 4 100), (slice_join 0 4 104). by apply slice_all.
Qed.

(** ** The HEADER of an object *)

Record valid (h : FirmwareUpdateHeader) : Prop := {
  valid_version : fits 8 (firmware_version h) = true;
  valid_size : fits 8 (firmware_size h) = true;
  valid_hash : length (firmware_hash h) = _SIZEOF_SHA256;
  valid_campaign : length (campaign_id h) = _SIZEOF_GUID;
  valid_signature : fits 4 (Z.of_nat (length (firmware_signature h))) = true
}.

Definition struct_of (h : FirmwareUpdateHeader) : header_struct :=
  {| header_magic := _HEADER_MAGIC; header_version := HEADER_FORMAT_VERSION;
     version_field := firmware_version h; size_field := firmware_size h;
     firmware_hash_512 := firmware_hash h ++ replicate 32 x00; campaign_field := campaign_id h;
     firmware_signature_size := Z.of_nat (length (firmware_signature h)) |}.

Definition header_of (h : FirmwareUpdateHeader) : bytes := header_bytes (struct_of h).

Definition blob (h : FirmwareUpdateHeader) : bytes :=
  header_of h ++ be_pack 4 (crc32 (header_of h)) ++ firmware_signature h.

(** What [unpack] leaves: an empty signature does not replace the old one. *)
Definition restored (old h : FirmwareUpdateHeader) : FirmwareUpdateHeader :=
  if decide (firmware_signature h = []) then set_signature (firmware_signature old) h else h.

Lemma calculate_crc l : _calculate_crc l = crc32 l.
Proof.
  unfold _calculate_crc. change 0xFFFFFFFF with (Z.ones 32). rewrite Z.land_ones by lia.
  apply Z.mod_small, crc32_u32.
Qed.

Lemma wf_struct_of h : valid h → wf_struct (struct_of h).
Proof.
  intros [H1 H2 H3 H4 H5]. split; try done. cbn [struct_of firmware_hash_512].
  by rewrite length_app, length_replicate, H3.
Qed.

Lemma length_header_of h : valid h → length (header_of h) = 108%nat.
Proof. intros Hv. by apply length_header_bytes, wf_struct_of. Qed.

Lemma pack_valid h : valid h → pack h = Ret (blob h) h.
Proof.
  intros Hv. pose proof (wf_struct_of h Hv) as Hw. destruct Hv as [H1 H2 H3 H4 H5].
  unfold pack, mbind, P_bind, pget, id. rewrite H3, H4, !Nat.eqb_refl. cbn [negb].
  change (drop _SIZEOF_SHA256 (replicate _SIZEOF_SHA512 x00)) with (replicate 32 x00).
  change (match header_pack (struct_of h) with
          | None => raise StructError "argument out of range"
          | Some header =>
              mret (header ++ be_pack _crc_size (_calculate_crc header) ++ firmware_signature h)
          end h = Ret (blob h) h).
  rewrite header_pack_wf by done. by rewrite calculate_crc.
Qed.

Lemma pack_invalid h : ¬ valid h → ∃ e, pack h = Raise e h ∧
  exn_of e = (if (length (firmware_hash h) =? 32)%nat && (length (campaign_id h) =? 16)%nat
              then StructError else FormatError).
Proof.
  intros Hv. unfold pack, mbind, P_bind, pget, id, _SIZEOF_SHA256, _SIZEOF_GUID.
  destruct (Nat.eqb_spec (length (firmware_hash h)) 32) as [H3|H3]; cbn [negb andb];
    [|by eexists].
  destruct (Nat.eqb_spec (length (campaign_id h)) 16) as [H4|H4]; cbn [negb]; [|by eexists].
  destruct (header_pack _) as [l|] eqn:Hp; [|by eexists]. destruct Hv. unfold header_pack in Hp.
  cbn [header_magic header_version version_field size_field firmware_signature_size] in Hp.
  split; try done; apply not_false_iff_true; intros Hf; rewrite Hf, ?andb_false_r in Hp; done.
Qed.

(** ** Reading it back *)

(** [unpack] on data that is long enough, with the fields it finds. *)
Definition checks (f : header_struct) (data : bytes) : bool :=
  forallb (λ b, bool_decide (b = x00)) (drop 32 (firmware_hash_512 f)) &&
  (header_magic f =? _HEADER_MAGIC) && (header_version f =? HEADER_FORMAT_VERSION) &&
  (be_unpack (slice 108 4 data) =? crc32 (take 108 data)) &&
  (112 + firmware_signature_size f <=? Z.of_nat (length data)).

Lemma unpack_spec data h0 :
  let f := header_unpack (take 108 data) in
  if (length data <? 112)%nat
  then ∃ e, unpack data h0 = Raise e h0 ∧ exn_of e = FormatError
  else if checks f data
  then unpack data h0 =
    Ret tt (restored h0 (set_signature (slice 112 (Z.to_nat (firmware_signature_size f)) data)
                           (set_fields f h0)))
  else ∃ e, unpack data h0 = Raise e (set_fields f h0) ∧ exn_of e = FormatError.
Proof.
  cbv zeta. unfold unpack. change _header_and_crc_size with 112%nat. change _header_size with 108%nat.
  destruct (Nat.ltb_spec (length data) 112) as [Hl|Hl]; [by eexists|].
  set (f := header_unpack (take 108 data)). unfold mbind, P_bind, pput, checks, _SIZEOF_SHA256, _crc_size.
  assert (Hz : 0 ≤ firmware_signature_size f) by apply be_unpack_range.
  destruct (forallb _ _); cbn [negb andb]; [|by eexists].
  destruct (header_magic f =? _HEADER_MAGIC); cbn [negb andb]; [|by eexists].
  destruct (header_version f =? HEADER_FORMAT_VERSION); cbn [negb andb]; [|by eexists].
  rewrite calculate_crc. destruct (_ =? crc32 _); cbn [negb andb]; [|by eexists].
  destruct (Z.eqb_spec (firmware_signature_size f) 0) as [H0|H0]; cbn [negb].
  - rewrite H0. destruct (Z.leb_spec (112 + 0) (Z.of_nat (length data))); [|lia].
    unfold restored. rewrite decide_True by done. by destruct h0.
  - destruct (Z.ltb_spec (Z.of_nat (length data)) (Z.of_nat 112 + firmware_signature_size f)) as [Hlt|Hge].
    + destruct (Z.leb_spec (112 + firmware_signature_size f) (Z.of_nat (length data))); [lia|by eexists].
    + destruct (Z.leb_spec (112 + firmware_signature_size f) (Z.of_nat (length data))); [|lia].
      unfold restored. rewrite decide_False; [done|]. cbn [set_signature firmware_signature].
      intros Hn%(f_equal length). rewrite length_slice in Hn by lia. change (length []) with 0%nat in Hn. lia.
Qed.

Lemma zeros_replicate l :
  forallb (λ b, bool_decide (b = x00)) l = true → l = replicate (length l) x00.
Proof.
  induction l as [|b l IH]; simpl; [done|]. intros [->%bool_decide_eq_true Hl]%andb_true_iff.
  by rewrite <- IH.
Qed.

Lemma unpack_blob h h0 rest : valid h → unpack (blob h ++ rest) h0 = Ret tt (restored h0 h).
Proof.
  intros Hv. pose proof (unpack_spec (blob h ++ rest) h0) as Hu. cbv zeta in Hu.
  pose proof (length_header_of h Hv) as Hlen. pose proof (wf_struct_of h Hv) as Hw.
  assert (Hd : blob h ++ rest = header_of h ++ be_pack 4 (crc32 (header_of h)) ++
    firmware_signature h ++ rest) by (unfold blob; by rewrite <- !(assoc_L (++))).
  assert (Hl : length (blob h ++ rest) = (112 + (length (firmware_signature h) + length rest))%nat).
  { rewrite Hd, !length_app, length_be_pack, Hlen. lia. }
  destruct (Nat.ltb_spec (length (blob h ++ rest)) 112); [lia|].
  assert (Ht : take 108 (blob h ++ rest) = header_of h) by (rewrite Hd; by apply take_app_length').
  rewrite Ht in Hu. unfold header_of in Hu at 1 2 3. rewrite header_unpack_bytes in Hu by done.
  assert (Hc : checks (struct_of h) (blob h ++ rest) = true).
  { unfold checks. rewrite Ht. cbn [struct_of firmware_hash_512 header_magic header_version
      firmware_signature_size]. rewrite !Z.eqb_refl, drop_app_length' by (symmetry; apply Hv).
    rewrite Hd at 1. rewrite slice_app_r by lia. rewrite slice_here by (rewrite ?length_be_pack; lia).
    rewrite be_unpack_pack, Z.mod_small, Z.eqb_refl by apply crc32_u32.
    rewrite Hl. cbn [forallb replicate bool_decide andb]. apply Z.leb_le. lia. }
  rewrite Hc in Hu. rewrite Hu. f_equal. f_equal.
  rewrite Hd, slice_app_r, Hlen by lia.
  rewrite slice_app_r by (rewrite length_be_pack; lia). rewrite length_be_pack.
  cbn [struct_of firmware_signature_size]. rewrite Nat2Z.id, slice_here by lia.
  unfold set_fields, set_signature, struct_of; simpl. rewrite take_app_length' by (symmetry; apply Hv).
  by destruct h.
Qed.

Lemma unpack_accepts data h0 h' :
  unpack data h0 = Ret tt h' →
  ∃ h rest, valid h ∧ data = blob h ++ rest ∧ h' = restored h0 h.
Proof.
  intros Hr. pose proof (unpack_spec data h0) as Hu. cbv zeta in Hu.
  destruct (Nat.ltb_spec (length data) 112) as [|Hl]; [by destruct Hu as (e & Hu & _); congruence|].
  set (f := header_unpack (take 108 data)) in *.
  destruct (checks f data) eqn:Hc; [|by destruct Hu as (e & Hu & _); congruence].
  rewrite Hu in Hr. injection Hr as <-. unfold checks in Hc.
  repeat match goal with H : _ && _ = true |- _ => apply andb_true_iff in H as [? ?] end.
  destruct (header_bytes_unpack (take 108 data)) as [Hw Hb]; [rewrite length_take; change _header_size with 108%nat; lia|].
  fold f in Hw, Hb. pose proof Hw as [W1 W2 W3 W4 W5 W6 W7].
  assert (Hz : 0 ≤ firmware_signature_size f) by apply be_unpack_range.
  set (n := Z.to_nat (firmware_signature_size f)) in *.
  assert (Hn : length (slice 112 n data) = n) by (apply length_slice; lia).
  set (h := set_signature (slice 112 n data) (set_fields f h0)).
  assert (Hs : struct_of h = f).
  { unfold h, struct_of, set_signature, set_fields.
    cbn [firmware_version firmware_size firmware_hash campaign_id firmware_signature]. rewrite Hn.
    assert (drop 32 (firmware_hash_512 f) = replicate 32 x00) as Hz32.
    { rewrite (zeros_replicate (drop 32 (firmware_hash_512 f))) by done. rewrite length_drop, W5. done. }
    rewrite <- Hz32, take_drop. destruct f; simpl in *. f_equal; try lia. }
  assert (Hh : header_of h = take 108 data) by (unfold header_of; by rewrite Hs).
  exists h, (drop (112 + n) data). split_and!; [| |done].
  - split; unfold h, set_signature, set_fields;
      cbn [firmware_version firmware_size firmware_hash campaign_id firmware_signature]; try done;
      [by rewrite length_take, W5|].
    rewrite Hn. unfold n. by rewrite Z2Nat.id by done.
  - unfold blob. rewrite Hh. cbn [h set_signature firmware_signature].
    assert (be_pack 4 (crc32 (take 108 data)) = slice 108 4 data) as ->.
    { rewrite <- (length_slice 108 4 data) at 1 by lia.
      replace (crc32 (take 108 data)) with (be_unpack (slice 108 4 data)) by lia.
      apply be_pack_unpack. }
    rewrite slice_join. change (take 108 data) with (slice 0 108 data). rewrite slice_join.
    unfold slice. rewrite drop_0. symmetry. apply take_drop.
Qed.

Lemma pack_returns h d h' : pack h = Ret d h' → valid h ∧ d = blob h ∧ h' = h.
Proof.
  intros Hp. pose proof Hp as Hq. unfold pack, mbind, P_bind, pget, id, _SIZEOF_SHA256, _SIZEOF_GUID in Hq.
  destruct (Nat.eqb_spec (length (firmware_hash h)) 32) as [H3|H3]; [cbn [negb] in Hq|done].
  destruct (Nat.eqb_spec (length (campaign_id h)) 16) as [H4|H4]; [cbn [negb] in Hq|done].
  destruct (header_pack _) as [l|] eqn:Hl; [|done]. unfold header_pack in Hl.
  cbn [header_magic header_version version_field size_field firmware_signature_size] in Hl.
  destruct (_ && _) eqn:Hf in Hl; [|done].
  repeat match goal with H : _ && _ = true |- _ => apply andb_true_iff in H as [? ?] end.
  assert (valid h) as Hv by by split. rewrite pack_valid in Hp by done. by injection Hp as <- <-.
Qed.

Lemma pack_ret h d : pack h = Ret d h → valid h ∧ d = blob h.
Proof. intros (Hv & Hd & _)%pack_returns. done. Qed.

(** [unpack] returns, or raises [FormatError] and keeps the signature. *)
Lemma unpack_cases data h0 :
  (∃ e h', unpack data h0 = Raise e h' ∧ exn_of e = FormatError ∧
     firmware_signature h' = firmware_signature h0) ∨ ∃ h', unpack data h0 = Ret tt h'.
Proof.
  pose proof (unpack_spec data h0) as Hu. cbv zeta in Hu.
  destruct (length data <? 112)%nat; [left; destruct Hu as (e & -> & ?); by eexists _, _|].
  destruct (checks _ _); [right; eauto|left]. destruct Hu as (e & -> & ?). by eexists _, _.
Qed.

Lemma accepted_crc data h0 h' :
  unpack data h0 = Ret tt h' →
  (112 ≤ length data)%nat ∧ be_unpack (slice 108 4 data) = crc32 (take 108 data).
Proof.
  intros Hr. pose proof (unpack_spec data h0) as Hu. cbv zeta in Hu.
  destruct (Nat.ltb_spec (length data) 112) as [|Hl]; [by destruct Hu as (e & Hu & _); congruence|].
  destruct (checks _ data) eqn:Hc; [|by destruct Hu as (e & Hu & _); congruence].
  unfold checks in Hc. split; [done|].
  repeat match goal with H : _ && _ = true |- _ => apply andb_true_iff in H as [? ?] end. lia.
Qed.

Lemma blob_crc h rest :
  valid h → (112 ≤ length (blob h ++ rest))%nat ∧
  be_unpack (slice 108 4 (blob h ++ rest)) = crc32 (take 108 (blob h ++ rest)).
Proof. intros Hv. by eapply accepted_crc, (unpack_blob h new_FirmwareUpdateHeader). Qed.

(** The loop feeds the hash with what was read, whatever the buffer held. *)
Lemma hash_loop_concat pieces after buffer hashed :
  Forall (λ piece, 0 < length piece ≤ buffer_size)%nat pieces →
  hash_loop (pieces ++ [] :: after) buffer hashed = hashed ++ concat pieces.
Proof.
  intros Hp. revert buffer hashed.
  induction Hp as [|piece pieces [H0 _] _ IH]; intros buffer hashed; simpl.
  - by rewrite (right_id_L [] (++)).
  - destruct (Nat.eqb_spec (length piece) 0); [lia|]. rewrite IH, take_app_length.
    by rewrite (assoc_L (++)).
Qed.

(** ** The properties *)

(** C19: [unpack] is the inverse of [pack]. It accepts exactly the blobs that
    [pack] writes for some header, whatever follows them, and then the object
    is that header, but for one thing: when the blob has no signature the
    object keeps the one it had. *)
Theorem unpack_inverts_pack data h0 h' :
  unpack data h0 = Ret tt h' ↔
  ∃ h d rest, pack h = Ret d h ∧ data = d ++ rest ∧ h' = restored h0 h.
Proof.
  split.
  - intros (h & rest & Hv & -> & ->)%unpack_accepts. exists h, (blob h), rest.
    by rewrite pack_valid.
  - intros (h & d & rest & Hp & -> & ->). destruct (pack_ret h d Hp) as [Hv ->].
    by apply unpack_blob.
Qed.

(** What [pack] does, in full: a header of 112 bytes and the signature
    when every field has its size, [FormatError] when the hash or the campaign
    have the wrong one, [struct.error] when a number is out of range; the
    object stays as it is. *)
Theorem pack_result h :
  match pack h with
  | Ret d h' =>
      valid h ∧ h' = h ∧ length d = (112 + length (firmware_signature h))%nat ∧
      drop 112 d = firmware_signature h
  | Raise e h' =>
      ¬ valid h ∧ h' = h ∧
      exn_of e = (if (length (firmware_hash h) =? 32)%nat && (length (campaign_id h) =? 16)%nat
                  then StructError else FormatError)
  end.
Proof.
  destruct (pack h) as [d h'|e h'] eqn:Hp.
  - destruct (pack_returns h d h' Hp) as (Hv & -> & ->). split_and!; [done..| |].
    + unfold blob. rewrite !length_app, length_be_pack, length_header_of by done. lia.
    + unfold blob. rewrite (assoc_L (++)). apply drop_app_length'.
      by rewrite length_app, length_be_pack, length_header_of.
  - assert (Hv : ¬ valid h) by (intros Hv; rewrite pack_valid in Hp; done).
    destruct (pack_invalid h Hv) as (e' & He & Hc). rewrite He in Hp. by injection Hp as <- <-.
Qed.

(** C20: Damage is noticed. When up to four adjacent bytes of a packed header,
    or of its checksum, are changed in any way, [unpack] raises [FormatError],
    and does not touch the object's signature. *)
Theorem unpack_notices_damage h h0 rest p w w' q :
  valid h → blob h ++ rest = p ++ w ++ q →
  length w = length w' → (length w ≤ 4)%nat → w ≠ w' →
  (length p + length w ≤ 108)%nat ∨ (108 ≤ length p ∧ length p + length w ≤ 112)%nat →
  ∃ e h', unpack (p ++ w' ++ q) h0 = Raise e h' ∧ exn_of e = FormatError ∧
    firmware_signature h' = firmware_signature h0.
Proof.
  intros Hv Hd Hl H4 Hw Hwhere. destruct (unpack_cases (p ++ w' ++ q) h0) as [Hr|[h' Hr]]; [done|exfalso].
  apply accepted_crc in Hr as [_ Hcrc]. pose proof (blob_crc h rest Hv) as [Hlen Hold].
  rewrite Hd in Hlen, Hold. rewrite !length_app in Hlen.
  destruct Hwhere as [Hin|[Hp Hin]].
  - assert (Hc : ∀ v, length v = length w →
      take 108 (p ++ v ++ q) = p ++ v ++ take (108 - length p - length v) q ∧
      slice 108 4 (p ++ v ++ q) = slice (108 - length p - length v) 4 q).
    { intros v Hvl. rewrite !take_app_ge, !slice_app_r by lia. done. }
    destruct (Hc w eq_refl) as [T1 S1]. destruct (Hc w' (eq_sym Hl)) as [T2 S2].
    rewrite T1, S1 in Hold. rewrite T2, S2 in Hcrc. rewrite <- Hl in Hcrc.
    apply (crc32_burst p w w' (take (108 - length p - length w) q)); congruence.
  - apply Hw. assert (Ht : ∀ v, take 108 (p ++ v ++ q) = take 108 p) by (intros; by apply take_app_le).
    rewrite Ht in Hold, Hcrc. rewrite <- Hcrc in Hold.
    apply be_unpack_inj in Hold; [|rewrite !length_slice; rewrite ?length_app; lia].
    apply (f_equal (slice (length p - 108) (length w))) in Hold.
    assert (Hs : ∀ v, length v = length w →
      slice (length p - 108) (length w) (slice 108 4 (p ++ v ++ q)) = v).
    { intros v Hvl. unfold slice at 2. rewrite slice_slice by lia. unfold slice. rewrite drop_drop.
      replace (108 + (length p - 108))%nat with (length p) by lia.
      rewrite drop_app_length, <- Hvl. apply take_app_length. }
    by rewrite !Hs in Hold.
Qed.

(** C32: The hash of an update is the SHA-256 of its bytes, however the reads
    of the stream cut them. *)
Theorem firmware_hash_of_stream pieces after :
  Forall (λ piece, 0 < length piece ≤ buffer_size)%nat pieces →
  calculate_firmware_hash (pieces ++ [] :: after) = sha256 (concat pieces).
Proof.
  intros Hp. unfold calculate_firmware_hash. by rewrite hash_loop_concat.
Qed.

(** ** The properties at the example of the tests *)

Lemma test_valid : valid (test_header []).
Proof. split; vm_compute; reflexivity. Qed.

(** Two bytes of the version are changed. *)
Definition test_damaged : bytes :=
  take 12 (blob (test_header [])) ++ [xff; x2c] ++ drop 14 (blob (test_header [])).

Lemma unpack_notices_damage_witness :
  ∃ e h', unpack test_damaged new_FirmwareUpdateHeader = Raise e h' ∧ exn_of e = FormatError ∧
    firmware_signature h' = [].
Proof.
  refine (unpack_notices_damage (test_header []) new_FirmwareUpdateHeader []
    (take 12 (blob (test_header []))) [x5c; x2c] [xff; x2c]
    (drop 14 (blob (test_header []))) test_valid _ _ _ _ _).
  - vm_compute. reflexivity.
  - reflexivity.
  - simpl. lia.
  - discriminate.
  - left. vm_compute. lia.
Defined.

Lemma firmware_hash_of_stream_witness :
  calculate_firmware_hash ([[x74; x65; x73; x74]; [x20; x64; x61; x74; x61]] ++ [[]]) =
  sha256 [x74; x65; x73; x74; x20; x64; x61; x74; x61].
Proof.
  refine (firmware_hash_of_stream [[x74; x65; x73; x74]; [x20; x64; x61; x74; x61]] [] _).
  repeat (apply Forall_cons; split; [split; apply Nat.leb_le; vm_compute; reflexivity|]).
  apply Forall_nil. exact I.
Defined.
