(* ===== verification/FirmwareManager.v ===== *)
(** * mbl-firmware-update-manager

    [firmware-management/mbl-firmware-update-manager]: writes the HEADER file of
    an update package, calls the script that installs the package, cleans up
    and reboots. *)

From stdpp Require Import base gmap strings list.
From Stdlib Require Import ZArith Ascii Lia.
From Stdlib Require Import Strings.Byte.
From S2P Require Import Prelude.
From S2P Require Import Py.
From S2P Require Import PyLib.
From S2P Require Import FirmwareHeader.

Open Scope Z_scope.
Open Scope list_scope.

Definition UPDATE_ACTIVATION_SHELL_SCRIPT : cstring := "/opt/arm/arm_update_activate.sh".
Definition HEADER_FILE : cstring := "/scratch/firmware_update_header_file".
Definition DONT_REBOOT_FLAG : cstring := "/tmp/do_not_reboot".

(** ** The state *)

Abbreviation filesystem := (gmap cstring bytes).

(** The process: the files, the answers the user will type, what was printed,
    how often the device was told to reboot, and the object's attributes. *)
Record device := {
  files : filesystem;
  stdin : list cstring;
  stdout : list cstring;
  stderr : list cstring;
  reboots : nat;
  header_data : bytes
}.

(** What a command that is run does: it is not there, or it ends with a code
    and an output and leaves files. *)
Inductive ran := NotFound | Ended (returncode : Z) (output : cstring) (after : filesystem).

Class FmwEnv := {
  now : Z;                                    (** int(time.time()) *)
  run_script : list cstring → filesystem → ran;
  os_fails : cstring → bool;                  (** a call on this path fails *)
  disk_full : bool;                           (** a write fails *)
  reads : bytes → list bytes;                 (** how the reads cut a file *)
  reads_concat d : concat (reads d) = d;
  reads_size d : Forall (λ p, 0 < length p ≤ buffer_size)%nat (reads d)
}.

Definition set_files (f : filesystem) (d : device) : device :=
  {| files := f; stdin := stdin d; stdout := stdout d; stderr := stderr d;
     reboots := reboots d; header_data := header_data d |}.
Definition set_header_data (b : bytes) (d : device) : device :=
  {| files := files d; stdin := stdin d; stdout := stdout d; stderr := stderr d;
     reboots := reboots d; header_data := b |}.
Definition set_stdin (l : list cstring) (d : device) : device :=
  {| files := files d; stdin := l; stdout := stdout d; stderr := stderr d;
     reboots := reboots d; header_data := header_data d |}.
Definition add_stdout (t : cstring) (d : device) : device :=
  {| files := files d; stdin := stdin d; stdout := stdout d ++ [t]; stderr := stderr d;
     reboots := reboots d; header_data := header_data d |}.
Definition add_stderr (t : cstring) (d : device) : device :=
  {| files := files d; stdin := stdin d; stdout := stdout d; stderr := stderr d ++ [t];
     reboots := reboots d; header_data := header_data d |}.
Definition add_reboot (d : device) : device :=
  {| files := files d; stdin := stdin d; stdout := stdout d; stderr := stderr d;
     reboots := S (reboots d); header_data := header_data d |}.

(** [str.lower] on ASCII. *)
Definition lower_char (c : ascii) : ascii :=
  let n := nat_of_ascii c in
  if (65 <=? n)%nat && (n <=? 90)%nat then ascii_of_nat (n + 32) else c.
Definition lower (s : cstring) : cstring := lower_char <$> s.

Section manager.
Context `{FmwEnv}.
Variable update_pkg : cstring.

(** ** Calls of the system *)

Definition os_remove (path : cstring) : P device unit :=
  d ← pget id;
  match files d !! path with
  | None => raise FileNotFound path
  | Some _ => if os_fails path then raise OSErr path else pput (set_files (delete path (files d)))
  end.

Definition read_file (path : cstring) : P device bytes :=
  d ← pget id;
  match files d !! path with
  | None => raise FileNotFound path
  | Some b => if os_fails path then raise OSErr path else mret b
  end.

(** [open(path, "wb")] empties the file before the write can fail. *)
Definition write_file (path : cstring) (b : bytes) : P device unit :=
  d ← pget id;
  if os_fails path then raise OSErr path
  else if disk_full then
    pput (set_files (<[path := []]> (files d)));; raise OSErr "No space left on device"
  else pput (set_files (<[path := b]> (files d))).

Definition install_command : list cstring :=
  [UPDATE_ACTIVATION_SHELL_SCRIPT; "--firmware" : cstring; update_pkg; "--header" : cstring;
   HEADER_FILE].

(** [error.stdout.decode() if error.stdout else error.returncode] *)
Definition output_or_code (code : Z) (output : cstring) : cstring :=
  if decide (output = []) then str_int code else output.

(** [subprocess.run(cmd, check=True)]; the text of the error is what its handler
    takes from it. *)
Definition subprocess_run (cmd : list cstring) : P device unit :=
  d ← pget id;
  match run_script cmd (files d) with
  | NotFound => raise FileNotFound UPDATE_ACTIVATION_SHELL_SCRIPT
  | Ended code output after =>
      pput (set_files after);;
      if code =? 0 then mret tt else raise CalledProcessError (output_or_code code output)
  end.

(** A method of the header's object, which the caller made. *)
Definition on_header {A} (m : P FirmwareUpdateHeader A) (h : FirmwareUpdateHeader) : P device A :=
  λ d, match m h with Ret a _ => Ret a d | Raise e _ => Raise e d end.

(** ** FirmwareUpdateManager *)

Definition _create_header_data : P device unit :=
  try_else
    (payload ← read_file update_pkg;
     let h := {| firmware_version := now; firmware_size := firmware_size new_FirmwareUpdateHeader;
                 firmware_hash := calculate_firmware_hash (reads payload ++ [[]]);
                 campaign_id := campaign_id new_FirmwareUpdateHeader;
                 firmware_signature := firmware_signature new_FirmwareUpdateHeader |} in
     data ← on_header pack h;
     pput (set_header_data data))
    [OSErr; FormatError]
    (λ error,
       raise HeaderFileError
         ((if isinstance error [OSErr] then "IOError" else "FormatError") ++
          " when creating HEADER file data, error: '" ++ exn_str error ++ "'"))
    mret.

Definition _append_header_data_to_header_file : P device unit :=
  try_else
    (data ← pget header_data; write_file HEADER_FILE data)
    [OSErr]
    (λ error,
       raise HeaderFileError
         ("Failed to write header data to header file '" ++ HEADER_FILE ++ "', error: '" ++
          exn_str error ++ "'"))
    mret.

Definition install_header : P device unit :=
  _create_header_data;; _append_header_data_to_header_file.

(** The prompt: the loop ends with "y" or "n". *)
Fixpoint prompt (answers : list cstring) : P device bool :=
  pput (add_stdout (newline :: "Proceed (y/n)?"));;
  match answers with
  | [] => pput (set_stdin []);; raise EOFErr "EOF when reading a line"
  | user_input :: rest =>
      if decide (lower user_input = "y") then pput (set_stdin rest);; mret true
      else if decide (lower user_input = "n") then pput (set_stdin rest);; mret false
      else
        pput (add_stdout ("Your response ('" ++ user_input ++
          "') was not one of the expected responses: y, n"));;
        prompt rest
  end.

(** The [try] statement of [install_firmware]. *)
Definition installation (keep : bool) : P device unit :=
  try_finally
    (try_else
       (subprocess_run install_command)
       [CalledProcessError]
       (λ error,
          raise FmwInstallError
            ("Failed to update firmware from update package '" ++ update_pkg ++ "', error: '" ++
             exn_str error ++ "'"))
       (λ _, if negb keep then os_remove update_pkg else mret tt))
    (if negb keep then os_remove HEADER_FILE else mret tt).

Definition install_firmware (keep assume_yes assume_no : bool) : P device unit :=
  installation keep;;
  flag ← pget (λ d, bool_decide (is_Some (files d !! DONT_REBOOT_FLAG)));
  if negb flag && negb assume_no then
    pput (add_stdout (newline :: "The device will be restarted."));;
    answers ← pget stdin;
    go ← (if assume_yes then mret true else prompt answers);
    if (go : bool) then pput add_reboot else mret tt
  else mret tt.

Definition run_mbl_firmware_update_manager (keep assume_yes assume_no : bool) : P device unit :=
  install_header;; install_firmware keep assume_yes assume_no.

(** [_main], with the arguments parsed. *)
Definition _main (keep assume_yes assume_no : bool) : P device Z :=
  try_else
    (run_mbl_firmware_update_manager keep assume_yes assume_no)
    any_exception
    (λ error, pput (add_stderr (exn_str error));; mret 1)
    (λ _, mret 0).
End manager.

(** ** What the manager promises *)

Section specification.
Context `{FmwEnv}.
Variable update_pkg : cstring.


















End specification.


(** ** The property on a device *)

Section witness.

(** A script that succeeds; the file is read byte by byte. *)
#[local] Instance demo_fmw : FmwEnv.
Proof.
  refine {| now := 1546446988; run_script := λ _ f, Ended 0 [] f; os_fails := λ _, false;
            disk_full := false; reads := λ d, (λ b, [b]) <$> d |}.
  - intros d. induction d as [|b d IH]; [done|]. rewrite fmap_cons. simpl. by f_equal.
  - intros d. apply Forall_fmap, Forall_true. intros b. unfold compose, buffer_size.
    change (length [b]) with 1%nat. split; apply Nat.leb_le; vm_compute; reflexivity.
Defined.

Definition demo_pkg : cstring := "/scratch/update.tar".
Definition demo_device : device :=
  {| files := {[demo_pkg := [x61; x62; x63]]}; stdin := ["maybe" : cstring; "Y" : cstring];
     stdout := []; stderr := []; reboots := 0; header_data := [] |}.


(** A script that removes the package itself. *)
Definition removing_fmw : FmwEnv :=
  {| now := 1546446988; run_script := λ _ f, Ended 0 [] (delete demo_pkg f); os_fails := λ _, false;
     disk_full := false; reads := reads; reads_concat := reads_concat; reads_size := reads_size |}.

Example removed_package_is_an_error :
  let r := _main (H := removing_fmw) demo_pkg false true false demo_device in
  pvalue r = inl 1 ∧ files (pstate r) = ∅ ∧ reboots (pstate r) = 0%nat.
Proof. vm_compute. done. Qed.
End witness.
