(* ===== verification/AppLifecycle.v ===== *)
(** * mbl-app-lifecycle-manager

    [application-framework/mbl-app-lifecycle-manager]: [container.py] runs the
    commands of runc, [manager.py] starts an application and ends it, first
    with SIGTERM and, when that takes too long, with SIGKILL. *)

From stdpp Require Import base strings list.
From Stdlib Require Import ZArith Ascii Lia.
From S2P Require Import Prelude.
From S2P Require Import Py.

Open Scope Z_scope.
Open Scope list_scope.

(** ** Text *)

(** [needle in text] *)
Fixpoint prefix_of (needle text : cstring) : bool :=
  match needle, text with
  | [], _ => true
  | c :: needle', d :: text' => bool_decide (c = d) && prefix_of needle' text'
  | _ :: _, [] => false
  end.

Fixpoint occurs (needle text : cstring) : bool :=
  prefix_of needle text || match text with [] => false | _ :: text' => occurs needle text' end.

(** ** The commands and what answers them *)

Inductive signal := SIGTERM | SIGKILL.

#[export] Instance signal_eq_dec : EqDecision signal.
Proof. solve_decision. Defined.

(** What the programs ask of the system: the commands of runc and opkg, and
    [shutil.rmtree]. *)
Inductive command :=
| CState (id : cstring)
| CCreate (bundle id : cstring) (logged : bool)
| CStart (id : cstring)
| CKill (id : cstring) (s : signal)
| CDelete (id : cstring)
| CInfo (pkg : cstring)
| CInstall (dest pkg : cstring)
| CRemove (dest name : cstring)
| CListInstalled (dest : cstring)
| CRmtree (path : cstring).

#[export] Instance command_eq_dec : EqDecision command.
Proof. solve_decision. Defined.

(** A JSON document, as [json.loads] gives it. *)
Inductive json :=
| JNull
| JBool (b : bool)
| JNumber (z : Z)
| JString (s : cstring)
| JArray (l : list json)
| JObject (l : list (cstring * json)).

(** A process that ended: its code, its output (decoded), and the document the
    output is when it is one; what [json] says of it otherwise is left out of
    the texts. *)
Record completed := { returncode : Z; output : cstring; document : option json }.

(** A file, with the JSON document it holds when it holds one, a directory, or a
    symbolic link to a directory. *)
Inductive node :=
| File (document : option json)
| Dir (entries : list (cstring * node))
| Link.

(** runc, opkg and the file system, with a state [K] that also has the time (in
    milliseconds). A program that is not found gives [None]; [entry] is what a
    path names once links are followed, [resolve] the path without links. *)
Class System (K : Type) := {
  execute : command → K → option completed * K;
  entry : K → cstring → option node;
  resolve : K → cstring → cstring;
  log_file : cstring → K → bool;             (** the log file can be opened *)
  monotonic : K → Z;
  sleep : Z → K → K
}.

Definition isdir {K} `{System K} (path : cstring) (k : K) : bool :=
  match entry k path with Some (Dir _) => true | _ => false end.

(** The process: the system, and the commands it ran, each with the system it
    found. *)
Record host (K : Type) := { sys : K; commands : list (command * K) }.
Arguments sys {K} h. Arguments commands {K} h.

(** ** container.py *)

Inductive ContainerState :=
| CREATED | RUNNING | STOPPED | DOES_NOT_EXIST | UNRECOGNIZED | ALREADY_STOPPED | NOT_RUNNING.

#[export] Instance ContainerState_eq_dec : EqDecision ContainerState.
Proof. solve_decision. Defined.

Definition state_value (s : ContainerState) : cstring :=
  match s with
  | CREATED => "created"
  | RUNNING => "running"
  | STOPPED => "stopped"
  | DOES_NOT_EXIST => "does not exist"
  | UNRECOGNIZED => "unrecognized"
  | ALREADY_STOPPED => "process already finished"
  | NOT_RUNNING => "not running"
  end.

(** [ContainerState(value)]: [None] is the [ValueError]. *)
Definition state_of_value (v : cstring) : option ContainerState :=
  find (λ s, bool_decide (state_value s = v))
    [CREATED; RUNNING; STOPPED; DOES_NOT_EXIST; UNRECOGNIZED; ALREADY_STOPPED; NOT_RUNNING].

(** [key in doc] and [doc[key]], for a key that is a string. *)
Definition json_in (key : cstring) (doc : json) : option bool :=
  match doc with
  | JObject l => Some (bool_decide (key ∈ l.*1))
  | JArray l => Some (existsb (λ j, match j with JString s => bool_decide (s = key) | _ => false end) l)
  | JString s => Some (occurs key s)
  | _ => None
  end.

(** A repeated key has its last value. *)
Definition json_get (key : cstring) (doc : json) : option json :=
  match doc with
  | JObject l => snd <$> last (filter (λ kv, kv.1 = key) l)
  | _ => None
  end.

Definition status_key : cstring := "status".

Definition state_of_json (value : json) : ContainerState :=
  match value with
  | JString v => default UNRECOGNIZED (state_of_value v)
  | _ => UNRECOGNIZED
  end.

Section container.
Context {K : Type} `{System K}.

Definition program (c : command) : cstring :=
  match c with
  | CState _ | CCreate _ _ _ | CStart _ | CKill _ _ | CDelete _ => "runc"
  | CInfo _ | CInstall _ _ | CRemove _ _ | CListInstalled _ => "opkg"
  | CRmtree path => path
  end.

(** [subprocess.run]: the callers look at the return code. *)
Definition subprocess_run (c : command) : P (host K) completed :=
  λ h,
  let (r, k) := execute c (sys h) in
  let h' := {| sys := k; commands := commands h ++ [(c, sys h)] |} in
  match r with
  | None => Raise {| exn_of := FileNotFound;
      exn_str := "[Errno 2] No such file or directory: '" ++ program c ++ "'" |} h'
  | Some r => Ret r h'
  end.

Definition failed (r : completed) : bool := negb (returncode r =? 0).

(** [error.stdout.decode() if error.stdout else error.returncode] *)
Definition output_or_code (r : completed) : cstring :=
  if decide (output r = []) then str_int (returncode r) else output r.

Definition get_state (container_id : cstring) : P (host K) ContainerState :=
  process ← subprocess_run (CState container_id);
  if failed process then
    if occurs (state_value DOES_NOT_EXIST) (output process) then mret DOES_NOT_EXIST
    else raise ContainerStateError
           ("Getting state for container '" ++ container_id ++ "' failed, error: " ++ output process)
  else
    match document process with
    | None => raise ContainerStateError ("Deserializing '" ++ container_id ++ "' state info failed")
    | Some doc =>
        match json_in status_key doc with
        | None => raise TypeErr "argument is not iterable"
        | Some false =>
            raise ContainerStateError
              ("No 'status' found attribute in container '" ++ container_id ++ "' state info." ++
               newline :: " JSON doc:" ++ newline :: "'" ++ output process ++ "'")
        | Some true =>
            match json_get status_key doc with
            | None => raise TypeErr "indices must be integers"
            | Some value => mret (state_of_json value)
            end
        end
    end.

Definition create (container_id bundle_path : cstring) : P (host K) unit :=
  container_state ← get_state container_id;
  if negb (bool_decide (container_state = DOES_NOT_EXIST)) then
    raise ContainerAlreadyExistError ("Container with id '" ++ container_id ++ "' already exists")
  else
    found ← pget (λ h, isdir bundle_path (sys h));
    if negb found then
      raise ContainerCreationError
        ("No bundle for '" ++ container_id ++ "' found at '" ++ bundle_path ++
         "', the directory does not exist")
    else
      container_log ← pget (λ h, log_file container_id (sys h));
      process ← subprocess_run (CCreate bundle_path container_id container_log);
      if failed process then
        raise ContainerCreationError
          ("Creating container '" ++ container_id ++ "' failed, error: " ++ str_int (returncode process))
      else mret tt.

(** [start], [kill] and [delete]: a command that must succeed. *)
Definition start (container_id : cstring) : P (host K) unit :=
  process ← subprocess_run (CStart container_id);
  if failed process then
    raise ContainerStartError ("Starting container '" ++ container_id ++ "' failed, error: '" ++
      output_or_code process ++ "'")
  else mret tt.

Definition kill (container_id : cstring) (s : signal) : P (host K) unit :=
  process ← subprocess_run (CKill container_id s);
  if failed process then
    raise ContainerKillError ("Killing container '" ++ container_id ++ "' failed, error: '" ++
      output_or_code process ++ "'")
  else mret tt.

Definition delete (container_id : cstring) : P (host K) unit :=
  process ← subprocess_run (CDelete container_id);
  if failed process then
    raise ContainerDeleteError ("Deleting container '" ++ container_id ++ "' failed, error: '" ++
      output_or_code process ++ "'")
  else mret tt.

(** ** manager.py *)

Definition DEFAULT_TIMEOUT_AFTER_SIGTERM : Z := 3.
Definition DEFAULT_TIMEOUT_AFTER_SIGKILL : Z := 1.
Definition WAIT_SLEEP_INTERVAL : Z := 100.    (** milliseconds *)

Definition run_app (app_name app_path : cstring) : P (host K) unit :=
  create app_name app_path;; start app_name.

(** The loop of [_wait_for_app_stop]: whether the application was seen
    stopped; [OutOfFuel] is no exception of Python. *)
Fixpoint wait_loop (fuel : nat) (app_name : cstring) (endtime : Z) : P (host K) bool :=
  match fuel with
  | O => raise OutOfFuel []
  | S fuel' =>
      t ← pget (λ h, monotonic (sys h));
      if t <? endtime then
        app_state ← get_state app_name;
        if decide (app_state = STOPPED) then mret true
        else
          pput (λ h, {| sys := sleep WAIT_SLEEP_INTERVAL (sys h); commands := commands h |});;
          wait_loop fuel' app_name endtime
      else mret false
  end.

(** One more than the sleeps that fit in the time. *)
Definition wait_fuel (timeout : Z) : nat :=
  S (Z.to_nat (timeout * 1000 / WAIT_SLEEP_INTERVAL + 1)).

Definition _wait_for_app_stop (app_name : cstring) (timeout : Z) : P (host K) unit :=
  t ← pget (λ h, monotonic (sys h));
  stopped ← wait_loop (wait_fuel timeout) app_name (t + timeout * 1000);
  if (stopped : bool) then mret tt
  else
    app_state ← get_state app_name;
    if decide (app_state = STOPPED) then mret tt
    else raise AppStopTimeoutError ("'" ++ app_name ++ "' was not stopped after '" ++ str_int timeout ++ "' seconds").

Definition says (e : exn) (s : ContainerState) : bool := occurs (state_value s) (exn_str e).

Definition kill_app (app_name : cstring) (timeout : Z) : P (host K) unit :=
  try_else (kill app_name SIGKILL) [ContainerKillError]
    (λ error,
       if says error ALREADY_STOPPED || says error NOT_RUNNING then delete app_name
       else reraise error)
    (λ _, _wait_for_app_stop app_name timeout;; delete app_name).

Definition terminate_app (app_name : cstring) (sigterm_timeout sigkill_timeout : Z)
  : P (host K) unit :=
  try_else (kill app_name SIGTERM) [ContainerKillError]
    (λ error,
       if says error ALREADY_STOPPED || says error NOT_RUNNING then delete app_name
       else if says error DOES_NOT_EXIST then mret tt
       else reraise error)
    (λ _,
       try_else (_wait_for_app_stop app_name sigterm_timeout) [AppStopTimeoutError]
         (λ _, kill_app app_name sigkill_timeout)
         (λ _, delete app_name)).
End container.
