(* ===== verification/AppVersions.v ===== *)
(** * The versions of an application

    Each application has a directory with a bundle per version, named by a
    number: [get_oci_bundle_paths] of [container.py] finds the bundles,
    [alphanum_sort] (and its copy [human_sort] of mbl-app-update-manager) puts
    them in the order of their numbers, and [cli.py] runs the lowest at boot and
    removes the others. *)

From stdpp Require Import base strings sets list sorting.
From Stdlib Require Import ZArith Ascii Lia.
From S2P Require Import Prelude.
From S2P Require Import Py.
From S2P Require Import AppLifecycle.

Open Scope Z_scope.
Open Scope list_scope.

(** ** Files *)

(** [os.path.join], [os.path.basename] and [os.path.dirname] *)
Definition slash : ascii := "/"%char.

Definition join (path name : cstring) : cstring :=
  if decide (head name = Some slash) then name
  else if decide (path = [] ∨ last path = Some slash) then path ++ name
  else path ++ slash :: name.

Definition basename (path : cstring) : cstring := reverse (take_until slash (reverse path)).

Definition dirname (path : cstring) : cstring :=
  let up := drop (length (take_until slash (reverse path))) (reverse path) in
  if decide (drop_while slash up = []) then reverse up else reverse (drop_while slash up).

Example path_examples :
  join "/home/app" "a" = "/home/app/a" ∧ basename "/home/app/a/12" = "12" ∧
  dirname "/home/app/a/12" = "/home/app/a" ∧ dirname "/a" = "/" ∧ dirname "a" = "" ∧
  basename "/home/app/" = "".
Proof. by vm_compute. Qed.

(** What [os.walk] yields for one directory. *)
Record walked := { dirpath : cstring; dirnames : list cstring; filenames : list (cstring * option json) }.

Fixpoint os_walk (path : cstring) (n : node) : list walked :=
  match n with
  | File _ | Link => []
  | Dir entries =>
      {| dirpath := path;
         dirnames := omap (λ e, match e.2 with File _ => None | _ => Some e.1 end) entries;
         filenames := omap (λ e, match e.2 with File d => Some (e.1, d) | _ => None end) entries |} ::
      (fix go (es : list (cstring * node)) : list walked :=
         match es with
         | [] => []
         | (name, d) :: es' => os_walk (join path name) d ++ go es'
         end) entries
  end.

Definition OCI_BUNDLE_CONFIGURATION : cstring := "config.json".
Definition oci_version_key : cstring := "ociVersion".
Definition root_key : cstring := "root".
Definition path_key : cstring := "path".

Section bundles.
Context {S : Type}.

(** [key in doc], which only works for documents that have members. *)
Definition py_in (key : cstring) (doc : json) : P S bool :=
  match json_in key doc with Some b => mret b | None => raise TypeErr "argument is not iterable" end.

Definition py_get (key : cstring) (doc : json) : P S json :=
  match json_get key doc with Some v => mret v | None => raise TypeErr "indices must be integers" end.

(** Whether a directory is a bundle. *)
Definition is_bundle (w : walked) : P S bool :=
  match snd <$> find (λ f, bool_decide (f.1 = OCI_BUNDLE_CONFIGURATION)) (filenames w) with
  | None => mret false
  | Some None => raise ValueErr "Expecting value"
  | Some (Some config) =>
      versioned ← py_in oci_version_key config;
      if (versioned : bool) then
        rooted ← py_in root_key config;
        if (rooted : bool) then
          root ← py_get root_key config;
          has_path ← py_in path_key root;
          if (has_path : bool) then
            p ← py_get path_key root;
            mret (match p with JString s => bool_decide (s ∈ dirnames w) | _ => false end)
          else mret false
        else mret false
      else mret false
  end.

Fixpoint bundles (ws : list walked) : P S (list cstring) :=
  match ws with
  | [] => mret []
  | w :: ws' =>
      b ← is_bundle w;
      rest ← bundles ws';
      mret (if (b : bool) then dirpath w :: rest else rest)
  end.
End bundles.

Section host.
Context {K : Type} `{System K}.

Definition get_oci_bundle_paths (path : cstring) : P (host K) (list cstring) :=
  n ← pget (λ h, entry (sys h) path);
  bundles (match n with Some n => os_walk path n | None => [] end).

Definition py_rmtree (path : cstring) : P (host K) unit :=
  process ← subprocess_run (CRmtree path);
  if failed process then raise OSErr (output process) else mret tt.
End host.

(** ** alphanum_sort *)

(** A piece of [re.split("([0-9]+)", key)], converted. *)
Inductive piece := PText (s : cstring) | PInt (z : Z).

(** The split so far: the pieces, and the one that is read: text, or digits. *)
Record splitting := { done_ : list piece; open_ : cstring; in_digits : bool }.

Definition split_step (p : splitting) (c : ascii) : splitting :=
  if in_digits p then
    if is_digit c then {| done_ := done_ p; open_ := open_ p ++ [c]; in_digits := true |}
    else {| done_ := done_ p ++ [PInt (value (open_ p))]; open_ := [c]; in_digits := false |}
  else
    if is_digit c
    then {| done_ := done_ p ++ [PText (open_ p)]; open_ := [c]; in_digits := true |}
    else {| done_ := done_ p; open_ := open_ p ++ [c]; in_digits := false |}.

Definition split_end (p : splitting) : list piece :=
  if in_digits p then done_ p ++ [PInt (value (open_ p)); PText []]
  else done_ p ++ [PText (open_ p)].

Definition split_start : splitting := {| done_ := []; open_ := []; in_digits := false |}.

Definition alphanum_key (key : cstring) : list piece := split_end (fold_left split_step key split_start).

(** [<] of texts, of pieces and of lists of pieces. A text and a number cannot
    be compared; the pieces of two keys alternate, so they never are. *)
Fixpoint text_compare (a b : cstring) : comparison :=
  match a, b with
  | [], [] => Eq
  | [], _ :: _ => Lt
  | _ :: _, [] => Gt
  | c :: a', d :: b' =>
      match Nat.compare (nat_of_ascii c) (nat_of_ascii d) with
      | Eq => text_compare a' b'
      | r => r
      end
  end.

Definition piece_compare (x y : piece) : comparison :=
  match x, y with
  | PText a, PText b => text_compare a b
  | PInt a, PInt b => Z.compare a b
  | PText _, PInt _ => Gt
  | PInt _, PText _ => Lt
  end.

Fixpoint key_compare (a b : list piece) : comparison :=
  match a, b with
  | [], [] => Eq
  | [], _ :: _ => Lt
  | _ :: _, [] => Gt
  | x :: a', y :: b' =>
      match piece_compare x y with Eq => key_compare a' b' | r => r end
  end.

Definition key_le (a b : cstring) : Prop :=
  key_compare (alphanum_key a) (alphanum_key b) ≠ Gt.

#[export] Instance key_le_dec a b : Decision (key_le a b).
Proof. unfold key_le. apply _. Defined.

(** [list.sort]: stable, so an element goes after those of the same key. *)
Fixpoint insert (x : cstring) (l : list cstring) : list cstring :=
  match l with
  | [] => [x]
  | y :: l' => if decide (key_le y x) then y :: insert x l' else x :: l
  end.

Definition alphanum_sort (l : list cstring) : list cstring := fold_left (λ acc x, insert x acc) l [].

Example alphanum_sort_example :
  alphanum_sort [("/home/app/a/5" : cstring); ("/home/app/a/24" : cstring); ("/home/app/a/10" : cstring)] =
  [("/home/app/a/5" : cstring); ("/home/app/a/10" : cstring); ("/home/app/a/24" : cstring)].
Proof. vm_compute. reflexivity. Qed.

(** ** cli.py: running the applications *)

Section cli.
Context {K : Type} `{System K}.

Definition APPS_PATH : cstring := "/home/app".

Definition run_app_from_parent_dir (name : cstring) : P (host K) unit :=
  let app_parent_dir := join APPS_PATH name in
  found ← pget (λ h, isdir app_parent_dir (sys h));
  if negb found then raise AppNotInstalled ("'" ++ name ++ "' is not installed")
  else
    versions ← get_oci_bundle_paths app_parent_dir;
    match alphanum_sort versions with
    | [] => mret tt
    | valid_version :: versions' =>
        run_app name valid_version;;
        for_each versions' py_rmtree
    end.

(** [next(os.walk(APPS_PATH))[1]] raises when there is no such directory. *)
Definition run_all_action : P (host K) unit :=
  apps ← pget (λ h, entry (sys h) APPS_PATH);
  match apps ≫= (λ n, head (os_walk APPS_PATH n)) with
  | None => raise StopIterationErr []
  | Some w => for_each (dirnames w) run_app_from_parent_dir
  end.
End cli.

(** ** The order of the keys *)

Lemma text_compare_refl a : text_compare a a = Eq.
Proof. induction a as [|c a IH]; simpl; [done|]. by rewrite Nat.compare_refl. Qed.

Lemma piece_compare_refl x : piece_compare x x = Eq.
Proof. destruct x; simpl; [apply text_compare_refl|apply Z.compare_refl]. Qed.

(** A comparison that can be turned round, and that is transitive on [≤]. *)
Record ordering {A} (f : A → A → comparison) : Prop := {
  flip_compare x y : f y x = CompOpp (f x y);
  trans_lt x y z : f x y = Lt → f y z = Lt → f x z = Lt;
  eq_compare x y : f x y = Eq → ∀ z, f x z = f y z
}.

Lemma ordering_trans {A} (f : A → A → comparison) x y z :
  ordering f → f x y ≠ Gt → f y z ≠ Gt → f x z ≠ Gt.
Proof.
  intros Ho Hxy Hyz. destruct (f x y) eqn:E1; [|destruct (f y z) eqn:E2|done].
  - by rewrite (eq_compare f Ho x y E1).
  - pose proof (eq_compare f Ho y z E2 x) as E3.
    rewrite (flip_compare f Ho x y), (flip_compare f Ho x z), E1 in E3. by destruct (f x z).
  - by rewrite (trans_lt f Ho x y z).
  - done.
Qed.

Lemma nat_ordering : ordering Nat.compare.
Proof.
  split.
  - intros. apply Nat.compare_antisym.
  - intros x y z. rewrite !Nat.compare_lt_iff. lia.
  - intros x y ->%Nat.compare_eq. done.
Qed.

Lemma Z_ordering : ordering Z.compare.
Proof.
  split.
  - intros. apply Z.compare_antisym.
  - intros x y z. rewrite !Z.compare_lt_iff. lia.
  - intros x y ->%Z.compare_eq. done.
Qed.

Section lexicographic.
Context {A : Type} (f : A → A → comparison).

(** Both list orders of the keys are this one. *)
Fixpoint lex (a b : list A) : comparison :=
  match a, b with
  | [], [] => Eq
  | [], _ :: _ => Lt
  | _ :: _, [] => Gt
  | x :: a', y :: b' => match f x y with Eq => lex a' b' | r => r end
  end.

Lemma lex_ordering : ordering f → ordering lex.
Proof.
  intros Ho. split.
  - intros a. induction a as [|x a IH]; intros [|y b]; simpl; try done.
    rewrite (flip_compare f Ho x y). destruct (f x y); simpl; [apply IH|done..].
  - intros a. induction a as [|x a IH]; intros [|y b] [|z c]; simpl; try done.
    destruct (f x y) eqn:E1; [|destruct (f y z) eqn:E2|done].
    + rewrite (eq_compare f Ho x y E1). destruct (f y z); eauto.
    + pose proof (eq_compare f Ho y z E2 x) as E3.
      rewrite (flip_compare f Ho x y), (flip_compare f Ho x z), E1 in E3. by destruct (f x z).
    + by rewrite (trans_lt f Ho x y z).
    + done.
  - intros a. induction a as [|x a IH]; intros [|y b]; simpl; try done.
    intros Hab [|z c]; [done|]. destruct (f x y) eqn:E1; try done.
    rewrite (eq_compare f Ho x y E1). destruct (f y z); [by apply IH|done..].
Qed.
End lexicographic.

Lemma text_compare_lex a b :
  text_compare a b = lex (λ c d, Nat.compare (nat_of_ascii c) (nat_of_ascii d)) a b.
Proof. done. Qed.

Lemma text_ordering : ordering text_compare.
Proof.
  destruct (lex_ordering (λ c d, Nat.compare (nat_of_ascii c) (nat_of_ascii d))) as [F T E].
  { destruct nat_ordering as [F T E]. split; intros; eauto. }
  split; intros; rewrite ?text_compare_lex in *; eauto.
Qed.

Lemma piece_ordering : ordering piece_compare.
Proof.
  destruct text_ordering as [F1 T1 E1]. destruct Z_ordering as [F2 T2 E2].
  split.
  - intros [a|m] [b|n]; simpl; auto.
  - intros [a|m] [b|n] [c|o]; simpl; eauto; done.
  - intros [a|m] [b|n]; simpl; try done; intros H [c|o]; simpl; auto.
Qed.

Lemma key_compare_lex a b : key_compare a b = lex piece_compare a b.
Proof. done. Qed.

Lemma key_ordering : ordering key_compare.
Proof.
  destruct (lex_ordering piece_compare piece_ordering) as [F T E].
  split; intros; rewrite ?key_compare_lex in *; eauto.
Qed.

#[export] Instance key_le_trans : Transitive key_le.
Proof. intros a b c. apply ordering_trans, key_ordering. Qed.

Lemma key_le_total a b : key_le a b ∨ key_le b a.
Proof.
  unfold key_le. rewrite (flip_compare _ key_ordering (alphanum_key a)).
  destruct (key_compare _ _); simpl; auto.
Qed.

(** ** The sort *)

Lemma insert_perm x l : insert x l ≡ₚ x :: l.
Proof.
  induction l as [|y l IH]; simpl; [done|]. case_decide; [|done]. rewrite IH. constructor.
Qed.

Lemma insert_sorted x l : StronglySorted key_le l → StronglySorted key_le (insert x l).
Proof.
  induction 1 as [|y l Hs IH Hy]; simpl; [by repeat constructor|]. case_decide as Hd.
  - constructor; [done|]. rewrite insert_perm. by constructor.
  - destruct (key_le_total x y) as [Hxy|]; [|done]. constructor; [by constructor|].
    constructor; [done|]. eapply Forall_impl; [exact Hy|]. intros z Hz. by trans y.
Qed.

Lemma alphanum_sort_perm l : alphanum_sort l ≡ₚ l.
Proof.
  unfold alphanum_sort. rewrite <- (app_nil_r l) at 2. generalize (@nil cstring) as acc.
  induction l as [|x l IH]; intros acc; simpl; [done|].
  rewrite IH, insert_perm. symmetry. apply Permutation_middle.
Qed.

Lemma alphanum_sort_sorted l : StronglySorted key_le (alphanum_sort l).
Proof.
  unfold alphanum_sort. assert (StronglySorted key_le []) as Hs by constructor.
  revert Hs. generalize (@nil cstring) as acc.
  induction l as [|x l IH]; intros acc Hs; simpl; [done|]. by apply IH, insert_sorted.
Qed.

(** ** Numbers in text *)

Lemma digit_of_spec d : 0 ≤ d < 10 → is_digit (digit_of d) = true ∧ digit_value (digit_of d) = d.
Proof.
  intros Hd. unfold is_digit, digit_value, digit_of.
  rewrite nat_ascii_embedding by lia. split; [|lia].
  apply andb_true_iff. rewrite !Nat.leb_le. lia.
Qed.

Lemma value_from_app a s t : value_from a (s ++ t) = value_from (value_from a s) t.
Proof. apply fold_left_app. Qed.

(** A text of digits, and the number it is. *)
Record numeral (n : Z) (s : cstring) : Prop := {
  numeral_digits : Forall (λ c, is_digit c = true) s;
  numeral_nonempty : s ≠ [];
  numeral_value : value s = n
}.

Lemma str_digits_numeral fuel n acc :
  0 ≤ n < 2 ^ Z.of_nat fuel → (0 < fuel)%nat → ∃ s, str_digits fuel n acc = s ++ acc ∧ numeral n s.
Proof.
  revert n acc. induction fuel as [|fuel IH]; intros n acc Hn Hf; [lia|]. simpl.
  pose proof (Z.mod_pos_bound n 10) as Hm. pose proof (Z.div_mod n 10) as Hdm.
  destruct (digit_of_spec (n mod 10)) as [Hd Hv]; [lia|].
  destruct (Z.ltb_spec n 10) as [Hlt|Hge].
  { rewrite (Z.mod_small n 10) in Hd, Hv |- * by lia. eexists [_]. split; [done|].
    split; [by constructor|done|exact Hv]. }
  rewrite Nat2Z.inj_succ, Z.pow_succ_r in Hn by lia.
  destruct fuel as [|fuel']; [simpl in Hn; lia|].
  destruct (IH (n / 10) (digit_of (n mod 10) :: acc)) as (s & -> & [Hs Hne Hval]); [lia|lia|].
  exists (s ++ [digit_of (n mod 10)]). split; [by rewrite <- (assoc_L (++))|]. split.
  - apply Forall_app. split; [done|]. by constructor.
  - by destruct s.
  - unfold value in *. rewrite value_from_app, Hval. unfold value_from at 1.
    cbn [fold_left]. rewrite Hv. lia.
Qed.

Lemma str_nat_numeral n : 0 ≤ n → numeral n (str_nat n).
Proof.
  intros Hn. unfold str_nat.
  destruct (str_digits_numeral (S (Z.to_nat (Z.log2 n))) n []) as (s & -> & Hs); [|lia|].
  - split; [done|]. rewrite Nat2Z.inj_succ, Z2Nat.id by apply Z.log2_nonneg.
    destruct (decide (n = 0)) as [->|]; [done|]. apply Z.log2_spec. lia.
  - by rewrite app_nil_r.
Qed.

Lemma str_nat_inj m n : 0 ≤ m → 0 ≤ n → str_nat m = str_nat n → m = n.
Proof.
  intros Hm Hn Heq. destruct (str_nat_numeral m Hm) as [_ _ <-].
  destruct (str_nat_numeral n Hn) as [_ _ <-]. by rewrite Heq.
Qed.

(** ** [int] of a text *)

Definition is_space (c : ascii) : bool :=
  let n := nat_of_ascii c in
  (9 <=? n)%nat && (n <=? 13)%nat || (28 <=? n)%nat && (n <=? 32)%nat.

Fixpoint lstrip (s : cstring) : cstring :=
  match s with
  | [] => []
  | c :: s' => if is_space c then lstrip s' else s
  end.

Definition rstrip (s : cstring) : cstring := reverse (lstrip (reverse s)).

(** Digits, with single underscores between them. *)
Fixpoint int_digits (a : Z) (after_digit : bool) (s : cstring) : option Z :=
  match s with
  | [] => if after_digit then Some a else None
  | c :: s' =>
      if is_digit c then int_digits (a * 10 + digit_value c) true s'
      else if bool_decide (c = "_"%char) && after_digit then int_digits a false s'
      else None
  end.

Definition int_of_text (s : cstring) : option Z :=
  match lstrip (rstrip s) with
  | "-"%char :: s' => Z.opp <$> int_digits 0 false s'
  | "+"%char :: s' => int_digits 0 false s'
  | s' => int_digits 0 false s'
  end.

Definition py_int {S} (s : cstring) : P S Z :=
  match int_of_text s with
  | Some z => mret z
  | None => raise ValueErr ("invalid literal for int() with base 10: '" ++ s ++ "'")
  end.

Example int_examples :
  int_of_text " 12_3 " = Some 123 ∧ int_of_text "-7" = Some (-7) ∧ int_of_text "1__2" = None ∧
  int_of_text "v1" = None.
Proof. by vm_compute. Qed.

Lemma digit_not_space c : is_digit c = true → is_space c = false.
Proof. by destruct c as [[] [] [] [] [] [] [] []]. Qed.

Lemma lstrip_digits s : Forall (λ c, is_digit c = true) s → lstrip s = s.
Proof. destruct 1 as [|c s Hc _]; [done|]. simpl. by rewrite digit_not_space. Qed.

Lemma int_digits_value a b s :
  Forall (λ c, is_digit c = true) s → s ≠ [] ∨ b = true → int_digits a b s = Some (value_from a s).
Proof.
  intros Hs. revert a b. induction Hs as [|c s Hc _ IH]; intros a b Hb; simpl.
  - by destruct Hb as [?| ->].
  - rewrite Hc. rewrite IH by auto. done.
Qed.

Lemma int_of_numeral n s : numeral n s → int_of_text s = Some n.
Proof.
  intros [Hs Hne <-]. unfold int_of_text, rstrip.
  rewrite (lstrip_digits (reverse s)) by (by apply Forall_reverse).
  rewrite reverse_involutive, lstrip_digits by done.
  unfold value. rewrite <- (int_digits_value 0 false s) by auto.
  destruct Hs as [|c s Hc _]; [done|]. by destruct c as [[] [] [] [] [] [] [] []].
Qed.

(** ** Paths that end in a version *)

Definition version_path (parent : cstring) (v : Z) : cstring := parent ++ slash :: str_nat v.

Lemma digits_no_slash s : Forall (λ c, is_digit c = true) s → slash ∉ s.
Proof. intros Hs Hin. by apply (proj1 (Forall_forall _ _) Hs) in Hin. Qed.

Lemma basename_version parent v : 0 ≤ v → basename (version_path parent v) = str_nat v.
Proof.
  intros Hv. unfold basename, version_path. destruct (str_nat_numeral v Hv) as [Hd _ _].
  rewrite reverse_app, reverse_cons, <- (assoc_L (++)). simpl.
  rewrite take_until_app; [by rewrite reverse_involutive|].
  rewrite elem_of_reverse. by apply digits_no_slash.
Qed.

Lemma version_path_inj parent u v :
  0 ≤ u → 0 ≤ v → version_path parent u = version_path parent v → u = v.
Proof.
  intros Hu Hv Heq. apply (f_equal basename) in Heq.
  rewrite !basename_version in Heq by done. by apply str_nat_inj.
Qed.

Lemma split_digits p s :
  Forall (λ c, is_digit c = true) s → in_digits p = true →
  fold_left split_step s p = {| done_ := done_ p; open_ := open_ p ++ s; in_digits := true |}.
Proof.
  intros Hs. revert p. induction Hs as [|c s Hc _ IH]; intros [d o i]; cbn; intros ->.
  - by rewrite app_nil_r.
  - unfold split_step at 2. cbn. rewrite Hc, IH by done. cbn. by rewrite <- (assoc_L (++)).
Qed.

(** The key of such a path: what precedes the version, and the version. *)
Lemma key_of_version parent :
  ∃ l, ∀ v, 0 ≤ v → alphanum_key (version_path parent v) = l ++ [PInt v; PText []].
Proof.
  set (p := split_step (fold_left split_step parent split_start) slash).
  assert (in_digits p = false) as Hp
    by (unfold p, split_step; by destruct (in_digits (fold_left _ _ _))).
  exists (done_ p ++ [PText (open_ p)]). intros v Hv. unfold alphanum_key, version_path.
  rewrite fold_left_app. change (fold_left split_step (slash :: str_nat v) ?q) with
    (fold_left split_step (str_nat v) (split_step q slash)). fold p.
  destruct (str_nat_numeral v Hv) as [Hd Hne Hval]. destruct Hd as [|c s Hc Hs]; [done|].
  change (fold_left split_step (c :: s) p) with (fold_left split_step s (split_step p c)).
  replace (split_step p c) with
    {| done_ := done_ p ++ [PText (open_ p)]; open_ := [c]; in_digits := true |}
    by (unfold split_step; by rewrite Hp, Hc).
  rewrite split_digits by done. unfold split_end. cbn [in_digits done_ open_].
  by rewrite <- Hval.
Qed.

Lemma key_compare_prefix l a b : key_compare (l ++ a) (l ++ b) = key_compare a b.
Proof. induction l as [|x l IH]; [done|]. simpl. by rewrite piece_compare_refl. Qed.

(** The order of the keys is the order of the versions. *)
Lemma version_order parent u v :
  0 ≤ u → 0 ≤ v → key_le (version_path parent u) (version_path parent v) ↔ u ≤ v.
Proof.
  intros Hu Hv. destruct (key_of_version parent) as [l Hl]. unfold key_le.
  rewrite !Hl, key_compare_prefix by done. cbn. destruct (Z.compare_spec u v); split; (done || lia).
Qed.

(** A list of versions is put in the order of the versions. *)
Lemma sort_versions parent vs :
  Forall (λ v, 0 ≤ v) vs →
  ∃ ws, alphanum_sort (version_path parent <$> vs) = version_path parent <$> ws ∧
    ws ≡ₚ vs ∧ StronglySorted Z.le ws.
Proof.
  intros Hvs. pose proof (alphanum_sort_sorted (version_path parent <$> vs)) as Hs.
  destruct (Permutation_map_inv (version_path parent) vs
    (alphanum_sort_perm (version_path parent <$> vs))) as (ws & Hws & Hp).
  symmetry in Hp. exists ws. split_and!; [exact Hws|done|].
  assert (StronglySorted key_le (version_path parent <$> ws)) as Hs'
    by (change (StronglySorted key_le (map (version_path parent) ws)); exact (eq_ind _ _ Hs _ Hws)). rewrite <- Hp in Hvs. clear Hws Hp Hs.
  induction ws as [|w ws IH]; [constructor|]. simpl in Hs'.
  apply StronglySorted_inv in Hs' as [Hs Hw]. apply Forall_cons in Hvs as [Hv Hvs].
  constructor; [by apply IH|]. rewrite Forall_fmap in Hw. rewrite Forall_forall in Hw, Hvs |- *.
  intros v Hin. apply (version_order parent); auto. by apply Hw.
Qed.
