(* ===== verification/AppLifecycleProps.v ===== *)
(** * mbl-app-lifecycle-manager: how an application ends

    The behaviour of runc that the manager relies on ([RuncLaws]), and what
    follows for [terminate_app] and [run_app]: whatever the timing, a container
    is deleted only when its process is gone, SIGKILL is not sent before
    SIGTERM had its time, and the manager always ends. *)

From stdpp Require Import base strings sets list.
From Stdlib Require Import ZArith Ascii Lia.
From S2P Require Import Prelude.
From S2P Require Import Py.
From S2P Require Import AppLifecycle.
From S2P Require Import AppVersions.

Open Scope Z_scope.
Open Scope list_scope.

(** ** Words in a text *)

Lemma prefix_of_app needle a b : prefix_of needle a = true → prefix_of needle (a ++ b) = true.
Proof.
  revert a. induction needle as [|c needle IH]; intros [|d a]; simpl; try done.
  intros [-> H]%andb_true_iff. by rewrite IH.
Qed.

Lemma prefix_of_stop needle a q b :
  q ∉ needle → prefix_of needle (a ++ q :: b) = prefix_of needle a.
Proof.
  revert a. induction needle as [|c needle IH]; intros [|d a] Hq; simpl; try done.
  - rewrite bool_decide_false; [done|]. set_solver.
  - rewrite IH by set_solver. done.
Qed.

(** A word without the character [q] does not cross it. *)
Lemma occurs_stop needle a q b :
  q ∉ needle → needle ≠ [] → occurs needle (a ++ q :: b) = occurs needle a || occurs needle b.
Proof.
  intros Hq Hn. induction a as [|d a IH].
  - destruct needle as [|c needle]; [done|]. simpl.
    rewrite bool_decide_false; [done|]. set_solver.
  - rewrite <- app_comm_cons. change (occurs needle (d :: a ++ q :: b)) with
      (prefix_of needle (d :: a ++ q :: b) || occurs needle (a ++ q :: b)).
    rewrite IH, app_comm_cons, prefix_of_stop by done. simpl. by rewrite orb_assoc.
Qed.

Definition quote : ascii := "'"%char.

(** What is found in the message of a failed command is in the output, unless
    it is in the name of the application. *)
Lemma occurs_message needle pre id mid out :
  quote ∉ needle → needle ≠ [] → occurs needle pre = false → occurs needle mid = false →
  occurs needle id = false →
  occurs needle (pre ++ quote :: id ++ quote :: mid ++ quote :: out ++ [quote]) = occurs needle out.
Proof.
  intros Hq Hn Hp Hm Hi. rewrite !occurs_stop by done. rewrite Hp, Hm, Hi. simpl.
  destruct needle; [done|]. simpl. apply orb_false_r.
Qed.

(** A text that has no first character of the word. *)
Lemma occurs_absent c needle s : c ∉ s → occurs (c :: needle) s = false.
Proof.
  induction s as [|d s IH]; intros Hc; [done|]. cbn [occurs prefix_of].
  rewrite bool_decide_false by set_solver. apply IH. set_solver.
Qed.

Lemma str_int_chars z c : c ∈ str_int z → is_digit c = true ∨ c = "-"%char.
Proof.
  unfold str_int. destruct (Z.ltb_spec z 0) as [Hz|Hz].
  - destruct (str_nat_numeral (- z)) as [Hd _ _]; [lia|]. rewrite Forall_forall in Hd.
    intros [->|Hc]%elem_of_cons; [by right|left; by apply Hd].
  - destruct (str_nat_numeral z) as [Hd _ _]; [done|]. rewrite Forall_forall in Hd. auto.
Qed.

(** ** What runc promises *)

(** The state a reply to [runc state] gives. *)
Definition reply_state (r : completed) : option ContainerState :=
  if failed r then None
  else doc ← document r; value ← json_get status_key doc; Some (state_of_json value).

Class RuncLaws (K : Type) `{System K} := {
  container : K → cstring → option cstring;  (** a container, and its bundle *)
  live : K → cstring → bool;                 (** its process runs *)
  time_runc c k : monotonic k ≤ monotonic (execute c k).2;
  time_sleep d k : 0 ≤ d → monotonic k + d ≤ monotonic (sleep d k);
  stopped_is_dead k id r k' :
    execute (CState id) k = (Some r, k') → reply_state r = Some STOPPED → live k' id = false;
  refused_is_dead k id s r k' :
    execute (CKill id s) k = (Some r, k') → failed r = true →
    occurs (state_value ALREADY_STOPPED) (output_or_code r) = true ∨
    occurs (state_value NOT_RUNNING) (output_or_code r) = true → live k' id = false;
  refused_is_gone k id s r k' :
    execute (CKill id s) k = (Some r, k') → failed r = true →
    occurs (state_value DOES_NOT_EXIST) (output_or_code r) = true → container k' id = None;
  delete_refused_is_gone k id r k' :
    execute (CDelete id) k = (Some r, k') → failed r = true →
    occurs (state_value DOES_NOT_EXIST) (output_or_code r) = true → container k' id = None;
  deleted_is_gone k id r k' :
    execute (CDelete id) k = (Some r, k') → failed r = false → container k' id = None
}.

(** A name in which none of the words occurs. *)
Definition plain (id : cstring) : Prop :=
  ∀ s, s ∈ [ALREADY_STOPPED; NOT_RUNNING; DOES_NOT_EXIST] → occurs (state_value s) id = false.

Section termination.
Context {K : Type} `{RuncLaws K}.
Implicit Types (h : host K) (id : cstring).

(** The commands run since [h], and the time. *)
Definition since h (l : list (command * K)) h' : Prop :=
  commands h' = commands h ++ l ∧ monotonic (sys h) ≤ monotonic (sys h').

Lemma since_refl h : since h [] h.
Proof. split; [by rewrite (right_id_L [] (++))|lia]. Qed.

Lemma since_trans h1 h2 h3 l1 l2 : since h1 l1 h2 → since h2 l2 h3 → since h1 (l1 ++ l2) h3.
Proof. intros [H1 T1] [H2 T2]. split; [by rewrite H2, H1, (assoc_L (++))|lia]. Qed.

Lemma wp_run c Q E h :
  (∀ r h', execute c (sys h) = (Some r, sys h') → since h [(c, sys h)] h' → Q r h') →
  (∀ e h', since h [(c, sys h)] h' → exn_of e = FileNotFound → E e h') →
  pwp (subprocess_run c) Q E h.
Proof.
  intros HQ HE. unfold pwp, subprocess_run. pose proof (time_runc c (sys h)) as Ht.
  destruct (execute c (sys h)) as [[r|] k] eqn:Hr.
  - apply HQ; [done|]. by split.
  - by apply HE.
Qed.

(** The errors of [get_state]. *)
Definition state_errors : list exn_class := [ContainerStateError; TypeErr; FileNotFound].

Lemma wp_get_state id Q E h :
  (∀ s h', since h [(CState id, sys h)] h' → (s = STOPPED → live (sys h') id = false) → Q s h') →
  (∀ e h', since h [(CState id, sys h)] h' → exn_of e ∈ state_errors → E e h') →
  pwp (get_state id) Q E h.
Proof.
  intros HQ HE. apply pwp_bind, wp_run; [|intros e h' Hs He; apply HE; [done|rewrite He; set_solver]].
  intros r h' Hr Hs. pose proof (stopped_is_dead (sys h) id r (sys h') Hr) as Hd.
  unfold reply_state in Hd. destruct (failed r).
  - destruct (occurs _ _); [by apply HQ|]. apply HE; [done|]. set_solver.
  - destruct (document r) as [doc|]; [|apply HE; [done|set_solver]].
    destruct (json_in status_key doc) as [[]|]; [|apply HE; [done|set_solver]..].
    simpl in Hd. destruct (json_get status_key doc) as [value|]; [|apply HE; [done|set_solver]].
    apply HQ; [done|]. intros He. apply Hd. exact (f_equal Some He).
Qed.

(** *** Commands that must succeed *)

Definition reasons : list ContainerState := [ALREADY_STOPPED; NOT_RUNNING; DOES_NOT_EXIST].

Lemma failure_message pre id w out :
  plain id → w ∈ reasons →
  pre = ("Killing container '" : cstring) ∨ pre = ("Deleting container '" : cstring) →
  occurs (state_value w) (pre ++ id ++ "' failed, error: '" ++ out ++ "'") =
  occurs (state_value w) out.
Proof.
  intros Hp Hw Hpre. assert (occurs (state_value w) id = false) as Hid by by apply Hp.
  unfold reasons in Hw. rewrite !elem_of_cons, elem_of_nil in Hw.
  destruct Hpre as [-> | ->];
    [apply (occurs_message _ "Killing container " id " failed, error: ")
    |apply (occurs_message _ "Deleting container " id " failed, error: ")];
    try done; destruct Hw as [->|[->|[->|[]]]]; apply (bool_decide_unpack _); vm_compute; exact I.
Qed.

(** A text that says that there is no such container is right. *)
Definition denial id (e : exn) h' : Prop :=
  says e DOES_NOT_EXIST = true → container (sys h') id = None.

Lemma wp_delete id Q E h :
  plain id →
  (∀ h', since h [(CDelete id, sys h)] h' → container (sys h') id = None → Q tt h') →
  (∀ e h', since h [(CDelete id, sys h)] h' →
     exn_of e = FileNotFound ∨ exn_of e = ContainerDeleteError ∧ denial id e h' → E e h') →
  pwp (delete id) Q E h.
Proof.
  intros Hp HQ HE. apply pwp_bind, wp_run; [|intros e h' Hs He; apply HE; [done|by left]].
  intros r h' Hr Hs. destruct (failed r) eqn:Hf.
  - apply HE; [done|right]. split; [done|]. unfold denial, says. cbn [exn_str].
    rewrite (failure_message "Deleting container '" id DOES_NOT_EXIST) by
      (auto || (unfold reasons; set_solver)).
    by eapply delete_refused_is_gone.
  - apply HQ; [done|]. by eapply deleted_is_gone.
Qed.

(** A signal that is refused says why. *)
Definition refusal id (e : exn) h' : Prop :=
  exn_of e = ContainerKillError ∧
  (says e ALREADY_STOPPED || says e NOT_RUNNING = true → live (sys h') id = false) ∧
  denial id e h'.

Lemma wp_kill id s Q E h :
  plain id →
  (∀ h', since h [(CKill id s, sys h)] h' → Q tt h') →
  (∀ e h', since h [(CKill id s, sys h)] h' → exn_of e = FileNotFound ∨ refusal id e h' → E e h') →
  pwp (kill id s) Q E h.
Proof.
  intros Hp HQ HE. apply pwp_bind, wp_run; [|intros e h' Hs He; apply HE; [done|by left]].
  intros r h' Hr Hs. destruct (failed r) eqn:Hf; [|by apply HQ].
  apply HE; [done|right]. split; [done|]. unfold denial, says. cbn [exn_str].
  rewrite !(failure_message "Killing container '" id) by
    (auto || (unfold reasons; set_solver)). split.
  - intros [?|?]%orb_true_iff; eapply refused_is_dead; eauto.
  - intros Hm. by eapply refused_is_gone.
Qed.

(** *** Waiting *)

Definition asks id (ck : command * K) : Prop := ck.1 = CState id.

Lemma wp_wait_loop fuel id endtime Q E h :
  (0 < fuel)%nat → endtime - monotonic (sys h) ≤ WAIT_SLEEP_INTERVAL * (Z.of_nat fuel - 1) →
  (∀ (b : bool) l h', since h l h' → Forall (asks id) l → (length l ≤ fuel)%nat →
     (if b then live (sys h') id = false else endtime ≤ monotonic (sys h')) → Q b h') →
  (∀ e l h', since h l h' → Forall (asks id) l → (length l ≤ fuel)%nat →
     exn_of e ∈ state_errors → E e h') →
  pwp (wait_loop fuel id endtime) Q E h.
Proof.
  revert h Q E. induction fuel as [|fuel IH]; intros h Q E Hf Ht HQ HE; [lia|].
  unfold WAIT_SLEEP_INTERVAL in Ht. cbn [wait_loop]. apply pwp_bind, pwp_get.
  destruct (Z.ltb_spec (monotonic (sys h)) endtime) as [Hlt|Hge].
  2: { apply pwp_ret, (HQ false []); [apply since_refl|done|simpl; lia|done]. }
  apply pwp_bind, wp_get_state.
  2: { intros e h' Hs He. apply (HE e [(CState id, sys h)]); [done| |simpl; lia|done]. by constructor. }
  intros s h1 Hs Hd. destruct (decide (s = STOPPED)) as [Heq|_].
  { apply pwp_ret, (HQ true [(CState id, sys h)]); [done|by constructor|simpl; lia|by apply Hd]. }
  apply pwp_bind, pwp_put. set (h2 := {| sys := _; commands := _ |}).
  pose proof (time_sleep WAIT_SLEEP_INTERVAL (sys h1) ltac:(by vm_compute)) as Hsl.
  unfold WAIT_SLEEP_INTERVAL in Hsl. destruct Hs as [Hc Hm].
  assert (Hs2 : since h [(CState id, sys h)] h2) by (split; [exact Hc|simpl; unfold WAIT_SLEEP_INTERVAL; lia]).
  apply IH; [lia|simpl; unfold WAIT_SLEEP_INTERVAL; lia| |].
  - intros b l h' Hl Ha Hn Hb. apply (HQ b ([(CState id, sys h)] ++ l));
      [by eapply since_trans|by constructor|simpl; lia|done].
  - intros e l h' Hl Ha Hn He. apply (HE e ([(CState id, sys h)] ++ l));
      [by eapply since_trans|by constructor|simpl; lia|done].
Qed.

Lemma timeout_message id timeout :
  plain id →
  occurs (state_value DOES_NOT_EXIST)
    ("'" ++ id ++ "' was not stopped after '" ++ str_int timeout ++ "' seconds") = false.
Proof.
  intros Hp. pose proof (Hp DOES_NOT_EXIST) as Hid.
  change ("'" ++ id ++ _) with ([] ++ quote :: id ++ quote :: " was not stopped after " ++ quote ::
    str_int timeout ++ quote :: " seconds").
  assert (quote ∉ state_value DOES_NOT_EXIST) as Hq by (apply (bool_decide_unpack _); vm_compute; exact I).
  rewrite !occurs_stop, Hid by (done || set_solver).
  assert (occurs (state_value DOES_NOT_EXIST) (str_int timeout) = false) as ->; [|by vm_compute].
  apply (occurs_absent "d"%char "oes not exist").
  intros [Hc|Hc]%str_int_chars; [by vm_compute in Hc|done].
Qed.

(** The number of times the state is asked for in [timeout] seconds. *)
Definition wait_bound (timeout : Z) : nat := S (wait_fuel timeout).

Lemma wp_wait id timeout Q E h :
  plain id →
  (∀ l h', since h l h' → Forall (asks id) l → (length l ≤ wait_bound timeout)%nat →
     live (sys h') id = false → Q tt h') →
  (∀ e l h', since h l h' → Forall (asks id) l → (length l ≤ wait_bound timeout)%nat →
     exn_of e ∈ state_errors ∨
     exn_of e = AppStopTimeoutError ∧ denial id e h' ∧
       monotonic (sys h) + timeout * 1000 ≤ monotonic (sys h') →
     E e h') →
  pwp (_wait_for_app_stop id timeout) Q E h.
Proof.
  intros Hp HQ HE. apply pwp_bind, pwp_get, pwp_bind, wp_wait_loop.
  - unfold wait_fuel. lia.
  - unfold wait_fuel, WAIT_SLEEP_INTERVAL. pose proof (Z.div_mod (timeout * 1000) 100).
    pose proof (Z.mod_pos_bound (timeout * 1000) 100). lia.
  - intros b l h1 Hs Ha Hl Hb. unfold wait_bound in *. destruct b.
    { apply pwp_ret, (HQ l); try done. lia. }
    apply pwp_bind, wp_get_state.
    + intros s h2 Hs2 Hd. destruct (decide (s = STOPPED)) as [Heq|_].
      * apply pwp_ret, (HQ (l ++ [(CState id, sys h1)])); [by eapply since_trans| | |by apply Hd].
        -- apply Forall_app. split; [done|by constructor].
        -- rewrite length_app. simpl. lia.
      * apply pwp_raise, (HE _ (l ++ [(CState id, sys h1)])); [by eapply since_trans| | |].
        -- apply Forall_app. split; [done|by constructor].
        -- rewrite length_app. simpl. lia.
        -- right. split; [done|]. split; [|destruct Hs2; lia].
           unfold denial, says. cbn [exn_str]. by rewrite timeout_message.
    + intros e h2 Hs2 He. apply (HE e (l ++ [(CState id, sys h1)])); [by eapply since_trans| | |by left].
      * apply Forall_app. split; [done|by constructor].
      * rewrite length_app. simpl. lia.
  - intros e l h' Hs Ha Hl He. apply (HE e l); [done..| |by left]. unfold wait_bound. lia.
Qed.

(** *** Ending an application *)

(** What the manager may run to end [id]: only commands on it; a deletion when
    its process is gone; SIGKILL not before [deadline]. *)
Definition orderly id (deadline : Z) (ck : command * K) : Prop :=
  match ck.1 with
  | CState i => i = id
  | CKill i s => i = id ∧ (s = SIGKILL → deadline ≤ monotonic ck.2)
  | CDelete i => i = id ∧ live ck.2 id = false
  | _ => False
  end.

Definition end_errors : list exn_class :=
  [ContainerKillError; ContainerDeleteError; AppStopTimeoutError; ContainerStateError; TypeErr;
   FileNotFound].

(** The exception that ends it, with what its text may say. *)
Definition ended id (e : exn) h' : Prop :=
  exn_of e ∈ end_errors ∧ (exn_of e ∈ [ContainerKillError; ContainerDeleteError; AppStopTimeoutError] → denial id e h').

Lemma ended_state id e h' : exn_of e ∈ state_errors → ended id e h'.
Proof.
  unfold ended, end_errors, state_errors. intros He. split; [set_solver|].
  intros Hc. exfalso. clear -He Hc. rewrite !elem_of_cons, elem_of_nil in He, Hc. naive_solver congruence.
Qed.

Lemma ended_denial id e h' :
  exn_of e ∈ [ContainerKillError; ContainerDeleteError; AppStopTimeoutError] → denial id e h' → ended id e h'.
Proof. unfold ended, end_errors. intros He Hd. split; [set_solver|done]. Qed.

Lemma ended_not_found id e h' : exn_of e = FileNotFound → ended id e h'.
Proof. intros He. apply ended_state. rewrite He. set_solver. Qed.
#[local] Hint Resolve ended_state ended_not_found : core.

(** The commands since [h] are orderly and not many. *)
Definition ran id deadline (n : nat) h h' : Prop :=
  ∃ l, since h l h' ∧ Forall (orderly id deadline) l ∧ (length l ≤ n)%nat.

Lemma ran_trans id d n1 n2 h1 h2 h3 :
  ran id d n1 h1 h2 → ran id d n2 h2 h3 → ran id d (n1 + n2) h1 h3.
Proof.
  intros (l1 & S1 & A1 & N1) (l2 & S2 & A2 & N2). exists (l1 ++ l2).
  split_and!; [by eapply since_trans|by apply Forall_app|rewrite length_app; lia].
Qed.

Lemma ran_one id d c h h' : since h [(c, sys h)] h' → orderly id d (c, sys h) → ran id d 1 h h'.
Proof. intros Hs Ho. exists [(c, sys h)]. split_and!; [done|by constructor|simpl; lia]. Qed.

Lemma ran_mono id d n n' h h' : (n ≤ n')%nat → ran id d n h h' → ran id d n' h h'.
Proof. intros Hn (l & ? & ? & ?). exists l. split_and!; [done..|lia]. Qed.

Lemma ran_asks id d n h h' l :
  since h l h' → Forall (asks id) l → (length l ≤ n)%nat → ran id d n h h'.
Proof.
  intros Hs Ha Hn. exists l. split_and!; [done| |done]. eapply Forall_impl; [exact Ha|].
  intros [c k] Hc. unfold asks in Hc. unfold orderly. simpl in *. by rewrite Hc.
Qed.

(** Collects the runs of the context. *)
Ltac ran_by :=
  eapply ran_mono; cycle 1; [solve [eauto 4 using ran_trans]|lia].

(** The exceptions the two handlers let through. *)
Lemma not_handled e c (cs : list exn_class) : exn_of e ∈ cs → c ∉ cs → c ≠ OSErr → isinstance e [c] = false.
Proof.
  intros He Hc Ho. unfold isinstance.
  rewrite (bool_decide_false (exn_of e ∈ [c])), (bool_decide_false (OSErr ∈ [c])).
  - apply andb_false_r.
  - by intros ?%list_elem_of_singleton.
  - intros ?%list_elem_of_singleton. by subst.
Qed.

Lemma handled e c : exn_of e = c → isinstance e [c] = true.
Proof. intros <-. unfold isinstance. by rewrite bool_decide_true by set_solver. Qed.

(** The handler's answer to a refused signal: the process is gone, so the
    container is deleted. *)
Lemma wp_delete_dead id d Q E h :
  plain id → live (sys h) id = false →
  (∀ h', ran id d 1 h h' → container (sys h') id = None → Q tt h') →
  (∀ e h', ran id d 1 h h' → ended id e h' → E e h') →
  pwp (delete id) Q E h.
Proof.
  intros Hp Hl HQ HE. apply wp_delete; [done|..].
  - intros h' Hs Hc. apply HQ; [|done]. eapply ran_one; [exact Hs|by split].
  - intros e h' Hs He. apply HE; [eapply ran_one; [exact Hs|by split]|].
    destruct He as [He|[He Hd]]; [auto|]. apply ended_denial; [rewrite He; set_solver|done].
Qed.

Definition kill_bound (timeout : Z) : nat := wait_bound timeout + 2.

Lemma wp_kill_app id timeout d Q E h :
  plain id → d ≤ monotonic (sys h) →
  (∀ h', ran id d (kill_bound timeout) h h' → container (sys h') id = None → Q tt h') →
  (∀ e h', ran id d (kill_bound timeout) h h' → ended id e h' → E e h') →
  pwp (kill_app id timeout) Q E h.
Proof.
  intros Hp Hd HQ HE. unfold kill_bound in *.
  assert (Hk : orderly id d (CKill id SIGKILL, sys h)) by by split.
  apply pwp_try_else, wp_kill; [done| |].
  - intros h1 Hs1. pose proof (ran_one _ _ _ _ _ Hs1 Hk) as R1. apply pwp_bind, wp_wait; [done|..].
    + intros l h2 Hs2 Ha Hl Hlive. pose proof (ran_asks id d _ _ _ _ Hs2 Ha Hl) as R2.
      apply (wp_delete_dead id d); [done|done| |].
      * intros h3 R3 Hgone. apply HQ; [|done].
        ran_by.
      * intros e h3 R3 He. apply HE; [|done].
        ran_by.
    + intros e l h2 Hs2 Ha Hl He. pose proof (ran_asks id d _ _ _ _ Hs2 Ha Hl) as R2.
      apply HE; [ran_by|].
      destruct He as [He|(He & Hd' & _)]; [auto|]. apply ended_denial; [rewrite He; set_solver|done].
  - intros e h1 Hs1 He. pose proof (ran_one _ _ _ _ _ Hs1 Hk) as R1. destruct He as [He|(He & Hdead & Hgone)].
    + rewrite (not_handled e ContainerKillError [FileNotFound]) by (set_solver || done).
      apply HE; [ran_by|auto].
    + rewrite handled by done. destruct (_ || _).
      * apply (wp_delete_dead id d); [done|by apply Hdead| |].
        -- intros h2 R2 Hgone2. apply HQ; [|done].
           ran_by.
        -- intros e2 h2 R2 He2. apply HE; [|done].
           ran_by.
      * apply HE; [ran_by|apply ended_denial; [rewrite He; set_solver|done]].
Qed.

Definition terminate_bound (sigterm_timeout sigkill_timeout : Z) : nat :=
  1 + wait_bound sigterm_timeout + kill_bound sigkill_timeout.

Lemma wp_terminate_app id t1 t2 Q E h :
  plain id →
  let d := monotonic (sys h) + t1 * 1000 in
  (∀ h', ran id d (terminate_bound t1 t2) h h' → container (sys h') id = None → Q tt h') →
  (∀ e h', ran id d (terminate_bound t1 t2) h h' → ended id e h' → E e h') →
  pwp (terminate_app id t1 t2) Q E h.
Proof.
  intros Hp d HQ HE. unfold terminate_bound, kill_bound in *.
  assert (Hk : orderly id d (CKill id SIGTERM, sys h)) by by split.
  apply pwp_try_else, wp_kill; [done| |].
  - intros h1 Hs1. pose proof (ran_one _ _ _ _ _ Hs1 Hk) as R1. apply pwp_try_else, wp_wait; [done|..].
    + intros l h2 Hs2 Ha Hl Hlive. pose proof (ran_asks id d _ _ _ _ Hs2 Ha Hl) as R2.
      apply (wp_delete_dead id d); [done|done| |].
      * intros h3 R3 Hgone. apply HQ; [ran_by|done].
      * intros e h3 R3 He. apply HE; [ran_by|done].
    + intros e l h2 Hs2 Ha Hl He. pose proof (ran_asks id d _ _ _ _ Hs2 Ha Hl) as R2.
      destruct He as [He|(He & _ & Ht)].
      * rewrite (not_handled e AppStopTimeoutError state_errors); [|done|set_solver|done].
        apply HE; [ran_by|auto].
      * rewrite handled by done. destruct Hs1 as [_ Hm1]. apply (wp_kill_app id t2 d); [done|unfold d; lia| |].
        -- intros h3 R3 Hgone. unfold kill_bound in R3. apply HQ; [ran_by|done].
        -- intros e3 h3 R3 He3. unfold kill_bound in R3. apply HE; [ran_by|done].
  - intros e h1 Hs1 He. pose proof (ran_one _ _ _ _ _ Hs1 Hk) as R1. destruct He as [He|(He & Hdead & Hgone)].
    + rewrite (not_handled e ContainerKillError [FileNotFound]) by (set_solver || done).
      apply HE; [ran_by|auto].
    + rewrite handled by done. destruct (_ || _).
      * apply (wp_delete_dead id d); [done|by apply Hdead| |].
        -- intros h2 R2 Hgone2. apply HQ; [ran_by|done].
        -- intros e2 h2 R2 He2. apply HE; [ran_by|done].
      * destruct (says e DOES_NOT_EXIST) eqn:Hsays; [apply HQ; [ran_by|by apply Hgone]|].
        apply HE; [ran_by|apply ended_denial; [rewrite He; set_solver|done]].
Qed.

(** C18: [terminate_app] ends the application in order and in time. It always
    ends, after a number of commands that the two timeouts bound; when it
    returns, the container is gone; otherwise it raises one of six classes.
    Whatever runc answers, it only runs commands on this application, deletes
    the container only when its process is gone, and sends SIGKILL only after
    SIGTERM had its full time. *)
Theorem terminate_app_ends id t1 t2 h :
  plain id →
  ran id (monotonic (sys h) + t1 * 1000) (terminate_bound t1 t2) h
    (pstate (terminate_app id t1 t2 h)) ∧
  match terminate_app id t1 t2 h with
  | Ret _ h' => container (sys h') id = None
  | Raise e _ => exn_of e ∈ end_errors
  end.
Proof.
  intros Hp. set (d := monotonic (sys h) + t1 * 1000).
  assert (pwp (terminate_app id t1 t2)
    (λ _ h', ran id d (terminate_bound t1 t2) h h' ∧ container (sys h') id = None)
    (λ e h', ran id d (terminate_bound t1 t2) h h' ∧ ended id e h') h) as Hw
    by (apply wp_terminate_app; auto).
  unfold pwp, ended in Hw. destruct (terminate_app id t1 t2 h); naive_solver.
Qed.
End termination.
