(* ===== verification/AppManager.v ===== *)
(** * mbl-app-manager

    [firmware-management/mbl-app-manager]: [parser.py] reads the control data
    that [opkg info] prints, [manager.py] installs a package at a path of its
    own, cleans up after a failed installation and removes an application with
    its directory. The constructor only sets a variable of the environment that
    opkg reads; it is part of what the parameter [execute] stands for. *)

From stdpp Require Import base gmap strings sets list.
From Stdlib Require Import ZArith Ascii Lia.
From S2P Require Import Prelude.
From S2P Require Import Py.
From S2P Require Import AppLifecycle.
From S2P Require Import AppVersions.

Open Scope Z_scope.
Open Scope list_scope.

(** ** parser.py *)

(** [str.split] *)
Fixpoint split_on (sep : ascii) (s : cstring) : list cstring :=
  match s with
  | [] => [[]]
  | c :: s' =>
      if decide (c = sep) then [] :: split_on sep s'
      else
        match split_on sep s' with
        | [] => [[c]]
        | x :: xs => (c :: x) :: xs
        end
  end.

Abbreviation info := (gmap cstring cstring).

Definition colon : ascii := ":"%char.
Definition Package : cstring := "Package".

(** The loop over the lines: a line without a colon is skipped, and a line with
    two of them cannot be unpacked. *)
Fixpoint parse_lines {S : Type} (pkg_info : info) (lines : list cstring) : P S info :=
  match lines with
  | [] => mret pkg_info
  | line :: lines' =>
      match split_on colon line with
      | [_] => parse_lines pkg_info lines'
      | [field; value] => parse_lines (<[rstrip field := lstrip value]> pkg_info) lines'
      | _ => raise ValueErr "too many values to unpack (expected 2)"
      end
  end.

Section manager.
Context {K : Type} `{System K}.

Definition parse_app_info (app_pkg : cstring) : P (host K) info :=
  process ← subprocess_run (CInfo app_pkg);
  if failed process then
    raise AppInfoParserError
      ("Getting package info from '" ++ app_pkg ++ "' failed, error: " ++ output process)
  else
    pkg_info ← parse_lines ∅ (split_on newline (output process));
    match pkg_info !! Package with
    | None =>
        raise AppInfoParserError ("'" ++ app_pkg ++ "' control data does not have a 'Package' field")
    | Some _ => mret pkg_info
    end.

(** ** manager.py *)

Definition py_item (key : cstring) (m : info) : P (host K) cstring :=
  match m !! key with Some v => mret v | None => raise KeyErr key end.

Definition get_app_name (app_pkg : cstring) : P (host K) cstring :=
  try_else (i ← parse_app_info app_pkg; py_item Package i) [AppInfoParserError]
    (λ error,
       raise AppIdError
         ("Getting the app name from '" ++ app_pkg ++ "' failed, error: " ++ exn_str error))
    (λ app_name, mret app_name).

(** [os.listdir] *)
Definition listdir (path : cstring) : P (host K) (list cstring) :=
  e ← pget (λ h, entry (sys h) path);
  match e with
  | Some (Dir entries) => mret (entries.*1)
  | None => raise FileNotFound path
  | Some _ => raise OSErr path
  end.

Definition remove_app (app_name app_path : cstring) : P (host K) unit :=
  found ← pget (λ h, isdir app_path (sys h));
  if negb found then
    raise AppPathInexistent ("The application path '" ++ app_path ++ "' does not exist")
  else
    process ← subprocess_run (CRemove (app_name ++ ":" ++ app_path) app_name);
    if failed process then
      raise AppUninstallError
        ("Removing '" ++ app_name ++ "' at '" ++ app_path ++ "' failed, error: " ++
         output_or_code process)
    else
      app_parent_dir ← pget (λ h, dirname (resolve (sys h) app_path));
      py_rmtree app_path;;
      entries ← listdir app_parent_dir;
      if bool_decide (entries = []) && negb (bool_decide (app_parent_dir = APPS_PATH))
      then py_rmtree app_parent_dir
      else mret tt.

Definition install_app (app_pkg app_path : cstring) : P (host K) unit :=
  app_name ← get_app_name app_pkg;
  process ← subprocess_run (CInstall (app_name ++ ":" ++ app_path) app_pkg);
  if failed process then
    found ← pget (λ h, bool_decide (is_Some (entry (sys h) app_path)));
    (if (found : bool) then remove_app app_name app_path else mret tt);;
    raise AppInstallError
      ("Installing '" ++ app_pkg ++ "' at '" ++ app_path ++ "' failed, error: '" ++
       output_or_code process ++ "'")
  else mret tt.

Definition force_install_app (app_pkg app_path : cstring) : P (host K) unit :=
  found ← pget (λ h, isdir app_path (sys h));
  (if (found : bool) then
     app_name ← get_app_name app_pkg;
     remove_app app_name app_path
   else mret tt);;
  install_app app_pkg app_path.

Definition list_installed_apps (apps_path : cstring) : P (host K) unit :=
  app_bundles ← get_oci_bundle_paths apps_path;
  for_each app_bundles (λ app_bundle,
    let app_name := basename (dirname app_bundle) in
    process ← subprocess_run (CListInstalled (app_name ++ ":" ++ app_bundle));
    if failed process then
      raise AppListingError
        ("Listing installed apps at '" ++ join apps_path app_name ++ "' failed, error: '" ++
         output_or_code process ++ "'")
    else mret tt).
End manager.
