(* ===== verification/AppManagerProps.v ===== *)
(** * mbl-app-manager: control data and installation

    What [parse_app_info] makes of any control data, that it reads back what a
    package with plain fields says, and what a failed installation leaves. *)

From stdpp Require Import base gmap strings sets list.
From Stdlib Require Import ZArith Ascii Lia.
From S2P Require Import Prelude.
From S2P Require Import Py.
From S2P Require Import AppLifecycle.
From S2P Require Import AppVersions.
From S2P Require Import AppManager.

Open Scope Z_scope.
Open Scope list_scope.

(** ** [str.split] *)

Lemma split_on_absent sep s : sep ∉ s → split_on sep s = [s].
Proof.
  induction s as [|c s IH]; intros Hs; simpl; [done|].
  rewrite decide_False by set_solver. rewrite IH by set_solver. done.
Qed.

Lemma split_on_app sep s t : sep ∉ s → split_on sep (s ++ sep :: t) = s :: split_on sep t.
Proof.
  induction s as [|c s IH]; intros Hs; simpl; [by rewrite decide_True|].
  rewrite decide_False by set_solver. rewrite IH by set_solver. done.
Qed.

(** The number of separators, and of pieces. *)
Definition count (sep : ascii) (s : cstring) : nat := length (filter (λ c, c = sep) s).

Lemma split_on_length sep s : length (split_on sep s) = S (count sep s).
Proof.
  unfold count. induction s as [|c s IH]; simpl; [done|]. rewrite filter_cons.
  destruct (decide (c = sep)); simpl; [by rewrite IH|].
  rewrite <- IH. by destruct (split_on sep s).
Qed.

(** ** The loop over the lines *)

(** The field of a line, when it has one. *)
Definition line_field (line : cstring) : option (cstring * cstring) :=
  match split_on colon line with
  | [field; value] => Some (rstrip field, lstrip value)
  | _ => None
  end.

(** A dictionary of fields; a repeated field has its last value. *)
Definition update_all (m : gmap cstring cstring) (l : list (cstring * cstring)) : gmap cstring cstring :=
  foldl (λ m fv, <[fv.1 := fv.2]> m) m l.
Definition dict_of (l : list (cstring * cstring)) : gmap cstring cstring := update_all ∅ l.

Definition fields (lines : list cstring) : gmap cstring cstring := dict_of (omap line_field lines).

Lemma parse_lines_result {S : Type} (lines : list cstring) m (s : S) :
  parse_lines m lines s =
  if decide (Forall (λ l, (count colon l ≤ 1)%nat) lines)
  then Ret (update_all m (omap line_field lines)) s
  else Raise {| exn_of := ValueErr; exn_str := "too many values to unpack (expected 2)" |} s.
Proof.
  revert m. induction lines as [|l lines IH]; intros m; [done|].
  cbn [parse_lines omap list_omap]. unfold line_field at 1. pose proof (split_on_length colon l) as Hl.
  destruct (split_on colon l) as [|f [|v [|w x]]] eqn:Hs; simpl in Hl; [done| | |].
  - rewrite IH. apply decide_ext. rewrite Forall_cons. split; [|tauto]. intros ?. split; [lia|done].
  - rewrite IH. simpl. apply decide_ext. rewrite Forall_cons. split; [|tauto]. intros ?. split; [lia|done].
  - rewrite decide_False; [done|]. rewrite Forall_cons. lia.
Qed.

(** ** Round trip *)

Definition stripped (s : cstring) : Prop := lstrip s = s ∧ rstrip s = s.

(** Fields as a control file has them, one on a line. *)
Record plain_field (fv : cstring * cstring) : Prop := {
  field_stripped : rstrip fv.1 = fv.1;
  value_stripped : lstrip fv.2 = fv.2;
  field_plain : colon ∉ fv.1 ∧ newline ∉ fv.1;
  value_plain : colon ∉ fv.2 ∧ newline ∉ fv.2
}.

Definition render_field (fv : cstring * cstring) : cstring := fv.1 ++ ": " ++ fv.2.
Fixpoint render (l : list (cstring * cstring)) : cstring :=
  match l with
  | [] => []
  | fv :: l' => render_field fv ++ newline :: render l'
  end.

Lemma render_field_plain fv : plain_field fv → newline ∉ render_field fv.
Proof.
  intros [_ _ [_ Hf] [_ Hv]]. unfold render_field.
  rewrite !elem_of_app. intros [?|[Hc|?]]; [done| |done].
  revert Hc. apply (bool_decide_unpack (newline ∉ _)). vm_compute. exact I.
Qed.

Lemma split_render l : Forall plain_field l → split_on newline (render l) = (render_field <$> l) ++ [[]].
Proof.
  induction 1 as [|fv l Hfv _ IH]; [done|]. cbn [render].
  by rewrite split_on_app, IH by (by apply render_field_plain).
Qed.

Lemma line_of_field fv : plain_field fv → line_field (render_field fv) = Some fv ∧ count colon (render_field fv) = 1%nat.
Proof.
  intros [Hf Hv [Hcf _] [Hcv _]]. unfold line_field, render_field.
  change (": " ++ fv.2) with (colon :: " "%char :: fv.2).
  assert (split_on colon (fv.1 ++ colon :: " "%char :: fv.2) = [fv.1; " "%char :: fv.2]) as Hs.
  { rewrite split_on_app, split_on_absent by set_solver. done. }
  split.
  - rewrite Hs. cbn [lstrip]. change (is_space " ") with true. cbn iota. rewrite Hf, Hv. by destruct fv.
  - pose proof (split_on_length colon (fv.1 ++ colon :: " "%char :: fv.2)) as Hl.
    rewrite Hs in Hl. simpl in Hl. lia.
Qed.

(** ** parse_app_info *)

Section manager.
Context {K : Type} `{System K}.
Implicit Types h : host K.

Definition after c h : host K :=
  {| sys := (execute c (sys h)).2; commands := commands h ++ [(c, sys h)] |}.

Lemma run_reply c h r :
  (execute c (sys h)).1 = Some r → subprocess_run c h = Ret r (after c h).
Proof. unfold subprocess_run, after. destruct (execute c (sys h)) as [? k]. simpl. by intros ->. Qed.

(** What [parse_app_info] gives for the lines of the control data. *)
Definition info_of (lines : list cstring) : gmap cstring cstring + exn_class :=
  if decide (Forall (λ l, (count colon l ≤ 1)%nat) lines) then
    match fields lines !! Package with
    | Some _ => inl (fields lines)
    | None => inr AppInfoParserError
    end
  else inr ValueErr.

Definition class_of {S A} (r : pres S A) : A + exn_class :=
  match r with Ret a _ => inl a | Raise e _ => inr (exn_of e) end.

(** The control data of a package with plain fields is read back: a repeated
    field has its last value. *)
Lemma info_of_render l v :
  Forall plain_field l → dict_of l !! Package = Some v →
  info_of (split_on newline (render l)) = inl (dict_of l).
Proof.
  intros Hl Hv. rewrite split_render by done. unfold info_of.
  assert (Forall (λ l, (count colon l ≤ 1)%nat) ((render_field <$> l) ++ [[]])) as Hc.
  { apply Forall_app. split; [|by repeat constructor]. apply Forall_fmap. eapply Forall_impl; [exact Hl|].
    intros fv Hfv. simpl. destruct (line_of_field fv Hfv) as [_ ->]. done. }
  rewrite decide_True by done.
  assert (omap line_field ((render_field <$> l) ++ [[]]) = l) as Ho.
  { rewrite omap_app. simpl. rewrite (right_id_L [] (++)). clear -Hl.
    induction Hl as [|fv l Hfv _ IH]; [done|]. simpl. destruct (line_of_field fv Hfv) as [-> _]. f_equal. exact IH. }
  unfold fields. by rewrite Ho, Hv.
Qed.

(** The name of a package. When [opkg info] succeeds, [parse_app_info]
    returns the fields of the control data (of a repeated field the last value)
    if every line has at most one colon and there is a [Package] field; without
    that field it raises its own error; a line with two colons, an address of a
    web page for example, is a [ValueError], which no caller in the repository
    handles. Control data of plain fields is read back exactly. *)
Theorem parse_app_info_result pkg h r :
  (execute (CInfo pkg) (sys h)).1 = Some r → failed r = false →
  class_of (parse_app_info pkg h) = info_of (split_on newline (output r)) ∧
  pstate (parse_app_info pkg h) = after (CInfo pkg) h ∧
  ∀ l v, Forall plain_field l → output r = render l →
    dict_of l !! Package = Some v →
    parse_app_info pkg h = Ret (dict_of l) (after (CInfo pkg) h).
Proof.
  intros Hr Hf.
  assert (class_of (parse_app_info pkg h) = info_of (split_on newline (output r)) ∧
    pstate (parse_app_info pkg h) = after (CInfo pkg) h) as [Hc Hs].
  { unfold parse_app_info. rewrite (pbind_ret _ _ _ _ _ (run_reply _ _ _ Hr)), Hf.
    unfold mbind, P_bind. rewrite parse_lines_result. unfold info_of. case_decide; [|done].
    fold (dict_of (omap line_field (split_on newline (output r)))).
    fold (fields (split_on newline (output r))). by destruct (fields _ !! Package). }
  split; [done|]. split; [done|]. intros l v Hl Ho Hv.
  rewrite Ho, (info_of_render l v Hl Hv) in Hc. destruct (parse_app_info pkg h); simpl in *; congruence.
Qed.
End manager.
