(* ===== verification/AppUpdate.v ===== *)
(** * mbl-app-update-manager

    [firmware-management/mbl-app-update-manager]: an update package is a tar
    archive of packages. [manager.py] unpacks it, installs each application
    beside its current version, stops the current versions, runs the new ones
    and removes the old ones; when a version cannot be stopped or started it
    goes back to the previous ones. *)

From stdpp Require Import base gmap strings sets list.
From Stdlib Require Import ZArith Ascii Lia.
From S2P Require Import Prelude.
From S2P Require Import Py.
From S2P Require Import AppLifecycle.
From S2P Require Import AppVersions.
From S2P Require Import AppManager.

Open Scope Z_scope.
Open Scope list_scope.

(** ** The archive *)

Record tar_info := { tar_name : cstring; isfile : bool }.

(** What [tarfile] makes of a file: it cannot be read, it is no archive, or its
    members, which end in an error when the archive is damaged. *)
Inductive archive :=
| Unreadable
| NotATarFile
| Archive (members : list tar_info) (damaged : bool).

Class Tar (K : Type) := {
  tar_file : cstring → K → archive;
  (** the exception it raises, and what it left on the disk *)
  extractall : cstring → cstring → list cstring → K → option exn * K
}.

(** ** The object *)

Record AppRecord := {
  name : cstring;
  cur_bundle_path : option cstring;
  new_bundle_path : cstring;
  ipk_path : cstring
}.

Inductive path_attr := CURRENT_BUNDLE_PATH | NEW_BUNDLE_PATH.

Definition getattr (app : AppRecord) (a : path_attr) : option cstring :=
  match a with CURRENT_BUNDLE_PATH => cur_bundle_path app | NEW_BUNDLE_PATH => Some (new_bundle_path app) end.

(** [self], with the host it works on. *)
Record AppUpdateManager (K : Type) := {
  _ipks : list cstring;
  _installed_apps : list AppRecord;
  update_pkg : cstring;
  the_host : host K
}.
Arguments _ipks {K} a. Arguments _installed_apps {K} a. Arguments update_pkg {K} a.
Arguments the_host {K} a.

Definition set_host {K} (h : host K) (m : AppUpdateManager K) : AppUpdateManager K :=
  {| _ipks := _ipks m; _installed_apps := _installed_apps m; update_pkg := update_pkg m; the_host := h |}.

(** A function of the other packages. *)
Definition on_host {K A} (f : P (host K) A) : P (AppUpdateManager K) A :=
  λ m,
  match f (the_host m) with
  | Ret a h => Ret a (set_host h m)
  | Raise e h => Raise e (set_host h m)
  end.

Definition ROLLBACK_EXCEPTIONS : list exn_class :=
  [ContainerKillError; ContainerDeleteError; AppPathInexistent; AppUninstallError;
   AppStopTimeoutError; ContainerCreationError; ContainerStartError].

Definition TERMINATE_EXCEPTIONS : list exn_class :=
  [ContainerKillError; ContainerDeleteError; AppStopTimeoutError].

Definition RUN_EXCEPTIONS : list exn_class := [ContainerCreationError; ContainerStartError].

Definition IPKS_EXCTRACTION_PATH : cstring := "/mnt/cache/opkg/src_ipk".
Definition APPS_INSTALLATION_PATH : cstring := "/home/app".

Definition lower (c : ascii) : ascii :=
  let n := nat_of_ascii c in
  if (65 <=? n)%nat && (n <=? 90)%nat then ascii_of_nat (n + 32) else c.

Definition endswith (suffix s : cstring) : bool := prefix_of (reverse suffix) (reverse s).

(** [utils.human_sort] is a copy of [alphanum_sort]. *)
Definition human_sort : list cstring → list cstring := alphanum_sort.

Section manager.
Context {K : Type} `{System K} `{Tar K}.
Implicit Types app : AppRecord.

Definition self {A} (f : AppUpdateManager K → A) : P (AppUpdateManager K) A := pget f.

(** *** unpack *)

Definition _validate_archive_member (info : tar_info) : P (AppUpdateManager K) bool :=
  pkg ← self update_pkg;
  if negb (endswith ".ipk" (lower <$> tar_name info)) then mret false
  else if negb (isfile info) then
    raise IllegalPackage ("'" ++ tar_name info ++ "' found in package '" ++ pkg ++ "' isn't regular file")
  else if negb (bool_decide (dirname (tar_name info) = [])) then
    raise IllegalPackage ("Directories are not expected to be found in package '" ++ pkg ++
      "' however '" ++ tar_name info ++ "' was found")
  else mret true.

Definition append_ipk (n : cstring) (m : AppUpdateManager K) : AppUpdateManager K :=
  {| _ipks := _ipks m ++ [n]; _installed_apps := _installed_apps m; update_pkg := update_pkg m;
     the_host := the_host m |}.

Definition _get_ipks_from_pkg (members : list tar_info) (damaged : bool)
  : P (AppUpdateManager K) unit :=
  for_each members (λ info,
    valid ← _validate_archive_member info;
    if (valid : bool) then pput (append_ipk (tar_name info)) else mret tt);;
  if damaged then raise TarError "unexpected end of data" else mret tt.

Definition extract : P (AppUpdateManager K) unit :=
  λ m,
  let (r, k) := extractall IPKS_EXCTRACTION_PATH (update_pkg m) (_ipks m) (sys (the_host m)) in
  let m' := set_host {| sys := k; commands := commands (the_host m) |} m in
  match r with None => Ret tt m' | Some e => Raise e m' end.

Definition unpack : P (AppUpdateManager K) unit :=
  pkg ← self update_pkg;
  file ← self (λ m, tar_file (update_pkg m) (sys (the_host m)));
  match file with
  | Unreadable => raise OSErr pkg
  | NotATarFile => raise IllegalPackage ("Package '" ++ pkg ++ "' is not a tar file")
  | Archive members damaged =>
      _get_ipks_from_pkg members damaged;;
      ipks ← self _ipks;
      if decide (ipks = []) then raise IllegalPackage ("No 'ipk' file found in package '" ++ pkg ++ "'")
      else
        try_except extract [TarError] (λ error,
          raise IllegalPackage ("Unarchiving package '" ++ pkg ++ "' failed, error: " ++ exn_str error))
  end.

(** *** install_apps *)

(** The paths of the current and of the next version; Python's [None] when the
    directory of the application has no bundle. *)
Definition _get_app_bundle_paths (app_name : cstring)
  : P (host K) (option (option cstring * cstring)) :=
  let app_parent_dir := join APPS_INSTALLATION_PATH app_name in
  found ← pget (λ h, isdir app_parent_dir (sys h));
  if negb found then mret (Some (None, join app_parent_dir "0"))
  else
    app_version_dirs ← get_oci_bundle_paths app_parent_dir;
    match human_sort app_version_dirs with
    | [] => mret None
    | current_path :: rest =>
        latest_app_version ← py_int (basename (default current_path (last rest)));
        mret (Some (Some current_path, join app_parent_dir (str_int (latest_app_version + 1))))
    end.

Definition append_app app (m : AppUpdateManager K) : AppUpdateManager K :=
  {| _ipks := _ipks m; _installed_apps := _installed_apps m ++ [app]; update_pkg := update_pkg m;
     the_host := the_host m |}.

Definition _install_app app : P (AppUpdateManager K) unit :=
  on_host (install_app (ipk_path app) (new_bundle_path app));;
  pput (append_app app).

Definition _manage_app_installation (ipk : cstring) : P (AppUpdateManager K) unit :=
  app_name ← on_host (get_app_name ipk);
  paths ← on_host (_get_app_bundle_paths app_name);
  match paths with
  | None => raise TypeErr "cannot unpack non-iterable NoneType object"
  | Some (cur, new) =>
      _install_app {| name := app_name; cur_bundle_path := cur; new_bundle_path := new; ipk_path := ipk |}
  end.

(** [not getattr(app, path_attr)]: no path, or an empty one. *)
Definition path_to_remove app (a : path_attr) : option cstring :=
  match getattr app a with Some (c :: p) => Some (c :: p) | _ => None end.

Definition _remove_apps_bundles (a : path_attr) : P (AppUpdateManager K) unit :=
  apps ← self _installed_apps;
  for_each apps (λ app,
    match path_to_remove app a with
    | None => mret tt
    | Some p => on_host (remove_app (name app) p)
    end).

Definition install_apps : P (AppUpdateManager K) unit :=
  ipks ← self _ipks;
  for_each ipks (λ ipk,
    try_except (_manage_app_installation (join IPKS_EXCTRACTION_PATH ipk)) [AppIdError; AppInstallError]
      (λ install_error,
         try_else (_remove_apps_bundles NEW_BUNDLE_PATH) [AppUninstallError]
           (λ uninstall_error, reraise uninstall_error)
           (λ _, reraise install_error))).

(** *** start_installed_apps *)

Definition stop_app app : P (host K) unit :=
  terminate_app (name app) DEFAULT_TIMEOUT_AFTER_SIGTERM DEFAULT_TIMEOUT_AFTER_SIGKILL.

Definition _stop_all_newly_installed_apps : P (AppUpdateManager K) unit :=
  apps ← self _installed_apps;
  for_each apps (λ app,
    try_except (on_host (stop_app app)) TERMINATE_EXCEPTIONS (λ terminate_error,
      if says terminate_error DOES_NOT_EXIST then mret tt else reraise terminate_error)).

Definition _run_previous_app_versions : P (AppUpdateManager K) unit :=
  apps ← self _installed_apps;
  for_each apps (λ app,
    match path_to_remove app CURRENT_BUNDLE_PATH with
    | None => mret tt
    | Some p => on_host (run_app (name app) p)
    end).

Definition _rollback_apps : P (AppUpdateManager K) unit :=
  _stop_all_newly_installed_apps;;
  _remove_apps_bundles NEW_BUNDLE_PATH;;
  _run_previous_app_versions.

(** The handler both loops have. *)
Definition rollback_and_raise (error : exn) : P (AppUpdateManager K) unit :=
  try_else _rollback_apps ROLLBACK_EXCEPTIONS
    (λ rollback_error, reraise rollback_error)
    (λ _, reraise error).

Definition _stop_running_versions : P (AppUpdateManager K) unit :=
  apps ← self _installed_apps;
  for_each apps (λ app,
    try_except (on_host (stop_app app)) TERMINATE_EXCEPTIONS rollback_and_raise).

Definition _run_new_installed_versions : P (AppUpdateManager K) unit :=
  apps ← self _installed_apps;
  for_each apps (λ app,
    try_except (on_host (run_app (name app) (new_bundle_path app))) RUN_EXCEPTIONS
      rollback_and_raise).

Definition _remove_previous_versions : P (AppUpdateManager K) unit :=
  _remove_apps_bundles CURRENT_BUNDLE_PATH.

Definition start_installed_apps : P (AppUpdateManager K) unit :=
  apps ← self _installed_apps;
  if decide (apps = []) then mret tt
  else
    _stop_running_versions;;
    _run_new_installed_versions;;
    _remove_previous_versions.

(** *** cli.py *)

Definition new_manager (pkg : cstring) (h : host K) : AppUpdateManager K :=
  {| _ipks := []; _installed_apps := []; update_pkg := pkg; the_host := h |}.

Definition run_mbl_app_update_manager : P (AppUpdateManager K) unit :=
  unpack;; install_apps;; start_installed_apps.

(** The exit code for a package. *)
Definition _main : P (AppUpdateManager K) Z :=
  try_else run_mbl_app_update_manager any_exception (λ _, mret 1) (λ _, mret 0).
End manager.
