(* ===== verification/AppUpdateProps.v ===== *)
(** * mbl-app-update-manager: no update loses an application

    What the update relies on: the behaviour of opkg and of the file system
    ([AppLaws]) beside that of runc ([RuncLaws]). What follows: the previous
    versions stay installed until every new version runs, a rollback brings
    back the previous versions, and an update that returns leaves the new
    versions only. *)

From stdpp Require Import base gmap strings sets list.
From Stdlib Require Import ZArith Ascii Lia.
From S2P Require Import Prelude.
From S2P Require Import Py.
From S2P Require Import AppLifecycle.
From S2P Require Import AppVersions.
From S2P Require Import AppLifecycleProps.
From S2P Require Import AppManager.
From S2P Require Import AppManagerProps.
From S2P Require Import AppUpdate.

Open Scope Z_scope.
Open Scope list_scope.

(** ** What opkg and the file system promise *)

(** [q] is [d] or a path below it. *)
Definition within (d q : cstring) : Prop := q = d ∨ (d ++ [slash]) `prefix_of` q.

#[export] Instance within_dec d q : Decision (within d q).
Proof. unfold within. apply _. Defined.

(** The commands that leave the directories alone. *)
Definition quiet (c : command) : bool :=
  match c with
  | CInstall _ _ | CRemove _ _ | CRmtree _ => false
  | _ => true
  end.

(** The commands that leave the container [id] alone. *)
Definition spares (id : cstring) (c : command) : Prop :=
  match c with CCreate _ i _ | CDelete i => i ≠ id | _ => True end.

(** [midway c k k']: a loss of power while [c] runs from [k] can leave [k']. *)
Class PowerLoss (K : Type) `{System K} := { midway : command → K → K → Prop }.

(** [c] ends, in any way, or the power is lost. *)
Definition leaves {K} `{PowerLoss K} (c : command) (k k' : K) : Prop :=
  k' = (execute c k).2 ∨ midway c k k'.

Lemma leaves_end {K} `{PowerLoss K} c (k : K) : leaves c k (execute c k).2.
Proof. by left. Qed.

Class AppLaws (K : Type) `{RuncLaws K} `{!PowerLoss K} := {
  quiet_dirs c k k' q : quiet c = true → leaves c k k' → isdir q k' = isdir q k;
  sleep_dirs d k q : isdir q (sleep d k) = isdir q k;
  install_dirs dest pkg k k' q :
    leaves (CInstall dest pkg) k k' → isdir q k = true → isdir q k' = true;
  remove_dirs n p k k' q :
    colon ∉ n → ¬ within p q → leaves (CRemove (n ++ ":" ++ p) n) k k' → isdir q k' = isdir q k;
  remove_adds_none dest n k k' q :
    leaves (CRemove dest n) k k' → isdir q k = false → isdir q k' = false;
  rmtree_dirs p k k' q : ¬ within p q → leaves (CRmtree p) k k' → isdir q k' = isdir q k;
  rmtree_adds_none p k k' q : leaves (CRmtree p) k k' → isdir q k = false → isdir q k' = false;
  rmtree_done p k r k' q :
    execute (CRmtree p) k = (Some r, k') → failed r = false → within p q → isdir q k' = false;
  empty_dir k d q : entry k d = Some (Dir []) → within d q → q ≠ d → isdir q k = false;
  container_kept c k k' id : spares id c → leaves c k k' → container k' id = container k id;
  container_sleep d k id : container (sleep d k) id = container k id;
  created b id l k r k' :
    execute (CCreate b id l) k = (Some r, k') → failed r = false → container k' id = Some b
}.

(** ** What the steps keep *)

(** [G] holds in every state a command found since the commands [l0], in every
    one that a loss of power while it ran would have left, and now. *)
Definition always {K} `{PowerLoss K} (l0 : list (command * K)) (G : K → Prop) (h : host K) : Prop :=
  ∃ l, commands h = l0 ++ l ∧ Forall (λ ck, G ck.2 ∧ ∀ k, midway ck.1 ck.2 k → G k) l ∧ G (sys h).

Section steps.
Context {K : Type} `{AppLaws K}.
Context (l0 : list (command * K)) (G : K → Prop).
Implicit Types (id p : cstring).

Lemma always_now h : always l0 G h → G (sys h).
Proof. by intros (l & _ & _ & ?). Qed.

Lemma always_mono (G' : K → Prop) h : (∀ k, G k → G' k) → always l0 G h → always l0 G' h.
Proof.
  intros HG (l & Hc & Hl & Hs). exists l. split_and!; [done| |by apply HG].
  eapply Forall_impl; [exact Hl|]. simpl. intros ck [Hc1 Hm]. auto.
Qed.

Lemma always_and (G' : K → Prop) h : always l0 G h → always l0 G' h → always l0 (λ k, G k ∧ G' k) h.
Proof.
  intros (l & Hc & Hl & Hs) (l' & Hc' & Hl' & Hs'). rewrite Hc in Hc'. apply app_inv_head in Hc' as <-.
  exists l. split_and!; [done| |done..]. apply Forall_forall. intros ck Hin.
  rewrite Forall_forall in Hl, Hl'. destruct (Hl ck Hin), (Hl' ck Hin). auto.
Qed.

Lemma always_step h c k :
  always l0 G h → (∀ k', midway c (sys h) k' → G k') → G k →
  always l0 G {| sys := k; commands := commands h ++ [(c, sys h)] |}.
Proof.
  intros (l & Hc & Hl & Hs) Hm Hk. exists (l ++ [(c, sys h)]). split_and!; [|apply Forall_app; by auto|done].
  simpl. by rewrite Hc, (assoc_L (++)).
Qed.

Lemma keeps_run c : (∀ k k', G k → leaves c k k' → G k') → Keeps (always l0 G) (subprocess_run c).
Proof.
  intros Hc h Hh. pose proof (always_now h Hh) as Hs. pose proof (Hc _ _ Hs (leaves_end c (sys h))) as He.
  assert (∀ k', midway c (sys h) k' → G k') as Hm by (intros k' Hk'; apply (Hc (sys h)); [done|by right]).
  unfold subprocess_run. destruct (execute c (sys h)) as [[r|] k]; by apply always_step.
Qed.

(** The commands of runc on one application. *)
Definition about id (c : command) : Prop :=
  match c with
  | CState i | CCreate _ i _ | CStart i | CKill i _ | CDelete i => i = id
  | _ => False
  end.

Section one_app.
Context (id : cstring).
Hypothesis about_keeps : ∀ c k k', about id c → G k → leaves c k k' → G k'.
Hypothesis sleep_keeps : ∀ d k, G k → G (sleep d k).

#[local] Instance keeps_about c : about id c → Keeps (always l0 G) (subprocess_run c).
Proof. intros Hc. apply keeps_run. eauto. Qed.

#[local] Hint Extern 0 (about _ _) => reflexivity : typeclass_instances.

#[local] Instance keeps_get_state : Keeps (always l0 G) (get_state id).
Proof. unfold get_state. keeps_go. Qed.

#[local] Instance keeps_kill s : Keeps (always l0 G) (kill id s).
Proof. unfold kill. keeps_go. Qed.

#[local] Instance keeps_delete : Keeps (always l0 G) (delete id).
Proof. unfold delete. keeps_go. Qed.

#[local] Instance keeps_wait_loop fuel endtime : Keeps (always l0 G) (wait_loop fuel id endtime).
Proof.
  induction fuel as [|fuel IH]; simpl; keeps_go.
  intros h (l & Hc & Hl & Hs). exists l. split_and!; [done|done|by apply sleep_keeps].
Qed.

#[local] Instance keeps_wait timeout : Keeps (always l0 G) (_wait_for_app_stop id timeout).
Proof. unfold _wait_for_app_stop. keeps_go. Qed.

#[local] Instance keeps_kill_app timeout : Keeps (always l0 G) (kill_app id timeout).
Proof. unfold kill_app. keeps_go. Qed.

Lemma keeps_terminate_app t1 t2 : Keeps (always l0 G) (terminate_app id t1 t2).
Proof. unfold terminate_app. keeps_go. Qed.

Lemma keeps_run_app p : Keeps (always l0 G) (run_app id p).
Proof. unfold run_app, create, start. keeps_go. Qed.
End one_app.
End steps.

(** ** The functions of the other packages *)

Definition dirs (D : cstring → Prop) {K} `{System K} (k : K) : Prop := ∀ q, D q → isdir q k = true.

Section functions.
Context {K : Type} `{AppLaws K}.
Context (l0 : list (command * K)) (D : cstring → Prop).
Implicit Types (h : host K) (id p q : cstring).

(** The other containers are the same, and so are the directories. *)
Definition others id (k k' : K) : Prop :=
  (∀ i, i ≠ id → container k' i = container k i) ∧ ∀ q, isdir q k' = isdir q k.

Lemma always_start (G : K → Prop) h : G (sys h) → always (commands h) G h.
Proof. intros Hg. exists []. by rewrite (right_id_L [] (++)). Qed.

Lemma about_quiet id c : about id c → quiet c = true.
Proof. by destruct c. Qed.

Lemma about_dirs id c k k' : about id c → dirs D k → leaves c k k' → dirs D k'.
Proof. intros Ha Hd Hl q Hq. rewrite (quiet_dirs c k k') by (done || by eapply about_quiet). by apply Hd. Qed.

Lemma sleep_dirs_kept d k : dirs D k → dirs D (sleep d k).
Proof. intros Hd q Hq. rewrite sleep_dirs. by apply Hd. Qed.

Lemma about_others id k0 c k k' : about id c → others id k0 k → leaves c k k' → others id k0 k'.
Proof.
  intros Ha [Ho Hq] Hl. split.
  - intros i Hi. rewrite (container_kept c k k'); [by apply Ho| |done]. unfold spares, about in *.
    destruct c; by (done || congruence).
  - intros q. rewrite (quiet_dirs c k k'); [apply Hq|by eapply about_quiet|done].
Qed.

Lemma sleep_others id k0 d k : others id k0 k → others id k0 (sleep d k).
Proof.
  intros [Ho Hq]. split; [intros i Hi; rewrite container_sleep; by apply Ho|].
  intros q. by rewrite sleep_dirs.
Qed.

(** What a function of one application leaves alone. *)
Lemma wp_about {A} id (m : P (host K) A) Q E h :
  (∀ G, (∀ c k k', about id c → G k → leaves c k k' → G k') → (∀ d k, G k → G (sleep d k)) →
     ∀ l, Keeps (always l G) m) →
  always l0 (dirs D) h →
  pwp m (λ a h', always l0 (dirs D) h' → others id (sys h) (sys h') → Q a h')
    (λ e h', always l0 (dirs D) h' → others id (sys h) (sys h') → E e h') h →
  pwp m Q E h.
Proof.
  intros Hk Hd Hw. eapply (pwp_keeps (always l0 (dirs D))); [|exact Hd|].
  { apply Hk; eauto using about_dirs, sleep_dirs_kept. }
  eapply (pwp_keeps (always (commands h) (others id (sys h)))); [|by apply always_start|].
  { apply Hk; eauto using about_others, sleep_others. }
  eapply pwp_mono; [exact Hw|..]; intros x h' Hx Ho Hd';
    by apply Hx, (always_now _ _ _ Ho).
Qed.

(** The classes that [run_app] raises and the update does not handle. *)
Definition unhandled : list exn_class :=
  [ContainerStateError; TypeErr; FileNotFound; ContainerAlreadyExistError].

Lemma raises_run cs c : FileNotFound ∈ cs → Raises cs (subprocess_run c).
Proof.
  intros Hc h e h'. unfold subprocess_run. destruct (execute c (sys h)) as [[r|] k]; [done|].
  by intros [= <- _].
Qed.

Ltac raises_go :=
  repeat first
    [ apply _
    | apply raises_raise; set_solver
    | apply raises_run; set_solver
    | apply raises_bind; [|intros]
    | apply raises_if
    | case_match ].

Lemma run_app_raises id p : Raises (unhandled ++ RUN_EXCEPTIONS) (run_app id p).
Proof. unfold run_app, create, start, get_state, unhandled, RUN_EXCEPTIONS. simpl. raises_go. Qed.

Lemma wp_run_app id p Q E h :
  always l0 (dirs D) h →
  (∀ h', always l0 (dirs D) h' → others id (sys h) (sys h') → container (sys h') id = Some p → Q tt h') →
  (∀ e h', always l0 (dirs D) h' → others id (sys h) (sys h') →
     exn_of e ∈ unhandled ++ RUN_EXCEPTIONS → E e h') →
  pwp (run_app id p) Q E h.
Proof.
  intros Hd HQ HE. apply (wp_about id); [by intros; apply keeps_run_app|done|].
  pose proof (run_app_raises id p h) as Hraises.
  assert (pwp (run_app id p) (λ _ h', container (sys h') id = Some p) (λ _ _, True) h) as Hw; cycle 1.
  { unfold pwp in *. destruct (run_app id p h) as [[] h'|e h']; intros; [auto|]. eauto. }
  unfold run_app, create, start. apply pwp_bind, pwp_bind, wp_get_state; [|done].
  intros s h1 _ _. destruct (bool_decide _); [|done]. apply pwp_bind, pwp_get.
  destruct (isdir _ _); [|done]. apply pwp_bind, pwp_get, pwp_bind, wp_run; [|done].
  intros r h2 Hr _. destruct (failed r) eqn:Hf; [done|]. apply pwp_ret, pwp_bind, wp_run; [|done].
  intros r3 h3 Hr3 _. destruct (failed r3); [done|]. apply pwp_ret.
  rewrite (container_kept (CStart id) (sys h2) (sys h3)); [by eapply created|done|].
  left. by rewrite Hr3.
Qed.

Lemma wp_stop_app app Q E h :
  plain (name app) → always l0 (dirs D) h →
  (∀ h', always l0 (dirs D) h' → others (name app) (sys h) (sys h') →
     container (sys h') (name app) = None → Q tt h') →
  (∀ e h', always l0 (dirs D) h' → others (name app) (sys h) (sys h') →
     ended (name app) e h' → E e h') →
  pwp (stop_app app) Q E h.
Proof.
  intros Hp Hd HQ HE. apply (wp_about (name app)); [by intros; apply keeps_terminate_app|done|].
  apply wp_terminate_app; auto.
Qed.

(** *** Removal *)

Lemma keeps_remove_app n p (l : list (command * K)) (G : K → Prop) :
  (∀ c k k', quiet c = false → (∀ d g, c ≠ CInstall d g) → G k → leaves c k k' → G k') →
  Keeps (always l G) (remove_app n p).
Proof.
  intros HG. unfold remove_app, py_rmtree, listdir.
  keeps_go; apply keeps_run; intros k k'; by apply HG.
Qed.

Lemma keeps_rmtree p : (∀ q, D q → ¬ within p q) → Keeps (always l0 (dirs D)) (py_rmtree p).
Proof.
  intros Hp. unfold py_rmtree. keeps_go. apply keeps_run. intros k k' Hk Hl q Hq.
  rewrite (rmtree_dirs p k k') by auto. auto.
Qed.

(** The directory above goes only when nothing is left in it. *)
Lemma keeps_rmdir p :
  (∀ q, D q → q ≠ p) →
  Keeps (always l0 (dirs D))
    (entries ← listdir p;
     if bool_decide (entries = []) && negb (bool_decide (p = APPS_PATH)) then py_rmtree p else mret tt).
Proof.
  intros Hp h Hh. unfold listdir, pget, mbind, P_bind. cbn [pstate].
  destruct (entry (sys h) p) as [[| es |]|] eqn:He; try done.
  change (mret es.*1 : P (host K) (list cstring)) with (λ s : host K, Ret es.*1 s). cbv beta iota.
  destruct es as [|e es]; [|done]. destruct (negb _); [|done].
  assert (∀ q, D q → ¬ within p q) as Hw.
  { intros q Hq Hin. pose proof (always_now _ _ _ Hh q Hq) as Hd.
    rewrite (empty_dir _ p q) in Hd by auto. done. }
  by apply (keeps_rmtree p Hw).
Qed.

Lemma keeps_remove_dirs n p :
  colon ∉ n → (∀ k, resolve k p = p) → (∀ q, D q → ¬ within p q ∧ q ≠ dirname p) →
  Keeps (always l0 (dirs D)) (remove_app n p).
Proof.
  intros Hn Hr Hp. unfold remove_app. apply keeps_bind; [apply _|]. intros found.
  apply keeps_if; [apply _|]. apply keeps_bind.
  { apply keeps_run. intros k k' Hk Hl q Hq. rewrite (remove_dirs n p k k'); [by apply Hk|done|by apply Hp|done]. }
  intros r. apply keeps_if; [apply _|]. intros h Hh.
  rewrite (pbind_ret (pget _) _ (dirname p) h h) by (unfold pget; by rewrite Hr). revert h Hh.
  apply keeps_bind; [apply keeps_rmtree; intros q Hq; by apply Hp|]. intros _.
  apply keeps_rmdir. intros q Hq. by apply Hp.
Qed.

Definition remove_errors : list exn_class := [AppPathInexistent; AppUninstallError; FileNotFound; OSErr].

Lemma remove_raises n p : Raises remove_errors (remove_app n p).
Proof. unfold remove_app, py_rmtree, listdir, remove_errors. raises_go. Qed.

(** A removal that returns has removed the directory, and adds none. *)
Lemma wp_remove_gone n p Q (E : exn → host K → Prop) h :
  (∀ h', (∀ q, q = p ∨ isdir q (sys h) = false → isdir q (sys h') = false) → Q tt h') →
  (∀ e h', exn_of e ∈ remove_errors → E e h') →
  pwp (remove_app n p) Q E h.
Proof.
  intros HQ HE. set (G k := ∀ q, isdir q (sys h) = false → isdir q k = false).
  eapply (pwp_keeps (always (commands h) G)); [|by apply always_start; intros ?|].
  { apply keeps_remove_app. intros c k k' Hq Hi Hk Hl q Hf. apply Hk in Hf.
    destruct c; try done; [by destruct (Hi dest pkg)|by eapply remove_adds_none|by eapply rmtree_adds_none]. }
  pose proof (remove_raises n p h) as Hraises.
  assert (pwp (remove_app n p) (λ _ h', isdir p (sys h') = false) (λ _ _, True) h) as Hw; cycle 1.
  { unfold pwp in *. destruct (remove_app n p h) as [[] h'|e h'].
    - intros Hg. apply HQ. intros q [->|Hq]; [done|]. by apply (always_now _ _ _ Hg).
    - intros _. apply HE. by eapply Hraises. }
  - unfold remove_app. apply pwp_bind, pwp_get. destruct (negb _); [done|].
    apply pwp_bind, wp_run; [|done]. intros r h1 _ _. destruct (failed r); [done|].
    apply pwp_bind, pwp_get, pwp_bind, pwp_bind, wp_run; [|done]. intros r2 h2 Hr2 _.
    destruct (failed r2) eqn:Hf; [done|]. apply pwp_ret.
    assert (isdir p (sys h2) = false) as Hgone by (eapply rmtree_done; eauto; by left).
    eapply (pwp_keeps (always (commands h2) (λ k, isdir p k = false))).
    + unfold py_rmtree, listdir. keeps_go; apply keeps_run; intros k k' Hk Hl; by eapply rmtree_adds_none.
    + by apply always_start.
    + unfold pwp. match goal with |- match ?x with _ => _ end => destruct x end; [|done].
      intros Ha. by apply always_now in Ha.
Qed.

Lemma wp_remove_app n p Q E h :
  colon ∉ n → (∀ k, resolve k p = p) → (∀ q, D q → ¬ within p q ∧ q ≠ dirname p) →
  always l0 (dirs D) h →
  (∀ h', always l0 (dirs D) h' → (∀ i, container (sys h') i = container (sys h) i) →
     (∀ q, q = p ∨ isdir q (sys h) = false → isdir q (sys h') = false) → Q tt h') →
  (∀ e h', always l0 (dirs D) h' → (∀ i, container (sys h') i = container (sys h) i) → E e h') →
  pwp (remove_app n p) Q E h.
Proof.
  intros Hn Hr Hp Hd HQ HE.
  eapply (pwp_keeps (always l0 (dirs D))); [by apply keeps_remove_dirs|exact Hd|].
  set (G1 k := ∀ i, container k i = container (sys h) i).
  eapply (pwp_keeps (always (commands h) G1)); [|by apply always_start|].
  { apply keeps_remove_app. intros c k k' Hq _ Hk Hl i.
    rewrite (container_kept c k k'); [by apply Hk|by destruct c|done]. }
  apply wp_remove_gone.
  - intros h' Hg A1 A0. apply HQ; [done|by apply (always_now _ _ _ A1)|done].
  - intros e h' _ A1 A0. apply HE; [done|by apply (always_now _ _ _ A1)].
Qed.
End functions.

(** ** The update *)

(** What is assumed of the applications of an update: distinct names in which
    none of runc's words occurs, paths without links, and no previous version at
    or below a new one, or in its parent directory itself. *)
Record update_wf {K} `{System K} (apps : list AppRecord) : Prop := {
  wf_names : NoDup (name <$> apps);
  wf_name a : a ∈ apps → plain (name a) ∧ colon ∉ name a;
  wf_new a : a ∈ apps → new_bundle_path a ≠ [] ∧ ∀ k, resolve k (new_bundle_path a) = new_bundle_path a;
  wf_cur a p : a ∈ apps → cur_bundle_path a = Some p → p ≠ [] ∧ ∀ k, resolve k p = p;
  wf_apart a b p :
    a ∈ apps → b ∈ apps → cur_bundle_path b = Some p →
    ¬ within (new_bundle_path a) p ∧ p ≠ dirname (new_bundle_path a)
}.

Section update.
Context {K : Type} `{AppLaws K} `{Tar K}.
Context (apps : list AppRecord) (wf : update_wf apps).
Implicit Types (m : AppUpdateManager K) (a b : AppRecord) (k : K).

(** The previous versions are installed; the new versions have their containers. *)
Definition previous p : Prop := ∃ a, a ∈ apps ∧ cur_bundle_path a = Some p.
Definition old_versions k : Prop := dirs previous k.
Definition runs_new b k : Prop := container k (name b) = Some (new_bundle_path b).
Definition new_versions k : Prop := ∀ b, b ∈ apps → runs_new b k.

(** Directories [X] that lie apart from those of the update: it keeps them too. *)
Definition apart (X : cstring → Prop) : Prop :=
  ∀ a q, a ∈ apps → X q →
    (¬ within (new_bundle_path a) q ∧ q ≠ dirname (new_bundle_path a)) ∧
    ∀ p, cur_bundle_path a = Some p → ¬ within p q ∧ q ≠ dirname p.

Context (X : cstring → Prop) (HX : apart X).
Definition old p : Prop := X p ∨ previous p.
Definition old_kept k : Prop := dirs old k.
Definition new_kept k : Prop := new_versions k ∧ dirs X k.

Definition at_ (l : list (command * K)) (G : K → Prop) m : Prop :=
  _installed_apps m = apps ∧ always l G (the_host m).

Lemma pwp_on_host {A} (f : P (host K) A) Q E m :
  pwp f (λ x h', Q x (set_host h' m)) (λ e h', E e (set_host h' m)) (the_host m) →
  pwp (on_host f) Q E m.
Proof. unfold pwp, on_host. by destruct (f (the_host m)). Qed.

(** An application with another name keeps what it has. *)
Definition keeps_rest a (todo finished : AppRecord → K → Prop) k k' : Prop :=
  ∀ b, b ∈ apps → name b ≠ name a → (todo b k → todo b k') ∧ (finished b k → finished b k').

(** A loop over the applications. *)
Lemma pwp_loop l G body (todo finished : AppRecord → K → Prop)
    (E : exn → AppUpdateManager K → Prop) Q m :
  at_ l G m → (∀ b, b ∈ apps → todo b (sys (the_host m))) →
  (∀ a m', a ∈ apps → at_ l G m' → todo a (sys (the_host m')) →
     pwp (body a) (λ _ m2, at_ l G m2 ∧ finished a (sys (the_host m2)) ∧
       keeps_rest a todo finished (sys (the_host m')) (sys (the_host m2))) E m') →
  (∀ m', at_ l G m' → (∀ b, b ∈ apps → finished b (sys (the_host m'))) → Q tt m') →
  pwp (self _installed_apps ≫= λ l, for_each l body) Q E m.
Proof.
  intros [Ha Hm] Ht Hb HQ. apply pwp_bind, pwp_get. rewrite Ha.
  eapply pwp_mono; [apply (pwp_for_each apps body (λ rest m', ∃ pre, apps = pre ++ rest ∧ at_ l G m' ∧
      (∀ b, b ∈ pre → finished b (sys (the_host m'))) ∧
      (∀ b, b ∈ rest → todo b (sys (the_host m')))) E)| |done].
  - intros a rest m' (pre & Happs & Hm' & Hf & Htd). pose proof (wf_names apps wf) as Hnd.
    rewrite Happs, fmap_app, fmap_cons in Hnd.
    apply NoDup_app in Hnd as (_ & Hpre & [Hrest _]%NoDup_cons).
    eapply pwp_mono; [apply (Hb a); [rewrite Happs; set_solver|done|apply Htd; set_solver]| |done].
    intros _ m2 (Hm2 & Hfa & Hk). exists (pre ++ [a]). rewrite <- (assoc_L (++)).
    split_and!; [done|done| |].
    + intros b [Hin| ->%list_elem_of_singleton]%elem_of_app; [|done].
      apply (Hk b); [rewrite Happs; set_solver| |by apply Hf].
      intros Heq. apply (Hpre (name b)); [by apply list_elem_of_fmap_2|]. rewrite Heq. by left.
    + intros b Hin. apply (Hk b); [rewrite Happs; set_solver| |apply Htd; set_solver].
      intros Heq. apply Hrest. rewrite <- Heq. by apply list_elem_of_fmap_2.
  - exists []. split_and!; [done|by split|by intros b ?%not_elem_of_nil|done].
  - intros [] m' (pre & Happs & Hm' & Hf & _). rewrite app_nil_r in Happs. subst pre. by apply HQ.
Qed.

(** *** The three loops of a rollback *)

Definition stopped b k : Prop := container k (name b) = None.
Definition gone b k : Prop := isdir (new_bundle_path b) k = false.
Definition restored b k : Prop := container k (name b) = cur_bundle_path b.

Lemma isinstance_exact e (cs : list exn_class) : isinstance e cs = true → OSErr ∉ cs → exn_of e ∈ cs.
Proof.
  unfold isinstance. intros Hi Ho. apply orb_true_iff in Hi as [Hi|Hi]; [by apply bool_decide_eq_true in Hi|].
  apply andb_true_iff in Hi as [_ Hi]. by apply bool_decide_eq_true in Hi.
Qed.

Context (l0 : list (command * K)).

Lemma wp_stop_all Q (E : exn → AppUpdateManager K → Prop) m :
  at_ l0 old_kept m →
  (∀ m', at_ l0 old_kept m' → (∀ b, b ∈ apps → stopped b (sys (the_host m'))) → Q tt m') →
  (∀ e m', at_ l0 old_kept m' → E e m') →
  pwp _stop_all_newly_installed_apps Q E m.
Proof.
  intros Hm HQ HE. apply (pwp_loop l0 old_kept _ (λ _ _, True) stopped); [done|done| |done].
  assert (∀ a k k', others (name a) k k' → keeps_rest a (λ _ _, True) stopped k k') as Hkeep.
  { intros a k k' [Ho _] b _ Hne. unfold stopped. by rewrite (Ho _ Hne). }
  intros a m' Ha [Hi Hm'] _. apply pwp_try_except, pwp_on_host, (wp_stop_app l0 old); [|done|..].
  { by apply (wf_name apps wf). }
  - intros h' Hh' Ho Hc. split_and!; [by split|done|by apply Hkeep].
  - intros e h' Hh' Ho [He Hdeny]. destruct (isinstance e _) eqn:Hinst; [|apply HE; by split].
    destruct (says e DOES_NOT_EXIST) eqn:Hs; [|apply HE; by split]. split_and!; [by split| |by apply Hkeep].
    apply Hdeny; [|done]. apply (isinstance_exact _ TERMINATE_EXCEPTIONS); [done|].
    unfold TERMINATE_EXCEPTIONS. set_solver.
Qed.

Lemma wp_remove_new Q (E : exn → AppUpdateManager K → Prop) m :
  at_ l0 old_kept m → (∀ b, b ∈ apps → stopped b (sys (the_host m))) →
  (∀ m', at_ l0 old_kept m' →
     (∀ b, b ∈ apps → stopped b (sys (the_host m')) ∧ gone b (sys (the_host m'))) → Q tt m') →
  (∀ e m', at_ l0 old_kept m' → E e m') →
  pwp (_remove_apps_bundles NEW_BUNDLE_PATH) Q E m.
Proof.
  intros Hm Hs HQ HE.
  apply (pwp_loop l0 old_kept _ stopped (λ b k, stopped b k ∧ gone b k)); [done|done| |done].
  intros a m' Ha [Hi Hm'] Hst. destruct (wf_new apps wf a Ha) as [Hne Hres].
  replace (path_to_remove a NEW_BUNDLE_PATH) with (Some (new_bundle_path a))
    by (unfold path_to_remove; simpl; by destruct (new_bundle_path a)).
  apply pwp_on_host, (wp_remove_app l0 old); [by apply (wf_name apps wf)|done| |done|..].
  - intros q [Hq|(b & Hb & Hq)]; [exact (proj1 (HX a q Ha Hq))|by apply (wf_apart apps wf a b)].
  - intros h' Hh' Hc Hg. split_and!; [by split|unfold stopped; simpl; by rewrite Hc|apply Hg; by left|].
    intros b Hb _. unfold stopped, gone. simpl. rewrite Hc. split; [done|].
    intros [? ?]. split; [done|]. apply Hg. by right.
  - intros e h' Hh' _. apply HE. by split.
Qed.

Lemma wp_run_previous Q (E : exn → AppUpdateManager K → Prop) m :
  at_ l0 old_kept m →
  (∀ b, b ∈ apps → stopped b (sys (the_host m)) ∧ gone b (sys (the_host m))) →
  (∀ m', at_ l0 old_kept m' →
     (∀ b, b ∈ apps → restored b (sys (the_host m')) ∧ gone b (sys (the_host m'))) → Q tt m') →
  (∀ e m', at_ l0 old_kept m' → E e m') →
  pwp _run_previous_app_versions Q E m.
Proof.
  intros Hm Hs HQ HE.
  apply (pwp_loop l0 old_kept _ (λ b k, stopped b k ∧ gone b k) (λ b k, restored b k ∧ gone b k));
    [done|done| |done].
  intros a m' Ha Hm' [Hst Hg]. unfold path_to_remove. simpl.
  destruct (cur_bundle_path a) as [p|] eqn:Hp.
  2: { split_and!; [done|unfold restored; by rewrite Hp|done|]. by intros b. }
  destruct (wf_cur apps wf a p Ha Hp) as [Hne _]. destruct p as [|c p]; [done|].
  destruct Hm' as [Hi Hm']. apply pwp_on_host, (wp_run_app l0 old); [done|..].
  - intros h' Hh' [Ho Hq] Hc. unfold restored, stopped, gone. simpl. rewrite Hp.
    split_and!; [by split|done|by rewrite Hq|].
    intros b Hb Hne'. by rewrite (Ho _ Hne'), Hq.
  - intros e h' Hh' _ _. apply HE. by split.
Qed.

Lemma wp_rollback Q (E : exn → AppUpdateManager K → Prop) m :
  at_ l0 old_kept m →
  (∀ m', at_ l0 old_kept m' →
     (∀ b, b ∈ apps → restored b (sys (the_host m')) ∧ gone b (sys (the_host m'))) → Q tt m') →
  (∀ e m', at_ l0 old_kept m' → E e m') →
  pwp _rollback_apps Q E m.
Proof.
  intros Hm HQ HE. unfold _rollback_apps. apply pwp_bind, wp_stop_all; [done| |done].
  intros m1 Hm1 Hs. apply pwp_bind, wp_remove_new; [done|done| |done].
  intros m2 Hm2 Hg. by apply wp_run_previous.
Qed.
(** *** The update *)

(** How an update fails: with an error it does not handle; with a rollback that
    brought the previous versions back; with an error of the rollback; or after
    the new versions run, when a previous one cannot be removed. *)
Definition update_failed (e : exn) m' : Prop :=
  exn_of e ∈ unhandled ∨
  (∃ m, _rollback_apps m = Ret tt m' ∧
     ∀ b, b ∈ apps → restored b (sys (the_host m')) ∧ gone b (sys (the_host m'))) ∨
  (∃ m, _rollback_apps m = Raise e m') ∨
  new_versions (sys (the_host m')).

Lemma wp_rollback_and_raise error Q (E : exn → AppUpdateManager K → Prop) m :
  at_ l0 old_kept m → (∀ e m', at_ l0 old_kept m' → update_failed e m' → E e m') →
  pwp (rollback_and_raise error) Q E m.
Proof.
  intros Hm HE.
  assert (pwp _rollback_apps (λ _ m', at_ l0 old_kept m' ∧
      ∀ b, b ∈ apps → restored b (sys (the_host m')) ∧ gone b (sys (the_host m')))
    (λ _ m', at_ l0 old_kept m') m) as Hw by (by apply wp_rollback).
  unfold pwp, rollback_and_raise, try_else in *.
  destruct (_rollback_apps m) as [[] m'|e m'] eqn:Hr.
  - destruct Hw as [Hm' Hb]. apply HE; [done|]. right. left. eauto.
  - destruct (isinstance e _); (apply HE; [done|]; right; right; left; eauto).
Qed.

(** An error that the handlers let through. *)
Lemma not_in_handler e (cs : list exn_class) : isinstance e cs = false → exn_of e ∉ cs.
Proof. intros Hi Hin. unfold isinstance in Hi. by rewrite bool_decide_true in Hi. Qed.

Lemma wp_stop_running Q (E : exn → AppUpdateManager K → Prop) m :
  at_ l0 old_kept m → (∀ m', at_ l0 old_kept m' → Q tt m') →
  (∀ e m', at_ l0 old_kept m' → update_failed e m' → E e m') →
  pwp _stop_running_versions Q E m.
Proof.
  intros Hm HQ HE.
  apply (pwp_loop l0 old_kept _ (λ _ _, True) (λ _ _, True)); [done|done| |by intros m' ? _; apply HQ].
  intros a m' Ha [Hi Hm'] _. apply pwp_try_except, pwp_on_host, (wp_stop_app l0 old); [|done|..].
  { by apply (wf_name apps wf). }
  - intros h' Hh' _ _. by split_and!; [split|..].
  - intros e h' Hh' _ [He _]. destruct (isinstance e _) eqn:Hinst.
    + apply wp_rollback_and_raise; [by split|done].
    + apply HE; [by split|left]. apply not_in_handler in Hinst.
      unfold end_errors, TERMINATE_EXCEPTIONS, unhandled in *. set_solver.
Qed.

Lemma wp_run_new Q (E : exn → AppUpdateManager K → Prop) m :
  at_ l0 old_kept m →
  (∀ m', at_ l0 old_kept m' → new_versions (sys (the_host m')) → Q tt m') →
  (∀ e m', at_ l0 old_kept m' → update_failed e m' → E e m') →
  pwp _run_new_installed_versions Q E m.
Proof.
  intros Hm HQ HE. apply (pwp_loop l0 old_kept _ (λ _ _, True) runs_new); [done|done| |done].
  intros a m' Ha [Hi Hm'] _. apply pwp_try_except, pwp_on_host, (wp_run_app l0 old); [done|..].
  - intros h' Hh' [Ho _] Hc. split_and!; [by split|done|].
    intros b _ Hne. unfold runs_new. simpl. by rewrite (Ho _ Hne).
  - intros e h' Hh' _ He. destruct (isinstance e _) eqn:Hinst.
    + apply wp_rollback_and_raise; [by split|done].
    + apply HE; [by split|left]. apply not_in_handler in Hinst.
      apply elem_of_app in He as [|]; [done|]. by destruct Hinst.
Qed.

(** The directory of the previous version is removed. *)
Definition removed b k : Prop := ∀ p, cur_bundle_path b = Some p → isdir p k = false.

Lemma wp_remove_previous l Q (E : exn → AppUpdateManager K → Prop) m :
  at_ l new_kept m →
  (∀ m', at_ l new_kept m' → (∀ b, b ∈ apps → removed b (sys (the_host m'))) → Q tt m') →
  (∀ e m', at_ l new_kept m' → E e m') →
  pwp _remove_previous_versions Q E m.
Proof.
  intros Hm HQ HE. apply (pwp_loop l new_kept _ (λ _ _, True) removed); [done|done| |done].
  intros a m' Ha [Hi Hm'] _. unfold path_to_remove. simpl.
  destruct (cur_bundle_path a) as [p|] eqn:Hp.
  2: { split_and!; [done|intros q Hq; by rewrite Hp in Hq|by intros b]. }
  destruct (wf_cur apps wf a p Ha Hp) as [Hne Hres]. destruct p as [|c p]; [done|]. set (p' := c :: p) in *.
  apply pwp_on_host, (pwp_keeps (always l new_versions)).
  { apply keeps_remove_app. intros cmd k k' Hq _ Hk Hl b Hb. unfold runs_new.
    rewrite (container_kept cmd k k'); [by apply Hk|by destruct cmd|done]. }
  { eapply always_mono; [|exact Hm']. by intros k [? _]. }
  apply (wp_remove_app l X); [by apply (wf_name apps wf)|done| | |..].
  - intros q Hq. exact (proj2 (HX a q Ha Hq) p' Hp).
  - eapply always_mono; [|exact Hm']. by intros k [_ ?].
  - intros h' Hd _ Hg Hh'. split_and!; [by split; [|by apply always_and]| |].
    + intros q Hq. rewrite Hp in Hq. injection Hq as <-. apply Hg. by left.
    + intros b _ _. split; [done|]. intros Hr q Hq. apply Hg. right. by apply Hr.
  - intros e h' Hd _ Hh'. apply HE. split; [done|]. by apply always_and.
Qed.

Lemma always_app (G1 G2 : K → Prop) h h' :
  always l0 G1 h → always (commands h) G2 h' → always l0 (λ k, G1 k ∨ G2 k) h'.
Proof.
  intros (l1 & Hc1 & Hl1 & _) (l2 & Hc2 & Hl2 & Hs). exists (l1 ++ l2).
  split_and!; [by rewrite Hc2, Hc1, (assoc_L (++))| |by right].
  apply Forall_app. split; (eapply Forall_impl; [eassumption|naive_solver]).
Qed.

Lemma always_or (G1 G2 : K → Prop) h : always l0 G1 h → always l0 (λ k, G1 k ∨ G2 k) h.
Proof.
  intros (l & Hc & Hl & Hs). exists l. split_and!; [done| |by left].
  eapply Forall_impl; [exact Hl|naive_solver].
Qed.

Lemma wp_start_installed_apps Q (E : exn → AppUpdateManager K → Prop) m :
  let safe := always l0 (λ k, old_kept k ∨ new_kept k) in
  at_ l0 old_kept m →
  (∀ m', safe (the_host m') → (∀ b, b ∈ apps → runs_new b (sys (the_host m')) ∧ removed b (sys (the_host m'))) →
     Q tt m') →
  (∀ e m', safe (the_host m') → update_failed e m' → E e m') →
  pwp start_installed_apps Q E m.
Proof.
  intros safe [Hi Hm] HQ HE. apply pwp_bind, pwp_get. case_decide as Hd.
  { apply HQ; [by apply always_or|]. rewrite <- Hi, Hd. by intros b ?%not_elem_of_nil. }
  apply pwp_bind, wp_stop_running; [by split| |intros e m' [_ ?] ?; apply HE; [by apply always_or|done]].
  intros m1 Hm1. apply pwp_bind, wp_run_new; [done| |intros e m' [_ ?] ?; apply HE; [by apply always_or|done]].
  intros m2 [Hi2 Hm2] Hnew. apply (wp_remove_previous (commands (the_host m2))).
  - split; [done|]. apply always_start. split; [done|].
    intros q Hq. apply (always_now _ _ _ Hm2). by left.
  - intros m3 [_ Hm3] Hr. apply HQ; [by eapply always_app|]. intros b Hb.
    split; [by apply (always_now _ _ _ Hm3)|by apply Hr].
  - intros e m3 [_ Hm3]. apply HE; [by eapply always_app|].
    right. right. right. apply (always_now _ _ _ Hm3).
Qed.
End update.

(** The safety of an update, with the directories apart from it. *)
Lemma start_installed_apps_safe {K : Type} `{AppLaws K} `{Tar K} apps X (m : AppUpdateManager K) :
  let old_kept := old_kept apps X in
  let new_kept := new_kept apps X in
  update_wf apps → apart apps X → at_ apps (commands (the_host m)) old_kept m →
  always (commands (the_host m)) (λ k, old_kept k ∨ new_kept k) (the_host (pstate (start_installed_apps m))) ∧
  match start_installed_apps m with
  | Ret _ m' => ∀ b, b ∈ apps → runs_new b (sys (the_host m')) ∧ removed b (sys (the_host m'))
  | Raise e m' => update_failed apps e m'
  end.
Proof.
  intros old_kept new_kept Hwf HX Hm. set (safe := always (commands (the_host m)) (λ k, old_kept k ∨ new_kept k)).
  assert (pwp start_installed_apps
    (λ _ m', safe (the_host m') ∧
       ∀ b, b ∈ apps → runs_new b (sys (the_host m')) ∧ removed b (sys (the_host m')))
    (λ e m', safe (the_host m') ∧ update_failed apps e m') m) as Hw.
  { apply (wp_start_installed_apps apps Hwf X HX (commands (the_host m))); [done|..]; intros; by split. }
  unfold pwp in Hw. by destruct (start_installed_apps m).
Qed.

(** Nothing beside the update. *)
Lemma apart_none {K : Type} `{System K} (apps : list AppRecord) : apart apps (λ _, False).
Proof. by intros a q _ []. Qed.

Lemma old_kept_none {K : Type} `{System K} (apps : list AppRecord) (k : K) :
  old_kept apps (λ _, False) k ↔ old_versions apps k.
Proof. unfold old_kept, old_versions, dirs, old. naive_solver. Qed.

(** No update loses an application. Whatever runc and opkg answer, and in
    every state that a command of the update finds, or that a loss of power in
    the middle of one leaves, either the previous version of every application is still
    installed or the new version of every application has its container. When
    the update returns, the new versions have their containers and the previous
    ones are removed; when it raises, the error is one of four classes that it
    does not handle, or a rollback returned and brought the previous versions
    back, or it is the error of a rollback that failed, or the new versions all
    have their containers and a previous one could not be removed. *)
Theorem no_version_is_lost {K : Type} `{AppLaws K} `{Tar K} (m : AppUpdateManager K) :
  let apps := _installed_apps m in
  update_wf apps → old_versions apps (sys (the_host m)) →
  always (commands (the_host m)) (λ k, old_versions apps k ∨ new_versions apps k)
    (the_host (pstate (start_installed_apps m))) ∧
  match start_installed_apps m with
  | Ret _ m' => ∀ b, b ∈ apps → runs_new b (sys (the_host m')) ∧ removed b (sys (the_host m'))
  | Raise e m' => update_failed apps e m'
  end.
Proof.
  intros apps Hwf Hold.
  destruct (start_installed_apps_safe apps (λ _, False) m Hwf (apart_none _)) as [Hs Hr].
  { split; [done|]. by apply always_start, old_kept_none. }
  split; [|exact Hr]. eapply always_mono; [|exact Hs].
  intros k [?%old_kept_none|[? _]]; tauto.
Qed.

(** C16: a rollback that returns has brought back the device: every
    application has the container of its previous version, or none when it had
    no previous version, and the new versions are removed. Whether it returns
    or not, the previous versions stayed installed all along. *)
Theorem rollback_restores {K : Type} `{AppLaws K} `{Tar K} (m : AppUpdateManager K) :
  let apps := _installed_apps m in
  update_wf apps → old_versions apps (sys (the_host m)) →
  always (commands (the_host m)) (old_versions apps) (the_host (pstate (_rollback_apps m))) ∧
  match _rollback_apps m with
  | Ret _ m' => ∀ b, b ∈ apps → restored b (sys (the_host m')) ∧ gone b (sys (the_host m'))
  | Raise _ _ => True
  end.
Proof.
  intros apps Hwf Hold.
  assert (∀ h, always (commands (the_host m)) (old_kept apps (λ _, False)) h →
    always (commands (the_host m)) (old_versions apps) h) as Hkept.
  { intros h. apply always_mono. intros k. apply old_kept_none. }
  assert (pwp _rollback_apps
    (λ _ m', always (commands (the_host m)) (old_versions apps) (the_host m') ∧
       ∀ b, b ∈ apps → restored b (sys (the_host m')) ∧ gone b (sys (the_host m')))
    (λ _ m', always (commands (the_host m)) (old_versions apps) (the_host m')) m) as Hw.
  { apply (wp_rollback apps Hwf (λ _, False) (apart_none _) (commands (the_host m))).
    - split; [done|]. by apply always_start, old_kept_none.
    - intros m' [_ ?]. auto.
    - intros e m' [_ ?]. auto. }
  unfold pwp in Hw. by destruct (_rollback_apps m).
Qed.

(** ** Installation *)

Section installation.
Context {K : Type} `{AppLaws K}.
Implicit Types h : host K.

Lemma wp_get_app_name pkg Q (E : exn → host K → Prop) h :
  (∀ n h', Q n h') →
  (∀ e h', exn_of e ∈ [AppIdError; ValueErr; KeyErr; FileNotFound] → E e h') →
  pwp (get_app_name pkg) Q E h.
Proof.
  intros HQ HE. apply pwp_try_else, pwp_bind, pwp_bind, wp_run.
  - intros r h1 _ _. destruct (failed r); [by apply pwp_raise, HE; set_solver|].
    apply pwp_bind. unfold pwp at 1. rewrite parse_lines_result. case_decide.
    + destruct (_ !! Package) eqn:Hp; [|by apply pwp_raise, HE; set_solver].
      apply pwp_ret. unfold py_item. rewrite Hp. apply pwp_ret, pwp_ret, HQ.
    + apply HE. set_solver.
  - intros e h1 _ He. rewrite (not_handled e AppInfoParserError [FileNotFound]) by (set_solver || done).
    apply HE. set_solver.
Qed.

(** C33: an installation is complete or undone. [install_app] returns only when
    opkg installed the package at the given path; an [AppInstallError] means
    that nothing is left at that path; anything else that goes wrong (reading
    the package, or the clean-up itself) has another class. *)
Theorem install_is_complete_or_undone pkg path h :
  match install_app pkg path h with
  | Ret _ h' => ∃ n k r, execute (CInstall (n ++ ":" ++ path) pkg) k = (Some r, sys h') ∧ failed r = false
  | Raise e h' => exn_of e = AppInstallError → isdir path (sys h') = false
  end.
Proof.
  assert (pwp (install_app pkg path)
    (λ _ h', ∃ n k r, execute (CInstall (n ++ ":" ++ path) pkg) k = (Some r, sys h') ∧ failed r = false)
    (λ e h', exn_of e = AppInstallError → isdir path (sys h') = false) h) as Hw; [|exact Hw].
  apply pwp_bind, wp_get_app_name.
  2: { intros e h' He Heq. rewrite Heq in He. set_solver. }
  intros n h1. apply pwp_bind, wp_run; [|intros e h' _ He Heq; congruence].
  intros r h2 Hr _. destruct (failed r) eqn:Hf; [|apply pwp_ret; eauto].
  apply pwp_bind, pwp_get, pwp_bind. case_bool_decide as He.
  - apply (wp_remove_gone (λ _, True)).
    + intros h' Hg. apply pwp_raise. intros _. apply Hg. by left.
    + intros e h' He2 Heq. rewrite Heq in He2. unfold remove_errors in He2. set_solver.
  - apply pwp_ret, pwp_raise. intros _. unfold isdir. destruct (entry _ _); [|done]. by destruct He.
Qed.
End installation.
