(* ===== verification/AppBoot.v ===== *)
(** * Versions across an update and a boot

    The update manager takes the lowest version for the current one and gives
    the new one a number above all others; at boot [run_app_from_parent_dir] of
    the lifecycle manager runs the lowest version and removes the others. So the
    boot after an interrupted update runs the version the update replaced. *)

From stdpp Require Import base gmap strings sets list sorting.
From Stdlib Require Import ZArith Ascii Lia.
From S2P Require Import Prelude.
From S2P Require Import Py.
From S2P Require Import AppLifecycle.
From S2P Require Import AppVersions.
From S2P Require Import AppManager.
From S2P Require Import AppUpdate.

Open Scope Z_scope.
Open Scope list_scope.

(** ** Functions that run a list of commands *)

(** Without where the output of a container goes. *)
Definition shape (c : command) : command :=
  match c with CCreate b id _ => CCreate b id true | c => c end.

Section scripts.
Context {K : Type} `{System K}.
Implicit Types (h : host K) (r : pres (host K) unit) (plan : list command).

(** The command succeeded ([runc state] may fail: there is no container). *)
Definition accepted (ck : command * K) : Prop :=
  match ck.1 with
  | CState _ => True
  | c => match (execute c ck.2).1 with Some p => failed p = false | None => False end
  end.

(** [r] ran the commands of [plan] from [h] on: all of them when it returns; when
    it raises, it stopped somewhere in the plan, and every command but the last
    one it ran had succeeded. *)
Definition follows plan h r : Prop :=
  ∃ l, commands (pstate r) = commands h ++ l ∧
  match r with
  | Ret _ _ => shape <$> l.*1 = plan ∧ Forall accepted l
  | Raise _ _ =>
      ∃ good bad rest, l = good ++ bad ∧ (length bad ≤ 1)%nat ∧ Forall accepted good ∧
        (shape <$> l.*1) ++ rest = plan
  end.

Lemma follows_raise plan h e : follows plan h (Raise e h).
Proof.
  exists []. split; [by rewrite app_nil_r|]. exists [], [], plan. split_and!; [done|simpl; lia|done|done].
Qed.

Lemma follows_ret h : follows [] h (Ret tt h).
Proof. exists []. by rewrite app_nil_r. Qed.

Lemma follows_seq p1 p2 (m1 m2 : P (host K) unit) h :
  follows p1 h (m1 h) → (∀ h', follows p2 h' (m2 h')) → follows (p1 ++ p2) h ((m1;; m2) h).
Proof.
  intros (l1 & Hc1 & H1) H2. unfold mbind, P_bind. destruct (m1 h) as [[] h1|e h1]; simpl in Hc1.
  - destruct H1 as [<- Ha1]. destruct (H2 h1) as (l2 & Hc2 & Hr). exists (l1 ++ l2).
    split; [by rewrite Hc2, Hc1, (assoc_L (++))|]. rewrite !fmap_app. destruct (m2 h1) as [[] h2|e h2].
    + destruct Hr as [<- Ha2]. split; [done|]. by apply Forall_app.
    + destruct Hr as (good & bad & rest & -> & Hb & Hg & <-). exists (l1 ++ good), bad, rest.
      rewrite !fmap_app, !(assoc_L (++)). split_and!; [done|done|by apply Forall_app|done].
  - destruct H1 as (good & bad & rest & -> & Hb & Hg & <-). exists (good ++ bad). split; [done|].
    exists good, bad, (rest ++ p2). split_and!; [done..|]. by rewrite (assoc_L (++)).
Qed.

(** One command that must succeed. *)
Lemma follows_command c (raised : completed → P (host K) unit) h :
  match c with CState _ => False | _ => True end →
  (∀ (x : completed) h', ∃ e, raised x h' = Raise e h') →
  follows [shape c] h
    ((process ← subprocess_run c; if failed process then raised process else mret tt) h).
Proof.
  intros Hc Hraise. unfold mbind, P_bind, subprocess_run.
  destruct (execute c (sys h)) as [[r|] k] eqn:Hr; cbv beta iota.
  - destruct (failed r) eqn:Hf.
    + destruct (Hraise r {| sys := k; commands := commands h ++ [(c, sys h)] |}) as [e ->].
      exists [(c, sys h)]. split; [done|]. exists [], [(c, sys h)], []. by split_and!.
    + exists [(c, sys h)]. split; [done|]. split; [done|]. repeat constructor.
      unfold accepted. destruct c; try done; cbn [fst snd]; by rewrite Hr.
  - exists [(c, sys h)]. split; [done|]. exists [], [(c, sys h)], []. by split_and!.
Qed.

Lemma follows_state id (k : ContainerState → P (host K) unit) plan h :
  (∀ s h', follows plan h' (k s h')) → follows (CState id :: plan) h ((get_state id ≫= k) h).
Proof.
  intros Hk. set (h1 := {| sys := (execute (CState id) (sys h)).2; commands := commands h ++ [(CState id, sys h)] |}).
  assert ((∃ s, get_state id h = Ret s h1) ∨ ∃ e, get_state id h = Raise e h1) as [[s Hs]|[e He]].
  { unfold get_state, mbind, P_bind, subprocess_run, h1.
    destruct (execute (CState id) (sys h)) as [[r|] k']; [|eauto]. simpl.
    repeat (case_match; eauto). }
  - rewrite (pbind_ret _ _ _ _ _ Hs). destruct (Hk s h1) as (l & Hc & Hr).
    exists ((CState id, sys h) :: l). split; [rewrite Hc; simpl; by rewrite <- (assoc_L (++))|].
    destruct (k s h1) as [[] h2|e h2].
    + destruct Hr as [<- Ha]. split; [done|]. by constructor.
    + destruct Hr as (good & bad & rest & -> & Hb & Hg & <-).
      exists ((CState id, sys h) :: good), bad, rest. split_and!; [done|done|by constructor|done].
  - rewrite (pbind_raise _ _ _ _ _ He). exists [(CState id, sys h)]. split; [done|].
    exists [], [(CState id, sys h)], plan. by split_and!.
Qed.

Lemma follows_rmtree path h : follows [CRmtree path] h (py_rmtree path h).
Proof. apply (follows_command (CRmtree path)); [done|]. intros r h'. by eexists. Qed.

Lemma run_app_follows id path h :
  follows [CState id; CCreate path id true; CStart id] h (run_app id path h).
Proof.
  unfold run_app, create.
  apply (follows_seq [CState id; CCreate path id true] [CStart id]).
  - apply follows_state. intros s h1. destruct (bool_decide _); [|by apply follows_raise].
    unfold pget, mbind, P_bind. simpl. destruct (isdir _ _); [|by apply follows_raise].
    apply (follows_command (CCreate path id (log_file id (sys h1)))); [done|]. intros r h'. by eexists.
  - intros h'. apply (follows_command (CStart id)); [done|]. intros r h2. by eexists.
Qed.

Lemma follows_each paths h : follows (CRmtree <$> paths) h (for_each paths py_rmtree h).
Proof.
  revert h. induction paths as [|p paths IH]; intros h; [by apply follows_ret|].
  apply (follows_seq [CRmtree p]); [apply follows_rmtree|done].
Qed.
End scripts.

(** ** The directory of an application *)

Definition app_dir (name : cstring) : cstring := APPS_PATH ++ slash :: name.

Definition app_name_ok (name : cstring) : Prop := name ≠ [] ∧ slash ∉ name.

Lemma join_app name : app_name_ok name → join APPS_PATH name = app_dir name.
Proof.
  intros [Hne Hs]. unfold join. rewrite !decide_False; [done| |].
  - intros [?|Hl]; [done|]. by vm_compute in Hl.
  - destruct name as [|c name]; [done|]. simpl. intros [= ->]. set_solver.
Qed.

Lemma last_app_dir name : app_name_ok name → last (app_dir name) ≠ Some slash.
Proof.
  intros [Hne Hs]. unfold app_dir. destruct name as [|c name _] using rev_ind; [done|].
  rewrite app_comm_cons, (assoc_L (++)), last_snoc. intros [= ->]. set_solver.
Qed.

Lemma join_version name v :
  app_name_ok name → 0 ≤ v → join (app_dir name) (str_int v) = version_path (app_dir name) v.
Proof.
  intros Hok Hv. unfold str_int. destruct (Z.ltb_spec v 0); [lia|].
  destruct (str_nat_numeral v Hv) as [Hd Hne _]. unfold join. rewrite !decide_False; [done| |].
  - intros [?|Hl]; [done|]. by apply last_app_dir in Hl.
  - intros Hh. apply (digits_no_slash _ Hd). destruct (str_nat v); [done|]. injection Hh as ->. by left.
Qed.

(** A list that starts with the least and ends with the greatest version. *)
Lemma sorted_ends v ws :
  StronglySorted Z.le (v :: ws) →
  Forall (λ w, v ≤ w ≤ default v (last ws)) (v :: ws) ∧ default v (last ws) ∈ v :: ws.
Proof.
  intros [Hs Hv]%StronglySorted_inv. destruct ws as [|w ws _] using rev_ind.
  { simpl. split; [by repeat constructor|by left]. }
  rewrite last_snoc. simpl. split; [|rewrite elem_of_cons, elem_of_app; set_solver].
  rewrite Forall_forall in Hv. rewrite Forall_forall. intros x [->|Hx]%elem_of_cons.
  { split; [lia|]. apply Hv, elem_of_app. right. by left. }
  split; [by apply Hv|]. apply elem_of_app in Hx as [Hx| ->%list_elem_of_singleton]; [|lia].
  eapply StronglySorted_app_1_elem_of; [exact Hs|done|set_solver].
Qed.

Section boot.
Context {K : Type} `{System K} `{Tar K}.
Implicit Types h : host K.

Lemma bundle_paths_result name vs h :
  app_name_ok name → vs ≠ [] → Forall (λ v, 0 ≤ v) vs →
  isdir (app_dir name) (sys h) = true →
  get_oci_bundle_paths (app_dir name) h = Ret (version_path (app_dir name) <$> vs) h →
  ∃ cur top, cur ∈ vs ∧ Forall (λ v, cur ≤ v ≤ top) vs ∧
    _get_app_bundle_paths name h =
      Ret (Some (Some (version_path (app_dir name) cur), version_path (app_dir name) (top + 1))) h.
Proof.
  intros Hok Hne Hvs Hdir Hb. destruct (sort_versions (app_dir name) vs Hvs) as (ws & Hsort & Hp & Hs).
  destruct ws as [|cur ws]; [by apply Permutation_nil_l in Hp|].
  destruct (sorted_ends cur ws Hs) as [Hall Htop]. rewrite Hp in Hall.
  assert (0 ≤ default cur (last ws)) as Htop0.
  { rewrite Hp in Htop. rewrite Forall_forall in Hvs. by apply Hvs. }
  exists cur, (default cur (last ws)). split_and!; [rewrite <- Hp; by left|done|].
  unfold _get_app_bundle_paths. change APPS_INSTALLATION_PATH with APPS_PATH. rewrite join_app by done.
  unfold pget at 1, mbind at 1, P_bind at 1. rewrite Hdir. cbn [negb].
  rewrite (pbind_ret _ _ _ _ _ Hb). unfold human_sort. rewrite Hsort. rewrite fmap_cons.
  replace (default (version_path (app_dir name) cur) (last (version_path (app_dir name) <$> ws)))
    with (version_path (app_dir name) (default cur (last ws))) by (rewrite fmap_last; by destruct (last ws)).
  rewrite basename_version by done. unfold py_int.
  rewrite (int_of_numeral (default cur (last ws))) by (by apply str_nat_numeral).
  unfold mbind, P_bind, mret, P_ret. by rewrite join_version by (done || lia).
Qed.

Lemma boot_runs_lowest name vs bundles cur h :
  app_name_ok name → Forall (λ v, 0 ≤ v) vs → cur ∈ vs → Forall (λ v, cur ≤ v) vs →
  isdir (app_dir name) (sys h) = true →
  get_oci_bundle_paths (app_dir name) h = Ret bundles h →
  bundles ≡ₚ version_path (app_dir name) <$> vs →
  ∃ rest, cur :: rest ≡ₚ vs ∧
    follows ([CState name; CCreate (version_path (app_dir name) cur) name true; CStart name] ++
             (CRmtree <$> (version_path (app_dir name) <$> rest))) h (run_app_from_parent_dir name h).
Proof.
  intros Hok Hvs Hcur Hmin Hdir Hb Hp.
  destruct (Permutation_map_inv (version_path (app_dir name)) vs Hp) as (vs2 & -> & Hp2).
  change (map ?f ?l) with (f <$> l) in Hb.
  assert (Forall (λ v, 0 ≤ v) vs2) as Hvs2 by (by rewrite <- Hp2).
  destruct (sort_versions (app_dir name) vs2 Hvs2) as (ws & Hsort & Hpw & Hs).
  rewrite <- Hp2 in Hpw. destruct ws as [|w rest]; [by rewrite <- Hpw in Hcur; apply not_elem_of_nil in Hcur|].
  assert (w = cur) as ->.
  { rewrite <- Hpw in Hcur, Hmin. apply StronglySorted_inv in Hs as [_ Hw].
    apply Forall_cons in Hmin as [Hmin _]. apply elem_of_cons in Hcur as [->|Hin]; [done|].
    rewrite Forall_forall in Hw. specialize (Hw cur Hin). lia. }
  exists rest. split; [done|]. unfold run_app_from_parent_dir. rewrite join_app by done.
  unfold pget, mbind at 1, P_bind at 1. rewrite Hdir. cbn [negb].
  rewrite (pbind_ret _ _ _ _ _ Hb), Hsort, fmap_cons. cbv beta iota.
  apply follows_seq; [apply run_app_follows|]. intros h'. apply follows_each.
Qed.

(** C21: an update and the boots around it agree on the version of an
    application. For an application whose bundles are named by numbers, the
    update takes the lowest version for the current one and gives the new one a
    number above all others. A boot that finds the new version beside the others
    (the update was interrupted) checks that the application has no container,
    creates and starts the current version, and only then removes the others,
    the new one among them; it stops at the first command that fails. *)
Theorem interrupted_update_boots_previous name vs h :
  app_name_ok name → vs ≠ [] → Forall (λ v, 0 ≤ v) vs →
  isdir (app_dir name) (sys h) = true →
  get_oci_bundle_paths (app_dir name) h = Ret (version_path (app_dir name) <$> vs) h →
  ∃ cur new, cur ∈ vs ∧ Forall (λ v, cur ≤ v < new) vs ∧
    _get_app_bundle_paths name h =
      Ret (Some (Some (version_path (app_dir name) cur), version_path (app_dir name) new)) h ∧
    ∀ h2 bundles, isdir (app_dir name) (sys h2) = true →
      get_oci_bundle_paths (app_dir name) h2 = Ret bundles h2 →
      bundles ≡ₚ version_path (app_dir name) <$> new :: vs →
      ∃ rest, cur :: rest ≡ₚ new :: vs ∧
        follows ([CState name; CCreate (version_path (app_dir name) cur) name true; CStart name] ++
                 (CRmtree <$> (version_path (app_dir name) <$> rest))) h2
          (run_app_from_parent_dir name h2).
Proof.
  intros Hok Hne Hvs Hdir Hb.
  destruct (bundle_paths_result name vs h) as (cur & top & Hcur & Hall & Hpaths); [done..|].
  assert (0 ≤ cur ∧ cur ≤ top) as [Hc0 Hct].
  { rewrite Forall_forall in Hvs, Hall. split; [by apply Hvs|]. by apply Hall. }
  exists cur, (top + 1). split_and!; [done| |done|].
  { eapply Forall_impl; [exact Hall|]. simpl. lia. }
  intros h2 bundles Hdir2 Hb2 Hp. apply (boot_runs_lowest _ _ bundles); [done| | | |done..].
  - constructor; [lia|done].
  - by right.
  - constructor; [lia|]. eapply Forall_impl; [exact Hall|]. simpl. lia.
Qed.
End boot.
