(* ===== verification/AppInstall.v ===== *)
(** * A whole application update

    [run_mbl_app_update_manager] from the archive to the last removal. What it
    relies on beside [AppLaws]: the directories of the applications hold numbered
    bundles, and the commands of the update change only the bundle they name
    ([TreeLaws]). What follows: from the first command to the last, an
    application keeps every version it had, or a newer one has its container. *)

From stdpp Require Import base gmap strings sets list sorting.
From Stdlib Require Import ZArith Ascii Lia.
From S2P Require Import Prelude.
From S2P Require Import Py.
From S2P Require Import AppLifecycle.
From S2P Require Import AppVersions.
From S2P Require Import AppLifecycleProps.
From S2P Require Import AppManager.
From S2P Require Import AppManagerProps.
From S2P Require Import AppUpdate.
From S2P Require Import AppUpdateProps.
From S2P Require Import AppBoot.

Open Scope Z_scope.
Open Scope list_scope.

(** ** Paths of versions *)

Definition version (n : cstring) (v : Z) : cstring := version_path (app_dir n) v.

(** The names of applications: names of files, none of runc's words in them, no
    colon. *)
Definition dots : list cstring := ["." : cstring; ".." : cstring].
Definition good_app (n : cstring) : Prop := app_name_ok n ∧ plain n ∧ colon ∉ n ∧ n ∉ dots.

Lemma no_slash_split (a b : cstring) x y :
  slash ∉ a → slash ∉ b → a ++ slash :: x = b ++ slash :: y → a = b ∧ x = y.
Proof.
  intros Ha Hb Heq. assert (a = b) as <-.
  { rewrite <- (take_until_app slash a x Ha), Heq. by apply take_until_app. }
  apply app_inv_head in Heq. by simplify_eq.
Qed.

Lemma version_shape n v :
  0 ≤ v → ∃ s, version n v = APPS_PATH ++ slash :: n ++ slash :: s ∧ slash ∉ s ∧ s ≠ [] ∧ s = str_nat v.
Proof.
  intros Hv. destruct (str_nat_numeral v Hv) as [Hd Hne _]. exists (str_nat v).
  split_and!; [|by apply digits_no_slash|done|done].
  unfold version, version_path, app_dir. by rewrite <- (assoc_L (++)).
Qed.

Section paths.
Context (n m : cstring) (v u : Z).
Hypotheses (Hn : app_name_ok n) (Hm : app_name_ok m) (Hv : 0 ≤ v) (Hu : 0 ≤ u).

Lemma version_eq : version n v = version m u → n = m ∧ v = u.
Proof using All.
  destruct (version_shape n v Hv) as (s & -> & Hs & _ & Hsv).
  destruct (version_shape m u Hu) as (t & -> & Ht & _ & Htu).
  intros Heq. apply app_inv_head in Heq. injection Heq as Heq.
  apply no_slash_split in Heq as [-> Heq]; [|apply Hn|apply Hm]. split; [done|].
  apply str_nat_inj; congruence.
Qed.

Lemma within_version : within (version n v) (version m u) → n = m ∧ v = u.
Proof using All.
  intros [Heq|[k Hk]]; [by symmetry in Heq; apply version_eq|].
  destruct (version_shape n v Hv) as (s & Hs1 & Hs & _ & _).
  destruct (version_shape m u Hu) as (t & Ht1 & Ht & _ & _).
  rewrite Hs1, Ht1, <- !(assoc_L (++)) in Hk. apply app_inv_head in Hk. injection Hk as Hk.
  rewrite <- (assoc_L (++)) in Hk. simpl in Hk.
  apply no_slash_split in Hk as [_ Hk]; [|apply Hm|apply Hn].
  destruct Ht. rewrite Hk, !elem_of_app, elem_of_cons. tauto.
Qed.

Lemma within_app_dir : within (app_dir n) (version m u) → n = m.
Proof using Hn Hm Hu.
  destruct (version_shape m u Hu) as (t & -> & Ht & Hne & _). unfold app_dir. intros [Heq|[k Hk]].
  - apply app_inv_head in Heq. injection Heq as Heq. destruct Hn as [_ []].
    rewrite <- Heq, elem_of_app, elem_of_cons. tauto.
  - rewrite <- !(assoc_L (++)) in Hk. apply app_inv_head in Hk. injection Hk as Hk.
    apply no_slash_split in Hk as [-> _]; [done|apply Hm|apply Hn].
Qed.

Lemma version_not_dir : version m u ≠ app_dir n.
Proof using Hn Hu.
  destruct (version_shape m u Hu) as (t & -> & Ht & Hne & _). unfold app_dir. intros Heq.
  apply app_inv_head in Heq. injection Heq as Heq. destruct Hn as [_ []].
  rewrite <- Heq, elem_of_app, elem_of_cons. tauto.
Qed.
End paths.

Lemma dirname_version n v : app_name_ok n → 0 ≤ v → dirname (version n v) = app_dir n.
Proof.
  intros Hn Hv. destruct (str_nat_numeral v Hv) as [Hd _ _]. unfold dirname, version, version_path.
  rewrite reverse_app, reverse_cons, <- (assoc_L (++)). simpl.
  rewrite take_until_app by (rewrite elem_of_reverse; by apply digits_no_slash).
  rewrite drop_app_length. pose proof (last_app_dir n Hn) as Hl.
  assert (app_dir n ≠ []) as Hne by done. revert Hl Hne. generalize (app_dir n) as d. intros d.
  destruct d as [|c d _] using rev_ind; [done|]. rewrite last_snoc, reverse_snoc. intros Hc _.
  assert (drop_while slash (slash :: c :: reverse d) = c :: reverse d) as ->.
  { apply (drop_while_head slash c). congruence. }
  rewrite decide_False by done. by rewrite reverse_cons, reverse_involutive.
Qed.

(** ** What the update relies on *)

Section versions.
Context {K : Type} `{System K}.

(** What the search for bundles below [p] finds, or the error it raises: a
    [config.json] that is no JSON text stops it. *)
Definition search (k : K) (p : cstring) : list cstring + exn :=
  pvalue (get_oci_bundle_paths p {| sys := k; commands := [] |}).

(** A version: its directory is a bundle, and nothing below is one. *)
Definition has_version (k : K) (n : cstring) (v : Z) : Prop :=
  good_app n ∧ 0 ≤ v ∧ search k (version n v) = inl [version n v].

(** The search in the directory of an application. *)
Definition versions_at (k : K) (n : cstring) (vs : list Z) : Prop :=
  search k (app_dir n) = inl (version n <$> vs) ∧ ∀ v, v ∈ vs ↔ has_version k n v.

(** The search for the versions of [n] ends without an error. *)
Definition readable (n : cstring) (k : K) : Prop := good_app n → ∃ ps, search k (app_dir n) = inl ps.

Lemma has_version_dir k n v : has_version k n v → 0 ≤ v ∧ isdir (version n v) k = true.
Proof.
  intros (_ & Hv & Hs). split; [done|]. revert Hs. unfold search, isdir, get_oci_bundle_paths.
  unfold mbind, P_bind, pget. cbn [sys]. by destruct (entry k (version n v)) as [[]|].
Qed.

Lemma has_version_in k n v vs : has_version k n v → versions_at k n vs → v ∈ vs.
Proof. intros Hv [_ Hi]. by apply Hi. Qed.
End versions.

(** The commands of an update that change the directory [p]. *)
Inductive touches : cstring → command → Prop :=
| touch_install n v pkg :
    good_app n → 0 ≤ v → touches (version n v) (CInstall (n ++ ":" ++ version n v) pkg)
| touch_remove n v :
    good_app n → 0 ≤ v → touches (version n v) (CRemove (n ++ ":" ++ version n v) n)
| touch_rmtree n v : good_app n → 0 ≤ v → touches (version n v) (CRmtree (version n v))
| touch_rmdir n : good_app n → touches (app_dir n) (CRmtree (app_dir n)).

Definition installs (c : command) : bool := match c with CInstall _ _ => true | _ => false end.

(** In a [coherent] tree the bundles of the applications are in directories that
    numbers name, which lie in the directory of their application. There may be
    other things in them, and bundles whose [config.json] is incomplete. A command
    changes only the directory it names, when it fails and when the power goes
    too, and unpacking an archive none of them. Removing files does not make a
    text incomplete; an installation may. *)
Class TreeLaws (K : Type) `{AppLaws K} `{Tar K} := {
  coherent : K → Prop;
  coherent_versions n k ps :
    coherent k → good_app n → search k (app_dir n) = inl ps → ∃ vs, ps = version n <$> vs ∧ versions_at k n vs;
  version_parent n v k : coherent k → has_version k n v → isdir (app_dir n) k = true;
  quiet_coherent c k k' : quiet c = true → leaves c k k' → coherent k → coherent k';
  quiet_version c k k' n v :
    quiet c = true → leaves c k k' → coherent k → has_version k n v → has_version k' n v;
  quiet_readable c k k' n : quiet c = true → leaves c k k' → coherent k → readable n k → readable n k';
  touch_coherent p c k k' : touches p c → leaves c k k' → coherent k → coherent k';
  touch_version p c k k' n v :
    touches p c → leaves c k k' → coherent k → ¬ within p (version n v) → has_version k n v →
    has_version k' n v;
  touch_readable p c k k' n :
    touches p c → installs c = false → leaves c k k' → coherent k → readable n k → readable n k';
  extract_coherent pkg l k : coherent k → coherent (extractall IPKS_EXCTRACTION_PATH pkg l k).2;
  extract_version pkg l k n v :
    coherent k → has_version k n v → has_version (extractall IPKS_EXCTRACTION_PATH pkg l k).2 n v;
  extract_readable pkg l k n :
    coherent k → readable n k → readable n (extractall IPKS_EXCTRACTION_PATH pkg l k).2;
  version_resolved n v k : good_app n → 0 ≤ v → resolve k (version n v) = version n v
}.

(** ** The search *)

(** [m] returns or raises the same in every state, and leaves the state alone. *)
Definition constant {S A} (m : P S A) : Prop :=
  ∃ v : A + exn, ∀ s, m s = match v with inl a => Ret a s | inr e => Raise e s end.

Lemma constant_ret {S A} (a : A) : constant (mret a : P S A).
Proof. by exists (inl a). Qed.
Lemma constant_raise {S A} c t : constant (raise c t : P S A).
Proof. by eexists (inr _). Qed.
Lemma constant_bind {S A B} (m : P S A) (f : A → P S B) :
  constant m → (∀ a, constant (f a)) → constant (m ≫= f).
Proof.
  intros [[a|e] Hm] Hf; unfold mbind, P_bind.
  - destruct (Hf a) as [v Hv]. exists v. intros s. by rewrite Hm.
  - exists (inr e). intros s. by rewrite Hm.
Qed.

Lemma constant_is_bundle {S} w : constant (is_bundle w : P S bool).
Proof.
  unfold is_bundle, py_in, py_get.
  repeat (apply constant_ret || apply constant_raise || (apply constant_bind; [|intros]) || case_match).
Qed.

Lemma constant_bundles {S} ws : constant (bundles ws : P S (list cstring)).
Proof.
  induction ws as [|w ws IH]; [apply constant_ret|]. cbn [bundles].
  apply constant_bind; [apply constant_is_bundle|]. intros b. apply constant_bind; [done|]. intros r. apply constant_ret.
Qed.

Lemma search_run {K} `{System K} p (h : host K) :
  get_oci_bundle_paths p h = match search (sys h) p with inl ps => Ret ps h | inr e => Raise e h end.
Proof.
  unfold search, get_oci_bundle_paths, mbind, P_bind, pget. cbn [sys].
  destruct (constant_bundles (S := host K)
    (match entry (sys h) p with Some n => os_walk p n | None => [] end)) as [[ps|e] Hv]; by rewrite !Hv.
Qed.

(** An application without a directory, or with an empty one, has no version. *)
Lemma no_version_without {K} `{TreeLaws K} (k : K) n v :
  coherent k → (match entry k (app_dir n) with Some (Dir (_ :: _)) => False | _ => True end) → ¬ has_version k n v.
Proof.
  intros Hc He Hv. pose proof (version_parent n v k Hc Hv) as Hd. unfold isdir in Hd.
  destruct (entry k (app_dir n)) as [[d|[|e es]|]|] eqn:Hn; try done. pose proof Hv as ([Hok _] & Hv0 & _).
  apply has_version_dir in Hv as [_ Hv]. rewrite (empty_dir k (app_dir n)) in Hv; [done|done| |].
  - right. exists (str_nat v). unfold version, version_path. by rewrite <- (assoc_L (++)).
  - by apply version_not_dir.
Qed.

(** ** The versions that are kept *)

Section kept.
Context {K : Type} `{TreeLaws K}.
Context (D : cstring → Z → Prop) (HD : ∀ n v, D n v → good_app n ∧ 0 ≤ v).
Context (l0 : list (command * K)).
Implicit Types (h : host K) (k : K).

Definition kept k : Prop := coherent k ∧ ∀ n v, D n v → has_version k n v.

(** A version that is not kept, and one above all that are. *)
Definition unkept (n : cstring) (w : Z) : Prop := 0 ≤ w ∧ ¬ D n w.
Definition fresh (n : cstring) (w : Z) : Prop := 0 ≤ w ∧ ∀ v, D n v → v < w.

Lemma fresh_unkept n w : fresh n w → unkept n w.
Proof. intros [Hw Hf]. split; [done|]. intros Hd%Hf. lia. Qed.

Lemma unkept_apart n w m v : good_app n → unkept n w → D m v → ¬ within (version n w) (version m v).
Proof using HD.
  intros Hn [Hw Hf] Hd Hin. destruct (HD m v Hd) as [Hm Hv].
  destruct (within_version n m w v (proj1 Hn) (proj1 Hm) Hw Hv Hin) as [-> ->]. done.
Qed.

Lemma keeps_quiet c : quiet c = true → Keeps (always l0 kept) (subprocess_run c).
Proof.
  intros Hc. apply keeps_run. intros k k' [Hk Hd] Hl. split; [by eapply quiet_coherent|].
  intros n v Hv. eapply quiet_version; eauto.
Qed.

Lemma keeps_touch p c :
  touches p c → (∀ n v, D n v → ¬ within p (version n v)) → Keeps (always l0 kept) (subprocess_run c).
Proof.
  intros Hc Hp. apply keeps_run. intros k k' [Hk Hd] Hl. split; [by eapply touch_coherent|].
  intros n v Hv. eapply touch_version; eauto.
Qed.

Lemma keeps_rmtree_version p :
  touches p (CRmtree p) → (∀ n v, D n v → ¬ within p (version n v)) → Keeps (always l0 kept) (py_rmtree p).
Proof. intros Hc Hp. unfold py_rmtree. apply keeps_bind; [by eapply keeps_touch|]. intros r. keeps_go. Qed.

(** The directory of an application goes only when no bundle is left in it. *)
Lemma keeps_rmdir_app n :
  good_app n →
  Keeps (always l0 kept)
    (entries ← listdir (app_dir n);
     if bool_decide (entries = []) && negb (bool_decide (app_dir n = APPS_PATH))
     then py_rmtree (app_dir n) else mret tt).
Proof using HD.
  intros Hn h Hh. unfold listdir, pget, mbind, P_bind. cbn [pstate].
  destruct (entry (sys h) (app_dir n)) as [[| es |]|] eqn:He; try done.
  change (mret es.*1 : P (host K) (list cstring)) with (λ s : host K, Ret es.*1 s). cbv beta iota.
  destruct es as [|e es]; [|done]. destruct (negb _); [|done].
  apply keeps_rmtree_version; [by constructor| |done]. intros m v Hd Hin.
  destruct (HD m v Hd) as [Hm Hv]. pose proof (always_now _ _ _ Hh) as [_ Hk].
  apply (within_app_dir n m v (proj1 Hn) (proj1 Hm) Hv) in Hin as <-.
  apply (no_version_without (sys h) n v); [apply (always_now _ _ _ Hh)|by rewrite He|by apply Hk].
Qed.

Lemma keeps_remove_version n w :
  good_app n → unkept n w → Keeps (always l0 kept) (remove_app n (version n w)).
Proof using HD.
  intros Hn Hf. assert (∀ m v, D m v → ¬ within (version n w) (version m v)) as Hap
    by (intros; by apply unkept_apart).
  unfold remove_app. apply keeps_bind; [apply _|]. intros found. apply keeps_if; [apply _|].
  apply keeps_bind; [apply (keeps_touch (version n w)); [constructor; [done|apply Hf]|done]|].
  intros r. apply keeps_if; [apply _|]. intros h Hh.
  rewrite (pbind_ret (pget _) _ (app_dir n) h h).
  2: { unfold pget. rewrite version_resolved by (done || apply Hf).
       rewrite dirname_version; [done|apply Hn|apply Hf]. }
  revert h Hh. apply keeps_bind; [apply keeps_rmtree_version; [constructor; [done|apply Hf]|done]|].
  intros _. by apply keeps_rmdir_app.
Qed.

Lemma keeps_app_name pkg : Keeps (always l0 kept) (get_app_name pkg).
Proof.
  unfold get_app_name, parse_app_info, py_item.
  assert (∀ (i : info) ls, Keeps (always l0 kept) (parse_lines i ls : P (host K) info)) as Hp.
  { intros i ls. revert i. induction ls as [|l ls IH]; intros i; simpl; keeps_go. }
  keeps_go. by apply keeps_quiet.
Qed.
End kept.

(** ** Installation *)

Section install.
Context {K : Type} `{TreeLaws K}.
Context (D : cstring → Z → Prop) (HD : ∀ n v, D n v → good_app n ∧ 0 ≤ v).
Context (l0 : list (command * K)).
Implicit Types (h : host K) (m : AppUpdateManager K).

Definition safe h : Prop := always l0 (kept D) h.

(** Whatever the system is, the package [g] is one of the application [n]. *)
Definition names (g n : cstring) : Prop :=
  good_app n ∧ ∀ h n' h', get_app_name g h = Ret n' h' → n' = n.

(** No version is gone. *)
Definition grows h h' : Prop := kept (has_version (sys h)) (sys h').

Lemma has_version_good k n v : has_version k n v → good_app n ∧ 0 ≤ v.
Proof. intros Hv. split; [apply Hv|by eapply has_version_dir]. Qed.

Lemma grows_refl h : safe h → grows h h.
Proof. intros Hh. split; [by apply (always_now _ _ _ Hh)|done]. Qed.

Lemma grows_trans h1 h2 h3 : grows h1 h2 → grows h2 h3 → grows h1 h3.
Proof. intros [_ H12] [Hc H23]. split; [done|]. auto. Qed.

(** A step that keeps [D], and whatever versions there were. *)
Lemma wp_grows {A} (f : P (host K) A) Q E h :
  safe h →
  (∀ l D', (∀ n v, D' n v → good_app n ∧ 0 ≤ v) →
     (∀ n v, D' n v → D n v ∨ has_version (sys h) n v) → Keeps (always l (kept D')) f) →
  (∀ x h', f h = Ret x h' → safe h' → grows h h' → Q x h') → (∀ e h', safe h' → E e h') →
  pwp f Q E h.
Proof using HD.
  intros Hh Hk HQ HE. eapply (pwp_keeps safe); [by apply Hk; auto|done|].
  eapply (pwp_kept (always (commands h) (kept (has_version (sys h)))));
    [apply Hk; eauto using has_version_good|by apply always_start, grows_refl|..]; [|auto].
  intros x h' Hr Ha Hs. apply HQ; [done..|]. apply (always_now _ _ _ Ha).
Qed.

Lemma wp_name g n Q E h :
  names g n → safe h → (∀ h', safe h' → grows h h' → Q n h') → (∀ e h', safe h' → E e h') →
  pwp (get_app_name g) Q E h.
Proof using HD.
  intros [_ Hg] Hh HQ HE. apply wp_grows; [done|intros; apply keeps_app_name| |done].
  intros x h' ->%Hg. auto.
Qed.

Lemma keeps_install g n w l D' :
  (∀ n v, D' n v → good_app n ∧ 0 ≤ v) → names g n → unkept D' n w →
  Keeps (always l (kept D')) (install_app g (version n w)).
Proof.
  intros HD' [Hn Hg] Hf. unfold install_app.
  apply keeps_bind_result; [apply keeps_app_name|]. intros n' h h' ->%Hg.
  apply keeps_bind; [apply (keeps_touch _ _ (version n w));
    [constructor; [done|apply Hf]|intros; by eapply unkept_apart]|].
  intros r. apply keeps_if; [|apply _]. apply keeps_bind; [apply _|]. intros found.
  apply keeps_bind; [|apply _]. apply keeps_if; [by apply keeps_remove_version|apply _].
Qed.

Lemma wp_install_app g n w Q E h :
  names g n → safe h → fresh D n w → (∀ v, has_version (sys h) n v → v < w) →
  (∀ h', safe h' → grows h h' → Q tt h') → (∀ e h', safe h' → E e h') →
  pwp (install_app g (version n w)) Q E h.
Proof using HD.
  intros Hg Hh Hf Hw HQ HE. apply wp_grows; [done| |by intros []; auto|done].
  intros l D' HD' Hsub. apply keeps_install; [done..|]. split; [apply Hf|].
  intros [Hv%Hf|Hv%Hw]%Hsub; lia.
Qed.

(** The paths for an application, unless its bundles cannot be read: the current
    version is one it has, and the new one is above all it has. *)
Lemma bundle_paths h n :
  coherent (sys h) → good_app n →
  (∃ e, _get_app_bundle_paths n h = Raise e h) ∨
  ∃ r, _get_app_bundle_paths n h = Ret r h ∧
    match r with
    | None => True
    | Some (cur, new) =>
        ∃ w, new = version n w ∧ 0 ≤ w ∧ (∀ v, has_version (sys h) n v → v < w) ∧
          ∀ p, cur = Some p → ∃ c, p = version n c ∧ has_version (sys h) n c
    end.
Proof.
  intros Hc Hn. pose proof Hn as [Hok _].
  assert (∀ r, (isdir (app_dir n) (sys h) = true →
                ∃ bs, get_oci_bundle_paths (app_dir n) h = Ret bs h ∧ bs = [] ∧ r = None) →
               (isdir (app_dir n) (sys h) = false → r = Some (None, version n 0)) →
               _get_app_bundle_paths n h = Ret r h) as Heq.
  { intros r Hr1 Hr2. unfold _get_app_bundle_paths. change APPS_INSTALLATION_PATH with APPS_PATH.
    rewrite join_app by done. unfold pget at 1, mbind at 1, P_bind at 1.
    destruct (isdir _ _); cbn [negb].
    - destruct (Hr1 eq_refl) as (bs & Hb & -> & ->). by rewrite (pbind_ret _ _ _ _ _ Hb).
    - rewrite (Hr2 eq_refl). change ("0" : cstring) with (str_int 0). by rewrite join_version. }
  destruct (isdir (app_dir n) (sys h)) eqn:Hd.
  - pose proof (search_run (app_dir n) h) as Hb.
    destruct (search (sys h) (app_dir n)) as [ps|e] eqn:Hse; [right|left].
    2: { exists e. unfold _get_app_bundle_paths. change APPS_INSTALLATION_PATH with APPS_PATH.
         rewrite join_app by done. unfold pget at 1, mbind at 1, P_bind at 1. rewrite Hd. cbn [negb].
         by rewrite (pbind_raise _ _ _ _ _ Hb). }
    destruct (coherent_versions n (sys h) ps Hc Hn Hse) as (vs & -> & Hvs). pose proof Hvs as [_ Hall].
    destruct vs as [|v vs].
    { exists None. split; [|done]. apply Heq; [|done]. intros _. by exists []. }
    assert (Forall (λ v, 0 ≤ v) (v :: vs)) as Hpos by (apply Forall_forall; intros u Hu; by apply Hall).
    destruct (bundle_paths_result n (v :: vs) h) as (cur & top & Hcur & Hrange & Hres); [done..|].
    rewrite Forall_forall in Hrange, Hpos. pose proof (Hpos cur Hcur). pose proof (Hrange cur Hcur).
    eexists. split; [exact Hres|]. exists (top + 1). split_and!; [done|lia| |].
    + intros u Hu. apply (has_version_in _ _ _ (v :: vs)) in Hu; [|done]. specialize (Hrange u Hu). lia.
    + intros p [= <-]. exists cur. split; [done|]. by apply Hall.
  - right. exists (Some (None, version n 0)). split; [by apply Heq|]. exists 0. split_and!; [done|done| |done].
    intros v Hv. apply (version_parent n v) in Hc; [|done]. by rewrite Hd in Hc.
Qed.

(** What is recorded of an installation. *)
Definition record_ok x : Prop :=
  good_app (name x) ∧ ∃ w, new_bundle_path x = version (name x) w ∧ fresh D (name x) w ∧
    ∀ p, cur_bundle_path x = Some p → ∃ c, 0 ≤ c < w ∧ p = version (name x) c.

Definition installing m : Prop := Forall record_ok (_installed_apps m) ∧ safe (the_host m).

Definition current m : Prop :=
  ∀ x p, x ∈ _installed_apps m → cur_bundle_path x = Some p →
    ∃ c, p = version (name x) c ∧ has_version (sys (the_host m)) (name x) c.

Lemma wp_manage g n Q E m :
  names g n → installing m → current m →
  (∀ m', installing m' → current m' → Q tt m') → (∀ e m', installing m' → E e m') →
  pwp (_manage_app_installation g) Q E m.
Proof using HD.
  intros Hg [Hr Hs] Hc HQ HE. pose proof (proj1 Hg) as Hn.
  apply pwp_bind, pwp_on_host, (wp_name g n); [done..| |intros e h' Hh'; by apply HE].
  intros h1 Hh1 Hg1. apply pwp_bind, pwp_on_host. pose proof (always_now _ _ _ Hh1) as [Hcoh Hkept].
  unfold pwp at 1. cbn [the_host set_host].
  destruct (bundle_paths h1 n Hcoh Hn) as [[e Hp]|(r & Hp & Hspec)]; rewrite Hp; [by apply HE|]. destruct r as [[cur new]|]; [|by apply HE].
  destruct Hspec as (w & -> & Hw & Hmax & Hcur).
  assert (fresh D n w) as Hf by (split; [done|]; intros v Hv; by apply Hmax, Hkept).
  apply pwp_bind, pwp_on_host, (wp_install_app g n w); [done..| |intros e h' Hh'; by apply HE].
  intros h2 Hh2 Hg2. apply pwp_put, HQ.
  - split; [|done]. apply Forall_app. split; [done|]. apply Forall_singleton. split; [done|].
    exists w. split_and!; [done|done|]. intros p Hp'. destruct (Hcur p Hp') as (c & -> & Hv).
    exists c. split; [|done]. pose proof (has_version_dir _ _ _ Hv) as [? _]. by split; [|apply Hmax].
  - intros x p [Hx| ->%list_elem_of_singleton]%elem_of_app Hp'; simpl in *.
    + destruct (Hc x p Hx Hp') as (c & -> & Hv). exists c. split; [done|]. by apply Hg2, Hg1.
    + destruct (Hcur p Hp') as (c & -> & Hv). exists c. split; [done|]. by apply Hg2.
Qed.

(** The clean-up removes only what is recorded. *)
Lemma keeps_remove_installed : Keeps installing (_remove_apps_bundles NEW_BUNDLE_PATH).
Proof using HD.
  intros m Hm. unfold _remove_apps_bundles, self, pget, mbind, P_bind.
  assert (∀ xs, Forall record_ok xs →
    Keeps installing (for_each xs (λ x, match path_to_remove x NEW_BUNDLE_PATH with
      | None => mret tt | Some p => on_host (remove_app (name x) p) end))) as Hk.
  { intros xs Hxs. apply keeps_for_each. intros x Hx. rewrite Forall_forall in Hxs.
    destruct (Hxs x Hx) as (Hn & w & Hp & Hf & _). unfold path_to_remove. simpl. rewrite Hp.
    destruct (version (name x) w) as [|c p] eqn:Hv; [apply _|]. rewrite <- Hv.
    intros m' [Hr Hs]. pose proof (keeps_remove_version D HD l0 (name x) w Hn (fresh_unkept _ _ _ Hf) (the_host m') Hs) as Hs'.
    unfold on_host. by destruct (remove_app _ _ (the_host m')). }
  apply (Hk (_installed_apps m)); [apply Hm|done].
Qed.

Definition ipks_named m : Prop := ∀ g, g ∈ _ipks m → ∃ n, names (join IPKS_EXCTRACTION_PATH g) n.

Lemma wp_install_apps Q E m :
  ipks_named m → installing m → current m →
  (∀ m', installing m' → current m' → Q tt m') → (∀ e m', installing m' → E e m') →
  pwp install_apps Q E m.
Proof using HD.
  intros Hg Hm Hc HQ HE. apply pwp_bind, pwp_get.
  eapply pwp_mono; [apply (pwp_for_each (_ipks m) _ (λ gs m', (∀ g, g ∈ gs → g ∈ _ipks m) ∧
    installing m' ∧ current m') (λ _ m', installing m'))|..]; [|by split_and!| |done].
  - intros g gs m' (Hin & Hm' & Hc'). destruct (Hg g) as [n Hn]; [apply Hin; by left|].
    apply pwp_try_except, (wp_manage _ n); [done..| |].
    + intros m2 Hm2 Hc2. split_and!; [|done..]. intros g' Hg'. apply Hin. by right.
    + intros e m2 Hm2. destruct (isinstance e _); [|done]. unfold pwp, try_else.
      pose proof (keeps_remove_installed m2 Hm2) as Hm3.
      destruct (_remove_apps_bundles _ m2) as [[] m3|e3 m3]; [done|]. by destruct (isinstance e3 _).
  - intros [] m' (_ & Hm' & Hc'). by apply HQ.
Qed.
End install.

(** ** The whole program *)

Section whole.
Context {K : Type} `{TreeLaws K}.
Implicit Types (h : host K) (m : AppUpdateManager K).

Section records.
Context (D : cstring → Z → Prop) (HD : ∀ n v, D n v → good_app n ∧ 0 ≤ v).
Context (apps : list AppRecord) (Hr : Forall (record_ok D) apps).

Lemma record_of x : x ∈ apps → record_ok D x.
Proof using Hr. intros Hx. rewrite Forall_forall in Hr. by apply Hr. Qed.

Lemma same_name x y :
  NoDup (name <$> apps) → x ∈ apps → y ∈ apps → name x = name y → x = y.
Proof using Type.
  intros Hnd Hx Hy Hname. apply list_elem_of_lookup in Hx as [i Hi].
  apply list_elem_of_lookup in Hy as [j Hj]. assert (i = j) as ->; [|congruence].
  apply (NoDup_lookup (name <$> apps) i j (name x)); [done|by rewrite list_lookup_fmap, Hi|].
  by rewrite list_lookup_fmap, Hj, Hname.
Qed.

Lemma records_wf : NoDup (name <$> apps) → update_wf apps.
Proof using -HD.
  intros Hnd. split; [done|..].
  - intros x Hx. destruct (record_of x Hx) as [(_ & ? & ? & _) _]. done.
  - intros x Hx. destruct (record_of x Hx) as (Hn & w & -> & [Hw _] & _).
    split; [by destruct (version_shape (name x) w Hw) as (s & -> & _)|].
    intros k. by apply version_resolved.
  - intros x p Hx Hp. destruct (record_of x Hx) as (Hn & w & _ & _ & Hc).
    destruct (Hc p Hp) as (c & [Hc0 _] & ->).
    split; [by destruct (version_shape (name x) c Hc0) as (s & -> & _)|].
    intros k. by apply version_resolved.
  - intros x y p Hx Hy Hp. destruct (record_of x Hx) as (Hn & w & Hnew & [Hw _] & Hcx).
    destruct (record_of y Hy) as (Hn' & w' & Hnew' & _ & Hc).
    destruct (Hc p Hp) as (c & [Hc0 Hcw] & ->).
    rewrite Hnew, dirname_version by (apply Hn || done).
    split; [|apply version_not_dir; [apply Hn|done] ].
    intros Hin. apply within_version in Hin as [Hname Hwc]; [|apply Hn|apply Hn'|done..].
    assert (x = y) as -> by (by eapply same_name).
    rewrite Hnew in Hnew'. apply version_path_inj in Hnew'; lia.
Qed.

(** The directories that are kept and are not replaced. *)
Definition unreplaced (q : cstring) : Prop := ∃ n v, D n v ∧ q = version n v ∧ ¬ previous apps q.

Lemma unreplaced_apart : apart apps unreplaced.
Proof using All.
  intros x q Hx (n & v & Hd & -> & Hnp). destruct (HD n v Hd) as [[Hn _] Hv].
  destruct (record_of x Hx) as (Hok & w & -> & Hf & Hc). pose proof Hok as [Hox _].
  split.
  - split; [by apply (unkept_apart D HD), Hd; [|apply fresh_unkept]|]. rewrite dirname_version by (done || apply Hf).
    by apply version_not_dir.
  - intros p Hp. destruct (Hc p Hp) as (c & [Hc0 _] & ->). split.
    + intros Hin. apply within_version in Hin as [<- <-]; [|done..]. apply Hnp. by exists x.
    + rewrite dirname_version by done. by apply version_not_dir.
Qed.

#[export] Instance previous_dec q : Decision (previous apps q).
Proof.
  destruct (decide (Exists (λ x, cur_bundle_path x = Some q) apps)) as [He|He];
    [left|right]; unfold previous; rewrite <- Exists_exists; done.
Qed.

(** In every state of the last phase a version is there or replaced. *)
Lemma kept_or_replaced k n v :
  D n v → old_kept apps unreplaced k ∨ new_kept apps unreplaced k →
  isdir (version n v) k = true ∨ ∃ w, v < w ∧ container k n = Some (version n w).
Proof using All.
  intros Hd Hk. destruct (decide (previous apps (version n v))) as [(x & Hx & Hp)|Hnp].
  - destruct Hk as [Hk|[Hk _]]; [left; apply Hk; right; by exists x|right].
    destruct (HD n v Hd) as [[Hn _] Hv]. destruct (record_of x Hx) as ([Hok _] & w & Hnew & _ & Hc).
    destruct (Hc _ Hp) as (c & [Hc0 Hcw] & Heq). apply version_eq in Heq as [-> ->]; [|done..].
    exists w. split; [done|]. rewrite <- Hnew. by apply Hk.
  - left. assert (unreplaced (version n v)) as Hu by (by exists n, v).
    destruct Hk as [Hk|[_ Hk]]; apply Hk; [by left|done].
Qed.
End records.

(** Before the archive is unpacked, and after. *)
Definition unpacking (D : cstring → Z → Prop) l0 m : Prop :=
  _installed_apps m = [] ∧ safe D l0 (the_host m).

Lemma keeps_unpack D l0 : Keeps (unpacking D l0) unpack.
Proof.
  assert (∀ ms damaged, Keeps (unpacking D l0) (_get_ipks_from_pkg ms damaged)) as Hipks.
  { intros ms damaged. unfold _get_ipks_from_pkg. apply keeps_bind; [|intros _; keeps_go].
    apply keeps_for_each. intros info _. apply keeps_bind; [unfold _validate_archive_member, self; keeps_go|].
    intros valid. destruct valid; [by intros m|apply _]. }
  assert (Keeps (unpacking D l0) extract) as Hext.
  { intros m [Hi (l & Hc & Hl & [Hcoh Hk])]. unfold extract.
    pose proof (extract_coherent (update_pkg m) (_ipks m) _ Hcoh) as Hcoh'.
    pose proof (λ n v, extract_version (update_pkg m) (_ipks m) _ n v Hcoh) as Hv.
    destruct (extractall _ _ _ _) as [[e|] k]; (split; [done|]); exists l; (split; [done|]);
      (split; [done|]); (split; [done|]); intros n v Hd; by apply Hv, Hk. }
  unfold unpack, self. apply keeps_bind; [apply _|]. intros pkg. apply keeps_bind; [apply _|].
  intros file. destruct file; keeps_go.
Qed.

(** What is assumed of the archive: each of its packages is one application's,
    whose name is a directory's, and no application is in it twice. *)
Record payload_ok (pkg : cstring) h : Prop := {
  payload_names m : unpack (new_manager pkg h) = Ret tt m → ipks_named m;
  payload_distinct m :
    (unpack;; install_apps) (new_manager pkg h) = Ret tt m → NoDup (name <$> _installed_apps m)
}.

(** The names of the applications are those of the packages. *)
Lemma manage_name g n m :
  names g n →
  pwp (_manage_app_installation g)
    (λ _ m', name <$> _installed_apps m' = (name <$> _installed_apps m) ++ [n]) (λ _ _, True) m.
Proof.
  intros [_ Hg]. apply pwp_bind, pwp_on_host. unfold pwp at 1.
  destruct (get_app_name g (the_host m)) as [n' h1|] eqn:Hn; [|done]. apply Hg in Hn as ->.
  apply pwp_bind, pwp_on_host. unfold pwp at 1.
  destruct (_get_app_bundle_paths n _) as [[[cur new]|] h2|]; [|done..].
  apply pwp_bind, pwp_on_host. unfold pwp at 1. destruct (install_app _ _ _) as [[] h3|]; [|done].
  apply pwp_put. simpl. by rewrite fmap_app.
Qed.

Definition package_names (gs ns : list cstring) : Prop :=
  Forall2 (λ g n, names (join IPKS_EXCTRACTION_PATH g) n) gs ns.

Lemma install_names ns m :
  package_names (_ipks m) ns →
  pwp install_apps (λ _ m', name <$> _installed_apps m' = (name <$> _installed_apps m) ++ ns) (λ _ _, True) m.
Proof.
  intros Hns. apply pwp_bind, pwp_get.
  eapply pwp_mono; [apply (pwp_for_each (_ipks m) _ (λ gs m', ∃ ns1 ns2, ns = ns1 ++ ns2 ∧
    package_names gs ns2 ∧ name <$> _installed_apps m' = (name <$> _installed_apps m) ++ ns1)
    (λ _ _, True))|..]; [| | |done].
  - intros g gs m' (ns1 & ns2 & -> & Hgs & Heq). apply Forall2_cons_inv_l in Hgs as (n & ns3 & Hn & Hgs & ->).
    apply pwp_try_except. eapply pwp_mono; [by apply (manage_name _ n)|..].
    + intros [] m2 Hm2. exists (ns1 ++ [n]), ns3. split_and!; [by rewrite <- (assoc_L (++))|done|].
      by rewrite Hm2, Heq, (assoc_L (++)).
    + intros e m2 _. destruct (isinstance e _); [|done]. unfold pwp, try_else.
      destruct (_remove_apps_bundles _ m2) as [[] m3|e3 m3]; [done|]. by destruct (isinstance e3 _).
  - exists [], ns. by rewrite app_nil_r.
  - intros [] m' (ns1 & ns2 & -> & Hgs & ->). apply Forall2_nil_inv_l in Hgs as ->. by rewrite app_nil_r.
Qed.

Lemma distinct_payload pkg h ns :
  coherent (sys h) → (∀ m, unpack (new_manager pkg h) = Ret tt m → package_names (_ipks m) ns) →
  NoDup ns → payload_ok pkg h.
Proof.
  intros Hcoh Hns Hnd. split.
  - intros m Hm g (i & Hi)%list_elem_of_lookup.
    destruct (Forall2_lookup_l _ _ _ _ _ (Hns m Hm) Hi) as (n & _ & Hn). by exists n.
  - intros m. unfold mbind, P_bind.
    pose proof (keeps_unpack (λ _ _, False) (commands h) (new_manager pkg h)) as Hk.
    destruct (unpack (new_manager pkg h)) as [[] m1|] eqn:Hm; [|done].
    destruct Hk as [Hnil _]; [split; [done|]; by apply always_start|].
    pose proof (install_names ns m1 (Hns m1 eq_refl)) as Hw. unfold pwp in Hw. intros Hi. rewrite Hi in Hw.
    simpl in Hnil. by rewrite Hw, Hnil.
Qed.

(** The first two phases keep every version there was; when they return, the
    records are those of an update. *)
Lemma installation_safe pkg h :
  coherent (sys h) → payload_ok pkg h →
  let D := has_version (sys h) in
  let r := (unpack;; install_apps) (new_manager pkg h) in
  safe D (commands h) (the_host (pstate r)) ∧
  ∀ m, r = Ret tt m →
    Forall (record_ok D) (_installed_apps m) ∧ current m ∧ NoDup (name <$> _installed_apps m).
Proof.
  intros Hcoh Hok D r. set (m0 := new_manager pkg h) in *.
  assert (∀ n v, D n v → good_app n ∧ 0 ≤ v) as HD by apply has_version_good.
  assert (pwp (unpack;; install_apps) (λ _ m, installing D (commands h) m ∧ current m)
    (λ _ m, safe D (commands h) (the_host m)) m0) as Hw.
  { apply pwp_bind, (pwp_kept (unpacking D (commands h))); [apply keeps_unpack| | |].
    - split; [done|]. by apply always_start.
    - intros [] m Hr [Hi Hs]. apply (wp_install_apps D HD (commands h));
        [by eapply payload_names|split; [by rewrite Hi|done]| |done|].
      + intros x p. rewrite Hi. by intros ?%not_elem_of_nil.
      + by intros e m' [_ Hs'].
    - by intros e m [_ Hs]. }
  pose proof (payload_distinct _ _ Hok) as Hnd. fold m0 in Hnd. fold r in Hnd.
  unfold pwp in Hw. fold r in Hw. destruct r as [[] m|e m]; [|done].
  destruct Hw as [[Hrec Hs] Hcur]. split; [done|]. intros ? [= <-]. auto.
Qed.

(** C8: a whole update loses nothing. Whatever opkg, runc and the archive answer,
    in every state that a command of the program finds, from the first to the
    last, in the state it leaves, and in every state that a loss of power in the
    middle of it leaves, each version that an application had when the program
    started is still installed, or a newer version of the application has its
    container: also when an installation fails and is undone, and when the update
    is rolled back. When the program succeeds, the new version of every application of the archive has
    its container, and the one it replaced is removed. *)
Theorem whole_update_loses_nothing pkg h :
  coherent (sys h) → payload_ok pkg h →
  let r := run_mbl_app_update_manager (new_manager pkg h) in
  always (commands h) (λ k, ∀ n v, has_version (sys h) n v →
    isdir (version n v) k = true ∨ ∃ w, v < w ∧ container k n = Some (version n w)) (the_host (pstate r)) ∧
  ∀ m, r = Ret tt m → ∃ m1, (unpack;; install_apps) (new_manager pkg h) = Ret tt m1 ∧
    ∀ x, x ∈ _installed_apps m1 → runs_new x (sys (the_host m)) ∧ removed x (sys (the_host m)).
Proof.
  intros Hcoh Hok r. set (D := has_version (sys h)). set (m0 := new_manager pkg h) in *.
  assert (∀ n v, D n v → good_app n ∧ 0 ≤ v) as HD by apply has_version_good.
  set (there k := ∀ n v, D n v →
    isdir (version n v) k = true ∨ ∃ w, v < w ∧ container k n = Some (version n w)).
  assert (∀ h', safe D (commands h) h' → always (commands h) there h') as Hsafe.
  { intros h'. apply always_mono. intros k [_ Hk] n v Hd. left. by eapply has_version_dir, Hk. }
  assert (pwp run_mbl_app_update_manager
    (λ _ m, always (commands h) there (the_host m) ∧
       ∃ m1, (unpack;; install_apps) m0 = Ret tt m1 ∧
         ∀ x, x ∈ _installed_apps m1 → runs_new x (sys (the_host m)) ∧ removed x (sys (the_host m)))
    (λ _ m, always (commands h) there (the_host m)) m0) as Hw.
  2: { unfold pwp in Hw. fold r in Hw. destruct r as [[] m|e m]; [|by split].
       destruct Hw as [Ha Hm]. split; [done|]. by intros ? [= <-]. }
  destruct (installation_safe pkg h Hcoh Hok) as [Hs2 Hinst]. fold m0 D in Hs2, Hinst.
  unfold run_mbl_app_update_manager.
  assert (pwp ((unpack;; install_apps);; start_installed_apps)
    (λ _ m, always (commands h) there (the_host m) ∧
       ∃ m1, (unpack;; install_apps) m0 = Ret tt m1 ∧
         ∀ x, x ∈ _installed_apps m1 → runs_new x (sys (the_host m)) ∧ removed x (sys (the_host m)))
    (λ _ m, always (commands h) there (the_host m)) m0) as Hw.
  2: { unfold pwp, mbind, P_bind in *. by destruct (unpack m0). }
  apply pwp_bind. unfold pwp at 1. destruct ((unpack;; install_apps) m0) as [[] m2|e m2] eqn:Hboth;
    [|by apply Hsafe]. destruct (Hinst m2 eq_refl) as (Hrec & Hcur & Hnd). simpl in Hs2.
  set (apps := _installed_apps m2) in *.
  destruct (start_installed_apps_safe apps (unreplaced D apps) m2) as [Hlast Hres].
  - by apply (records_wf D).
  - by apply unreplaced_apart.
  - split; [done|]. apply always_start. intros q [(n & v & Hd & -> & _)|(x & Hx & Hp)].
    + pose proof (always_now _ _ _ Hs2) as [_ Hk]. by eapply has_version_dir, Hk.
    + destruct (Hcur x q Hx Hp) as (c & -> & Hv). by eapply has_version_dir.
  - assert (always (commands h) there (the_host (pstate (start_installed_apps m2)))) as Hall.
    { pose proof (always_app _ _ _ _ _ (Hsafe _ Hs2) Hlast) as Ha. eapply always_mono; [|exact Ha].
      intros k [Hk|Hk]; [done|]. intros n v Hd. by apply (kept_or_replaced D HD apps Hrec). }
    unfold pwp. destruct (start_installed_apps m2) as [[] m3|e m3]; [|done].
    split; [done|]. exists m2. split; [done|]. exact Hres.
Qed.
End whole.
