(* ===== verification/AppSurvive.v ===== *)
(** * An application update, and the boot after a loss of power

    The whole update of [AppInstall] and the boot of [AppBoot]: in every state
    that the update goes through, and in every one that a loss of power in the
    middle of a command leaves, each application has a bundle that the next boot
    finds, creates a container from and starts. One thing can be in the way: an
    incomplete [config.json], which only an installation can leave. *)

From stdpp Require Import base gmap strings sets list sorting.
From Stdlib Require Import ZArith Ascii Lia.
From S2P Require Import Prelude.
From S2P Require Import Py.
From S2P Require Import AppLifecycle.
From S2P Require Import AppVersions.
From S2P Require Import AppLifecycleProps.
From S2P Require Import AppManager.
From S2P Require Import AppUpdate.
From S2P Require Import AppUpdateProps.
From S2P Require Import AppBoot.
From S2P Require Import AppInstall.

Open Scope Z_scope.
Open Scope list_scope.

(** runc creates a container only from what the programs take for a bundle, and
    time does not change the directories. *)
Class BundleLaws (K : Type) `{TreeLaws K} := {
  created_version n w id l k r k' :
    coherent k → good_app n → 0 ≤ w →
    execute (CCreate (version n w) id l) k = (Some r, k') → failed r = false → has_version k n w;
  sleep_coherent d k : coherent k → coherent (sleep d k);
  sleep_readable d k n : coherent k → readable n k → readable n (sleep d k);
  sleep_version d k n v : coherent k → has_version k n v → has_version (sleep d k) n v
}.

(** ** Functions that leave the bundles alone *)

Section quiet.
Context {K : Type} `{BundleLaws K}.
Context (D : cstring → Z → Prop) (l0 : list (command * K)).

Lemma about_kept id c k k' : about id c → kept D k → leaves c k k' → kept D k'.
Proof.
  intros Hc%about_quiet [Hk Hd] Hl. split; [by eapply quiet_coherent|].
  intros n v Hv. eapply quiet_version; eauto.
Qed.

Lemma sleep_kept d k : kept D k → kept D (sleep d k).
Proof.
  intros [Hk Hd]. split; [by apply sleep_coherent|]. intros n v Hv. apply sleep_version; auto.
Qed.

Lemma keeps_stop_kept x : Keeps (always l0 (kept D)) (stop_app x).
Proof. apply keeps_terminate_app; eauto using about_kept, sleep_kept. Qed.

Lemma keeps_run_kept id p : Keeps (always l0 (kept D)) (run_app id p).
Proof. apply keeps_run_app; eauto using about_kept. Qed.
End quiet.

Section run.
Context {K : Type} `{BundleLaws K}.
Context (D : cstring → Z → Prop) (l0 : list (command * K)).
Implicit Types h : host K.

(** An application that started has its bundle. *)
Lemma wp_run_version n w Q E h :
  good_app n → 0 ≤ w → safe D l0 h →
  (∀ h', safe D l0 h' → grows h h' → has_version (sys h') n w → Q tt h') → (∀ e h', safe D l0 h' → E e h') →
  pwp (run_app n (version n w)) Q E h.
Proof.
  intros Hn Hw Hh HQ HE. set (D' := has_version (sys h)).
  eapply (pwp_keeps (safe D l0)); [apply keeps_run_kept|done|].
  eapply (pwp_keeps (always (commands h) (kept D'))); [apply keeps_run_kept|by apply always_start, (grows_refl D l0)|].
  assert (pwp (run_app n (version n w)) (λ _ h', has_version (sys h') n w) (λ _ _, True) h) as Hv; cycle 1.
  { eapply pwp_mono; [exact Hv|..]; simpl; [|auto]. intros [] h' Hhas Ha Hs.
    apply HQ; [done| |done]. apply (always_now _ _ _ Ha). }
  unfold run_app, create, start. apply pwp_bind, pwp_bind.
  assert (Keeps (always l0 (kept D)) (get_state n)) as Hst.
  { unfold get_state. apply keeps_bind; [by apply keeps_quiet|intros r; keeps_go]. }
  apply (pwp_kept (safe D l0)); [done|done| |done]. intros s h1 _ Hs1.
  destruct (bool_decide _); [|done]. apply pwp_bind, pwp_get. destruct (isdir _ _); [|done].
  apply pwp_bind, pwp_get, pwp_bind, wp_run; [|done]. intros r h2 Hr _.
  destruct (failed r) eqn:Hf; [done|]. pose proof (always_now _ _ _ Hs1) as [Hcoh _].
  assert (has_version (sys h1) n w) as Hv1 by (by eapply created_version).
  assert (coherent (sys h2) ∧ has_version (sys h2) n w) as [Hcoh2 Hv2].
  { assert (leaves (CCreate (version n w) n (log_file n (sys h1))) (sys h1) (sys h2)) as Hl by (left; by rewrite Hr).
    split; [by apply (quiet_coherent _ _ _ (eq_refl : quiet (CCreate _ _ _) = true) Hl)|by apply (quiet_version _ _ _ _ _ (eq_refl : quiet (CCreate _ _ _) = true) Hl)]. }
  apply pwp_ret, pwp_bind, wp_run; [|done]. intros r3 h3 Hr3 _. destruct (failed r3); [done|].
  apply pwp_ret. assert (leaves (CStart n) (sys h2) (sys h3)) as Hl by (left; by rewrite Hr3).
  by apply (quiet_version _ _ _ _ _ (eq_refl : quiet (CStart _) = true) Hl).
Qed.
End run.

(** ** The last phase *)

Section phase.
Context {K : Type} `{BundleLaws K}.
Context (D : cstring → Z → Prop) (HD : ∀ n v, D n v → good_app n ∧ 0 ≤ v).
Context (apps : list AppRecord) (Hr : Forall (record_ok D) apps) (Hnd : NoDup (name <$> apps)).
Implicit Types (m : AppUpdateManager K) (x : AppRecord) (k : K).

(** With the records of the update, [D'] is kept. *)
Definition keeping l (D' : cstring → Z → Prop) m : Prop :=
  _installed_apps m = apps ∧ safe D' l (the_host m).

Lemma keeps_host {A} l D' (f : P (host K) A) : Keeps (safe D' l) f → Keeps (keeping l D') (on_host f).
Proof.
  intros Hf m [Hi Hs]. specialize (Hf _ Hs). unfold on_host. by destruct (f (the_host m)).
Qed.

(** A loop over the records. *)
Lemma keeps_loop l D' (body : AppRecord → P (AppUpdateManager K) unit) :
  (∀ x, x ∈ apps → Keeps (keeping l D') (body x)) →
  Keeps (keeping l D') (self _installed_apps ≫= λ xs, for_each xs body).
Proof.
  intros Hb m Hm. unfold self, pget, mbind, P_bind. destruct Hm as [Hi Hm]. rewrite Hi.
  apply (keeps_for_each (keeping l D') apps body Hb). by split.
Qed.

Lemma keeps_rollback l : Keeps (keeping l D) _rollback_apps.
Proof using -Hnd.
  unfold _rollback_apps. apply keeps_bind; [|intros _; apply keeps_bind; [|intros _] ].
  - apply keeps_loop. intros x Hx. apply keeps_try_except; [apply keeps_host, keeps_stop_kept|].
    intros e. keeps_go.
  - apply keeps_loop. intros x Hx. destruct (record_of D apps Hr x Hx) as (Hn & w & Hp & Hf & _).
    unfold path_to_remove. simpl. rewrite Hp. destruct (version (name x) w) eqn:Hv; [apply _|].
    rewrite <- Hv. by apply keeps_host, keeps_remove_version, fresh_unkept.
  - apply keeps_loop. intros x Hx. destruct (path_to_remove x _); [|apply _].
    apply keeps_host, keeps_run_kept.
Qed.

Lemma keeps_rollback_and_raise l e : Keeps (keeping l D) (rollback_and_raise e).
Proof using -Hnd.
  unfold rollback_and_raise. apply keeps_try_else; [apply keeps_rollback|intros; apply _..].
Qed.

Lemma keeps_stop_running l : Keeps (keeping l D) _stop_running_versions.
Proof using -Hnd.
  apply keeps_loop. intros x Hx. apply keeps_try_except; [apply keeps_host, keeps_stop_kept|].
  intros e. apply keeps_rollback_and_raise.
Qed.

(** The new version of [x] has its bundle. *)
Definition arrived x k : Prop :=
  ∃ w, new_bundle_path x = version (name x) w ∧ has_version k (name x) w.

Lemma wp_run_arrived l Q (E : exn → AppUpdateManager K → Prop) m :
  keeping l D m →
  (∀ m', keeping l D m' → (∀ x, x ∈ apps → arrived x (sys (the_host m'))) → Q tt m') →
  (∀ e m', keeping l D m' → E e m') → pwp _run_new_installed_versions Q E m.
Proof using -Hnd.
  intros Hm HQ HE. apply pwp_bind, pwp_get. destruct (Hm) as [-> _].
  eapply pwp_mono; [apply (pwp_for_each apps _ (λ rest m', (∀ x, x ∈ rest → x ∈ apps) ∧ keeping l D m' ∧
      ∀ x, x ∈ apps → x ∈ rest ∨ arrived x (sys (the_host m'))) (λ _ m', keeping l D m'))|..];
    [|by auto| |done].
  - intros x rest m' (Hin & [Hi Hs] & Harr).
    destruct (record_of D apps Hr x) as (Hn & w & Hp & Hf & _); [apply Hin; by left|].
    apply pwp_try_except, pwp_on_host. rewrite Hp.
    apply (wp_run_version D l (name x) w); [done|apply Hf|done|..].
    + intros h' Hh' [_ Hg] Hv. split_and!; [intros y Hy; apply Hin; by right|by split|].
      intros y Hy. destruct (Harr y Hy) as [[->|?]%elem_of_cons|(u & Hu & Hvu)]; [right|by left|right].
      * by exists w.
      * exists u. split; [done|]. by apply Hg.
    + intros e h' Hh'. destruct (isinstance e _); [|by split].
      apply (pwp_kept (keeping l D)); [apply keeps_rollback_and_raise|by split| |done].
      intros a m2 Hret. unfold rollback_and_raise, try_else in Hret.
      destruct (_rollback_apps _) as [|e2 ?]; [done|]. by destruct (isinstance e2 _).
  - intros [] m' (_ & Hm' & Harr). apply HQ; [done|]. intros x Hx.
    by destruct (Harr x Hx) as [?%not_elem_of_nil|].
Qed.

(** What is kept while the previous versions are removed: the new ones, and what
    is not replaced. *)
Definition replacing n v : Prop :=
  (D n v ∧ ¬ previous apps (version n v)) ∨
  (∃ x, x ∈ apps ∧ n = name x ∧ new_bundle_path x = version n v ∧ 0 ≤ v).

Lemma replacing_good n v : replacing n v → good_app n ∧ 0 ≤ v.
Proof using -Hnd.
  intros [[Hd _]|(x & Hx & -> & _ & Hv)]; [by apply HD|]. split; [|done].
  apply (record_of D apps Hr x Hx).
Qed.

Lemma keeps_remove_previous l : Keeps (keeping l replacing) _remove_previous_versions.
Proof using All.
  apply keeps_loop. intros x Hx. destruct (record_of D apps Hr x Hx) as (Hn & w & Hp & _ & Hc).
  unfold path_to_remove. simpl. destruct (cur_bundle_path x) as [p|] eqn:Hcur; [|apply _].
  destruct (Hc p eq_refl) as (c & [Hc0 Hcw] & ->). destruct (version (name x) c) eqn:Hv; [apply _|].
  rewrite <- Hv. apply keeps_host, keeps_remove_version; [apply replacing_good|done|].
  split; [done|]. intros [[_ Hno]|(y & Hy & Hname & Hnew & _)].
  - apply Hno. exists x. by rewrite Hcur, Hv.
  - assert (x = y) as <- by (by eapply (same_name apps)).
    rewrite Hp in Hnew. apply version_path_inj in Hnew; lia.
Qed.
End phase.

(** ** A loss of power and the next boot *)

Lemma least_version (vs : list Z) v : v ∈ vs → ∃ c, c ∈ vs ∧ Forall (λ u, c ≤ u) vs.
Proof.
  revert v. induction vs as [|u vs IH]; intros v Hv; [by apply not_elem_of_nil in Hv|].
  destruct vs as [|u' vs].
  { exists u. split; [by left|]. by repeat constructor. }
  destruct (IH u') as (c & Hc & Hmin); [by left|]. destruct (decide (c ≤ u)).
  - exists c. split; [by right|]. by constructor.
  - exists u. split; [by left|]. constructor; [lia|]. eapply Forall_impl; [exact Hmin|]. simpl. lia.
Qed.

Section survive.
Context {K : Type} `{BundleLaws K}.
Implicit Types (h : host K) (m : AppUpdateManager K) (k : K).

(** The power is lost in [k] and comes back: whatever happened to the
    containers, the bundles are there. *)
Definition reboot k k' : Prop :=
  coherent k' ∧ (∀ n v, has_version k' n v ↔ has_version k n v) ∧ ∀ n, readable n k' ↔ readable n k.

Lemma reboot_refl k : coherent k → reboot k k.
Proof. intros Hc. split; [done|]. by split; intros. Qed.
Lemma reboot_trans k1 k2 k3 : reboot k1 k2 → reboot k2 k3 → reboot k1 k3.
Proof.
  intros (_ & V1 & R1) (Hc & V2 & R2). split; [done|].
  split; intros; [by rewrite V2, V1|by rewrite R2, R1].
Qed.

(** The boot of [n] checks that it has no container, creates one from its lowest
    version and starts it, and then removes the other versions, as far as the
    commands succeed. *)
Definition boots n k : Prop :=
  ∃ c, has_version k n c ∧ (∀ u, has_version k n u → c ≤ u) ∧
  ∀ cs, ∃ rest, let h := {| sys := k; commands := cs |} in
    follows ([CState n; CCreate (version n c) n true; CStart n] ++ (CRmtree <$> (version n <$> rest)))
      h (run_app_from_parent_dir n h).

Lemma version_boots k n v : coherent k → readable n k → has_version k n v → boots n k.
Proof.
  intros Hc Hread Hv. pose proof (proj1 Hv) as Hn. destruct (Hread Hn) as [ps Hps]. pose proof (version_parent n v k Hc Hv) as Hd.
  destruct (coherent_versions n k ps Hc Hn Hps) as (vs & -> & Hvs).
  pose proof (has_version_in _ _ _ _ Hv Hvs) as Hin.
  destruct (least_version vs v Hin) as (c & Hcin & Hmin). exists c. destruct Hvs as [_ Hall]. split_and!.
  - by apply Hall.
  - intros u Hu%Hall. rewrite Forall_forall in Hmin. auto.
  - intros cs. pose proof (search_run (app_dir n) {| sys := k; commands := cs |}) as Hb. cbn [sys] in Hb.
    rewrite Hps in Hb.
    destruct (boot_runs_lowest n vs (version n <$> vs) c {| sys := k; commands := cs |})
      as (rest & _ & Hf); [apply Hn| |done..|by exists rest].
    apply Forall_forall. intros u Hu. by apply Hall.
Qed.

(** Each application has a version that is not below the one it had. *)
Definition lives (D : cstring → Z → Prop) k : Prop :=
  coherent k ∧ ∀ n v, D n v → ∃ w, v ≤ w ∧ has_version k n w.

Lemma kept_lives D k : kept D k → lives D k.
Proof. intros [Hc Hk]. split; [done|]. intros n v Hd. exists v. split; [lia|auto]. Qed.

(** In the last phase what is replaced is replaced by a higher version. *)
Lemma replacing_lives D apps k :
  (∀ n v, D n v → good_app n ∧ 0 ≤ v) → Forall (record_ok D) apps → kept (replacing D apps) k → lives D k.
Proof.
  intros HD Hr [Hc Hk]. split; [done|]. intros n v Hd.
  destruct (decide (previous apps (version n v))) as [(x & Hx & Hp)|Hno].
  - destruct (record_of D apps Hr x Hx) as (Hn & w & Hnew & [Hw _] & Hcur).
    destruct (Hcur _ Hp) as (c & [Hc0 Hcw] & Heq). destruct (HD n v Hd) as [Hgn Hv].
    apply version_eq in Heq as [-> ->]; [|apply Hgn|apply Hn|done..].
    exists w. split; [lia|]. apply Hk. right. by exists x.
  - exists v. split; [lia|]. apply Hk. by left.
Qed.

Lemma start_lives D l apps m :
  (∀ n v, D n v → good_app n ∧ 0 ≤ v) → Forall (record_ok D) apps → NoDup (name <$> apps) →
  keeping apps l D m → always l (lives D) (the_host (pstate (start_installed_apps m))).
Proof.
  intros HD Hr Hnd Hm.
  assert (∀ m', keeping apps l D m' → always l (lives D) (the_host m')) as Hlive.
  { intros m' [_ Hs]. eapply always_mono; [|exact Hs]. apply kept_lives. }
  assert (pwp start_installed_apps (λ _ m', always l (lives D) (the_host m'))
    (λ _ m', always l (lives D) (the_host m')) m) as Hw.
  2: { unfold pwp in Hw. by destruct (start_installed_apps m). }
  apply pwp_bind, pwp_get. case_decide; [by apply pwp_ret, Hlive|].
  apply pwp_bind, (pwp_kept (keeping apps l D)); [by apply keeps_stop_running|done| |by auto].
  intros _ m1 _ Hm1. apply pwp_bind, (wp_run_arrived D HD apps Hr l); [done| |by auto].
  intros m2 Hm2 Harr. pose proof (always_now _ _ _ (proj2 Hm2)) as [Hcoh Hk].
  assert (∀ m', keeping apps (commands (the_host m2)) (replacing D apps) m' →
    always l (lives D) (the_host m')) as Hlast.
  { intros m' [_ Hs]. pose proof (always_app _ _ _ _ _ (Hlive _ Hm2) Hs) as Ha.
    eapply always_mono; [|exact Ha]. intros k [Hl|Hl]; [done|by eapply replacing_lives]. }
  apply (pwp_kept (keeping apps (commands (the_host m2)) (replacing D apps)));
    [by apply keeps_remove_previous| |by auto..].
  split; [apply Hm2|]. apply always_start. split; [done|].
  intros n v [[Hd _]|(x & Hx & -> & Hnew & Hv)]; [by apply Hk|].
  destruct (Harr x Hx) as (w & Hw & Hhas). rewrite Hw in Hnew.
  apply version_path_inj in Hnew as <-; [done| |done]. by eapply has_version_dir.
Qed.

(** Through the whole update, from the archive to the last removal. *)
Lemma update_lives pkg h :
  coherent (sys h) → payload_ok pkg h →
  always (commands h) (lives (has_version (sys h)))
    (the_host (pstate (run_mbl_app_update_manager (new_manager pkg h)))).
Proof.
  intros Hcoh Hok. set (D := has_version (sys h)). set (m0 := new_manager pkg h).
  assert (∀ n v, D n v → good_app n ∧ 0 ≤ v) as HD by apply has_version_good.
  assert (∀ h', safe D (commands h) h' → always (commands h) (lives D) h') as Hsafe.
  { intros h'. apply always_mono, kept_lives. }
  destruct (installation_safe pkg h Hcoh Hok) as [Hs Hm]. fold m0 D in Hs, Hm.
  unfold run_mbl_app_update_manager.
  replace ((unpack;; install_apps;; start_installed_apps) m0)
    with (((unpack;; install_apps);; start_installed_apps) m0)
    by (unfold mbind, P_bind; by destruct (unpack m0)).
  destruct ((unpack;; install_apps) m0) as [[] m|e m] eqn:Hrun.
  - rewrite (pbind_ret _ _ _ _ _ Hrun). destruct (Hm m eq_refl) as (Hrec & _ & Hnd).
    by apply (start_lives D _ (_installed_apps m)).
  - rewrite (pbind_raise _ _ _ _ _ Hrun). by apply Hsafe.
Qed.

(** What is left boots, as far as the search for the bundles can read them. *)
Lemma reboot_boots k k' n v : has_version k n v → reboot k k' → readable n k' → boots n k'.
Proof. intros Hv (Hc & Hk & _) Hr. apply (version_boots k' n v); [done..|]. by apply Hk. Qed.
End survive.

(** ** When every bundle can be read *)

(** opkg leaves no incomplete [config.json], when it fails or the power goes. *)
Class WholeInstalls (K : Type) `{TreeLaws K} : Prop := {
  whole_installs p c k k' n :
    touches p c → installs c = true → leaves c k k' → coherent k → readable n k → readable n k'
}.

Definition legible {K} `{System K} (k : K) : Prop := ∀ n, readable n k.

Section legible.
Context {K : Type} `{BundleLaws K} `{!WholeInstalls K}.

(** The same laws, of the trees in which every bundle can be read. *)
Definition legible_tree : TreeLaws K.
Proof using All.
  refine {| coherent := λ k, coherent k ∧ legible k |}.
  - intros n k ps [Hc _]. by apply coherent_versions.
  - intros n v k [Hc _]. by apply version_parent.
  - intros c k k' Hq Hl [Hc Hr]. split; [by eapply quiet_coherent|]. intros n. by eapply quiet_readable.
  - intros c k k' n v Hq Hl [Hc _]. by eapply quiet_version.
  - intros c k k' n Hq Hl [Hc _]. by eapply quiet_readable.
  - intros p c k k' Ht Hl [Hc Hr]. split; [by eapply touch_coherent|]. intros n.
    destruct (installs c) eqn:Hi; [by eapply whole_installs|by eapply touch_readable].
  - intros p c k k' n v Ht Hl [Hc _]. by eapply touch_version.
  - intros p c k k' n Ht Hi Hl [Hc _]. by eapply touch_readable.
  - intros pkg l k [Hc Hr]. split; [by apply extract_coherent|]. intros n. by apply extract_readable.
  - intros pkg l k n v [Hc _]. by apply extract_version.
  - intros pkg l k n [Hc _]. by apply extract_readable.
  - apply version_resolved.
Defined.

Definition legible_bundles : @BundleLaws K _ _ _ _ _ legible_tree.
Proof using All.
  split.
  - intros n w id l k r k' [Hc _]. by apply created_version.
  - intros d k [Hc Hr]. split; [by apply sleep_coherent|]. intros n. by apply sleep_readable.
  - intros d k n [Hc _]. by apply sleep_readable.
  - intros d k n v [Hc _]. by apply sleep_version.
Defined.

Lemma update_legible pkg h :
  coherent (sys h) → legible (sys h) → payload_ok pkg h →
  always (commands h) legible (the_host (pstate (run_mbl_app_update_manager (new_manager pkg h)))).
Proof using All.
  intros Hc Hr Hok. eapply always_mono; [|apply (@update_lives K _ _ _ _ _ legible_tree legible_bundles); done].
  by intros k [[_ Hk] _].
Qed.
End legible.

Section survives.
Context {K : Type} `{BundleLaws K}.
Implicit Types h : host K.

(** C10: whatever stops an application update, the next boot runs every
    application. Wherever in the whole update the power is lost, between two
    commands of opkg, runc and the removal of directories or in the middle of one,
    and after it ended, with success or not, each application that had a version
    has one that is not below it. The boot that follows, when it comes to the
    application and no bundle of it has an incomplete [config.json], finds that
    version, and creates and starts a container of the lowest one before it
    removes any. No bundle has, in any of these states, if none had before and
    opkg leaves none when it fails or loses its power. (The laws of opkg and of
    the directories are those of [TreeLaws]; the archive has distinct, well-formed
    applications; unpacking it, which changes none, is one step.) *)
Theorem update_survives_power_loss pkg h :
  coherent (sys h) → payload_ok pkg h →
  let h' := the_host (pstate (run_mbl_app_update_manager (new_manager pkg h))) in
  always (commands h) (λ k, ∀ n v, has_version (sys h) n v →
    (∃ w, v ≤ w ∧ has_version k n w) ∧ ∀ k', reboot k k' → readable n k' → boots n k') h' ∧
  (WholeInstalls K → legible (sys h) → always (commands h) legible h').
Proof.
  intros Hcoh Hok h'. split; [|intros; by apply update_legible].
  eapply always_mono; [|by apply update_lives].
  intros k [_ Hl] n v Hd. destruct (Hl n v Hd) as (w & Hw & Hv).
  split; [by exists w|]. intros k'. by apply (reboot_boots k k' n w).
Qed.
End survives.
