(* ===== verification/AppReboot.v ===== *)
(** * The boot of all applications

    [mbl-app-lifecycle-manager run-all], which every boot runs: it runs the
    lowest version of each application and removes the others. No boot loses an
    application, whatever runc answers and wherever the power goes, and a boot
    that ends without an error has started every one. A bundle with an incomplete
    [config.json] makes it end with one. *)

From stdpp Require Import base gmap strings sets list sorting.
From Stdlib Require Import ZArith Ascii Lia.
From S2P Require Import Prelude.
From S2P Require Import Py.
From S2P Require Import AppLifecycle.
From S2P Require Import AppVersions.
From S2P Require Import AppLifecycleProps.
From S2P Require Import AppManager.
From S2P Require Import AppUpdate.
From S2P Require Import AppUpdateProps.
From S2P Require Import AppBoot.
From S2P Require Import AppInstall.
From S2P Require Import AppSurvive.

Open Scope Z_scope.
Open Scope list_scope.

(** What is in [APPS_PATH]: the directories of the applications. A directory
    has each name once. *)
Class AppsRoot (K : Type) `{TreeLaws K} := {
  distinct_versions k n vs : coherent k → good_app n → versions_at k n vs → NoDup vs;
  apps_named k nd w n :
    coherent k → entry k APPS_PATH = Some nd → head (os_walk APPS_PATH nd) = Some w →
    n ∈ dirnames w → good_app n;
  apps_listed k nd w n :
    coherent k → entry k APPS_PATH = Some nd → head (os_walk APPS_PATH nd) = Some w →
    good_app n → isdir (app_dir n) k = true → n ∈ dirnames w
}.

Section boot.
Context {K : Type} `{BundleLaws K} `{!AppsRoot K}.
Implicit Types (h : host K) (k : K).

(** ** One application *)

(** An incomplete [config.json] in the directory of [n] ends the boot. *)
Lemma unreadable_app n h e :
  good_app n → isdir (app_dir n) (sys h) = true → search (sys h) (app_dir n) = inr e →
  run_app_from_parent_dir n h = Raise e h.
Proof.
  intros Hn Hd Hs. unfold run_app_from_parent_dir. rewrite join_app by apply Hn.
  unfold pget, mbind at 1, P_bind at 1. rewrite Hd. cbn [negb].
  pose proof (search_run (app_dir n) h) as Hb. rewrite Hs in Hb. by rewrite (pbind_raise _ _ _ _ _ Hb).
Qed.

(** What the boot does with the directory of [n]: nothing, as it has no
    version or one that cannot be read, or it runs the lowest one and removes the
    others. *)
Lemma boot_app_cases n h :
  coherent (sys h) → good_app n →
  ((∀ v, ¬ has_version (sys h) n v) ∧ pstate (run_app_from_parent_dir n h) = h) ∨
  (∃ e, run_app_from_parent_dir n h = Raise e h) ∨
  ∃ c rest, has_version (sys h) n c ∧ (∀ v, has_version (sys h) n v → c ≤ v) ∧
    Forall (λ u, 0 ≤ u ∧ u ≠ c) rest ∧
    run_app_from_parent_dir n h =
      (run_app n (version n c);; for_each (version n <$> rest) py_rmtree) h.
Proof.
  intros Hc Hn. destruct (isdir (app_dir n) (sys h)) eqn:Hd.
  2: { left. split; [intros v Hv%(version_parent n v); [congruence|done]|].
       unfold run_app_from_parent_dir. rewrite join_app by apply Hn.
       unfold pget, mbind at 1, P_bind at 1. by rewrite Hd. }
  destruct (search (sys h) (app_dir n)) as [ps|e] eqn:Hse.
  2: { right. left. exists e. by apply unreadable_app. }
  destruct (coherent_versions n (sys h) ps Hc Hn Hse) as (vs & -> & Hvs). pose proof Hvs as [_ Hall].
  pose proof (search_run (app_dir n) h) as Hb. rewrite Hse in Hb.
  assert (Forall (λ v, 0 ≤ v) vs) as Hnn by (apply Forall_forall; intros u Hu; by apply Hall).
  destruct (sort_versions (app_dir n) vs Hnn) as (ws & Hsort & Hp & Hs).
  assert (run_app_from_parent_dir n h =
    match version n <$> ws with
    | [] => mret tt
    | v :: vs => run_app n v;; for_each vs py_rmtree
    end h) as Heq.
  { unfold run_app_from_parent_dir. rewrite join_app by apply Hn.
    unfold pget, mbind at 1, P_bind at 1. rewrite Hd. cbn [negb].
    rewrite (pbind_ret _ _ _ _ _ Hb).
    change (version n <$> vs) with (version_path (app_dir n) <$> vs). by rewrite Hsort. }
  assert (∀ v, has_version (sys h) n v → v ∈ ws) as Hin
    by (intros v Hv; rewrite Hp; by eapply has_version_in).
  destruct ws as [|c rest]; [left|right; right].
  { split; [|by rewrite Heq]. intros v Hv%Hin. by apply not_elem_of_nil in Hv. }
  pose proof (distinct_versions (sys h) n vs Hc Hn Hvs) as Hnd. rewrite <- Hp in Hnd, Hnn.
  apply NoDup_cons in Hnd as [Hnc _]. apply StronglySorted_inv in Hs as [_ Hle].
  exists c, rest. split_and!.
  - apply Hall. rewrite <- Hp. by left.
  - intros v [->|Hv]%Hin%elem_of_cons; [lia|]. rewrite Forall_forall in Hle. by apply Hle.
  - apply Forall_cons in Hnn as [_ Hrest]. rewrite Forall_forall in Hrest |- *.
    intros u Hu. split; [by apply Hrest|]. congruence.
  - exact Heq.
Qed.

(** Every application of [N] has a version. *)
Definition alive (N : cstring → Prop) k : Prop := coherent k ∧ ∀ n, N n → ∃ v, has_version k n v.

Definition started n c k : Prop := container k n = Some (version n c) ∧ has_version k n c.

(** [k'] has the containers and versions of the other applications. *)
Definition but_for n k k' : Prop :=
  ∀ m, m ≠ n → container k' m = container k m ∧ ∀ v, has_version k m v → has_version k' m v.

Lemma wp_boot_containers n c rest h :
  pwp (run_app n (version n c);; for_each (version n <$> rest) py_rmtree)
    (λ _ h', container (sys h') n = Some (version n c) ∧
       ∀ m, m ≠ n → container (sys h') m = container (sys h) m)
    (λ _ _, True) h.
Proof.
  apply pwp_bind, (wp_run_app (commands h) (λ _, False)); [|simpl|done].
  { apply (always_start (dirs (λ _, False))). by intros q. }
  intros h1 _ [Ho _] Hrun.
  assert (∀ i p, Keeps (always (commands h1) (λ k, container k i = p))
    (for_each (version n <$> rest) py_rmtree)) as Hk.
  { intros i p. apply keeps_for_each. intros q _. unfold py_rmtree.
    apply keeps_bind; [|intros r; keeps_go]. apply keeps_run. intros k k' <- Hl.
    by rewrite (container_kept (CRmtree q) k k'). }
  assert (∀ i p, container (sys h1) i = p →
    container (sys (pstate (for_each (version n <$> rest) py_rmtree h1))) i = p) as Hc.
  { intros i p Hp. exact (always_now _ _ _ (Hk i p h1 (always_start (λ k, container k i = p) h1 Hp))). }
  unfold pwp. destruct (for_each _ _ h1) as [[] h2|e h2]; [|done]. split; [by apply Hc|].
  intros m Hm. apply Hc. by apply Ho.
Qed.

Lemma wp_boot_app N l0 n Q E h :
  good_app n → always l0 (alive N) h →
  (∀ h', always l0 (alive N) h' → but_for n (sys h) (sys h') →
     (∀ v, has_version (sys h) n v → ∃ c, started n c (sys h') ∧ c ≤ v) → Q tt h') →
  (∀ e h', always l0 (alive N) h' → E e h') →
  pwp (run_app_from_parent_dir n) Q E h.
Proof.
  intros Hn Hh HQ HE. pose proof (always_now _ _ _ Hh) as [Hcoh Hal].
  destruct (boot_app_cases n h Hcoh Hn) as [[Hno Hst]|[[e He]|(c & rest & Hc & Hmin & Hrest & Heq)]].
  { unfold pwp. destruct (run_app_from_parent_dir n h) as [[] h'|e h']; simpl in Hst; subst h'; [|by apply HE].
    apply HQ; [done|done|]. intros v Hv. by apply Hno in Hv. }
  { unfold pwp. rewrite He. by apply HE. }
  unfold pwp at 1. rewrite Heq.
  set (D m v := has_version (sys h) m v ∧ (m = n → v = c)).
  assert (∀ m v, D m v → good_app m ∧ 0 ≤ v) as HD by (intros m v [Hv _]; by eapply has_version_good).
  assert (Keeps (always (commands h) (kept D))
    (run_app n (version n c);; for_each (version n <$> rest) py_rmtree)) as Hk.
  { apply keeps_bind; [apply keeps_run_kept|]. intros _. apply keeps_for_each.
    intros p (u & -> & Hu)%list_elem_of_fmap. rewrite Forall_forall in Hrest. destruct (Hrest u Hu) as [Hu0 Hne].
    apply keeps_rmtree_version; [by constructor|]. intros m v Hd.
    apply (unkept_apart D HD); [done| |done]. split; [done|]. intros [_ Hx]. by apply Hne, Hx. }
  assert (always (commands h) (kept D) h) as Hs by (apply always_start; split; [done|]; by intros m v []).
  assert (∀ h', always (commands h) (kept D) h' → always l0 (alive N) h') as Hlive.
  { intros h' Ha. eapply always_mono; [|exact (always_app _ _ _ _ _ Hh Ha)].
    intros k [Hl|[Hck Hkd]]; [done|]. split; [done|]. intros m Hm. destruct (decide (m = n)) as [->|Hmn].
    - exists c. apply Hkd. by split.
    - destruct (Hal m Hm) as [v Hv]. exists v. apply Hkd. by split. }
  specialize (Hk h Hs). pose proof (wp_boot_containers n c rest h) as Hcont. unfold pwp in Hcont.
  destruct ((run_app n (version n c);; _) h) as [[] h'|e h']; [|by apply HE, Hlive].
  simpl in Hk. destruct Hcont as [Hcn Hco]. pose proof (always_now _ _ _ Hk) as [_ Hkd].
  apply HQ; [by apply Hlive|..].
  - intros m Hm. split; [by apply Hco|]. intros v Hv. apply Hkd. by split.
  - intros v Hv. exists c. split; [|by apply Hmin]. split; [done|]. apply Hkd. by split.
Qed.

(** ** All applications *)

Definition present k n : Prop := ∃ v, has_version k n v.

Lemma wp_boot_apps N l0 h :
  always l0 (alive N) h → (∀ n, N n → present (sys h) n) →
  pwp run_all_action
    (λ _ h', always l0 (alive N) h' ∧
       ∀ n v, N n → has_version (sys h) n v → ∃ c, started n c (sys h') ∧ c ≤ v)
    (λ _ h', always l0 (alive N) h') h.
Proof.
  intros Hh HN. pose proof (always_now _ _ _ Hh) as [Hcoh _].
  apply pwp_bind, pwp_get. destruct (entry (sys h) APPS_PATH) as [nd|] eqn:He; [|done].
  cbn [mbind option_bind]. destruct (head (os_walk APPS_PATH nd)) as [w|] eqn:Hw; [|done].
  set (ok h' n := ∀ v, has_version (sys h) n v → ∃ c, started n c (sys h') ∧ c ≤ v).
  eapply pwp_mono; [apply (pwp_for_each (dirnames w) _ (λ ns h',
    (∀ n, n ∈ ns → n ∈ dirnames w) ∧ always l0 (alive N) h' ∧
    ∀ n, n ∈ dirnames w → ok h' n ∨
      n ∈ ns ∧ ∀ v, has_version (sys h) n v → has_version (sys h') n v) (λ _ h', always l0 (alive N) h'))|..];
    [|by split_and!; auto| |done].
  - intros n ns h' (Hin & Ha & Hok). apply (wp_boot_app N l0); [|done| |done].
    { eapply apps_named; [exact Hcoh|done|done|]. apply Hin. by left. }
    intros h2 Ha2 Hb Hst. split_and!; [intros m Hm; apply Hin; by right|done|].
    intros m Hm. destruct (decide (m = n)) as [->|Hmn].
    + left. destruct (Hok n Hm) as [Ho|[_ Hv]].
      * intros v Hv. destruct (Ho v Hv) as (c & [_ Hc] & Hcv). destruct (Hst c Hc) as (c' & Hs' & Hle).
        exists c'. split; [done|lia].
      * intros v Hv0. by apply Hst, Hv.
    + destruct (Hb m Hmn) as [Hc Hv]. destruct (Hok m Hm) as [Ho|[Hm' Hv2]].
      * left. intros v Hv0. destruct (Ho v Hv0) as (c & [Hco Hhc] & Hcv).
        exists c. split; [|done]. split; [by rewrite Hc|by apply Hv].
      * right. apply elem_of_cons in Hm' as [->|Hm']; [done|]. split; [done|]. auto.
  - intros [] h' (_ & Ha & Hok). split; [done|]. intros n v Hn Hv.
    assert (n ∈ dirnames w) as Hl.
    { eapply apps_listed; [exact Hcoh|done|done|apply Hv|by eapply version_parent]. }
    destruct (Hok n Hl) as [Ho|[Hx _]]; [by apply Ho|by apply not_elem_of_nil in Hx].
Qed.

Lemma wp_boot_others ns h :
  coherent (sys h) → Forall good_app ns →
  pwp (for_each ns run_app_from_parent_dir)
    (λ _ h', ∀ m, m ∉ ns → container (sys h') m = container (sys h) m) (λ _ _, True) h.
Proof.
  intros Hc Hns. rewrite Forall_forall in Hns.
  eapply pwp_mono; [apply (pwp_for_each ns _ (λ ns' h',
    (∀ n, n ∈ ns' → n ∈ ns) ∧ always (commands h) (alive (λ _, False)) h' ∧
    ∀ m, m ∉ ns → container (sys h') m = container (sys h) m) (λ _ _, True))|..]; [| |by intros [] h' (_ & _ & ?)|done].
  - intros n ns' h' (Hin & Ha & Hco).
    apply (wp_boot_app (λ _, False) (commands h)); [apply Hns, Hin; by left|done| |done].
    intros h2 Ha2 Hb _. split_and!; [intros m Hm; apply Hin; by right|done|].
    intros m Hm. destruct (Hb m) as [-> _]; [|by apply Hco]. intros ->. apply Hm, Hin. by left.
  - split_and!; [done| |done]. apply always_start. by split.
Qed.

(** C40: a bundle that opkg left with an incomplete [config.json] stops the boot.
    When the boot comes to the directory of an application that has one, at
    whatever place among the directories, it ends there with an exception: no
    version of the application is run, and no application after it either, each of
    them has the container it had before the boot (none, after a loss of power).
    A device that starts again with these directories has the bundle still. *)
Theorem unreadable_bundle_stops_boot h nd w ns1 n ns2 h1 :
  coherent (sys h) → entry (sys h) APPS_PATH = Some nd → head (os_walk APPS_PATH nd) = Some w →
  dirnames w = ns1 ++ n :: ns2 → for_each ns1 run_app_from_parent_dir h = Ret tt h1 →
  isdir (app_dir n) (sys h1) = true → ¬ readable n (sys h1) →
  (∃ e, run_all_action h = Raise e h1) ∧
  (∀ m, m ∉ ns1 → container (sys h1) m = container (sys h) m) ∧
  ∀ k, reboot (sys h1) k → ¬ readable n k.
Proof.
  intros Hc He Hw Hns Hb1 Hd Hs.
  assert (Forall good_app (dirnames w)) as Hgood
    by (apply Forall_forall; intros m Hm; by eapply apps_named).
  rewrite Hns in Hgood. apply Forall_app in Hgood as [Hg1 [Hn _]%Forall_cons].
  split; [|split].
  - destruct (search (sys h1) (app_dir n)) as [ps|e] eqn:Hse; [destruct Hs; intros _; by exists ps|].
    exists e. unfold run_all_action, pget, mbind at 1, P_bind at 1. rewrite He.
    cbn [mbind option_bind]. rewrite Hw, Hns. clear -Hb1 Hn Hd Hse.
    revert h Hb1. induction ns1 as [|m ns1 IH]; intros h Hb1.
    + injection Hb1 as ->. cbn [app for_each].
      by rewrite (pbind_raise _ _ _ _ _ (unreadable_app n h1 e Hn Hd Hse)).
    + cbn [app for_each] in *. unfold mbind, P_bind in *.
      destruct (run_app_from_parent_dir m h) as [[] h2|]; [by apply IH|done].
  - pose proof (wp_boot_others ns1 h Hc Hg1) as Ho. unfold pwp in Ho. by rewrite Hb1 in Ho.
  - intros k (_ & _ & Hr) Hk. by apply Hs, Hr.
Qed.

(** C22: no boot loses an application. In every state that a command of the boot
    finds, or that a loss of power in the middle of one leaves, and in the last
    one, with an error or not, each application that had a version has one; and a
    boot that ends without an error has left, for each of them, a container of a
    version that is installed and not above any that it had. *)
Theorem boot_runs_every_application h :
  coherent (sys h) →
  let r := run_all_action h in
  always (commands h) (λ k, ∀ n v, has_version (sys h) n v → ∃ c, has_version k n c) (pstate r) ∧
  ∀ h', r = Ret tt h' → ∀ n v, has_version (sys h) n v →
    ∃ c, container (sys h') n = Some (version n c) ∧ has_version (sys h') n c ∧ c ≤ v.
Proof.
  intros Hcoh r. pose proof (wp_boot_apps (present (sys h)) (commands h) h) as Hw.
  unfold pwp in Hw. fold r in Hw.
  assert (always (commands h) (alive (present (sys h))) h) as Hs by (apply always_start; by split).
  assert (∀ h', always (commands h) (alive (present (sys h))) h' →
    always (commands h) (λ k, ∀ n v, has_version (sys h) n v → ∃ c, has_version k n c) h') as Ha.
  { intros h'. apply always_mono. intros k [_ Hk] n v Hv. apply Hk. by exists v. }
  destruct r as [[] h'|e h']; (split; [apply Ha; by apply Hw|]); [|done].
  intros ? [= <-] n v Hv. destruct Hw as [_ Hw]; [done..|].
  destruct (Hw n v) as (c & [Hc Hb] & Hle); [by exists v|done|]. by exists c.
Qed.
End boot.
