(* ===== verification/AppDevice.v ===== *)
(** * A device for the applications

    A small device on which the programs for applications run: directories,
    containers, a clock, and the answers of runc and opkg. It has the behaviour
    that [RuncLaws] and [AppLaws] state, so the theorems that assume them are
    evaluated on it. *)

From stdpp Require Import base gmap strings sets list.
From Stdlib Require Import ZArith Ascii Lia.
From S2P Require Import Prelude.
From S2P Require Import Py.
From S2P Require Import AppLifecycle.
From S2P Require Import AppVersions.
From S2P Require Import AppLifecycleProps.
From S2P Require Import AppManager.
From S2P Require Import AppManagerProps.
From S2P Require Import AppUpdate.
From S2P Require Import AppUpdateProps.
From S2P Require Import AppBoot.

Open Scope Z_scope.
Open Scope list_scope.

(** ** The device *)

Inductive status := Created | Running | Stopped.

#[export] Instance status_eq_dec : EqDecision status.
Proof. solve_decision. Defined.

(** [broken]: the bundles that runc cannot create a container from; [stubborn]:
    the applications that ignore SIGTERM; [damaged]: the bundles whose
    [config.json] is incomplete. *)
Record device := {
  clock : Z;
  directories : list cstring;
  containers : gmap cstring (cstring * status);
  broken : list cstring;
  stubborn : list cstring;
  payload : list tar_info;
  damaged : list cstring
}.

Definition set_containers (c : gmap cstring (cstring * status)) (k : device) : device :=
  {| clock := clock k; directories := directories k; containers := c; broken := broken k;
     stubborn := stubborn k; payload := payload k; damaged := damaged k |}.
Definition set_directories (d : list cstring) (k : device) : device :=
  {| clock := clock k; directories := d; containers := containers k; broken := broken k;
     stubborn := stubborn k; payload := payload k; damaged := damaged k |}.
Definition set_clock (t : Z) (k : device) : device :=
  {| clock := t; directories := directories k; containers := containers k; broken := broken k;
     stubborn := stubborn k; payload := payload k; damaged := damaged k |}.

Definition set_damaged (d : list cstring) (k : device) : device :=
  {| clock := clock k; directories := directories k; containers := containers k; broken := broken k;
     stubborn := stubborn k; payload := payload k; damaged := d |}.

Definition success (doc : option json) (k : device) : option completed * device :=
  (Some {| returncode := 0; output := []; document := doc |}, k).
Definition failure (text : cstring) (k : device) : option completed * device :=
  (Some {| returncode := 1; output := text; document := None |}, k).

Definition status_text (s : status) : cstring :=
  match s with Created => "created" | Running => "running" | Stopped => "stopped" end.

Definition no_container : cstring := "container does not exist".
Definition finished_text : cstring := "process already finished".

Definition set_status (id : cstring) (s : status) (k : device) : device :=
  set_containers (match containers k !! id with Some (b, _) => <[id := (b, s)]> (containers k) | None => containers k end) k.

(** The path of a destination [name:path]. *)
Definition dest_path (dest : cstring) : cstring := drop (S (length (take_until colon dest))) dest.

Definition device_execute (c : command) (k : device) : option completed * device :=
  match c with
  | CState id =>
      match containers k !! id with
      | None => failure no_container k
      | Some (_, s) => success (Some (JObject [(status_key, JString (status_text s))])) k
      end
  | CCreate b id _ =>
      if decide (containers k !! id = None ∧ b ∈ directories k ∧ b ∉ broken k ∧ b ∉ damaged k)
      then success None (set_containers (<[id := (b, Created)]> (containers k)) k)
      else failure "cannot create" k
  | CStart id =>
      match containers k !! id with
      | Some (_, Created) => success None (set_status id Running k)
      | _ => failure "cannot start" k
      end
  | CKill id s =>
      match containers k !! id with
      | None => failure no_container k
      | Some (_, Stopped) => failure finished_text k
      | Some _ =>
          if decide (s = SIGTERM ∧ id ∈ stubborn k) then success None k
          else success None (set_status id Stopped k)
      end
  | CDelete id =>
      match containers k !! id with
      | None => failure no_container k
      | Some (_, Stopped) => success None (set_containers (base.delete id (containers k)) k)
      | Some _ => failure "container is not stopped" k
      end
  | CInfo pkg =>
      (Some {| returncode := 0;
               output := "Package: " ++ take_until "."%char (basename pkg) ++ [newline];
               document := None |}, k)
  | CInstall dest _ =>
      success None (set_damaged (filter (λ d, d ≠ dest_path dest) (damaged k))
        (set_directories (dest_path dest :: dirname (dest_path dest) :: directories k) k))
  | CRemove _ _ | CListInstalled _ => success None k
  | CRmtree p =>
      if decide (p ∈ directories k)
      then success None (set_directories (filter (λ d, ¬ within p d) (directories k)) k)
      else failure "no such directory" k
  end.

Definition bundle : node :=
  Dir [(OCI_BUNDLE_CONFIGURATION,
        File (Some (JObject [(oci_version_key, JString "1.0.0");
                             (root_key, JObject [(path_key, JString "rootfs")])])));
       ("rootfs" : cstring, Dir [])].

(** The names in the directory [q], of what is below it. *)
Definition names_in (q : cstring) (ds : list cstring) : list cstring :=
  remove_dups ((λ d, take_until slash (drop (S (length q)) d)) <$>
    filter (λ d, within q d ∧ d ≠ q) ds).

(** Versions are bundles, some of them with half a [config.json]. *)
Definition half_bundle : node := Dir [(OCI_BUNDLE_CONFIGURATION, File None)].
Definition leaf (k : device) (q : cstring) : node := if decide (q ∈ damaged k) then half_bundle else bundle.

Definition listing (k : device) (q : cstring) : node :=
  Dir ((λ e, (e, leaf k (join q e))) <$> names_in q (directories k)).

Definition device_entry (k : device) (q : cstring) : option node :=
  if decide (q ∈ directories k)
  then Some (if decide (dirname (dirname q) = APPS_PATH) then leaf k q else listing k q)
  else None.

#[export] Instance device_system : System device := {
  execute := device_execute;
  entry := device_entry;
  resolve _ p := p;
  log_file _ _ := true;
  monotonic := clock;
  sleep d k := set_clock (clock k + Z.max d 0) k
}.

#[export] Instance device_tar : Tar device := {
  tar_file _ k := Archive (payload k) false;
  extractall _ _ _ k := (None, k)
}.

(** ** It behaves as stated *)

Lemma device_isdir q k : isdir q k = bool_decide (q ∈ directories k).
Proof.
  unfold isdir. simpl. unfold device_entry, leaf, listing. repeat case_decide; by case_bool_decide.
Qed.

(** A loss of power while opkg installs leaves half a bundle, if [b]. *)
Definition device_power (b : bool) : PowerLoss device := {|
  midway c k k' :=
    match c with
    | CInstall dest _ =>
        b = true ∧
        k' = set_damaged (dest_path dest :: damaged k)
               (set_directories (dest_path dest :: dirname (dest_path dest) :: directories k) k)
    | _ => False
    end
|}.
#[export] Instance device_tears : PowerLoss device := device_power true.

(** Runs one command in every case. *)
Ltac device_cases :=
  repeat (case_match || case_decide || intros [= <- <-] || destruct_and?); simplify_eq/=; try done.

Definition device_container (k : device) (id : cstring) : option cstring :=
  fst <$> containers k !! id.
Definition device_live (k : device) (id : cstring) : bool :=
  match containers k !! id with Some (_, s) => bool_decide (s ≠ Stopped) | None => false end.

(** The cases of the container [id]. *)
Ltac device_one k id :=
  simpl; unfold device_live, device_container;
  destruct (containers k !! id) as [[? []]|] eqn:?;
  try case_decide; intros [= <- <-]; simplify_eq/=; try done;
  try (match goal with H : _ = _ |- _ => by rewrite H end).

#[export] Program Instance device_runc_laws : RuncLaws device := {
  container := device_container;
  live := device_live
}.
Next Obligation. intros c k. simpl. destruct c; simpl; device_cases. Qed.
Next Obligation. intros d k Hd. simpl. lia. Qed.
Next Obligation. intros k id r k'. device_one k id. Qed.
Next Obligation. intros k id s r k'. device_one k id. Qed.
Next Obligation. intros k id s r k'. device_one k id. Qed.
Next Obligation. intros k id r k'. device_one k id. Qed.
Next Obligation.
  intros k id r k'. device_one k id. intros _. unfold device_container. simpl.
  by rewrite lookup_delete_eq.
Qed.

Lemma take_until_colon n p : colon ∉ n → dest_path (n ++ ":" ++ p) = p.
Proof.
  intros Hn. unfold dest_path. change (n ++ ":" ++ p) with (n ++ colon :: p).
  rewrite take_until_app by done. by rewrite <- Nat.add_1_r, <- drop_drop, drop_app_length.
Qed.

Lemma device_install q dest pkg k :
  isdir q k = true → isdir q (device_execute (CInstall dest pkg) k).2 = true.
Proof. rewrite !device_isdir, !bool_decide_eq_true. simpl. set_solver. Qed.

Lemma device_rmtree p q k :
  isdir q (device_execute (CRmtree p) k).2 =
  isdir q k && negb (bool_decide (p ∈ directories k) && bool_decide (within p q)).
Proof.
  rewrite !device_isdir. simpl. case_decide as Hp; simpl.
  - rewrite (bool_decide_true (p ∈ directories k)) by done. simpl.
    destruct (decide (within p q)) as [Hw|Hw].
    + rewrite (bool_decide_true (within p q)) by done. rewrite andb_false_r.
      apply bool_decide_eq_false. rewrite list_elem_of_filter. tauto.
    + rewrite (bool_decide_false (within p q)) by done. rewrite andb_true_r.
      apply bool_decide_ext. rewrite list_elem_of_filter. tauto.
  - rewrite (bool_decide_false (p ∈ directories k)) by done. by rewrite andb_true_r.
Qed.

Lemma device_no_children k d q : device_entry k d = Some (Dir []) → within d q → q ≠ d → isdir q k = false.
Proof.
  unfold device_entry, leaf, listing. repeat case_decide; try done. intros [= Hf%fmap_nil_inv] Hw Hne.
  rewrite device_isdir. apply bool_decide_eq_false. intros Hq.
  assert (take_until slash (drop (S (length d)) q) ∈ names_in d (directories k)) as Hin.
  { apply elem_of_remove_dups.
    apply (list_elem_of_fmap_2 (λ e, take_until slash (drop (S (length d)) e))).
    by apply list_elem_of_filter. }
  rewrite Hf in Hin. by apply not_elem_of_nil in Hin.
Qed.

Lemma device_container_kept c k id : spares id c → device_container (device_execute c k).2 id = device_container k id.
Proof.
  unfold device_container. destruct c; simpl; intros Hs; device_cases; unfold set_status; simpl;
    repeat match goal with
    | |- context [<[?i := _]> _ !! ?j] => destruct (decide (i = j)) as [->|];
        [rewrite lookup_insert_eq|rewrite lookup_insert_ne by done]
    | |- context [base.delete ?i _ !! ?j] => rewrite lookup_delete_ne by done
    | H : _ !! _ = _ |- _ => rewrite H
    end; done.
Qed.

#[export] Program Instance device_app_laws b : AppLaws device (PowerLoss0 := device_power b).
Next Obligation.
  intros b c k k' q Hc [->|Hm]; [|by destruct c]. revert Hc.
  rewrite !device_isdir. destruct c; try done; simpl; intros _; device_cases.
Qed.
Next Obligation. done. Qed.
Next Obligation.
  intros b dest pkg k k' q [->|[_ ->]]; [apply device_install|].
  rewrite !device_isdir, !bool_decide_eq_true. simpl. set_solver.
Qed.
Next Obligation. by intros b n p k k' q _ _ [->|[]]. Qed.
Next Obligation. by intros b dest n k k' q [->|[]]. Qed.
Next Obligation.
  intros b p k k' q Hw [->|[]]. change (execute ?c k) with (device_execute c k). rewrite device_rmtree.
  by rewrite (bool_decide_false (within p q)), andb_false_r, andb_true_r.
Qed.
Next Obligation.
  intros b p k k' q [->|[]] Hq. change (execute ?c k) with (device_execute c k). by rewrite device_rmtree, Hq.
Qed.
Next Obligation.
  intros b p k r k' q Hr Hf Hw. change (device_execute (CRmtree p) k = (Some r, k')) in Hr.
  replace k' with (device_execute (CRmtree p) k).2 by (by rewrite Hr). rewrite device_rmtree.
  rewrite (bool_decide_true (within p q)) by done. simpl in Hr.
  case_decide as Hp; [|injection Hr as <- <-; done].
  by rewrite (bool_decide_true (p ∈ directories k)), andb_false_r by done.
Qed.
Next Obligation. intros b k d q. apply device_no_children. Qed.
Next Obligation.
  intros b c k k' id Hs [->|Hm]; [by apply device_container_kept|]. destruct c; try done. by destruct Hm as [_ ->].
Qed.
Next Obligation. done. Qed.
Next Obligation.
  intros b p id l k r k'. simpl. case_decide; intros [= <- <-]; [|done]. intros _.
  unfold device_container. simpl. by rewrite lookup_insert_eq.
Qed.

(** ** Updates on the device *)

(** Application [a] runs its version 0; the payload has new versions of [a] and
    of [b], which is not installed. *)
Definition device_with (broken_bundles stubborn_apps : list cstring) : device := {|
  clock := 0;
  directories := [("/home/app" : cstring); ("/home/app/a" : cstring); ("/home/app/a/0" : cstring)];
  containers := {[ ("a" : cstring) := (("/home/app/a/0" : cstring), Running) ]};
  broken := broken_bundles;
  stubborn := stubborn_apps;
  payload := [{| tar_name := "a.ipk"; isfile := true |}; {| tar_name := "README"; isfile := true |};
              {| tar_name := "b.ipk"; isfile := true |}];
  damaged := []
|}.

Definition start_of (k : device) : AppUpdateManager device :=
  new_manager "/scratch/update.tar" {| sys := k; commands := [] |}.

Definition summary (r : pres (AppUpdateManager device) Z) : (Z + exn) * list cstring * list (cstring * (cstring * status)) :=
  let k := sys (the_host (pstate r)) in
  (pvalue r, directories k, map_to_list (containers k)).

(** The update installs version 1 of [a] and version 0 of [b], runs them and
    removes version 0 of [a]. *)
Example update_example :
  summary (_main (start_of (device_with [] []))) =
  (inl 0,
   [("/home/app/b/0" : cstring); ("/home/app/b" : cstring); ("/home/app/a/1" : cstring);
    ("/home/app/a" : cstring); ("/home/app" : cstring); ("/home/app/a" : cstring)],
   [("b" : cstring, ("/home/app/b/0" : cstring, Running));
    ("a" : cstring, ("/home/app/a/1" : cstring, Running))]).
Proof. vm_compute. reflexivity. Qed.

(** [b] does not start and [a] ignores SIGTERM: the update goes back. *)
Example rollback_example :
  summary (_main (start_of (device_with [("/home/app/b/0" : cstring)] [("a" : cstring)]))) =
  (inl 1,
   [("/home/app/a" : cstring); ("/home/app" : cstring); ("/home/app/a" : cstring);
    ("/home/app/a/0" : cstring)],
   [("a" : cstring, ("/home/app/a/0" : cstring, Running))]).
Proof. vm_compute. reflexivity. Qed.

(** Two packages of one application: the second container cannot be created, and
    that class of errors is not one that the update goes back for. It fails with
    both new versions installed and the first of them running. *)
Definition device_twice : device :=
  {| clock := 0; directories := directories (device_with [] []); containers := containers (device_with [] []);
     broken := []; stubborn := [];
     payload := [{| tar_name := "a.ipk"; isfile := true |}; {| tar_name := "a.2.ipk"; isfile := true |}]; damaged := [] |}.

Example same_app_twice :
  summary (_main (start_of device_twice)) =
  (inl 1,
   [("/home/app/a/2" : cstring); ("/home/app/a" : cstring); ("/home/app/a/1" : cstring);
    ("/home/app/a" : cstring); ("/home/app" : cstring); ("/home/app/a" : cstring);
    ("/home/app/a/0" : cstring)],
   [("a" : cstring, ("/home/app/a/1" : cstring, Running))]).
Proof. vm_compute. reflexivity. Qed.

(** ** The theorems on the device *)

(** The two applications of the payload, as [install_apps] records them. *)
Definition payload_apps : list AppRecord :=
  [{| name := "a"; cur_bundle_path := Some ("/home/app/a/0" : cstring);
      new_bundle_path := "/home/app/a/1"; ipk_path := "/mnt/cache/opkg/src_ipk/a.ipk" |};
   {| name := "b"; cur_bundle_path := None; new_bundle_path := "/home/app/b/0";
      ipk_path := "/mnt/cache/opkg/src_ipk/b.ipk" |}].

Definition installed (k : device) : AppUpdateManager device :=
  pstate ((unpack;; install_apps) (start_of k)).

Lemma installed_apps k : k = device_with [] [] → _installed_apps (installed k) = payload_apps.
Proof. intros ->. vm_compute. reflexivity. Qed.

Lemma payload_wf : update_wf (K := device) payload_apps.
Proof.
  assert (∀ a, a ∈ payload_apps → name a = ("a" : cstring) ∨ name a = ("b" : cstring)) as Hn.
  { intros a Ha. unfold payload_apps in Ha. rewrite !elem_of_cons, elem_of_nil in Ha.
    destruct Ha as [->|[->|[]]]; auto. }
  split.
  - apply (bool_decide_unpack _). vm_compute. exact I.
  - intros a Ha. destruct (Hn a Ha) as [-> | ->].
    + split; [|apply (bool_decide_unpack _); vm_compute; exact I].
      intros s Hs. rewrite !elem_of_cons, elem_of_nil in Hs. by destruct Hs as [->|[->|[->|[]]]].
    + split; [|apply (bool_decide_unpack _); vm_compute; exact I].
      intros s Hs. rewrite !elem_of_cons, elem_of_nil in Hs. by destruct Hs as [->|[->|[->|[]]]].
  - intros a Ha. unfold payload_apps in Ha. rewrite !elem_of_cons, elem_of_nil in Ha.
    by destruct Ha as [->|[->|[]]].
  - intros a p Ha. unfold payload_apps in Ha. rewrite !elem_of_cons, elem_of_nil in Ha.
    destruct Ha as [->|[->|[]]]; simpl; by intros [= <-].
  - intros a b p Ha Hb. unfold payload_apps in Ha, Hb. rewrite !elem_of_cons, elem_of_nil in Ha, Hb.
    destruct Hb as [->|[->|[]]]; simpl; intros [= <-].
    destruct Ha as [->|[->|[]]]; split; apply (bool_decide_unpack _); vm_compute; exact I.
Qed.

Lemma payload_old k : k = device_with [] [] → old_versions payload_apps (sys (the_host (installed k))).
Proof.
  intros -> q (a & Ha & Hq). unfold payload_apps in Ha. rewrite !elem_of_cons, elem_of_nil in Ha.
  destruct Ha as [->|[->|[]]]; simpl in Hq; [|done]. injection Hq as <-. vm_compute. reflexivity.
Qed.

Lemma no_version_is_lost_witness :
  let m := installed (device_with [] []) in
  update_wf (_installed_apps m) ∧ old_versions (_installed_apps m) (sys (the_host m)) ∧
  always (commands (the_host m))
    (λ k, old_versions (_installed_apps m) k ∨ new_versions (_installed_apps m) k)
    (the_host (pstate (start_installed_apps m))) ∧
  pvalue (start_installed_apps m) = inl tt.
Proof.
  intros m. assert (_installed_apps m = payload_apps) as Ha by (by apply installed_apps).
  assert (update_wf (K := device) (_installed_apps m)) as Hwf by (rewrite Ha; exact payload_wf).
  assert (old_versions (_installed_apps m) (sys (the_host m))) as Hold
    by (rewrite Ha; by apply payload_old).
  split; [exact Hwf|]. split; [exact Hold|].
  destruct (no_version_is_lost m Hwf Hold) as [Hsafe _]. split; [exact Hsafe|].
  vm_compute. reflexivity.
Defined.

Lemma rollback_restores_witness :
  let m := installed (device_with [] []) in
  update_wf (_installed_apps m) ∧ old_versions (_installed_apps m) (sys (the_host m)) ∧
  always (commands (the_host m)) (old_versions (_installed_apps m)) (the_host (pstate (_rollback_apps m))) ∧
  pvalue (_rollback_apps m) = inl tt.
Proof.
  intros m. assert (_installed_apps m = payload_apps) as Ha by (by apply installed_apps).
  assert (update_wf (K := device) (_installed_apps m)) as Hwf by (rewrite Ha; exact payload_wf).
  assert (old_versions (_installed_apps m) (sys (the_host m))) as Hold
    by (rewrite Ha; by apply payload_old).
  split; [exact Hwf|]. split; [exact Hold|].
  destruct (rollback_restores m Hwf Hold) as [Hsafe _]. split; [exact Hsafe|].
  vm_compute. reflexivity.
Defined.

Lemma plain_a : plain "a".
Proof. intros s Hs. rewrite !elem_of_cons, elem_of_nil in Hs. by destruct Hs as [->|[->|[->|[]]]]. Qed.

Lemma terminate_app_ends_witness :
  let h := {| sys := device_with [] [("a" : cstring)]; commands := [] |} in
  plain "a" ∧
  ran "a" (monotonic (sys h) + 3 * 1000) (terminate_bound 3 1) h (pstate (terminate_app "a" 3 1 h)) ∧
  pvalue (terminate_app "a" 3 1 h) = inl tt.
Proof.
  intros h. split; [exact plain_a|]. split; [exact (proj1 (terminate_app_ends "a" 3 1 h plain_a))|].
  vm_compute. reflexivity.
Defined.

Lemma interrupted_update_boots_previous_witness :
  let h := {| sys := device_with [] []; commands := [] |} in
  app_name_ok "a" ∧ get_oci_bundle_paths (app_dir "a") h = Ret (version_path (app_dir "a") <$> [0]) h ∧
  ∃ cur new, cur ∈ [0] ∧ Forall (λ v, cur ≤ v < new) [0] ∧
    _get_app_bundle_paths "a" h =
      Ret (Some (Some (version_path (app_dir "a") cur), version_path (app_dir "a") new)) h.
Proof.
  intros h. assert (app_name_ok "a") as Hok by (split; [done|apply (bool_decide_unpack _); vm_compute; exact I]).
  assert (get_oci_bundle_paths (app_dir "a") h = Ret (version_path (app_dir "a") <$> [0]) h) as Hb
    by (vm_compute; reflexivity).
  split; [exact Hok|]. split; [exact Hb|].
  destruct (interrupted_update_boots_previous "a" [0] h Hok) as (cur & new & Hc & Hall & Hp & _);
    [done|by repeat constructor|by vm_compute|exact Hb|]. by exists cur, new.
Defined.

Lemma install_is_complete_or_undone_witness :
  let h := {| sys := device_with [] []; commands := [] |} in
  pvalue (install_app "a.ipk" "/home/app/a/1" h) = inl tt ∧
  match install_app "a.ipk" "/home/app/a/1" h with
  | Ret _ h' => ∃ n k r,
      execute (CInstall (n ++ ":" ++ ("/home/app/a/1" : cstring)) "a.ipk") k = (Some r, sys h') ∧ failed r = false
  | Raise e h' => exn_of e = AppInstallError → isdir "/home/app/a/1" (sys h') = false
  end.
Proof.
  intros h. split; [vm_compute; reflexivity|].
  exact (install_is_complete_or_undone "a.ipk" "/home/app/a/1" h).
Defined.

(** The control data of [a.ipk], and control data that has an address in it. *)
Lemma parse_app_info_result_witness :
  let h := {| sys := device_with [] []; commands := [] |} in
  let r := {| returncode := 0; output := "Package: a" ++ [newline]; document := None |} in
  (execute (CInfo "a.ipk") (sys h)).1 = Some r ∧ failed r = false ∧
  class_of (parse_app_info "a.ipk" h) = info_of (split_on newline (output r)) ∧
  info_of [("Package: a" : cstring); ("Homepage: https://a.org" : cstring)] = inr ValueErr.
Proof.
  intros h r. assert ((execute (CInfo "a.ipk") (sys h)).1 = Some r) as Hr by (vm_compute; reflexivity).
  split; [exact Hr|]. split; [reflexivity|].
  split; [exact (proj1 (parse_app_info_result "a.ipk" h r Hr eq_refl))|]. vm_compute. reflexivity.
Defined.
