(* ===== verification/AppInstallDevice.v ===== *)
(** * A whole update on the device

    The device of [AppDevice] has the directories that [AppInstall] relies on,
    and the whole update evaluates on it. *)

From stdpp Require Import base gmap strings sets list sorting.
From Stdlib Require Import ZArith Ascii Lia.
From S2P Require Import Prelude.
From S2P Require Import Py.
From S2P Require Import AppLifecycle.
From S2P Require Import AppVersions.
From S2P Require Import AppLifecycleProps.
From S2P Require Import AppManager.
From S2P Require Import AppUpdate.
From S2P Require Import AppUpdateProps.
From S2P Require Import AppBoot.
From S2P Require Import AppInstall.
From S2P Require Import AppSurvive.
From S2P Require Import AppDevice.

Open Scope Z_scope.
Open Scope list_scope.

(** ** The directories of the device *)

Definition well_placed (d : cstring) : Prop :=
  d = APPS_PATH ∨ (∃ n, good_app n ∧ d = app_dir n) ∨
  ∃ n v, good_app n ∧ 0 ≤ v ∧ d = version n v.

Definition parents (ds : list cstring) : Prop :=
  ∀ n v, app_name_ok n → 0 ≤ v → version n v ∈ ds → app_dir n ∈ ds.

Definition placed (k : device) : Prop :=
  Forall well_placed (directories k) ∧ parents (directories k).

(** The archive that the device is given. *)
Definition demo_payload : list tar_info := payload (device_with [] []).
Definition in_order (k : device) : Prop := placed k ∧ payload k = demo_payload.

Lemma payload_kept c k : payload (device_execute c k).2 = payload k.
Proof. destruct c; simpl; device_cases. Qed.

Lemma within_app_dirs n m : app_name_ok n → app_name_ok m → within (app_dir n) (app_dir m) → n = m.
Proof.
  intros [_ Hn] [_ Hm] [Heq|[k Hk]]; unfold app_dir in *.
  - apply app_inv_head in Heq. congruence.
  - rewrite <- !(assoc_L (++)) in Hk. apply app_inv_head in Hk. injection Hk as Hk.
    destruct Hm. rewrite Hk, !elem_of_app, elem_of_cons. tauto.
Qed.

Lemma version_not_above n v m : app_name_ok n → app_name_ok m → 0 ≤ v → ¬ within (version n v) (app_dir m).
Proof.
  intros Hn [_ Hm] Hv. destruct (version_shape n v Hv) as (s & -> & _ & _ & _). unfold app_dir.
  assert (∀ k, n ++ slash :: k ≠ m) as Hne.
  { intros k Hk. apply Hm. rewrite <- Hk, elem_of_app, elem_of_cons. tauto. }
  intros [Heq|[k Hk]].
  - apply app_inv_head in Heq. injection Heq as Heq. by eapply Hne.
  - rewrite <- !(assoc_L (++)) in Hk. apply app_inv_head in Hk. injection Hk as Hk.
    rewrite <- (assoc_L (++)) in Hk. symmetry in Hk. by eapply Hne.
Qed.

(** The bundles below a directory. *)
Lemma bundles_cons {S} w ws (s : S) b :
  is_bundle w s = Ret b s →
  bundles (w :: ws) s =
    match bundles ws s with
    | Ret l s' => Ret (if b then dirpath w :: l else l) s'
    | Raise e s' => Raise e s'
    end.
Proof. intros Hb. cbn [bundles]. by rewrite (pbind_ret _ _ _ _ _ Hb). Qed.

Lemma leaf_bundles {S} k q p ws (s : S) :
  (q ∈ damaged k → ∃ e, bundles (os_walk p (leaf k q) ++ ws) s = Raise e s) ∧
  (q ∉ damaged k → bundles (os_walk p (leaf k q) ++ ws) s =
    match bundles ws s with Ret l s' => Ret (p :: l) s' | Raise e s' => Raise e s' end).
Proof.
  unfold leaf. split; intros Hq; [rewrite decide_True by done|rewrite decide_False by done].
  - eexists. reflexivity.
  - cbn [os_walk bundle app]. rewrite (bundles_cons _ _ _ true) by done.
    rewrite (bundles_cons _ _ _ false) by done. by destruct (bundles ws s).
Qed.

(** The names [es] in the directory [path]: all are found, or one is damaged. *)
Definition listed (k : device) (path : cstring) (es : list cstring) : node :=
  Dir ((λ e, (e, leaf k (join path e))) <$> es).

Lemma listed_bundles {S} k path (es : list cstring) (s : S) :
  (Forall (λ e, join path e ∉ damaged k) es ∧ bundles (os_walk path (listed k path es)) s = Ret (join path <$> es) s) ∨
  (¬ Forall (λ e, join path e ∉ damaged k) es ∧ ∃ e, bundles (os_walk path (listed k path es)) s = Raise e s).
Proof.
  cbn [os_walk listed]. rewrite (bundles_cons _ _ _ false).
  2: { unfold is_bundle. cbn [filenames].
       replace (omap _ _) with (@nil (cstring * option json)); [done|].
       induction es as [|e es IH]; [done|]. cbn. unfold leaf. by case_decide. }
  set (go := fix go (l : list (cstring * node)) : list walked := _).
  assert ((Forall (λ e, join path e ∉ damaged k) es ∧
            bundles (go ((λ e, (e, leaf k (join path e))) <$> es)) s = Ret (join path <$> es) s) ∨
          (¬ Forall (λ e, join path e ∉ damaged k) es ∧
            ∃ e, bundles (go ((λ e, (e, leaf k (join path e))) <$> es)) s = Raise e s)) as [[Hf ->]|[Hf [e ->]]];
    [|by left|right; by eauto].
  induction es as [|e es IH]; [by left|]. rewrite !fmap_cons.
  change (go ((e, ?d) :: ?l)) with (os_walk (join path e) d ++ go l).
  destruct (leaf_bundles k (join path e) (join path e) (go ((λ e, (e, leaf k (join path e))) <$> es)) s) as [Hbad Hgood].
  destruct (decide (join path e ∈ damaged k)) as [Hin|Hin].
  - right. split; [|by apply Hbad]. by intros [? _]%Forall_cons.
  - rewrite Hgood by done. destruct IH as [[Hf ->]|[Hf [e2 ->]]]; [left|right; split; [|by eauto] ].
    + split; [by constructor|done].
    + by intros [_ ?]%Forall_cons.
Qed.

(** ** The bundles of the device *)

Lemma below_app k n d :
  placed k → app_name_ok n → d ∈ directories k → within (app_dir n) d → d ≠ app_dir n →
  ∃ v, 0 ≤ v ∧ d = version n v.
Proof.
  intros [Hp _] Hn Hd Hw Hne. rewrite Forall_forall in Hp.
  destruct (Hp d Hd) as [->|[(m & Hm & ->)|(m & v & Hm & Hv & ->)]].
  - destruct Hw as [Heq|[k' Hk]]; unfold app_dir in *.
    + apply (f_equal length) in Heq. rewrite length_app in Heq. simpl in Heq. lia.
    + apply (f_equal length) in Hk. rewrite !length_app in Hk. simpl in Hk. lia.
  - apply within_app_dirs in Hw as ->; [done|done|apply Hm].
  - apply within_app_dir in Hw as <-; [|done|apply Hm|done]. by exists v.
Qed.

Lemma list_versions n (l : list cstring) :
  (∀ d, d ∈ l → ∃ v, 0 ≤ v ∧ d = version n v) →
  ∃ vs, l = version n <$> vs ∧ Forall (λ v, 0 ≤ v) vs.
Proof.
  induction l as [|d l IH]; intros Hl; [by exists []|].
  destruct (Hl d) as (v & Hv & ->); [by left|].
  destruct IH as (vs & -> & Hvs); [intros; apply Hl; by right|]. exists (v :: vs). by auto.
Qed.

Lemma join_rest n v :
  app_name_ok n → 0 ≤ v →
  join (app_dir n) (take_until slash (drop (S (length (app_dir n))) (version n v))) = version n v.
Proof.
  intros Hn Hv. unfold version at 1, version_path. rewrite <- Nat.add_1_r, <- drop_drop, drop_app_length.
  change (drop 1 (slash :: str_nat v)) with (str_nat v).
  replace (str_nat v) with (str_int v).
  2: { unfold str_int. by destruct (Z.ltb_spec v 0); [lia|]. }
  rewrite take_until_all; [by apply join_version|].
  intros [Hd|Hd]%str_int_chars; [by vm_compute in Hd|done].
Qed.

(** The names in the directory of an application are its versions. *)
Lemma names_versions k n p :
  placed k → app_name_ok n →
  p ∈ join (app_dir n) <$> names_in (app_dir n) (directories k) ↔
    ∃ v, 0 ≤ v ∧ p = version n v ∧ version n v ∈ directories k.
Proof.
  intros Hp Hn. unfold names_in. rewrite list_elem_of_fmap. split.
  - intros (e & -> & He). apply elem_of_remove_dups, list_elem_of_fmap in He as (d & -> & Hd).
    apply list_elem_of_filter in Hd as [[Hw Hne] Hin].
    destruct (below_app k n d Hp Hn Hin Hw Hne) as (v & Hv & ->). exists v. by rewrite join_rest.
  - intros (v & Hv & -> & Hin).
    exists (take_until slash (drop (S (length (app_dir n))) (version n v))). split; [by rewrite join_rest|].
    apply elem_of_remove_dups.
    apply (list_elem_of_fmap_2 (λ e, take_until slash (drop (S (length (app_dir n))) e))).
    apply list_elem_of_filter. split; [|done]. split; [|by apply version_not_dir].
    right. exists (str_nat v). unfold version, version_path. by rewrite <- (assoc_L (++)).
Qed.

Lemma dirname_app_dir n : app_name_ok n → dirname (app_dir n) = APPS_PATH.
Proof.
  intros [_ Hn]. unfold dirname, app_dir. rewrite reverse_app, reverse_cons, <- (assoc_L (++)). simpl.
  rewrite take_until_app by (by rewrite elem_of_reverse). by rewrite drop_app_length.
Qed.

Lemma entry_app k n : app_name_ok n → app_dir n ∈ directories k →
  device_entry k (app_dir n) = Some (listed k (app_dir n) (names_in (app_dir n) (directories k))).
Proof.
  intros Hn Hd. unfold device_entry. rewrite decide_True by done. rewrite dirname_app_dir by done.
  rewrite decide_False; [done|]. apply (bool_decide_unpack _). vm_compute. exact I.
Qed.

Lemma entry_version k n v : app_name_ok n → 0 ≤ v → version n v ∈ directories k →
  device_entry k (version n v) = Some (leaf k (version n v)).
Proof.
  intros Hn Hv Hd. unfold device_entry. rewrite decide_True by done.
  by rewrite dirname_version, dirname_app_dir, decide_True.
Qed.

(** A version is a directory whose bundle is whole. *)
Definition whole_version k n v : Prop := version n v ∈ directories k ∧ version n v ∉ damaged k.

Lemma device_has_version k n v : has_version k n v ↔ good_app n ∧ 0 ≤ v ∧ whole_version k n v.
Proof.
  unfold has_version. split.
  - intros (Hn & Hv & Hs). split_and!; [done|done|]. unfold search, get_oci_bundle_paths, mbind, P_bind, pget in Hs.
    cbn [sys entry device_system] in Hs. destruct (decide (version n v ∈ directories k)) as [Hd|Hd].
    2: { unfold device_entry in Hs. by rewrite decide_False in Hs. }
    split; [done|]. intros Hdam. rewrite entry_version in Hs by (apply Hn || done).
    destruct (leaf_bundles k (version n v) (version n v) [] {| sys := k; commands := [] |}) as [Hbad _].
    destruct (Hbad Hdam) as [e He]. rewrite app_nil_r in He. by rewrite He in Hs.
  - intros (Hn & Hv & Hd & Hdam). split_and!; [done|done|].
    unfold search, get_oci_bundle_paths, mbind, P_bind, pget. cbn [sys entry device_system].
    rewrite entry_version by (apply Hn || done).
    destruct (leaf_bundles k (version n v) (version n v) [] {| sys := k; commands := [] |}) as [_ Hgood].
    specialize (Hgood Hdam). rewrite app_nil_r in Hgood. by rewrite Hgood.
Qed.

(** The search in the directory of an application. *)
Lemma search_app k n : app_name_ok n → app_dir n ∈ directories k →
  let ps := join (app_dir n) <$> names_in (app_dir n) (directories k) in
  (Forall (λ p, p ∉ damaged k) ps ∧ search k (app_dir n) = inl ps) ∨
  (¬ Forall (λ p, p ∉ damaged k) ps ∧ ∃ e, search k (app_dir n) = inr e).
Proof.
  intros Hn Hd ps. unfold search, get_oci_bundle_paths, mbind, P_bind, pget. cbn [sys entry device_system].
  rewrite entry_app by done. unfold ps. rewrite Forall_fmap.
  destruct (listed_bundles k (app_dir n) (names_in (app_dir n) (directories k)) {| sys := k; commands := [] |})
    as [[Hf ->]|[Hf [e ->]]]; [by left|right; split; [done|by exists e] ].
Qed.

Lemma search_no_app k n : app_dir n ∉ directories k → search k (app_dir n) = inl [].
Proof.
  intros Hd. unfold search, get_oci_bundle_paths, mbind, P_bind, pget. cbn [sys entry device_system].
  unfold device_entry. by rewrite decide_False.
Qed.

Lemma device_versions k n ps :
  placed k → good_app n → search k (app_dir n) = inl ps → ∃ vs, ps = version n <$> vs ∧ versions_at k n vs.
Proof.
  intros Hp Hn Hs. pose proof (proj1 Hn) as Hok. destruct (decide (app_dir n ∈ directories k)) as [Hd|Hd].
  2: { exists []. pose proof (search_no_app k n Hd) as Hno. rewrite Hno in Hs. injection Hs as <-.
       split; [done|]. split; [done|]. intros v. split; [by intros ?%not_elem_of_nil|].
       intros (_ & Hv & Hd2 & _)%device_has_version. destruct Hd. by eapply Hp. }
  destruct (search_app k n Hok Hd) as [[Hf Hs2]|[_ [e He]]]; [|by rewrite He in Hs].
  rewrite Hs2 in Hs. injection Hs as <-.
  destruct (list_versions n (join (app_dir n) <$> names_in (app_dir n) (directories k))) as (vs & Hl & Hvs).
  { intros d (v & Hv & -> & _)%names_versions; [|done..]. by exists v. }
  exists vs. split; [done|]. split; [by rewrite Hs2, Hl|]. intros v. rewrite device_has_version.
  rewrite Forall_forall in Hvs. split.
  - intros Hv. assert (version n v ∈ version n <$> vs) as Hin by (by apply list_elem_of_fmap_2).
    split_and!; [done|by apply Hvs|]. rewrite <- Hl in Hin. split.
    + pose proof Hin as (u & Hu & Heq & Hin2)%names_versions; [|done..]. by rewrite Heq.
    + rewrite Forall_forall in Hf. by apply Hf.
  - intros (_ & Hv & Hd2 & _).
    assert (version n v ∈ version n <$> vs) as Hin by (rewrite <- Hl; apply names_versions; eauto).
    apply list_elem_of_fmap in Hin as (u & Heq & Hu).
    apply version_path_inj in Heq as ->; [done|done|by apply Hvs].
Qed.

Lemma device_readable k n :
  placed k → readable n k ↔ (good_app n → ∀ v, 0 ≤ v → version n v ∈ directories k → version n v ∉ damaged k).
Proof.
  intros Hp. unfold readable. split; intros Hr Hn; specialize (Hr Hn); pose proof (proj1 Hn) as Hok.
  - destruct Hr as [ps Hps]. intros v Hv Hd. assert (app_dir n ∈ directories k) as Ha by (by eapply Hp).
    destruct (search_app k n Hok Ha) as [[Hf _]|[_ [e He]]]; [|by rewrite He in Hps].
    rewrite Forall_forall in Hf. apply Hf. apply names_versions; eauto.
  - destruct (decide (app_dir n ∈ directories k)) as [Ha|Ha]; [|rewrite search_no_app by done; by eexists].
    destruct (search_app k n Hok Ha) as [[_ ->]|[Hf _]]; [by eexists|]. destruct Hf.
    apply Forall_forall. intros p (v & Hv & -> & Hd)%names_versions; [|done..]. by apply Hr.
Qed.

(** ** The laws *)

Lemma quiet_directories c k : quiet c = true → directories (device_execute c k).2 = directories k.
Proof. destruct c; try done; simpl; intros _; device_cases. Qed.

Lemma install_directories n p pkg k :
  colon ∉ n →
  directories (device_execute (CInstall (n ++ ":" ++ p) pkg) k).2 = p :: dirname p :: directories k.
Proof.
  intros Hn. trans (dest_path (n ++ ":" ++ p) :: dirname (dest_path (n ++ ":" ++ p)) :: directories k);
    [reflexivity|]. by rewrite take_until_colon.
Qed.

(** Removing a path that lies above no other application's directory. *)
Lemma rmtree_placed p k :
  placed k →
  (∀ n v, app_name_ok n → 0 ≤ v → ¬ within p (version n v) → ¬ within p (app_dir n)) →
  placed (device_execute (CRmtree p) k).2.
Proof.
  intros [Hk Hp] Ha. simpl. case_decide; [|done]. split; simpl.
  - rewrite Forall_forall in Hk |- *. intros d [_ Hd]%list_elem_of_filter. auto.
  - intros n v Hn Hv [Hw Hd]%list_elem_of_filter. apply list_elem_of_filter.
    split; [by eapply Ha|by eapply Hp].
Qed.

Lemma touch_placed p c k : touches p c → placed k → placed (device_execute c k).2.
Proof.
  destruct 1 as [n v pkg Hn Hv|n v Hn Hv|n v Hn Hv|n Hn]; intros Hk; [|done|..].
  - destruct Hk as [Hk Hp]. unfold placed.
    rewrite install_directories, dirname_version by (apply Hn || done).
    split.
    + constructor; [right; right; by exists n, v|]. constructor; [right; left; by exists n|done].
    + intros m u Hm Hu [Heq|[Heq|Hin]%elem_of_cons]%elem_of_cons.
      * apply version_eq in Heq as [-> _]; [|done|apply Hn|done..]. right. by left.
      * apply version_not_dir in Heq; [done|apply Hn|done..].
      * right. right. by eapply Hp.
  - apply rmtree_placed; [done|]. intros m u Hm Hu _. by apply version_not_above; [apply Hn|..].
  - apply rmtree_placed; [done|]. intros m u Hm Hu Hw Ha. apply Hw.
    apply within_app_dirs in Ha as ->; [|apply Hn|done].
    right. exists (str_nat u). unfold version, version_path. by rewrite <- (assoc_L (++)).
Qed.

Lemma rmtree_directories p d k :
  ¬ within p d → d ∈ directories k → d ∈ directories (device_execute (CRmtree p) k).2.
Proof. intros Hw Hd. simpl. case_decide; [|done]. simpl. by apply list_elem_of_filter. Qed.

(** What is not within the path stays, the directory of the application too. *)
Lemma touch_directories p c k n v :
  touches p c → app_name_ok n → 0 ≤ v → ¬ within p (version n v) →
  app_dir n ∈ directories k → version n v ∈ directories k →
  app_dir n ∈ directories (device_execute c k).2 ∧ version n v ∈ directories (device_execute c k).2.
Proof.
  destruct 1 as [m u pkg Hm Hu|m u Hm Hu|m u Hm Hu|m Hm]; intros Hn Hv Hw Hd Hin.
  - rewrite install_directories by apply Hm. by split; do 2 right.
  - done.
  - split; apply rmtree_directories; try done. by apply version_not_above; [apply Hm|..].
  - split; apply rmtree_directories; try done. intros Ha. apply Hw.
    apply within_app_dirs in Ha as ->; [|apply Hm|done].
    right. exists (str_nat v). unfold version, version_path. by rewrite <- (assoc_L (++)).
Qed.

(** What a command leaves of the directories, and of what is damaged. *)
Lemma leaves_placed b p c k k' :
  touches p c → leaves (H0 := device_power b) c k k' → placed k → placed k'.
Proof.
  intros Ht [->|Hm] Hp; [by eapply touch_placed|].
  destruct c; try done. destruct Hm as [_ ->]. exact (touch_placed p (CInstall dest pkg) k Ht Hp).
Qed.

Lemma quiet_leaves b c k k' :
  quiet c = true → leaves (H0 := device_power b) c k k' →
  directories k' = directories k ∧ damaged k' = damaged k ∧ payload k' = payload k.
Proof.
  intros Hq [->|Hm]; [|by destruct c]. split_and!; [by apply quiet_directories| |apply payload_kept].
  destruct c; try done; simpl; device_cases.
Qed.

Lemma touch_payload b c k k' :
  leaves (H0 := device_power b) c k k' → payload k' = payload k.
Proof. intros [->|Hm]; [apply payload_kept|]. destruct c; try done. by destruct Hm as [_ ->]. Qed.

Lemma touch_damaged b p c k k' q :
  touches p c → leaves (H0 := device_power b) c k k' →
  q ≠ p → q ∈ damaged k' ↔ q ∈ damaged k.
Proof.
  intros Ht Hl Hq. destruct Ht as [n v pkg Hn Hv|n v Hn Hv|n v Hn Hv|n Hn].
  - assert (dest_path (n ++ ":" ++ version n v) = version n v) as Hd by (apply take_until_colon, Hn).
    destruct Hl as [->|[_ ->]].
    + change (damaged _) with (filter (λ d, d ≠ dest_path (n ++ ":" ++ version n v)) (damaged k)) at 1.
      rewrite Hd, list_elem_of_filter. tauto.
    + change (damaged _) with (dest_path (n ++ ":" ++ version n v) :: damaged k) at 1.
      rewrite Hd, elem_of_cons. tauto.
  - by destruct Hl as [->|[]].
  - destruct Hl as [->|[]]. simpl. by case_decide.
  - destruct Hl as [->|[]]. simpl. by case_decide.
Qed.

Lemma removal_leaves b p c k k' :
  touches p c → installs c = false → leaves (H0 := device_power b) c k k' →
  directories k' ⊆ directories k ∧ damaged k' = damaged k.
Proof.
  intros Ht Hi Hl. destruct Ht as [n v pkg Hn Hv|n v Hn Hv|n v Hn Hv|n Hn]; [done|..];
    (destruct Hl as [->|[]]); simpl; try done; case_decide; simpl; (split; [|done]); try done;
    intros d [_ Hd]%list_elem_of_filter; done.
Qed.

Lemma leaves_directories b p c k k' n v :
  touches p c → leaves (H0 := device_power b) c k k' → good_app n → 0 ≤ v →
  ¬ within p (version n v) → placed k → version n v ∈ directories k → version n v ∈ directories k'.
Proof.
  intros Ht [->|Hm] Hn Hv Hw Hp Hd.
  - apply (touch_directories p c k n v Ht (proj1 Hn) Hv Hw); [|done]. by eapply Hp; [apply Hn|..].
  - destruct c; try done. destruct Hm as [_ ->]. simpl. by do 2 right.
Qed.

#[export] Program Instance device_tree_laws b : TreeLaws device (PowerLoss0 := device_power b) :=
  { coherent := in_order }.
Next Obligation. intros b n k ps [Hp _]. by apply device_versions. Qed.
Next Obligation.
  intros b n v k [Hp _] (Hn & Hv & Hd & _)%device_has_version. rewrite device_isdir.
  apply bool_decide_eq_true. by eapply Hp; [apply Hn|..].
Qed.
Next Obligation.
  intros b c k k' Hq Hl [Hp Hpl]. destruct (quiet_leaves b c k k' Hq Hl) as (Hd & _ & Hpk).
  split; [unfold placed; by rewrite Hd|by rewrite Hpk].
Qed.
Next Obligation.
  intros b c k k' n v Hq Hl _. destruct (quiet_leaves b c k k' Hq Hl) as (Hd & Hdam & _).
  rewrite !device_has_version. unfold whole_version. by rewrite Hd, Hdam.
Qed.
Next Obligation.
  intros b c k k' n Hq Hl [Hp _]. destruct (quiet_leaves b c k k' Hq Hl) as (Hd & Hdam & _).
  rewrite !device_readable by (try unfold placed; by rewrite ?Hd). by rewrite Hd, Hdam.
Qed.
Next Obligation.
  intros b p c k k' Ht Hl [Hp Hpl]. split; [by eapply leaves_placed|]. by rewrite (touch_payload b c k k').
Qed.
Next Obligation.
  intros b p c k k' n v Ht Hl [Hp _] Hw. rewrite !device_has_version. intros (Hn & Hv & Hd & Hdam).
  split_and!; [done..|]. split; [by eapply leaves_directories|].
  rewrite (touch_damaged b p c k k' (version n v) Ht Hl); [done|]. intros Heq. apply Hw. by left.
Qed.
Next Obligation.
  intros b p c k k' n Ht Hi Hl [Hp _]. pose proof (leaves_placed b p c k k' Ht Hl Hp) as Hp'.
  destruct (removal_leaves b p c k k' Ht Hi Hl) as [Hd Hdam].
  rewrite !device_readable by done. intros Hr Hn v Hv Hin. rewrite Hdam. by apply Hr, Hd.
Qed.
Next Obligation. done. Qed.
Next Obligation. done. Qed.
Next Obligation. done. Qed.
Next Obligation. done. Qed.

Lemma created_directory b id l k r k' :
  device_execute (CCreate b id l) k = (Some r, k') → failed r = false → b ∈ directories k ∧ b ∉ damaged k.
Proof. simpl. case_decide as Hc; intros [= <- <-]; [|done]. intros _. tauto. Qed.

#[export] Program Instance device_bundle_laws b : BundleLaws device (PowerLoss0 := device_power b).
Next Obligation.
  intros b n w id l k r k' _ Hn Hw Hr Hf. pose proof (created_directory _ _ _ _ _ _ Hr Hf).
  by apply device_has_version.
Qed.
Next Obligation. done. Qed.
Next Obligation. intros b d k n [Hp _]. by rewrite !device_readable. Qed.
Next Obligation. intros b d k n v _. by rewrite !device_has_version. Qed.

(** When opkg writes a [config.json] as a whole, every bundle can be read. *)
#[export] Instance device_whole_installs : WholeInstalls device (PowerLoss0 := device_power false).
Proof.
  split. intros p c k k' n Ht Hi Hl [Hp _]. pose proof (leaves_placed false p c k k' Ht Hl Hp) as Hp'.
  rewrite !device_readable by done. intros Hr Hn v Hv Hin.
  destruct (decide (version n v = p)) as [Hvp|Hvp].
  - destruct Ht as [m u pkg Hm Hu| | |]; try done. destruct Hl as [->|[? _]]; [|done]. simpl.
    intros [Hne _]%list_elem_of_filter. destruct Hne. rewrite Hvp. symmetry. apply take_until_colon, Hm.
  - rewrite (touch_damaged false p c k k' _ Ht Hl Hvp). apply Hr; [done..|].
    destruct Ht as [m u pkg Hm Hu| | |]; try done. destruct Hl as [->|[? _]]; [|done].
    rewrite install_directories in Hin by apply Hm.
    rewrite dirname_version in Hin by (apply Hm || done).
    rewrite !elem_of_cons in Hin. destruct Hin as [?|[Heq|?]]; [done| |done].
    by apply version_not_dir in Heq; [|apply Hm|].
Qed.

(** ** The whole update *)

Definition board_host : host device := {| sys := device_with [] []; commands := [] |}.
Definition update_pkg_path : cstring := "/scratch/update.tar".

Lemma good_one c : c ∈ ["a"%char; "b"%char] → good_app [c].
Proof.
  intros Hc. assert (c = "a"%char ∨ c = "b"%char) as [-> | ->] by set_solver;
    (split; [split; [done|apply (bool_decide_unpack _); vm_compute; exact I] |]);
    (split; [|apply (bool_decide_unpack _); vm_compute; exact I]);
    intros s Hs; rewrite !elem_of_cons, elem_of_nil in Hs; by destruct Hs as [->|[->|[->|[]]]].
Qed.

Lemma board_placed : in_order (sys board_host).
Proof.
  pose proof (good_one "a"%char ltac:(set_solver)) as Hgood. pose proof (proj1 Hgood) as Hok.
  split; [|done]. split; simpl.
  - rewrite !Forall_cons. split_and!; [by left|right; left|right; right|done].
    + by exists ["a"%char].
    + by exists ["a"%char], 0.
  - intros n v Hn Hv. rewrite !elem_of_cons, elem_of_nil. intros [Heq|[Heq|[Heq|[]]]].
    + destruct (version_shape n v Hv) as (s & Hs & _). rewrite Hs in Heq.
      apply (f_equal length) in Heq. rewrite length_app in Heq. simpl in Heq. lia.
    + by apply (version_not_dir ["a"%char] n v Hok Hv) in Heq.
    + apply (version_eq n ["a"%char] v 0) in Heq as [-> _]; [right; by left|done..].
Qed.

Lemma board_payload : payload_ok update_pkg_path board_host.
Proof.
  split.
  - intros m Hm g Hg. assert (_ipks m = [("a.ipk" : cstring); ("b.ipk" : cstring)]) as Hi.
    { apply (f_equal (λ r, _ipks (pstate r))) in Hm. simpl in Hm. rewrite <- Hm. vm_compute. reflexivity. }
    rewrite Hi, !elem_of_cons, elem_of_nil in Hg.
    destruct Hg as [->|[->|[]]]; [exists ["a"%char]|exists ["b"%char]];
      (split; [apply good_one; set_solver|]); intros h n' h' Hr;
      apply (f_equal pvalue) in Hr; vm_compute in Hr; by injection Hr as <-.
  - intros m Hm. assert (name <$> _installed_apps m = [("a" : cstring); ("b" : cstring)]) as ->.
    { apply (f_equal (λ r, name <$> _installed_apps (pstate r))) in Hm. cbn [pstate] in Hm.
      rewrite <- Hm. vm_compute. reflexivity. }
    apply (bool_decide_unpack _). vm_compute. exact I.
Qed.

Lemma whole_update_loses_nothing_witness :
  let r := run_mbl_app_update_manager (new_manager update_pkg_path board_host) in
  always [] (λ k, ∀ n v, has_version (sys board_host) n v →
    isdir (version n v) k = true ∨ ∃ w, v < w ∧ container k n = Some (version n w)) (the_host (pstate r)) ∧
  pvalue r = inl tt.
Proof.
  intros r. split.
  - exact (proj1 (whole_update_loses_nothing update_pkg_path board_host board_placed board_payload)).
  - vm_compute. reflexivity.
Defined.

Lemma board_legible : legible (sys board_host).
Proof.
  intros n. apply device_readable; [apply board_placed|]. intros _ v _ _. apply not_elem_of_nil.
Qed.

(** With an opkg that can leave half a [config.json], and with one that does not. *)
Lemma update_survives_power_loss_witness :
  let h' := the_host (pstate (run_mbl_app_update_manager (new_manager update_pkg_path board_host))) in
  always [] (λ k, ∀ n v, has_version (sys board_host) n v →
    (∃ w, v ≤ w ∧ has_version k n w) ∧ ∀ k', reboot k k' → readable n k' → boots n k') h' ∧
  always (H0 := device_power false) [] legible h' ∧ has_version (sys board_host) ["a"%char] 0.
Proof.
  intros h'. split; [|split].
  - exact (proj1 (update_survives_power_loss update_pkg_path board_host board_placed board_payload)).
  - exact (proj2 (update_survives_power_loss (PowerLoss0 := device_power false) update_pkg_path board_host
      board_placed board_payload) _ board_legible).
  - apply device_has_version. split; [apply good_one; set_solver|].
    split; [done|]. split; apply (bool_decide_unpack _); vm_compute; exact I.
Defined.

(** Half a [config.json], which a loss of power left while version 1 of [a] was
    installed: the next boot starts no application. *)
Definition torn_board : device :=
  set_damaged [("/home/app/a/1" : cstring)]
    (set_directories (("/home/app/a/1" : cstring) :: directories (device_with [] []))
       (set_containers ∅ (device_with [] []))).

Example torn_board_arises : midway (CInstall "a:/home/app/a/1" "a.ipk") (set_containers ∅ (device_with [] []))
  (set_directories (("/home/app/a/1" : cstring) :: ("/home/app/a" : cstring) :: directories (device_with [] [])) torn_board).
Proof. by split. Qed.

Example torn_board_stops_boot :
  let r := run_all_action {| sys := torn_board; commands := [] |} in
  pvalue r = inr {| exn_of := ValueErr; exn_str := "Expecting value" |} ∧ containers (sys (pstate r)) = ∅.
Proof. vm_compute. split; reflexivity. Qed.
