(* ===== verification/Shell.v ===== *)
(** * The shell

    What the repository's shell scripts use of the language itself: command
    substitution, the integer tests of [test], and suffix removal. *)

From stdpp Require Import base gmap strings list.
From Stdlib Require Import ZArith Ascii Lia.
From S2P Require Import Prelude.
From S2P Require Import Py.

Open Scope Z_scope.
Open Scope list_scope.

(** [$(...)] drops the newlines at the end. *)
Fixpoint drop_newlines (s : cstring) : cstring :=
  match s with
  | c :: s' => if bool_decide (c = newline) then drop_newlines s' else s
  | [] => []
  end.
Definition substituted (s : cstring) : cstring := reverse (drop_newlines (reverse s)).

Definition digit_value (c : ascii) : option Z :=
  let n := Z.of_nat (nat_of_ascii c) in
  if (48 <=? n) && (n <=? 57) then Some (n - 48) else None.

Fixpoint decimal (acc : Z) (s : cstring) : option Z :=
  match s with
  | [] => Some acc
  | c :: s' => d ← digit_value c; decimal (10 * acc + d) s'
  end.

(** The number after a sign. *)
Definition digits (s : cstring) : option Z :=
  match s with [] => None | _ => decimal 0 s end.

(** The integer [test] reads: an optional sign and a number of 64 bits. [None]:
    it is an error, and the status of the test is 2. *)
Definition test_int (s : cstring) : option Z :=
  n ← match s with
      | c :: s' =>
          if bool_decide (c = "-"%char) then Z.opp <$> digits s'
          else if bool_decide (c = "+"%char) then digits s'
          else digits s
      | [] => None
      end;
  if (- 2 ^ 63 <=? n) && (n <? 2 ^ 63) then Some n else None.

(** Whether [\[ "$s" -ne 0 \]] and [\[ "$a" -gt "$b" \]] succeed: an error counts
    as false. *)
Definition test_ne_0 (s : cstring) : bool :=
  match test_int s with Some n => negb (n =? 0) | None => false end.

Definition test_gt (a b : cstring) : bool :=
  match test_int a, test_int b with Some m, Some n => n <? m | _, _ => false end.

(** [${s%suf}]. *)
Definition strip_suffix (suf s : cstring) : cstring :=
  if decide (suf `suffix_of` s) then take (length s - length suf) s else s.

(** [${s%v?}]: the version at the end of the name of an image type. *)
Definition strip_version (s : cstring) : cstring :=
  match reverse s with
  | _ :: c :: r => if bool_decide (c = "v"%char) then reverse r else s
  | _ => s
  end.

Definition printf_line (s : cstring) : cstring := s ++ [newline].

(** The exit code of a program, and an argument that survives [$(...)]. *)
Definition is_exit_code (c : Z) : Prop := 0 ≤ c < 256.
Definition clean_name (p : cstring) : Prop := last p ≠ Some newline.

Lemma substituted_line s : clean_name s → substituted (printf_line s) = s.
Proof.
  unfold clean_name, substituted, printf_line. intros Hs. rewrite reverse_snoc. simpl.
  rewrite <-(reverse_involutive s) at 2. f_equal. rewrite <-head_reverse in Hs.
  destruct (reverse s) as [|c r]; [done|]. simpl in *. rewrite bool_decide_false; congruence.
Qed.

(** Checked for every exit code there is. *)
Lemma exit_code_text c :
  is_exit_code c → substituted (printf_line (str_int c)) = str_int c ∧
  test_ne_0 (str_int c) = negb (c =? 0).
Proof.
  intros Hc.
  assert (forallb (λ n, let c := Z.of_nat n in
            bool_decide (substituted (printf_line (str_int c)) = str_int c) &&
            Bool.eqb (test_ne_0 (str_int c)) (negb (c =? 0))) (seq 0 256) = true) as Hall.
  { vm_compute. reflexivity. }
  rewrite forallb_forall in Hall. unfold is_exit_code in Hc.
  specialize (Hall (Z.to_nat c)). rewrite Z2Nat.id in Hall by lia.
  destruct (andb_prop _ _ (Hall ltac:(apply in_seq; lia))) as [H1 H2].
  split; [by apply bool_decide_eq_true in H1|by apply Bool.eqb_prop].
Qed.


(** A number that is printed is read back. *)
Lemma digit_value_of d : 0 ≤ d < 10 → digit_value (digit_of d) = Some d.
Proof.
  intros Hd. assert (d = 0 ∨ d = 1 ∨ d = 2 ∨ d = 3 ∨ d = 4 ∨ d = 5 ∨ d = 6 ∨ d = 7 ∨ d = 8 ∨ d = 9) as Hc by lia.
  by repeat destruct Hc as [->|Hc]; [..|subst d].
Qed.

Lemma decimal_str_digits fuel n acc :
  0 ≤ n < 2 ^ Z.of_nat fuel → decimal 0 (str_digits fuel n acc) = decimal n acc.
Proof.
  revert n acc. induction fuel as [|fuel IH]; intros n acc Hn.
  - by assert (n = 0) as -> by (simpl in Hn; lia).
  - cbn [str_digits]. destruct (Z.ltb_spec n 10).
    + cbn [decimal]. rewrite Z.mod_small by lia. by rewrite digit_value_of by lia.
    + rewrite IH.
      * cbn [decimal]. rewrite digit_value_of by (apply Z.mod_pos_bound; lia). simpl. f_equal.
        pose proof (Z.div_mod n 10). lia.
      * split; [apply Z.div_pos; lia|]. apply Z.div_lt_upper_bound; [lia|].
        rewrite Nat2Z.inj_succ, Z.pow_succ_r in Hn by lia. lia.
Qed.

Lemma str_digits_ne fuel n acc : acc ≠ [] ∨ fuel ≠ 0%nat → str_digits fuel n acc ≠ [].
Proof.
  revert n acc. induction fuel as [|fuel IH]; intros n acc Ha; cbn [str_digits]; [by destruct Ha|].
  destruct (n <? 10); [done|]. apply IH. by left.
Qed.

Lemma digits_str_nat n : 0 ≤ n → digits (str_nat n) = Some n.
Proof.
  intros Hn. unfold digits. assert (str_nat n ≠ []) as Hne by (apply str_digits_ne; by right).
  destruct (str_nat n) as [|c s] eqn:Hs; [done|]. rewrite <- Hs. unfold str_nat.
  rewrite decimal_str_digits; [done|]. rewrite Nat2Z.inj_succ, Z2Nat.id by apply Z.log2_nonneg.
  split; [done|]. destruct (decide (n = 0)) as [->|]; [done|]. apply Z.log2_spec. lia.
Qed.

Lemma decimal_chars a s n : decimal a s = Some n → Forall (λ c, is_Some (digit_value c)) s.
Proof.
  revert a. induction s as [|c s IH]; intros a Ha; constructor.
  - simpl in Ha. destruct (digit_value c); [by eexists|done].
  - simpl in Ha. destruct (digit_value c) as [d|]; [|done]. by eapply IH.
Qed.

Lemma digits_chars s n : digits s = Some n → Forall (λ c, is_Some (digit_value c)) s.
Proof. unfold digits. destruct s; [done|]. apply decimal_chars. Qed.

Lemma test_int_digits s n : digits s = Some n → 0 ≤ n < 2 ^ 63 → test_int s = Some n.
Proof.
  intros Hs Hn. pose proof (digits_chars s n Hs) as Hf. unfold test_int.
  destruct s as [|c s]; [done|]. apply Forall_cons in Hf as [[d Hd] _].
  case_bool_decide; [by subst c|]. case_bool_decide; [by subst c|]. rewrite Hs. simpl.
  destruct (Z.leb_spec (- 2 ^ 63) n), (Z.ltb_spec n (2 ^ 63)); simpl; done || lia.
Qed.

Lemma digits_clean s n : digits s = Some n → clean_name s.
Proof.
  intros Hs Hl. pose proof (digits_chars s n Hs) as Hf. rewrite Forall_forall in Hf.
  assert (newline ∈ s) as Hin by (apply last_Some_elem_of; exact Hl).
  destruct (Hf _ Hin) as [d Hd]. by vm_compute in Hd.
Qed.

Lemma test_int_printed n : 0 ≤ n < 2 ^ 63 → test_int (substituted (printf_line (str_nat n))) = Some n.
Proof.
  intros Hn. assert (digits (str_nat n) = Some n) as Hd by (apply digits_str_nat; lia).
  rewrite substituted_line by (by eapply digits_clean). by apply test_int_digits.
Qed.

Lemma decimal_nonneg a s n : 0 ≤ a → decimal a s = Some n → 0 ≤ n.
Proof.
  revert a. induction s as [|c s IH]; intros a Ha; simpl; [by intros [= <-]|].
  unfold digit_value. destruct ((48 <=? _) && _) eqn:Hc; [|done]. simpl.
  apply andb_true_iff in Hc as [Hc _]. apply Z.leb_le in Hc. apply IH. lia.
Qed.

Lemma digits_nonneg s n : digits s = Some n → 0 ≤ n.
Proof. unfold digits. destruct s; [done|]. by apply decimal_nonneg. Qed.
