(* ===== verification/AppHandshake.v ===== *)
(** * The hand-over of an application update

    [scripts/apps_installer.sh], which swupdate runs for the applications of a
    payload, and [mbl-app-update-manager-daemon], a process of its own, talk
    through four files: the installer leaves the path of the archive and asks
    for an update, the daemon runs mbl-app-update-manager, leaves its exit code
    and answers. Both only poll. The two are one transition system with every
    command of the shell as a step; the program they run is a parameter, here
    mbl-app-update-manager of [AppUpdate]. *)

From stdpp Require Import base gmap strings list.
From Stdlib Require Import ZArith Ascii Lia.
From S2P Require Import Prelude.
From S2P Require Import Py.
From S2P Require Import Shell.

Open Scope Z_scope.
Open Scope list_scope.

(** ** Files *)

Abbreviation spool := (gmap cstring cstring).

(** A file that cannot be read gives no text. *)
Definition cat (p : cstring) (f : spool) : cstring := substituted (default [] (f !! p)).

Definition touch (p : cstring) (f : spool) : spool :=
  match f !! p with Some _ => f | None => <[p:=[]]> f end.

Definition exists_file (p : cstring) (f : spool) : bool :=
  match f !! p with Some _ => true | None => false end.

(** ** The processes *)

(** Where [update_apps_or_die] is; [> file] empties the file before the text is
    written. *)
Inductive installer_pc :=
| IOpenPath | IWritePath | ITouchDo
| IWaitDone
| IRmDone | IReadRc | IRmRc (app_update_rc : cstring) | ITestRc (app_update_rc : cstring)
| IExit (code : Z).

(** Where the loop of the daemon is. *)
Inductive daemon_pc :=
| DWaitDo
| DRmDo | DReadPath | DRunManager (firmware_path : cstring)
| DOpenRc (rc : Z) | DWriteRc (rc : Z) | DRmPath | DTouchDone.

#[export] Instance installer_pc_eq_dec : EqDecision installer_pc.
Proof. solve_decision. Defined.
#[export] Instance daemon_pc_eq_dec : EqDecision daemon_pc.
Proof. solve_decision. Defined.

Record state (K : Type) := {
  files : spool;
  installer : option (cstring * installer_pc);   (** its argument, and where it is *)
  daemon : daemon_pc;
  system : K;
  runs : list cstring                            (** the packages the manager was given *)
}.
Arguments files {K} s. Arguments installer {K} s. Arguments daemon {K} s.
Arguments system {K} s. Arguments runs {K} s.

(** The installer and the daemon make a step; swupdate starts the installer
    with a path; something kills it. *)
Inductive action := Installer | Daemon | Start (uaod_apps_file : cstring) | Kill.

Section handshake.
Context {K : Type} (manager : cstring → K → Z * K).

(** The directory of the installer is set when it is built; the daemon's is
    fixed. *)
Context (UPDATE_PAYLOAD_DIR : cstring).

Definition inst (n : cstring) : cstring := UPDATE_PAYLOAD_DIR ++ "/" ++ n.
Definition scratch (n : cstring) : cstring := "/scratch/" ++ n.
#[local] Arguments inst : simpl never.
#[local] Arguments scratch : simpl never.

(** ** apps_installer.sh *)

Definition update_apps_or_die (uaod_apps_file : cstring) (pc : installer_pc) (f : spool)
  : installer_pc * spool :=
  match pc with
  | IOpenPath => (IWritePath, <[inst "firmware_path" := []]> f)
  | IWritePath => (ITouchDo, <[inst "firmware_path" := printf_line uaod_apps_file]> f)
  | ITouchDo => (IWaitDone, touch (inst "do_app_update") f)
  | IWaitDone => (if exists_file (inst "done_app_update") f then IRmDone else IWaitDone, f)
  | IRmDone => (IReadRc, delete (inst "done_app_update") f)
  | IReadRc => (IRmRc (cat (inst "app_update_rc") f), f)
  | IRmRc rc => (ITestRc rc, delete (inst "app_update_rc") f)
  | ITestRc rc => (IExit (if test_ne_0 rc then 47 else 0), f)
  | IExit c => (IExit c, f)
  end.

(** ** mbl-app-update-manager-daemon *)

Definition update_apps (pc : daemon_pc) (s : state K) : state K :=
  let go pc f := {| files := f; installer := installer s; daemon := pc; system := system s;
                    runs := runs s |} in
  let f := files s in
  match pc with
  | DWaitDo => go (if exists_file (scratch "do_app_update") f then DRmDo else DWaitDo) f
  | DRmDo => go DReadPath (delete (scratch "do_app_update") f)
  | DReadPath => go (DRunManager (cat (scratch "firmware_path") f)) f
  | DRunManager p =>
      let '(rc, k) := manager p (system s) in
      {| files := f; installer := installer s; daemon := DOpenRc rc; system := k;
         runs := runs s ++ [p] |}
  | DOpenRc rc => go (DWriteRc rc) (<[scratch "app_update_rc" := []]> f)
  | DWriteRc rc => go DRmPath (<[scratch "app_update_rc" := printf_line (str_int rc)]> f)
  | DRmPath => go DTouchDone (delete (scratch "firmware_path") f)
  | DTouchDone => go DWaitDo (touch (scratch "done_app_update") f)
  end.

Definition set_installer (i : option (cstring * installer_pc)) (f : spool) (s : state K) : state K :=
  {| files := f; installer := i; daemon := daemon s; system := system s; runs := runs s |}.

(** An installer is started when there is none or the last one has ended. *)
Definition exec (a : action) (s : state K) : state K :=
  match a with
  | Installer =>
      match installer s with
      | Some (p, pc) =>
          let '(pc', f) := update_apps_or_die p pc (files s) in set_installer (Some (p, pc')) f s
      | None => s
      end
  | Daemon => update_apps (daemon s) s
  | Start p =>
      match installer s with
      | None | Some (_, IExit _) => set_installer (Some (p, IOpenPath)) (files s) s
      | _ => s
      end
  | Kill => set_installer None (files s) s
  end.

Definition run_all (l : list action) (s : state K) : state K := foldl (flip exec) s l.

Definition exit_code (s : state K) : option Z :=
  match installer s with Some (_, IExit c) => Some c | _ => None end.

(** ** The protocol *)

(** The state, by what the two processes can see of it. *)
Definition at_ (i : option (cstring * installer_pc)) (d : daemon_pc)
    (path asked answered rc : option cstring) (k : K) (rs : list cstring) (s : state K) : Prop :=
  installer s = i ∧ daemon s = d ∧ files s !! scratch "firmware_path" = path ∧
  files s !! scratch "do_app_update" = asked ∧ files s !! scratch "done_app_update" = answered ∧
  files s !! scratch "app_update_rc" = rc ∧ system s = k ∧ runs s = rs.

(** The directory is clean, the daemon waits and no installer is at work. *)
Definition idle (s : state K) : Prop :=
  ∃ i, at_ i DWaitDo None None None None (system s) (runs s) s ∧
       match i with Some (_, IExit _) | None => True | _ => False end.

(** The sixteen steps of one update, from the start of the installer on; [w]
    is the installer while the daemon works. *)
Definition phase (w : option (cstring * installer_pc)) (p : cstring) (k : K) (rs : list cstring) (n : nat) : state K → Prop :=
  let rc := (manager p k).1 in
  let k' := (manager p k).2 in
  let I pc := Some (p, pc) in
  let line := Some (printf_line p) in
  let code := Some (printf_line (str_int rc)) in
  let new := Some ([] : cstring) in
  match n with
  | 0%nat => at_ (I IOpenPath) DWaitDo None None None None k rs
  | 1%nat => at_ (I IWritePath) DWaitDo new None None None k rs
  | 2%nat => at_ (I ITouchDo) DWaitDo line None None None k rs
  | 3%nat => at_ w DWaitDo line new None None k rs
  | 4%nat => at_ w DRmDo line new None None k rs
  | 5%nat => at_ w DReadPath line None None None k rs
  | 6%nat => at_ w (DRunManager p) line None None None k rs
  | 7%nat => at_ w (DOpenRc rc) line None None None k' (rs ++ [p])
  | 8%nat => at_ w (DWriteRc rc) line None None new k' (rs ++ [p])
  | 9%nat => at_ w DRmPath line None None code k' (rs ++ [p])
  | 10%nat => at_ w DTouchDone None None None code k' (rs ++ [p])
  | 11%nat => at_ w DWaitDo None None new code k' (rs ++ [p])
  | 12%nat => at_ (I IRmDone) DWaitDo None None new code k' (rs ++ [p])
  | 13%nat => at_ (I IReadRc) DWaitDo None None None code k' (rs ++ [p])
  | 14%nat => at_ (I (IRmRc (str_int rc))) DWaitDo None None None code k' (rs ++ [p])
  | 15%nat => at_ (I (ITestRc (str_int rc))) DWaitDo None None None None k' (rs ++ [p])
  | _ => at_ (I (IExit (if rc =? 0 then 0 else 47))) DWaitDo None None None None k' (rs ++ [p])
  end.

(** Whose step ends phase [n]; the other process waits, or has ended. *)
Definition moves (a : action) (n : nat) : bool :=
  match a with
  | Installer => (n <? 3)%nat || ((11 <=? n)%nat && (n <? 16)%nat)
  | Daemon => (3 <=? n)%nat && (n <? 11)%nat
  | _ => false
  end.
Definition next (a : action) (n : nat) : nat := if moves a n then S n else n.

Definition process (a : action) : Prop := a = Installer ∨ a = Daemon.

Section same_directory.
Hypothesis Hdir : ∀ name : cstring, inst name = scratch name.

Ltac at_step :=
  let Hi := fresh "Hi" in let Hd := fresh "Hd" in
  intros (Hi & Hd & ? & ? & ? & ? & ? & ?); unfold exec; rewrite ?Hi, ?Hd;
  cbn -[str_int printf_line];
  unfold touch, exists_file, cat; rewrite ?Hdir; unfold at_; cbn -[str_int printf_line];
  rewrite ?Hi, ?Hd; simplify_map_eq; try done.

Lemma phase_installer p k rs n s :
  is_exit_code (manager p k).1 → (n ≤ 16)%nat →
  phase (Some (p, IWaitDone)) p k rs n s →
  phase (Some (p, IWaitDone)) p k rs (next Installer n) (exec Installer s).
Proof.
  intros Hc Hn. destruct (exit_code_text _ Hc) as [Ht Hz].
  destruct n as [|[|[|[|[|[|[|[|[|[|[|[|[|[|[|[|[|?]]]]]]]]]]]]]]]]]; [..|lia]; cbn -[str_int printf_line]; at_step.
  - by rewrite Ht.
  - rewrite Hz. by destruct (_ =? 0).
Qed.

Lemma phase_daemon w p k rs n s :
  clean_name p → (n ≤ 16)%nat →
  phase w p k rs n s → phase w p k rs (next Daemon n) (exec Daemon s).
Proof.
  intros Hp Hn. pose proof (substituted_line _ Hp) as Hs.
  destruct n as [|[|[|[|[|[|[|[|[|[|[|[|[|[|[|[|[|?]]]]]]]]]]]]]]]]]; [..|lia]; cbn -[str_int printf_line]; at_step.
  - by rewrite Hs.
  - destruct (manager p (system s)); simpl. by simplify_map_eq.
Qed.

(** *** Schedules *)

Fixpoint turns (l : list action) (n : nat) : nat :=
  match l with [] => n | a :: l' => turns l' (next a n) end.

Lemma turns_app l1 l2 n : turns (l1 ++ l2) n = turns l2 (turns l1 n).
Proof. revert n. induction l1 as [|a l1 IH]; intros n; [done|apply IH]. Qed.

Lemma next_bounds a n : (n ≤ 16 → n ≤ next a n ≤ 16)%nat.
Proof.
  unfold next. intros Hn. destruct (moves a n) eqn:Hm; [|lia].
  destruct (decide (n = 16%nat)) as [->|]; [by destruct a|lia].
Qed.

Lemma turns_bounds l n : (n ≤ 16 → n ≤ turns l n ≤ 16)%nat.
Proof.
  revert n. induction l as [|a l IH]; intros n Hn; [simpl; lia|].
  pose proof (next_bounds a n Hn) as Ha. specialize (IH (next a n)). simpl. lia.
Qed.

Lemma run_phase l p k rs n s :
  clean_name p → is_exit_code (manager p k).1 → (n ≤ 16)%nat → Forall process l →
  phase (Some (p, IWaitDone)) p k rs n s →
  phase (Some (p, IWaitDone)) p k rs (turns l n) (run_all l s).
Proof.
  intros Hp Hc Hn Hl. revert n s Hn. induction Hl as [|a l Ha _ IH]; intros n s Hn Hph; [done|].
  simpl. unfold flip. apply IH; [by apply next_bounds|].
  destruct Ha as [->| ->]; [by apply phase_installer|by apply phase_daemon].
Qed.

(** Each process had a step. *)
Definition round (b : list action) : Prop := Installer ∈ b ∧ Daemon ∈ b.

Lemma turns_moves a b n : a ∈ b → (n ≤ 16)%nat → moves a n = true → (n < turns b n)%nat.
Proof.
  intros (b1 & b2 & ->)%list_elem_of_split Hn Hm. rewrite turns_app. simpl.
  pose proof (turns_bounds b1 n Hn) as [H1 H2].
  pose proof (next_bounds a _ H2) as H3.
  pose proof (turns_bounds b2 (next a (turns b1 n)) ltac:(lia)) as H4.
  destruct (decide (turns b1 n = n)) as [Heq|]; [|lia].
  assert (next a n = S n) as Hs by (unfold next; by rewrite Hm).
  rewrite Heq in H4 |- *. lia.
Qed.

Lemma turns_round b n : round b → (n < 16)%nat → (n < turns b n)%nat.
Proof.
  intros [Hi Hd] Hn. destruct (moves Installer n) eqn:Hm.
  - apply (turns_moves Installer); [done|lia|done].
  - apply (turns_moves Daemon); [done|lia|]. revert Hm. unfold moves.
    destruct (Nat.ltb_spec n 3), (Nat.leb_spec 11 n), (Nat.ltb_spec n 16),
      (Nat.leb_spec 3 n), (Nat.ltb_spec n 11); simpl; intros ?; first [done|lia].
Qed.

Lemma turns_rounds bs n :
  Forall round bs → (n ≤ 16)%nat → (Nat.min 16 (n + length bs) ≤ turns (concat bs) n)%nat.
Proof.
  intros Hb. revert n. induction Hb as [|b bs Hb _ IH]; intros n Hn; [cbn [concat turns length]; lia|].
  cbn [concat length]. rewrite turns_app.
  pose proof (turns_bounds b n Hn) as Hb1. specialize (IH (turns b n) ltac:(lia)).
  pose proof (turns_bounds (concat bs) (turns b n) ltac:(lia)) as Hb2. destruct (decide (n = 16%nat)); [lia|].
  pose proof (turns_round b n Hb ltac:(lia)). lia.
Qed.

Lemma phase_exit p k rs n s :
  (n ≤ 16)%nat → phase (Some (p, IWaitDone)) p k rs n s →
  exit_code s = (if (n =? 16)%nat then Some (if (manager p k).1 =? 0 then 0 else 47) else None).
Proof.
  intros Hn Hph. unfold exit_code.
  destruct n as [|[|[|[|[|[|[|[|[|[|[|[|[|[|[|[|[|?]]]]]]]]]]]]]]]]]; [..|lia]; destruct Hph as (-> & _); reflexivity.
Qed.

Lemma start_phase p s :
  idle s → phase (Some (p, IWaitDone)) p (system s) (runs s) 0 (exec (Start p) s).
Proof.
  intros (i & (Hi & Hd & ? & ? & ? & ? & _) & Hx). unfold exec. rewrite Hi.
  assert (phase (Some (p, IWaitDone)) p (system s) (runs s) 0
            (set_installer (Some (p, IOpenPath)) (files s) s)) as Hs by done.
  destruct i as [[q []]|]; done.
Qed.

(** One update, in every interleaving of the two processes. *)
Lemma handed_over s p l :
  clean_name p → is_exit_code (manager p (system s)).1 → idle s → Forall process l →
  let s' := run_all l (exec (Start p) s) in
  (∀ c, exit_code s' = Some c →
     c = (if (manager p (system s)).1 =? 0 then 0 else 47) ∧ idle s' ∧
     system s' = (manager p (system s)).2 ∧ runs s' = runs s ++ [p]) ∧
  (∀ bs, l = concat bs → Forall round bs → (16 ≤ length bs)%nat → is_Some (exit_code s')).
Proof.
  intros Hp Hc Hidle Hl s'. pose proof (start_phase p s Hidle) as H0.
  apply (run_phase l) in H0; [|done..|lia|done]. fold s' in H0.
  pose proof (turns_bounds l 0 ltac:(lia)) as Hb.
  pose proof (phase_exit _ _ _ _ _ (proj2 Hb) H0) as He. split.
  - intros c Hx. rewrite He in Hx. destruct (Nat.eqb_spec (turns l 0) 16) as [Heq|]; [|done].
    rewrite Heq in H0. destruct H0 as (Hi & Hd & Hfp & Hdo & Hdn & Hrc & Hs & Hr).
    split_and!; [by simplify_eq| |done|done].
    exists (installer s'). rewrite Hi at 2. split; [by split_and!|done].
  - intros bs -> Hbs Hlen. pose proof (turns_rounds bs 0 Hbs ltac:(lia)) as Ht.
    rewrite He. replace (turns (concat bs) 0) with 16%nat by lia. by eexists.
Qed.

(** The daemon alone, from the request to the answer. *)
Lemma daemon_answers w p k rs m n s :
  clean_name p → (3 ≤ n)%nat → (n + m = 11)%nat → phase w p k rs n s →
  phase w p k rs 11 (run_all (replicate m Daemon) s).
Proof.
  intros Hp. revert n s. induction m as [|m IH]; intros n s Hn Hm H3.
  - by replace 11%nat with n by lia.
  - simpl. unfold flip. apply (IH (S n)); [lia|lia|].
    apply phase_daemon in H3; [|done|lia].
    assert (next Daemon n = S n) as <-; [|done]. unfold next, moves.
    by rewrite (proj2 (Nat.leb_le 3 n)), (proj2 (Nat.ltb_lt n 11)) by lia.
Qed.

(** The steps of an installer that finds the answer to an earlier request. *)
Definition stale_phase (p : cstring) (c : Z) (k : K) (rs : list cstring) (n : nat)
  : state K → Prop :=
  let I pc := Some (p, pc) in
  let line := Some (printf_line p) in
  let code := Some (printf_line (str_int c)) in
  let new := Some ([] : cstring) in
  match n with
  | 0%nat => at_ (I IOpenPath) DWaitDo None None new code k rs
  | 1%nat => at_ (I IWritePath) DWaitDo new None new code k rs
  | 2%nat => at_ (I ITouchDo) DWaitDo line None new code k rs
  | 3%nat => at_ (I IWaitDone) DWaitDo line new new code k rs
  | 4%nat => at_ (I IRmDone) DWaitDo line new new code k rs
  | 5%nat => at_ (I IReadRc) DWaitDo line new None code k rs
  | 6%nat => at_ (I (IRmRc (str_int c))) DWaitDo line new None code k rs
  | 7%nat => at_ (I (ITestRc (str_int c))) DWaitDo line new None None k rs
  | _ => at_ (I (IExit (if c =? 0 then 0 else 47))) DWaitDo line new None None k rs
  end.

Lemma stale_step p c k rs n s :
  is_exit_code c → stale_phase p c k rs n s → stale_phase p c k rs (S n) (exec Installer s).
Proof.
  intros Hc. destruct (exit_code_text _ Hc) as [Ht Hz].
  destruct n as [|[|[|[|[|[|[|[|n]]]]]]]]; unfold stale_phase; at_step.
  - by rewrite Ht.
  - rewrite Hz. by destruct (_ =? 0).
Qed.

Lemma stale_run p c k rs m n s :
  is_exit_code c → stale_phase p c k rs n s →
  stale_phase p c k rs (m + n) (run_all (replicate m Installer) s).
Proof.
  intros Hc. revert n s. induction m as [|m IH]; intros n s Hs; [done|].
  simpl replicate. cbn [run_all foldl]. unfold flip.
  replace (S m + n)%nat with (m + S n)%nat by lia. apply IH. by apply stale_step.
Qed.
End same_directory.

Lemma run_all_app l1 l2 s : run_all (l1 ++ l2) s = run_all l2 (run_all l1 s).
Proof. apply foldl_app. Qed.

(** ** The properties *)

(** C14: an installer that is started in a clean directory: in every interleaving
    with the daemon, it exits only after the daemon ran the update manager
    once, with its archive, and its exit code is 0 exactly when the manager's
    was; the directory is clean again for the next update. It does exit: after
    sixteen rounds in which both processes had a step. *)
Theorem update_is_handed_over s p l :
  UPDATE_PAYLOAD_DIR = "/scratch" → clean_name p → is_exit_code (manager p (system s)).1 →
  idle s → Forall process l →
  let s' := run_all l (exec (Start p) s) in
  (∀ c, exit_code s' = Some c →
     c = (if (manager p (system s)).1 =? 0 then 0 else 47) ∧ idle s' ∧
     system s' = (manager p (system s)).2 ∧ runs s' = runs s ++ [p]) ∧
  (∀ bs, l = concat bs → Forall round bs → (16 ≤ length bs)%nat → is_Some (exit_code s')).
Proof.
  intros Hdir. apply handed_over. intros n. unfold inst, scratch. by rewrite Hdir.
Qed.

(** An installer that is at the wait, or before it. *)
Definition waiting (pc : installer_pc) : bool :=
  match pc with IOpenPath | IWritePath | ITouchDo | IWaitDone => true | _ => false end.

(** Built with the default directory, which is not the one the daemon
    polls, the installer never exits, and the manager is never run for it. *)
Theorem default_directories_never_meet s p l :
  UPDATE_PAYLOAD_DIR = "/tmp" → idle s → files s !! inst "done_app_update" = None →
  Forall process l →
  exit_code (run_all l (exec (Start p) s)) = None ∧
  runs (run_all l (exec (Start p) s)) = runs s.
Proof.
  intros Hdir (i & (Hi & Hd & _ & Hdo & _) & Hx) Hdone Hl.
  assert (∀ a b : cstring, inst a ≠ scratch b) as Hne.
  { intros a b. unfold inst, scratch. by rewrite Hdir. }
  assert (inst "firmware_path" ≠ inst "done_app_update" ∧
          inst "do_app_update" ≠ inst "done_app_update") as [Hn1 Hn2].
  { unfold inst. by rewrite Hdir. }
  set (P := λ s' : state K, ∃ q pc, installer s' = Some (q, pc) ∧ waiting pc = true ∧ daemon s' = DWaitDo ∧
    files s' !! scratch "do_app_update" = None ∧ files s' !! inst "done_app_update" = None ∧
    runs s' = runs s).
  assert (P (run_all l (exec (Start p) s))) as (q & pc & Hi' & Hw & _ & _ & _ & Hr).
  { assert (P (exec (Start p) s)) as H0.
    { unfold exec. rewrite Hi. assert (P (set_installer (Some (p, IOpenPath)) (files s) s)) as Hs.
      { by exists p, IOpenPath. }
      destruct i as [[? []]|]; done. }
    revert H0. generalize (exec (Start p) s). induction Hl as [|a l Ha _ IH]; intros s1 H1; [done|].
    simpl. unfold flip. apply IH. destruct H1 as (q & pc & Hi1 & Hw & Hd1 & Hdo1 & Hdn1 & Hr1).
    destruct Ha as [->| ->]; unfold exec.
    - rewrite Hi1. exists q.
      destruct pc; try done; cbn -[printf_line] in *; unfold exists_file, touch; rewrite ?Hdn1;
        eexists; (split; [reflexivity|]); repeat case_match; split_and!; try done;
        cbn -[printf_line]; by rewrite ?lookup_insert_ne by done.
    - rewrite Hd1. cbn in *. unfold exists_file. rewrite Hdo1. by exists q, pc. }
  split; [|done]. unfold exit_code. rewrite Hi'. by destruct pc.
Qed.

(** C37: an answer that nobody waited for is taken for the next one's: when the
    installer is killed while the daemon works, the next installer exits with
    the result of the first update, and the second archive was not installed. *)
Theorem stale_answer_is_believed s p q :
  UPDATE_PAYLOAD_DIR = "/scratch" → clean_name p → is_exit_code (manager p (system s)).1 →
  idle s →
  let l := Start p :: replicate 3 Installer ++ [Kill] ++ replicate 8 Daemon ++
           [Start q] ++ replicate 8 Installer in
  exit_code (run_all l s) = Some (if (manager p (system s)).1 =? 0 then 0 else 47) ∧
  runs (run_all l s) = runs s ++ [p].
Proof.
  intros Hdir Hp Hc Hidle l.
  assert (Hsame : ∀ n : cstring, inst n = scratch n).
  { intros n. unfold inst, scratch. by rewrite Hdir. }
  pose proof (start_phase p s Hidle) as H0.
  apply (run_phase Hsame (replicate 3 Installer)) in H0; [|done|done|lia|repeat constructor; by left].
  change (turns (replicate 3 Installer) 0) with 3%nat in H0.
  unfold l. change (Start p :: ?x) with ([Start p] ++ x). rewrite !run_all_app.
  set (s3 := run_all (replicate 3 Installer) _) in *.
  assert (phase None p (system s) (runs s) 3 (run_all [Kill] s3)) as H3.
  { destruct H0 as (_ & ? & ? & ? & ? & ? & ? & ?). by repeat split. }
  apply (daemon_answers None p _ _ 8 3) in H3; [|done|lia|done].
  set (s11 := run_all (replicate 8 Daemon) _) in *.
  assert (stale_phase q (manager p (system s)).1 (manager p (system s)).2 (runs s ++ [p]) 0
            (run_all [Start q] s11)) as H4.
  { destruct H3 as (Hi & ? & ? & ? & ? & ? & ? & ?). unfold run_all; simpl. unfold flip, exec.
    rewrite Hi. by repeat split. }
  apply (stale_run Hsame _ _ _ _ 8) in H4; [|done].
  destruct H4 as (Hi & _ & _ & _ & _ & _ & _ & Hr). unfold exit_code. by rewrite Hi, Hr.
Qed.

(** A request that was left, by a loss of power or by an installer that was
    killed, is taken up by the daemon, which then leaves an answer that nobody
    waits for. *)
Theorem left_request_is_taken_up s p :
  UPDATE_PAYLOAD_DIR = "/scratch" → clean_name p →
  at_ None DWaitDo (Some (printf_line p)) (Some []) None None (system s) (runs s) s →
  let s' := run_all (replicate 8 Daemon) s in
  runs s' = runs s ++ [p] ∧ system s' = (manager p (system s)).2 ∧
  files s' !! scratch "done_app_update" = Some [].
Proof.
  intros Hdir Hp Hs s'. assert (Hsame : ∀ n : cstring, inst n = scratch n).
  { intros n. unfold inst, scratch. by rewrite Hdir. }
  pose proof Hs as H3. apply (daemon_answers None p _ _ 8 3) in H3; [|done|lia|done].
  by destruct H3 as (_ & _ & _ & _ & ? & _ & ? & ?).
Qed.

(** An answer without a result counts as a success. *)
Theorem missing_result_is_success s p :
  UPDATE_PAYLOAD_DIR = "/scratch" → installer s = Some (p, IWaitDone) →
  is_Some (files s !! scratch "done_app_update") → files s !! scratch "app_update_rc" = None →
  exit_code (run_all (replicate 5 Installer) s) = Some 0.
Proof.
  intros Hdir Hi [x Hx] Hrc. assert (Hsame : ∀ n : cstring, inst n = scratch n).
  { intros n. unfold inst, scratch. by rewrite Hdir. }
  assert (scratch "done_app_update" ≠ scratch "app_update_rc") as Hne by done.
  simpl replicate. cbn [run_all foldl]. unfold flip. unfold exec at 5. rewrite Hi.
  cbn [update_apps_or_die]. unfold exists_file. rewrite Hsame, Hx. cbn [installer set_installer].
  unfold exec at 4. cbn [installer set_installer update_apps_or_die files].
  unfold exec at 3. cbn [installer set_installer update_apps_or_die files]. unfold cat.
  rewrite !Hsame, lookup_delete_ne, Hrc by done. reflexivity.
Qed.
End handshake.
