(* ===== verification/AppHandshakeProps.v ===== *)
(** * The hand-over with mbl-app-update-manager

    The daemon of [AppHandshake] runs the program of [AppUpdate]: what the exit
    code of [apps_installer.sh] says about the applications, and the properties
    of the hand-over at a concrete system. *)

From stdpp Require Import base gmap strings list.
From Stdlib Require Import ZArith Ascii Lia.
From S2P Require Import Prelude.
From S2P Require Import Py.
From S2P Require Import AppLifecycle.
From S2P Require Import AppVersions.
From S2P Require Import AppManager.
From S2P Require Import AppUpdate.
From S2P Require Import AppDevice.
From S2P Require Import Shell.
From S2P Require Import AppHandshake.

Open Scope Z_scope.
Open Scope list_scope.

(** ** The update manager behind the daemon *)

Section app_update.
Context {K : Type} `{System K} `{Tar K}.

(** The process mbl-app-update-manager: its exit code and what it leaves. *)
Definition mbl_app_update_manager (pkg : cstring) (h : host K) : Z * host K :=
  match _main (new_manager pkg h) with
  | Ret c m => (c, the_host m)
  | Raise _ m => (1, the_host m)
  end.

Lemma manager_exit_code pkg h :
  (mbl_app_update_manager pkg h).1 =
  match run_mbl_app_update_manager (new_manager pkg h) with Ret _ _ => 0 | Raise _ _ => 1 end.
Proof.
  unfold mbl_app_update_manager, _main, try_else.
  destruct (run_mbl_app_update_manager _) as [[] m|e m]; [done|].
  by destruct (isinstance _ _).
Qed.

(** the installer exits with 0 only when mbl-app-update-manager unpacked,
    installed and started the applications of its archive without an error, and
    leaves the host as the manager left it. *)
Theorem apps_installer_result (s : state (host K)) p l :
  clean_name p → idle s → Forall process l →
  let s' := run_all mbl_app_update_manager "/scratch" l (exec mbl_app_update_manager "/scratch" (Start p) s) in
  exit_code s' = Some 0 →
  ∃ m, run_mbl_app_update_manager (new_manager p (system s)) = Ret tt m ∧ system s' = the_host m.
Proof.
  intros Hp Hidle Hl s' Hx.
  assert (is_exit_code (mbl_app_update_manager p (system s)).1) as Hc.
  { rewrite manager_exit_code. unfold is_exit_code. by destruct (run_mbl_app_update_manager _). }
  destruct (handed_over mbl_app_update_manager "/scratch" (λ _, eq_refl) s p l Hp Hc Hidle Hl) as [Hr _].
  destruct (Hr 0 Hx) as (Hz & _ & Hs & _). rewrite manager_exit_code in Hz. fold s' in Hs.
  unfold mbl_app_update_manager, _main, try_else in Hs.
  destruct (run_mbl_app_update_manager _) as [[] m|e m]; [|done]. by exists m.
Qed.
End app_update.

(** ** The properties at a concrete system *)

Definition sixteen_rounds : list (list action) := replicate 16 [Installer; Daemon].

Lemma rounds_round : Forall round sixteen_rounds.
Proof. apply Forall_replicate. split; [by left|by right; left]. Qed.

Lemma rounds_process : Forall process (concat sixteen_rounds).
Proof.
  cbn. repeat (apply Forall_cons; split; [first [by left|by right]|]). by apply Forall_nil.
Qed.

Definition counter : cstring → nat → Z * nat := λ _ n, (0, S n).
Definition nothing_yet : state nat :=
  {| files := ∅; installer := None; daemon := DWaitDo; system := 0%nat; runs := [] |}.

Lemma nothing_yet_idle : idle nothing_yet.
Proof. exists None. by repeat split. Qed.

Definition apps_tar : cstring := "/scratch/apps.tar".

Lemma update_is_handed_over_witness :
  exit_code (run_all counter "/scratch" (concat sixteen_rounds)
               (exec counter "/scratch" (Start apps_tar) nothing_yet)) = Some 0.
Proof.
  destruct (update_is_handed_over counter "/scratch" nothing_yet apps_tar (concat sixteen_rounds)
              eq_refl) as [Hr Hl];
    [done|by vm_compute|exact nothing_yet_idle|exact rounds_process|].
  destruct (Hl _ eq_refl rounds_round) as [c Hc]; [simpl; lia|].
  rewrite Hc. f_equal. apply (Hr c Hc).
Defined.

Lemma default_directories_never_meet_witness :
  exit_code (run_all counter "/tmp" (concat sixteen_rounds)
               (exec counter "/tmp" (Start apps_tar) nothing_yet)) = None ∧
  runs (run_all counter "/tmp" (concat sixteen_rounds)
          (exec counter "/tmp" (Start apps_tar) nothing_yet)) = [].
Proof.
  apply (default_directories_never_meet counter "/tmp" nothing_yet apps_tar _ eq_refl
           nothing_yet_idle eq_refl rounds_process).
Defined.

Definition other_tar : cstring := "/scratch/other.tar".

Lemma stale_answer_is_believed_witness :
  exit_code (run_all counter "/scratch"
    (Start apps_tar :: replicate 3 Installer ++ [Kill] ++ replicate 8 Daemon ++
     [Start other_tar] ++ replicate 8 Installer) nothing_yet) = Some 0 ∧
  runs (run_all counter "/scratch"
    (Start apps_tar :: replicate 3 Installer ++ [Kill] ++ replicate 8 Daemon ++
     [Start other_tar] ++ replicate 8 Installer) nothing_yet) = [apps_tar].
Proof.
  apply (stale_answer_is_believed counter "/scratch" nothing_yet apps_tar other_tar eq_refl);
    [done|by vm_compute|exact nothing_yet_idle].
Defined.

(** The device of [AppDevice], before its update. *)
Definition device_idle : state (host device) :=
  {| files := ∅; installer := None; daemon := DWaitDo;
     system := the_host (start_of (device_with [] [])); runs := [] |}.

Definition update_tar : cstring := "/scratch/update.tar".

Lemma apps_installer_result_witness :
  ∃ m, run_mbl_app_update_manager (start_of (device_with [] [])) = Ret tt m ∧
       system (run_all mbl_app_update_manager "/scratch" (concat sixteen_rounds)
         (exec mbl_app_update_manager "/scratch" (Start update_tar) device_idle)) = the_host m.
Proof.
  apply (apps_installer_result device_idle update_tar (concat sixteen_rounds));
    [done|exists None; by repeat split|exact rounds_process|vm_compute; reflexivity].
Defined.
