(* ===== verification/AppSystem.v ===== *)
(** * The applications of a device, over its whole life

    Everything that changes the applications, as one machine: the steps of
    [apps_installer.sh] and of mbl-app-update-manager-daemon in any order, with
    the whole of mbl-app-update-manager as the step that runs it, losses of
    power between any two commands of it or in the middle of one, and the boot
    that follows, which may lose its power too. The files of the hand-over
    survive or not: nothing is assumed of them, so an update that a loss of power
    interrupted may be taken up again, started twice, or forgotten. *)

From stdpp Require Import base gmap strings sets list.
From Stdlib Require Import ZArith Ascii Lia.
From S2P Require Import Prelude.
From S2P Require Import Py.
From S2P Require Import AppLifecycle.
From S2P Require Import AppVersions.
From S2P Require Import AppLifecycleProps.
From S2P Require Import AppManager.
From S2P Require Import AppUpdate.
From S2P Require Import AppUpdateProps.
From S2P Require Import AppBoot.
From S2P Require Import AppInstall.
From S2P Require Import AppSurvive.
From S2P Require Import AppReboot.
From S2P Require Import AppHandshake.
From S2P Require Import AppHandshakeProps.

Open Scope Z_scope.
Open Scope list_scope.

(** The states of a device from [h] to [h']: what each command found, what a loss
    of power while it ran would have left, and the last. *)
Definition during {K} `{PowerLoss K} (h h' : host K) (k : K) : Prop :=
  ∃ l, commands h' = commands h ++ l ∧
    (k = sys h' ∨ ∃ ck, ck ∈ l ∧ (k = ck.2 ∨ midway ck.1 ck.2 k)).

Lemma always_during {K} `{PowerLoss K} (G : K → Prop) (h h' : host K) k :
  always (commands h) G h' → during h h' k → G k.
Proof.
  intros (l & Hc & Hl & Hs) (l' & Hc' & Hk). rewrite Hc in Hc'. apply app_inv_head in Hc' as <-.
  destruct Hk as [->|(ck & Hin & Hk)]; [done|]. rewrite Forall_forall in Hl.
  destruct (Hl ck Hin) as [Hg Hm]. by destruct Hk as [->|Hk]; [|apply Hm].
Qed.

Section system.
Context {K : Type} `{BundleLaws K} `{!AppsRoot K} (UPDATE_PAYLOAD_DIR : cstring).
Implicit Types (x : state (host K)) (k : K).

(** The applications of a device, and the processes that change them. *)
Definition disk x : K := sys (system x).

(** The power comes back: no process is left of those that ran, and the boot
    runs the applications. [x'] is a state of the boot, the last one or one that
    a command of it found. *)
Definition boots_into k x' : Prop :=
  installer x' = None ∧ daemon x' = DWaitDo ∧
  ∃ k0 cs, let h := {| sys := k0; commands := cs |} in
    reboot k k0 ∧ during h (pstate (run_all_action h)) (disk x').

Inductive life_event :=
| Process (a : action)       (** a step of the hand-over *)
| Elsewhere                  (** something else, which is not an application *)
| Boot                       (** a boot, or a part of it *)
| CutAndBoot.                (** the power goes while the update manager runs *)

Inductive life_step : state (host K) → life_event → state (host K) → Prop :=
| ls_process a x :
    (∀ p, a = Daemon → daemon x = DRunManager p → payload_ok p (system x)) →
    life_step x (Process a) (exec mbl_app_update_manager UPDATE_PAYLOAD_DIR a x)
| ls_elsewhere x x' : reboot (disk x) (disk x') → life_step x Elsewhere x'
| ls_boot x x' : boots_into (disk x) x' → life_step x Boot x'
| ls_cut x p k x' :
    daemon x = DRunManager p → payload_ok p (system x) →
    during (system x) (mbl_app_update_manager p (system x)).2 k → boots_into k x' →
    life_step x CutAndBoot x'.

Inductive life : state (host K) → list life_event → state (host K) → Prop :=
| life_nil x : life x [] x
| life_cons x1 x2 x3 e es : life_step x1 e x2 → life x2 es x3 → life x1 (e :: es) x3.

(** ** One step *)

Lemma manager_host pkg (h : host K) :
  (mbl_app_update_manager pkg h).2 = the_host (pstate (run_mbl_app_update_manager (new_manager pkg h))).
Proof.
  unfold mbl_app_update_manager, _main, try_else.
  destruct (run_mbl_app_update_manager _) as [[] m|e m]; [done|]. by destruct (isinstance e _).
Qed.

Lemma lives_refl k : coherent k → lives (has_version k) k.
Proof. intros Hc. split; [done|]. intros n v Hv. exists v. split; [lia|done]. Qed.

Lemma lives_trans k1 k2 k3 :
  lives (has_version k1) k2 → lives (has_version k2) k3 → lives (has_version k1) k3.
Proof.
  intros [_ H12] [Hc H23]. split; [done|]. intros n v Hv.
  destruct (H12 n v Hv) as (w & Hvw & Hw). destruct (H23 n w Hw) as (u & Hwu & Hu).
  exists u. split; [lia|done].
Qed.

Lemma lives_alive k k' : lives (has_version k) k' → alive (present k) k'.
Proof.
  intros [Hc Hl]. split; [done|]. intros n [v Hv]. destruct (Hl n v Hv) as (w & _ & Hw). by exists w.
Qed.

Lemma alive_trans k1 k2 k3 : alive (present k1) k2 → alive (present k2) k3 → alive (present k1) k3.
Proof. intros [_ H12] [Hc H23]. split; [done|]. intros n Hn. by apply H23, H12. Qed.

Lemma reboot_lives k k' : reboot k k' → lives (has_version k) k'.
Proof. intros (Hc & Hk & _). split; [done|]. intros n v Hv. exists v. split; [lia|by apply Hk]. Qed.

Lemma manager_lives p (h : host K) :
  coherent (sys h) → payload_ok p h →
  always (commands h) (lives (has_version (sys h))) (mbl_app_update_manager p h).2.
Proof. intros. rewrite manager_host. by apply update_lives. Qed.

(** A step of the hand-over: only the run of the manager changes the disk. *)
Lemma exec_lives a x :
  (∀ p, a = Daemon → daemon x = DRunManager p → payload_ok p (system x)) →
  coherent (disk x) →
  lives (has_version (disk x)) (disk (exec mbl_app_update_manager UPDATE_PAYLOAD_DIR a x)).
Proof.
  intros Hok Hc. pose proof (lives_refl _ Hc) as Hsame. unfold disk in *.
  destruct a as [| |q|]; cbn [exec].
  - destruct (installer x) as [[q pc]|]; [|done]. by destruct (update_apps_or_die _ _ _ _).
  - destruct (daemon x) as [| | |p|c|c| |] eqn:Hd; cbn [update_apps]; try done.
    pose proof (always_now _ _ _ (manager_lives p (system x) Hc (Hok p eq_refl eq_refl))) as Hl.
    by destruct (mbl_app_update_manager p (system x)) as [c h].
  - destruct (installer x) as [[q' []]|]; done.
  - done.
Qed.

Lemma boots_into_alive k x' : coherent k → boots_into k x' → alive (present k) (disk x').
Proof.
  intros Hc (_ & _ & k0 & cs & Hr & Hd). pose proof (reboot_lives _ _ Hr) as Hl.
  apply (alive_trans _ k0); [by apply lives_alive|].
  set (h := {| sys := k0; commands := cs |}) in *.
  pose proof (wp_boot_apps (present k0) (commands h) h) as Hw. unfold pwp in Hw.
  refine (always_during _ _ _ _ _ Hd).
  destruct (run_all_action h) as [[] h'|e h']; apply Hw; try done;
    by apply always_start; split; [apply Hr|].
Qed.

Definition loses_power (e : life_event) : Prop :=
  match e with Boot | CutAndBoot => True | _ => False end.

Lemma life_step_alive x e x' :
  life_step x e x' → coherent (disk x) →
  alive (present (disk x)) (disk x') ∧ (¬ loses_power e → lives (has_version (disk x)) (disk x')).
Proof.
  intros Hs Hc. destruct Hs as [a x Hok|x x' Hr|x x' Hb|x p k x' Hd Hok Hk Hb].
  - pose proof (exec_lives a x Hok Hc) as Hl. split; [by apply lives_alive|done].
  - apply reboot_lives in Hr. split; [by apply lives_alive|done].
  - split; [by apply boots_into_alive|]. by intros [].
  - pose proof (always_during _ _ _ _ (manager_lives p _ Hc Hok) Hk) as Hl.
    split; [|by intros []]. apply (alive_trans _ k); [by apply lives_alive|].
    apply boots_into_alive; [apply Hl|done].
Qed.

Lemma life_alive x es x' :
  life x es x' → coherent (disk x) →
  alive (present (disk x)) (disk x') ∧
  (Forall (λ e, ¬ loses_power e) es → lives (has_version (disk x)) (disk x')).
Proof.
  induction 1 as [x|x1 x2 x3 e es Hs _ IH]; intros Hc.
  - pose proof (lives_refl _ Hc) as Hl. split; [by apply lives_alive|done].
  - destruct (life_step_alive _ _ _ Hs Hc) as [Ha Hl]. destruct (IH (proj1 Ha)) as [Ha2 Hl2].
    split; [by eapply alive_trans|]. intros [He Hes]%Forall_cons.
    apply (lives_trans _ (disk x2)); auto.
Qed.

(** ** When every bundle can be read *)

Section legible.
Context `{!WholeInstalls K}.

Definition legible_root : @AppsRoot K _ _ _ _ _ legible_tree.
Proof using Type*.
  split.
  - intros k n vs [Hc _]. by apply distinct_versions.
  - intros k nd w n [Hc _]. by apply apps_named.
  - intros k nd w n [Hc _]. by apply apps_listed.
Defined.

Lemma boots_into_legible k x' : coherent k → legible k → boots_into k x' → legible (disk x').
Proof using Type*.
  intros Hc Hk (_ & _ & k0 & cs & Hr & Hd).
  assert (coherent k0 ∧ legible k0) as Hk0 by (split; [apply Hr|intros n; by apply Hr, Hk]).
  set (h := {| sys := k0; commands := cs |}) in *.
  pose proof (@wp_boot_apps K _ _ _ _ _ legible_tree legible_root (λ _, False) (commands h) h) as Hw.
  unfold pwp in Hw. refine (always_during legible _ _ _ _ Hd).
  assert (always (commands h) (@alive K _ _ _ _ _ legible_tree (λ _, False)) h) as Hs
    by (apply always_start; by split).
  assert (∀ h', always (commands h) (@alive K _ _ _ _ _ legible_tree (λ _, False)) h' →
    always (commands h) legible h') as Hl by (intros h'; apply always_mono; by intros k1 [[_ ?] _]).
  specialize (Hw Hs ltac:(done)). destruct (run_all_action h) as [[] h'|e h']; apply Hl; [apply Hw|done].
Qed.

Lemma manager_legible p (h : host K) :
  coherent (sys h) → legible (sys h) → payload_ok p h →
  always (commands h) legible (mbl_app_update_manager p h).2.
Proof using Type*. intros. rewrite manager_host. by apply update_legible. Qed.

Lemma life_step_legible x e x' : life_step x e x' → coherent (disk x) → legible (disk x) → legible (disk x').
Proof using Type*.
  intros Hs Hc Hl. destruct Hs as [a x Hok|x x' Hr|x x' Hb|x p k x' Hd Hok Hk Hb].
  - unfold disk in *. destruct a as [| |q|]; cbn [exec].
    + destruct (installer x) as [[q pc]|]; [|done]. by destruct (update_apps_or_die _ _ _ _).
    + destruct (daemon x) as [| | |p|c|c| |] eqn:Hd; cbn [update_apps]; try done.
      pose proof (always_now _ _ _ (manager_legible p (system x) Hc Hl (Hok p eq_refl eq_refl))) as Hn.
      by destruct (mbl_app_update_manager p (system x)) as [c h].
    + destruct (installer x) as [[q' []]|]; done.
    + done.
  - intros n. by apply Hr, Hl.
  - by eapply boots_into_legible.
  - pose proof (always_during _ _ _ _ (manager_lives p _ Hc Hok) Hk) as [Hck _].
    pose proof (always_during _ _ _ _ (manager_legible p _ Hc Hl Hok) Hk) as Hlk.
    by eapply boots_into_legible.
Qed.

Lemma life_legible x es x' : life x es x' → coherent (disk x) → legible (disk x) → legible (disk x').
Proof using Type*.
  induction 1 as [x|x1 x2 x3 e es Hs _ IH]; intros Hc Hl; [done|].
  apply IH; [|by eapply life_step_legible]. destruct (life_step_alive _ _ _ Hs Hc) as [[Hc2 _] _]. exact Hc2.
Qed.
End legible.

(** ** From one disk to a later one *)

(** The applications stay, without a loss of power, and with one. *)
Definition stays_on k k' : Prop := lives (has_version k) k' ∧ (WholeInstalls K → legible k → legible k').
Definition comes_back k k' : Prop := alive (present k) k' ∧ (WholeInstalls K → legible k → legible k').

Lemma stays_coherent k k' : stays_on k k' → coherent k'.
Proof. intros [Hl _]. apply Hl. Qed.

Lemma stays_refl k : coherent k → stays_on k k.
Proof. intros Hc. split; [by apply lives_refl|done]. Qed.

Lemma stays_trans k1 k2 k3 : stays_on k1 k2 → stays_on k2 k3 → stays_on k1 k3.
Proof. intros [L1 R1] [L2 R2]. split; [by apply (lives_trans _ k2)|auto]. Qed.

Lemma stays_back k1 k2 k3 : stays_on k1 k2 → comes_back k2 k3 → comes_back k1 k3.
Proof. intros [L1 R1] [L2 R2]. split; [apply (alive_trans _ k2); [by apply lives_alive|done]|auto]. Qed.

Lemma back_trans k1 k2 k3 : comes_back k1 k2 → comes_back k2 k3 → comes_back k1 k3.
Proof. intros [L1 R1] [L2 R2]. split; [by apply (alive_trans _ k2)|auto]. Qed.

Lemma back_refl k : coherent k → comes_back k k.
Proof. intros Hc. split; [by apply lives_alive, lives_refl|done]. Qed.

Lemma reboot_stays k k' : reboot k k' → stays_on k k'.
Proof. intros Hr. split; [by apply reboot_lives|]. intros _ Hl n. by apply Hr, Hl. Qed.

Lemma boots_into_back k x' : coherent k → boots_into k x' → comes_back k (disk x').
Proof. intros Hc Hb. split; [by apply boots_into_alive|]. intros ? Hl. by eapply boots_into_legible. Qed.

Lemma life_stays x es x' :
  coherent (disk x) → Forall (λ e, ¬ loses_power e) es → life x es x' → stays_on (disk x) (disk x').
Proof.
  intros Hc Hes Hl. split; [by apply (life_alive _ _ _ Hl Hc)|]. intros ? Hleg. by eapply life_legible.
Qed.

(** Where the power can go while the update manager runs. *)
Lemma manager_stays p (h : host K) k :
  coherent (sys h) → payload_ok p h → during h (mbl_app_update_manager p h).2 k → stays_on (sys h) k.
Proof.
  intros Hc Hok Hk. split; [exact (always_during _ _ _ _ (manager_lives p _ Hc Hok) Hk)|].
  intros ? Hl. exact (always_during _ _ _ _ (manager_legible p _ Hc Hl Hok) Hk).
Qed.

(** C9: no application is ever lost. Whatever the installers, the daemon and the
    update manager do, in any order, however often they are killed and the power
    goes, between two commands or in the middle of one, in an update or in a boot:
    each application that the device had has a version. The next boot, when it
    comes to the application and no bundle of it has an incomplete [config.json],
    finds that version, and creates and starts a container of the lowest one
    before it removes any. No bundle has, if none had before and opkg leaves none
    when it fails or loses its power. As long as the power stays, the application
    has a version that is not below any it had. (The laws of opkg and of the
    directories are those of [TreeLaws]; the archives have distinct, well-formed
    applications.) *)
Theorem applications_survive x es x' n v :
  coherent (disk x) → life x es x' → has_version (disk x) n v →
  (∃ w, has_version (disk x') n w) ∧
  (∀ k, reboot (disk x') k → readable n k → boots n k) ∧
  (WholeInstalls K → legible (disk x) → legible (disk x')) ∧
  (Forall (λ e, ¬ loses_power e) es → ∃ w, v ≤ w ∧ has_version (disk x') n w).
Proof.
  intros Hc Hl Hv. destruct (life_alive _ _ _ Hl Hc) as [[Hc' Ha] Hlv].
  destruct (Ha n) as [w Hw]; [by exists v|]. split_and!; [by exists w| | |].
  - intros k. by apply (reboot_boots _ k n w).
  - intros Hwi Hleg. by eapply life_legible.
  - intros Hes. by apply Hlv.
Qed.
End system.
