(* ===== verification/UpdateScripts.v ===== *)
(** * The update scripts

    [cloud-services/mbl-cloud-client/scripts]: [arm_update_activate.sh], which
    the cloud client and the firmware manager call with an update package,
    [swupdate_handlers.lua], through which swupdate calls the installers of the
    components, [bootloader_installer.sh], [boot_partition_installer.sh], and
    [arm_update_active_details.sh], which reports the header of the last update.
    The root file system is installed by the C handler of [Swupdate], the
    applications by the hand-over of [AppHandshake].

    The scripts run on a device: the [world] of the C programs, and a part [X]
    that only the installer of the applications changes. A command that is not
    the shell's own is a parameter: [run] gives its exit status, its output and
    what it does to the device. Every command is also kept in a trace. *)

From stdpp Require Import base gmap strings list.
From Stdlib Require Import ZArith Ascii Lia.
From S2P Require Import Prelude.
From S2P Require Import CString.
From S2P Require Import Posix.
From S2P Require Import Swupdate.
From S2P Require Import Shell.

Open Scope Z_scope.
Open Scope list_scope.

(** ** A shell process *)

Record sh (X : Type) := { sh_device : world * X; sh_trace : list (list cstring) }.
Arguments sh_device {X} s. Arguments sh_trace {X} s.

Definition sh_world {X} (s : sh X) : world := (sh_device s).1.

(** The programs: [argv], the standard input, and the device. *)
Class Programs (X : Type) := {
  run : list cstring → cstring → world * X → (Z * cstring) * (world * X)
}.

(** The directory of the payloads; the others are those of [Config]. *)
Class ScriptConfig := { PAYLOAD_TMP_DIR : cstring }.

Section commands.
Context {X : Type} `{Programs X}.
#[local] Abbreviation sh := (sh X).

Definition filter_out (argv : list cstring) (input : cstring) : M sh (Z * cstring) := λ s,
  let '(r, d) := run argv input (sh_device s) in
  Done r {| sh_device := d; sh_trace := sh_trace s ++ [argv] |}.

(** A command for its exit status, or in [$(...)]. *)
Definition status (argv : list cstring) : M sh Z :=
  r ← filter_out argv []; mret r.1.
Definition output (argv : list cstring) : M sh (Z * cstring) :=
  r ← filter_out argv []; mret (r.1, substituted r.2).

Definition exit {A} (code : Z) : M sh A := stop (Exited code).

(** A function in [$(...)], or a script: its own process, which [exit] ends. *)
Definition subshell {A} (otherwise : A) (m : M sh (Z * A)) : M sh (Z * A) := λ s,
  match m s with
  | Halted (Exited c) s' => Done (c, otherwise) s'
  | o => o
  end.

Definition script (m : M sh unit) : M sh Z :=
  r ← subshell tt (m;; mret (0, tt)); mret r.1.

(** [trap cleanup EXIT] *)
Definition trap_exit {A} (cleanup : M sh unit) (m : M sh A) : M sh A := λ s,
  match m s with
  | Done a s' => (cleanup;; mret a) s'
  | Halted (Exited c) s' => (cleanup;; exit c) s'
  | o => o
  end.

(** [\[ -e p \]] *)
Definition test_e (p : cstring) : M sh bool :=
  gets (λ s, bool_decide (is_Some (f_nodes (w_fs (sh_world s)) !! p))).

(** A part of swupdate, or an installer that is not a script of this file. *)
Definition on_device {A} (m : M (world * X) A) : M sh A := λ s,
  match m (sh_device s) with
  | Done a d => Done a {| sh_device := d; sh_trace := sh_trace s |}
  | Halted h d => Halted h {| sh_device := d; sh_trace := sh_trace s |}
  end.

Definition on_world {A} (m : M world A) : M sh A :=
  on_device (λ d, match m d.1 with
                  | Done a w => Done a (w, d.2)
                  | Halted h w => Halted h (w, d.2)
                  end).

(** [if ! command; then exit code; fi] *)
Definition or_exit (argv : list cstring) (code : Z) : M sh unit :=
  r ← status argv; if r =? 0 then mret tt else exit code.
End commands.

Section scripts.
Context {X : Type} `{Programs X} `{Config} `{ScriptConfig}.
#[local] Abbreviation sh := (sh X).

(** ** arm_update_common.sh *)

Definition SAVED_HEADER_PATH : cstring := path_join BOOTFLAGS_DIR "header".
Definition do_not_reboot : cstring := path_join TMP_DIR "do_not_reboot".
Definition part_info (name : cstring) : cstring := path_join PART_INFO_DIR ("MBL_" ++ name).

Definition exit_on_error (eoeStatus : Z) : M sh unit :=
  if eoeStatus =? 0 then mret tt else exit eoeStatus.

(** The device, or a message, is its output. *)
Definition get_device_for_mbl_partitions : M sh (Z * cstring) :=
  l ← output ["lsblk" : cstring; "-n" : cstring; "-o" : cstring; "MOUNTPOINT,PKNAME" : cstring];
  if negb (l.1 =? 0) then
    mret (1, "Failed to determine device file for partitions: lsblk failed" : cstring)
  else
    a ← filter_out ["awk" : cstring; "/^\/ / {print $2}" : cstring] (printf_line l.2);
    if negb (a.1 =? 0) then
      mret (1, "Failed to determine device file for partitions: couldn't find root partition in lsblk output" : cstring)
    else
      let gdmpDevicePath : cstring := "/dev/" ++ substituted a.2 in
      b ← status ["[" : cstring; "-b" : cstring; gdmpDevicePath; "]" : cstring];
      if negb (b =? 0) then
        mret (1, "Failed to determine device file for partitions: " ++ ["034"%char] ++
                 gdmpDevicePath ++ ["034"%char] ++ " is not a block device")
      else mret (0, gdmpDevicePath).

Definition remount_partition_or_die (mount_point opts : cstring) : M sh unit :=
  or_exit ["mount" : cstring; "-o" : cstring; "remount," ++ opts; mount_point] 10.

Definition validate_positive_integer_or_die (s : cstring) : M sh unit :=
  r ← filter_out ["grep" : cstring; "-q" : cstring; "^[0-9]\+$" : cstring] (printf_line s);
  if r.1 =? 0 then mret tt else exit 11.

Definition copy_dir_or_die (source_path mnt_point : cstring) : M sh unit :=
  remount_partition_or_die mnt_point "rw";;
  or_exit ["rm" : cstring; "-f" : cstring; mnt_point ++ "/*" : cstring] 12;;
  or_exit ["cp" : cstring; "-f" : cstring; source_path ++ "/*" : cstring; mnt_point] 13;;
  remount_partition_or_die mnt_point "ro".

Definition decompress_or_die (compressed_path decompressed_path : cstring) : M sh unit :=
  or_exit ["xzcat" : cstring; compressed_path; ">" : cstring; decompressed_path] 17.

Definition remove_do_not_reboot_flag_or_die : M sh unit :=
  or_exit ["rm" : cstring; "-f" : cstring; do_not_reboot] 18.

Definition is_part_skipped (name : cstring) : M sh bool :=
  r ← output ["cat" : cstring; part_info (strip_version name ++ "_SKIP")];
  mret (bool_decide (r.2 = ("1" : cstring))).

Definition get_part_size_var_B (name var : cstring) : M sh (Z * cstring) :=
  subshell []
    (kib ← output ["cat" : cstring; part_info (strip_version name ++ "_" ++ var ++ "_KiB")];
     validate_positive_integer_or_die kib.2;;
     b ← output ["expr" : cstring; kib.2; "*" : cstring; "1024" : cstring];
     validate_positive_integer_or_die b.2;;
     mret (0, b.2)).

Definition get_part_size_B (name : cstring) : M sh (Z * cstring) :=
  get_part_size_var_B name "SIZE".

Definition get_part_offset_B (name bank : cstring) : M sh (Z * cstring) :=
  get_part_size_var_B name ("OFFSET_BANK" ++ (if bool_decide (bank = []) then "1" else bank)).

(** ** bootloader_installer.sh *)

Definition write_to_flash_or_die (file offset_B max_size_B : cstring) : M sh unit :=
  device_path ← get_device_for_mbl_partitions;
  exit_on_error device_path.1;;
  actual_size_B ← output ["wc" : cstring; "-c" : cstring; "<" : cstring; file];
  if negb (actual_size_B.1 =? 0) then exit 59
  else if test_gt actual_size_B.2 max_size_B then exit 60
  else
    or_exit ["dd" : cstring; "if=" ++ file; "of=" ++ substituted (printf_line device_path.2);
             "oflag=seek_bytes" : cstring; "conv=fsync" : cstring; "seek=" ++ offset_B] 63;;
    status ["sync" : cstring];;
    mret tt.

Definition update_bootloader_or_die (path : cstring) : M sh unit :=
  name ← output ["basename" : cstring; path; ".xz" : cstring];
  skipped ← is_part_skipped name.2;
  if (skipped : bool) then exit 32
  else
    max_size_B ← get_part_size_B name.2;
    exit_on_error max_size_B.1;;
    offset_B ← get_part_offset_B name.2 "1";
    exit_on_error offset_B.1;;
    let decompressed_path := strip_suffix ".xz" path in
    decompress_or_die path decompressed_path;;
    write_to_flash_or_die decompressed_path offset_B.2 max_size_B.2;;
    remove_do_not_reboot_flag_or_die.

(** ** boot_partition_installer.sh *)

Definition update_boot_part_from_dir_or_die (part_name dir size_estimate_B : cstring)
    (skip_ok : bool) : M sh unit :=
  skipped ← is_part_skipped part_name;
  if (skipped : bool) then if skip_ok then mret tt else exit 65
  else
    max_size_B ← get_part_size_B part_name;
    exit_on_error max_size_B.1;;
    if test_gt size_estimate_B max_size_B.2 then exit 60
    else
      mount_point ← output ["cat" : cstring; part_info (part_name ++ "_MOUNT_POINT")];
      if negb (mount_point.1 =? 0) || bool_decide (mount_point.2 = []) then exit 31
      else copy_dir_or_die dir mount_point.2;; remove_do_not_reboot_flag_or_die.

Definition update_boot_or_die (path : cstring) : M sh unit :=
  let tmp_dir := path_join PAYLOAD_TMP_DIR "boot" in
  or_exit ["mkdir" : cstring; "-p" : cstring; tmp_dir] 62;;
  or_exit ["tar" : cstring; "-xf" : cstring; path; "-C" : cstring; tmp_dir] 58;;
  du ← output ["du" : cstring; "-k" : cstring; tmp_dir];
  kib ← filter_out ["awk" : cstring; "{print $1}" : cstring] (printf_line du.2);
  size_estimate_B ← output ["expr" : cstring; substituted kib.2; "*" : cstring; "1024" : cstring];
  if negb (size_estimate_B.1 =? 0) then exit 59
  else
    validate_positive_integer_or_die size_estimate_B.2;;
    update_boot_part_from_dir_or_die "BOOT" tmp_dir size_estimate_B.2 false;;
    update_boot_part_from_dir_or_die "WKS_BOOTLOADER_FS" tmp_dir size_estimate_B.2 true;;
    remove_do_not_reboot_flag_or_die.

(** ** arm_update_active_details.sh *)

Definition arm_update_active_details (HEADER : cstring) : M sh Z :=
  script
    (d ← output ["dirname" : cstring; HEADER];
     saved ← test_e SAVED_HEADER_PATH;
     if (saved : bool)
     then or_exit ["cp" : cstring; SAVED_HEADER_PATH; path_join d.2 "header.bin"] 22
     else exit 23).
End scripts.

(** ** The images of a package *)

Inductive image_type := ROOTFSv4 | WKS_BOOTLOADER1v3 | WKS_BOOTLOADER2v3 | BOOTv3 | APPSv3.

#[export] Instance image_type_eq_dec : EqDecision image_type.
Proof. solve_decision. Defined.

Section handlers.
Context `{SwupdateLib}.

Record image := { img_kind : image_type; filename : cstring; img : img_type }.

(** The rest of swupdate: [image:copy2file], and the program itself, which
    calls the handler registered for the type of each image. *)
Class Swupdate (X : Type) := {
  copy2file : image → cstring → M (world * X) Z;
  swupdate_i : (image → M (sh X) Z) → cstring → M (sh X) Z;
  images_of : cstring → world * X → list image
}.

(** [apps_installer.sh]: its exit code, and what it and those it talks to
    leave. [PackageUpdate] implements it by the hand-over of [AppHandshake]. *)
Class AppsInstaller (X : Type) := { apps_installer : cstring → M (world * X) Z }.

Context {X : Type} `{Env} `{Config} `{ScriptConfig} `{Programs X} `{!Swupdate X} `{!AppsInstaller X}.
#[local] Abbreviation sh := (sh X).

(** *** swupdate_handlers.lua *)

Definition copy_image_to_file (i : image) : M sh (option cstring * Z) :=
  let img_path := path_join PAYLOAD_TMP_DIR (filename i) in
  err ← on_device (copy2file i img_path);
  if negb (err =? 0) then mret (None, 1) else mret (Some img_path, 0).

(** The command line is not quoted: only a path without characters that mean
    something to the shell arrives as it is. *)
Definition plain_char (c : ascii) : bool :=
  let n := Z.of_nat (nat_of_ascii c) in
  (48 <=? n) && (n <=? 57) || (64 <=? n) && (n <=? 90) || (97 <=? n) && (n <=? 122) ||
  (45 <=? n) && (n <=? 47) || (n =? 95).

Definition run_installer (installer : cstring → M sh Z) (image_path : cstring) : M sh Z :=
  if forallb plain_char image_path then
    err ← installer image_path;
    if negb (err =? 0) then mret 1 else mret 0
  else undefined "the shell splits the path of the image".

Definition lua_handler (installer : cstring → M sh Z) (i : image) : M sh Z :=
  r ← copy_image_to_file i;
  match r.1 with
  | Some img_path =>
      if negb (r.2 =? 0) then mret 1
      else
        ri_err ← run_installer installer img_path;
        if negb (ri_err =? 0) then mret 1 else mret 0
  | None => mret 1
  end.

Definition bootloader_installer (path : cstring) : M sh Z :=
  script (update_bootloader_or_die path).
Definition boot_partition_installer (path : cstring) : M sh Z := script (update_boot_or_die path).

(** The handlers by the type they are registered for. *)
Definition handler (i : image) : M sh Z :=
  match img_kind i with
  | ROOTFSv4 => on_world (rootfsv4_handler (img i))
  | WKS_BOOTLOADER1v3 | WKS_BOOTLOADER2v3 => lua_handler bootloader_installer i
  | BOOTv3 => lua_handler boot_partition_installer i
  | APPSv3 => lua_handler (λ p, on_device (apps_installer p)) i
  end.

(** *** arm_update_activate.sh *)

Definition save_header_or_die (header : cstring) : M sh unit :=
  or_exit ["cp" : cstring; header; SAVED_HEADER_PATH] 21;;
  status ["sync" : cstring];;
  mret tt.

Definition clean_up : M sh unit :=
  status ["rm" : cstring; "-rf" : cstring; PAYLOAD_TMP_DIR];; mret tt.

Definition set_up_payload_tmp_dir_or_die : M sh unit :=
  or_exit ["rm" : cstring; "-rf" : cstring; PAYLOAD_TMP_DIR] 22;;
  or_exit ["mkdir" : cstring; "-p" : cstring; PAYLOAD_TMP_DIR] 23.

(** What [trap clean_up EXIT] is in force for. *)
Definition activate (firmware_path HEADER : cstring) : M sh unit :=
  status ["touch" : cstring; do_not_reboot];;
  r ← swupdate_i handler firmware_path;
  if negb (r =? 0) then exit 25
  else
    save_header_or_die HEADER;;
    flag ← test_e do_not_reboot;
    if (flag : bool) then
      c ← status ["systemctl" : cstring; "restart" : cstring; "mbl-cloud-client" : cstring];
      exit_on_error c
    else mret tt.

Definition arm_update_activate (FIRMWARE HEADER : cstring) : M sh Z :=
  script
    (p ← output ["realpath" : cstring; FIRMWARE];
     if negb (p.1 =? 0) then exit 24
     else
       set_up_payload_tmp_dir_or_die;;
       trap_exit clean_up (activate p.2 HEADER)).
End handlers.
