(* ===== verification/UpdateScriptsProps.v ===== *)
(** * The update scripts: what an activation promises

    When the activation of a package succeeds, every image of it was installed,
    its header is the one the device reports, and the device reboots exactly
    when one of the images needs it. A boot loader is written only when it fits
    its partition. *)

From stdpp Require Import base gmap strings list.
From Stdlib Require Import ZArith Ascii Lia.
From S2P Require Import Prelude.
From S2P Require Import CString.
From S2P Require Import Posix.
From S2P Require Import Swupdate.
From S2P Require Import SwupdateProps.
From S2P Require Import SwupdateHandler.
From S2P Require Import CloudClient.
From S2P Require Import CloudClientProps.
From S2P Require Import Shell.
From S2P Require Import UpdateScripts.

Open Scope Z_scope.
Open Scope list_scope.

(** ** The C handler clears the flag *)

Lemma wp_any {S A} (m : M S A) (Q : A → S → Prop) (E : halt → S → Prop) s :
  (∀ a s', Q a s') → (∀ h s', E h s') → wp m Q E s.
Proof. intros HQ HE. unfold wp. by destruct (m s). Qed.

Section rootfs.
Context `{Env} `{!HonestEnv} `{Config} `{!ConfigOk} `{SwupdateLib}.

Definition cleared (r : Z) (w : world) : Prop :=
  r = 0 → f_nodes (w_fs w) !! reboot_flag_path = None.
Definition anything : halt → world → Prop := λ _ _, True.

Ltac skip := apply wp_bind, wp_any; [intros|done].
Ltac failed := apply wp_ret; intros ?; discriminate.

Lemma wp_switch_clears b2 t w : wp (switch_bank b2 t) cleared anything w.
Proof.
  unfold switch_bank. skip. destruct (a =? 0) eqn:Ha.
  - apply wp_bind, wp_remove_reboot_flag.
    + intros w' _ _ _. skip. failed.
    + intros w' _ _ Hn. apply wp_ret. by intros _.
  - apply wp_ret. by intros ->.
Qed.

Lemma wp_install_clears i m b1 b2 w : wp (install_image i m b1 b2) cleared anything w.
Proof.
  unfold install_image. skip. case_match; [do 2 skip; by apply wp_ret|].
  do 2 skip. case_match; [skip; by apply wp_ret|]. apply wp_switch_clears.
Qed.

Lemma rootfs_clears i w w' :
  rootfsv4_handler i w = Done 0 w' → f_nodes (w_fs w') !! reboot_flag_path = None.
Proof.
  intros Hrun. assert (wp (rootfsv4_handler i) cleared anything w) as Hwp.
  { unfold rootfsv4_handler. skip. case_match; [do 2 skip; by apply wp_ret|].
    do 2 skip. case_match; [|skip; failed].
    skip. case_match; [|do 2 skip; failed].
    do 2 skip. apply wp_bind. eapply wp_mono; [apply wp_install_clears| |done].
    intros r w1 Hr. apply wp_bind, (preserves_wp same_fs); [apply _| |done].
    intros _ w2 Hf2. apply wp_bind, (preserves_wp same_fs); [apply _| |done].
    intros _ w3 Hf3. apply wp_ret. unfold same_fs, cleared in *. by rewrite Hf3, Hf2. }
  unfold wp in Hwp. rewrite Hrun in Hwp. by apply Hwp.
Qed.
End rootfs.

(** ** Scripts that stop only by exiting with an error *)

Definition no_exit_0 {X} : halt → sh X → Prop := λ h _, ∃ c, h = Exited c ∧ c ≠ 0.

Class Dies {X A} (m : M (sh X) A) : Prop := dies s : wp m (λ _ _, True) no_exit_0 s.

Section dies.
Context {X : Type} `{Programs X}.
#[local] Abbreviation sh := (sh X).

#[export] Instance dies_ret {A} (a : A) : Dies (mret a : M sh A).
Proof. by intros s. Qed.
#[export] Instance dies_bind {A B} (m : M sh A) (k : A → M sh B) :
  Dies m → (∀ a, Dies (k a)) → Dies (m ≫= k).
Proof. intros Hm Hk s. apply wp_bind. eapply wp_mono; [apply Hm| |done]. intros a s' _. apply Hk. Qed.
#[export] Instance dies_if {A} (b : bool) (m1 m2 : M sh A) :
  Dies m1 → Dies m2 → Dies (if b then m1 else m2).
Proof. by destruct b. Qed.
#[export] Instance dies_filter_out argv i : Dies (filter_out argv i : M sh _).
Proof. intros s. unfold wp, filter_out. by destruct (run argv i _). Qed.
#[export] Instance dies_status argv : Dies (status argv : M sh Z).
Proof. apply _. Qed.
#[export] Instance dies_output argv : Dies (output argv : M sh _).
Proof. apply _. Qed.
#[export] Instance dies_test_e p : Dies (test_e p : M sh bool).
Proof. by intros s. Qed.
#[export] Instance dies_subshell {A} (a : A) (m : M sh (Z * A)) : Dies m → Dies (subshell a m).
Proof.
  intros Hm s. specialize (Hm s). unfold wp, subshell in *.
  destruct (m s) as [|h s1]; [done|]. by destruct Hm as (c & -> & _).
Qed.
#[export] Instance dies_exit_on_error c : Dies (exit_on_error c : M sh unit).
Proof. intros s. unfold exit_on_error. destruct (Z.eqb_spec c 0); [done|]. by exists c. Qed.

Lemma dies_exit {A} c : c ≠ 0 → Dies (exit c : M sh A).
Proof. intros Hc s. by exists c. Qed.
Lemma dies_or_exit argv c : c ≠ 0 → Dies (or_exit argv c : M sh unit).
Proof. intros. unfold or_exit. apply dies_bind; [apply _|]. intros r. apply dies_if; [apply _|by apply dies_exit]. Qed.

Lemma wp_seq {A B} (m : M sh A) (k : A → M sh B) Q s :
  Dies m → (∀ a s', wp (k a) Q no_exit_0 s') → wp (m ≫= k) Q no_exit_0 s.
Proof. intros Hm Hk. apply wp_bind. eapply wp_mono; [apply Hm| |done]. auto. Qed.

Lemma script_done (m : M sh unit) (Q : sh → Prop) s :
  wp m (λ _, Q) no_exit_0 s → ∃ c s', script m s = Done c s' ∧ (c = 0 → Q s').
Proof.
  unfold wp, script, subshell, mbind, M_bind, mret, M_ret.
  destruct (m s) as [[] s1|h s1]; [by intros HQ; exists 0, s1|].
  intros (c & -> & Hc). by exists c, s1.
Qed.

Lemma script_ok (m : M sh unit) (Q : sh → Prop) s s' :
  wp m (λ _, Q) no_exit_0 s → script m s = Done 0 s' → Q s'.
Proof.
  unfold wp, script, subshell, mbind, M_bind, mret, M_ret.
  destruct (m s) as [[] s1|h s1]; simpl; intros HQ Hr; [by simplify_eq|].
  destruct HQ as (c & -> & Hc). simplify_eq.
Qed.
End dies.
#[export] Hint Extern 2 (Dies (exit _)) => apply dies_exit; discriminate : typeclass_instances.
#[export] Hint Extern 2 (Dies (or_exit _ _)) => apply dies_or_exit; discriminate : typeclass_instances.

Section activation.
Context {X : Type} `{Env} `{!HonestEnv} `{Config} `{!ConfigOk} `{ScriptConfig} `{Programs X}.
Context `{SwupdateLib} `{!Swupdate X} `{!AppsInstaller X}.
#[local] Abbreviation sh := (sh X).

Definition sh_fs (s : sh) : fs := w_fs (sh_world s).
Definition flag_gone (s : sh) : Prop := f_nodes (sh_fs s) !! do_not_reboot = None.
Definition restart_client : list cstring :=
  ["systemctl" : cstring; "restart" : cstring; "mbl-cloud-client" : cstring].

(** [f'] has the flag and the saved header as [f] has them. *)
Definition keeps (f f' : fs) : Prop :=
  f_nodes f' !! do_not_reboot = f_nodes f !! do_not_reboot ∧
  fs_read f' SAVED_HEADER_PATH = fs_read f SAVED_HEADER_PATH.

(** Every image was installed, one after the other. *)
Inductive handled (h : image → M sh Z) : list image → sh → sh → Prop :=
| handled_nil s : handled h [] s s
| handled_cons i l s1 s2 s3 :
    h i s1 = Done 0 s2 → handled h l s2 s3 → handled h (i :: l) s1 s3.

(** swupdate takes the images in turn; it stops with an error at the first one
    that was not installed, or anywhere else. *)
Inductive tried (h : image → M sh Z) : list image → Z → sh → sh → Prop :=
| tried_all s : tried h [] 0 s s
| tried_next i l r s1 s2 s3 : h i s1 = Done 0 s2 → tried h l r s2 s3 → tried h (i :: l) r s1 s3
| tried_failed i l r c s1 s2 : h i s1 = Done c s2 → c ≠ 0 → r ≠ 0 → tried h (i :: l) r s1 s2
| tried_died i l r e s1 s2 : h i s1 = Halted e s2 → r ≠ 0 → tried h (i :: l) r s1 s2
| tried_stopped l r s : r ≠ 0 → tried h l r s s.

Lemma tried_handled h l s s' : tried h l 0 s s' → handled h l s s'.
Proof.
  intros Ht. remember 0 as r eqn:Hr. induction Ht; simplify_eq; try done; econstructor; eauto.
Qed.

(** What the commands and swupdate do, as far as the scripts rely on it. *)
Class ScriptLaws : Prop := {
  rm_flag d r d' :
    run ["rm" : cstring; "-f" : cstring; do_not_reboot] [] d = (r, d') → r.1 = 0 →
    f_nodes (w_fs d'.1) !! do_not_reboot = None;
  touch_flag d r d' :
    run ["touch" : cstring; do_not_reboot] [] d = (r, d') → r.1 = 0 →
    is_Some (f_nodes (w_fs d'.1) !! do_not_reboot);
  cp_data a b d r d' :
    run ["cp" : cstring; a; b] [] d = (r, d') →
    (∀ q, q ≠ b → f_nodes (w_fs d'.1) !! q = f_nodes (w_fs d.1) !! q) ∧
    (r.1 = 0 → f_nodes (w_fs d.1) !! b ≠ Some Dir →
     ∃ i, fs_read (w_fs d'.1) b = Some i ∧ Some (i_data i) = i_data <$> fs_read (w_fs d.1) a);
  others_keep argv d r d' :
    argv = ["sync" : cstring] ∨ argv = restart_client ∨
    argv = ["rm" : cstring; "-rf" : cstring; PAYLOAD_TMP_DIR] →
    run argv [] d = (r, d') → keeps (w_fs d.1) (w_fs d'.1);
  dirname_pure p d r d' :
    run ["dirname" : cstring; p] [] d = (r, d') → w_fs d'.1 = w_fs d.1;
  copy2file_keeps i p d : ∃ c d', copy2file i p d = Done c d' ∧ keeps (w_fs d.1) (w_fs d'.1);
  swupdate_installs h p s : ∃ r s',
    swupdate_i h p s = Done r s' ∧ tried h (images_of p (sh_device s)) r s s'
}.

(** What the installer of the applications promises to the scripts. *)
Class AppsLaws : Prop := {
  apps_keep p d c d' : apps_installer p d = Done c d' → keeps (w_fs d.1) (w_fs d'.1)
}.

Context `{!ScriptLaws} `{!AppsLaws}.

(** *** The installers *)

Lemma wp_remove_flag_or_die s :
  wp remove_do_not_reboot_flag_or_die (λ _, flag_gone) no_exit_0 s.
Proof.
  unfold remove_do_not_reboot_flag_or_die, or_exit, status, filter_out, wp, mbind, M_bind.
  destruct (run _ _ _) as [r w'] eqn:Hr. unfold mret, M_ret.
  destruct (Z.eqb_spec r.1 0); [|by eexists]. by eapply rm_flag.
Qed.

Lemma wp_bootloader_clears p s : wp (update_bootloader_or_die p) (λ _, flag_gone) no_exit_0 s.
Proof.
  unfold update_bootloader_or_die.
  do 2 (apply wp_seq; [unfold is_part_skipped; apply _|intros]). case_match; [apply wp_stop; by eexists|].
  do 6 (apply wp_seq; [unfold get_part_size_B, get_part_offset_B, get_part_size_var_B,
    decompress_or_die, write_to_flash_or_die, get_device_for_mbl_partitions; apply _|intros]).
  apply wp_remove_flag_or_die.
Qed.

#[export] Instance dies_update_part n d z b : Dies (update_boot_part_from_dir_or_die n d z b : M sh unit).
Proof.
  unfold update_boot_part_from_dir_or_die, is_part_skipped, get_part_size_B, get_part_size_var_B,
    copy_dir_or_die, remount_partition_or_die, remove_do_not_reboot_flag_or_die. apply _.
Qed.

Lemma wp_boot_clears p s : wp (update_boot_or_die p) (λ _, flag_gone) no_exit_0 s.
Proof.
  unfold update_boot_or_die.
  do 5 (apply wp_seq; [apply _|intros]). case_match; [apply wp_stop; by eexists|].
  do 3 (apply wp_seq; [unfold validate_positive_integer_or_die; apply _|intros]).
  apply wp_remove_flag_or_die.
Qed.
(** *** The handlers *)

Lemma lua_ok installer i s s' :
  lua_handler installer i s = Done 0 s' →
  ∃ p s1, copy_image_to_file i s = Done (Some p, 0) s1 ∧ installer p s1 = Done 0 s'.
Proof.
  unfold lua_handler, run_installer, copy_image_to_file, mbind, M_bind, mret, M_ret.
  destruct (on_device _ s) as [err s1|h s1]; [|done].
  destruct (Z.eqb_spec err 0); simpl; [|done].
  destruct (forallb _ _); [|done]. destruct (installer _ s1) as [c s2|h s2] eqn:Hi; [|done].
  destruct (Z.eqb_spec c 0) as [->|]; simpl; [|done]. intros [= ->]. by eexists _, s1.
Qed.

Lemma handler_clears i s s' :
  handler i s = Done 0 s' → img_kind i ≠ APPSv3 → flag_gone s'.
Proof.
  unfold handler. destruct (img_kind i); intros Hh Hk; try done.
  - unfold on_world, on_device in Hh. destruct (rootfsv4_handler _ _) eqn:Hr; simplify_eq.
    unfold flag_gone, sh_fs; simpl. by eapply rootfs_clears.
  - apply lua_ok in Hh as (p & s1 & _ & Hi). eapply script_ok; [|exact Hi]. apply wp_bootloader_clears.
  - apply lua_ok in Hh as (p & s1 & _ & Hi). eapply script_ok; [|exact Hi]. apply wp_bootloader_clears.
  - apply lua_ok in Hh as (p & s1 & _ & Hi). eapply script_ok; [|exact Hi]. apply wp_boot_clears.
Qed.

Lemma handler_apps i s s' :
  handler i s = Done 0 s' → img_kind i = APPSv3 → keeps (sh_fs s) (sh_fs s').
Proof.
  unfold handler. intros Hh Hk. rewrite Hk in Hh. apply lua_ok in Hh as (p & s1 & Hc & Hi).
  unfold copy_image_to_file, on_device, mbind, M_bind in Hc, Hi.
  destruct (copy2file_keeps i (path_join PAYLOAD_TMP_DIR (filename i)) (sh_device s)) as (c & w1 & Heq & Hk1).
  rewrite Heq in Hc. destruct (Z.eqb_spec c 0); simpl in Hc; [|done]. injection Hc as <- <-. simpl in Hi.
  destruct (apps_installer _ w1) as [c2 w2|] eqn:Heq2; [|done]. apply apps_keep in Heq2 as Hk2.
  injection Hi as _ <-. unfold sh_fs, sh_world; simpl. destruct Hk1, Hk2. split; congruence.
Qed.

(** The flag after all images were installed. *)
Lemma handled_flag l s s' :
  handled handler l s s' →
  (Exists (λ i, img_kind i ≠ APPSv3) l → flag_gone s') ∧
  (Forall (λ i, img_kind i = APPSv3) l → keeps (sh_fs s) (sh_fs s')).
Proof.
  induction 1 as [s|i l s1 s2 s3 Hi Hl [IH1 IH2]].
  - split; [by intros ?%Exists_nil|done].
  - split.
    + intros Hex. destruct (decide (Forall (λ i, img_kind i = APPSv3) l)) as [Hall|Hnot].
      * apply Exists_cons in Hex as [Hk|Hex].
        -- unfold flag_gone. rewrite (proj1 (IH2 Hall)). by apply (handler_clears i s1).
        -- apply IH1, Hex.
      * apply IH1. by apply not_Forall_Exists in Hnot; [|intros i'; apply _].
    + intros Hall. inversion Hall as [|? ? Hk Hall']; subst.
      destruct (handler_apps _ _ _ Hi Hk), (IH2 Hall'). split; congruence.
Qed.

(** *** The activation *)

(** What is left of a successful activation: [s1] is the state after the last image. *)
Record activated (HEADER : cstring) (s1 s' : sh) : Prop := {
  ac_header : f_nodes (sh_fs s1) !! SAVED_HEADER_PATH ≠ Some Dir →
    ∃ i, fs_read (sh_fs s') SAVED_HEADER_PATH = Some i ∧
         Some (i_data i) = i_data <$> fs_read (sh_fs s1) HEADER;
  ac_flag : f_nodes (sh_fs s') !! do_not_reboot = f_nodes (sh_fs s1) !! do_not_reboot;
  ac_restart : is_Some (f_nodes (sh_fs s') !! do_not_reboot) → restart_client ∈ sh_trace s'
}.

Lemma do_not_reboot_apart : do_not_reboot ≠ SAVED_HEADER_PATH.
Proof.
  unfold do_not_reboot, SAVED_HEADER_PATH, path_join. intros Heq.
  apply (f_equal last) in Heq. rewrite !last_app in Heq. discriminate.
Qed.

Lemma run_total argv (i : cstring) w : ∃ r w', run argv i w = (r, w').
Proof. destruct (run argv i w) as [r w']. by exists r, w'. Qed.

Lemma wp_status argv Q (E : halt → sh → Prop) s :
  (∀ r w', run argv [] (sh_device s) = (r, w') →
     Q r.1 {| sh_device := w'; sh_trace := sh_trace s ++ [argv] |}) →
  wp (status argv) Q E s.
Proof.
  intros HQ. unfold wp, status, filter_out, mbind, M_bind, mret, M_ret.
  destruct (run argv [] (sh_device s)) as [r w'] eqn:Hr. by apply (HQ r w').
Qed.

Lemma wp_status_keeps argv Q (E : halt → sh → Prop) s :
  argv = ["sync" : cstring] ∨ argv = restart_client ∨
    argv = ["rm" : cstring; "-rf" : cstring; PAYLOAD_TMP_DIR] →
  (∀ c s', keeps (sh_fs s) (sh_fs s') → sh_trace s' = sh_trace s ++ [argv] → Q c s') →
  wp (status argv) Q E s.
Proof. intros Ha HQ. apply wp_status. intros r w' Hr. apply HQ; [by eapply others_keep|done]. Qed.

Lemma wp_after_install HEADER s1 :
  wp (save_header_or_die HEADER;;
      flag ← test_e do_not_reboot;
      if (flag : bool) then c ← status restart_client; exit_on_error c else mret tt)
    (λ _, activated HEADER s1) no_exit_0 s1.
Proof.
  unfold save_header_or_die, or_exit. apply wp_bind, wp_bind, wp_bind, wp_status.
  intros r w' Hr. destruct (cp_data _ _ _ _ _ Hr) as [Hf Hd].
  destruct (Z.eqb_spec r.1 0) as [Hz|]; [|by eexists]. apply wp_ret, wp_bind.
  apply wp_status_keeps; [by left|]. intros c s2 [Hk1 Hk2] _. apply wp_ret, wp_bind, wp_gets.
  assert (Hact : ∀ s', keeps (sh_fs s2) (sh_fs s') →
    (is_Some (f_nodes (sh_fs s') !! do_not_reboot) → restart_client ∈ sh_trace s') →
    activated HEADER s1 s').
  { intros s' [Hk3 Hk4] Ht. split; [|rewrite Hk3, Hk1; by apply Hf, do_not_reboot_apart|exact Ht].
    intros Hdir. destruct (Hd Hz Hdir) as (i & Hi & Hdata). exists i.
    split; [|exact Hdata]. by rewrite Hk4, Hk2. }
  case_bool_decide as Hflag.
  - apply wp_bind, wp_status_keeps; [by right; left|]. intros c' s3 Hk3 Ht.
    unfold exit_on_error. destruct (Z.eqb_spec c' 0); [|by eexists].
    apply wp_ret, Hact; [done|]. intros _. rewrite Ht. apply elem_of_app. right. by left.
  - apply wp_ret, Hact; [done|]. intros Hs. done.
Qed.

Lemma activated_keeps HEADER s1 s2 s3 t :
  activated HEADER s1 s2 → keeps (sh_fs s2) (sh_fs s3) → sh_trace s3 = sh_trace s2 ++ t →
  activated HEADER s1 s3.
Proof.
  intros [Hh Hf Hr] [Hk1 Hk2] Ht. split; rewrite ?Hk1, ?Hk2; [done..|].
  intros Hs. rewrite Ht. apply elem_of_app. by left; apply Hr.
Qed.

Lemma wp_trap_activated HEADER s1 (m : M sh unit) s :
  wp m (λ _, activated HEADER s1) no_exit_0 s →
  wp (trap_exit clean_up m) (λ _, activated HEADER s1) no_exit_0 s.
Proof.
  unfold wp at 1, trap_exit. intros Hm. unfold wp. destruct (m s) as [a s2|h s2].
  - apply (wp_bind clean_up (λ _, mret a)), wp_bind, wp_status_keeps; [by right; right|].
    intros c s3 Hk Ht. apply wp_ret, wp_ret. by eapply activated_keeps.
  - destruct Hm as (c & -> & Hc).
    apply (wp_bind clean_up (λ _, exit c)), wp_bind, wp_status_keeps; [by right; right|].
    intros c' s3 _ _. apply wp_ret, wp_stop. by exists c.
Qed.

(** The script up to the call of swupdate, with the path of the package. *)
Definition before_swupdate (FIRMWARE : cstring) : M sh cstring :=
  p ← output ["realpath" : cstring; FIRMWARE];
  if negb (p.1 =? 0) then exit 24
  else
    set_up_payload_tmp_dir_or_die;;
    status ["touch" : cstring; do_not_reboot];;
    mret p.2.

(** A successful activation: [s0] is the state when swupdate starts, after the
    flag was made, and [s1] the one when it has ended. *)
Record installed_from (FIRMWARE HEADER path : cstring) (s s0 s1 s' : sh) : Prop := {
  if_before : before_swupdate FIRMWARE s = Done path s0;
  if_swupdate : swupdate_i handler path s0 = Done 0 s1;
  if_handled : handled handler (images_of path (sh_device s0)) s0 s1;
  if_touched : (∀ w, (run ["touch" : cstring; do_not_reboot] [] w).1.1 = 0) →
               is_Some (f_nodes (sh_fs s0) !! do_not_reboot);
  if_activated : activated HEADER s1 s'
}.

Lemma wp_command {A} (m : M sh A) (Q : A → sh → Prop) (E : halt → sh → Prop) s :
  wp m (λ _ _, True) E s → (∀ a s', m s = Done a s' → Q a s') → wp m Q E s.
Proof. unfold wp. intros Hm HQ. destruct (m s); auto. Qed.

Lemma activate_installs FIRMWARE HEADER s :
  ∃ c s', arm_update_activate FIRMWARE HEADER s = Done c s' ∧
    (c = 0 → ∃ path s0 s1, installed_from FIRMWARE HEADER path s s0 s1 s').
Proof.
  apply script_done. apply wp_bind, wp_command; [apply dies_output|]. intros p s0 Hp.
  destruct (negb (p.1 =? 0)) eqn:Hz0; [apply wp_stop; by eexists|].
  apply wp_bind, wp_command; [apply (_ : Dies set_up_payload_tmp_dir_or_die)|]. intros [] s1 Hset.
  unfold activate.
  destruct (run_total ["touch" : cstring; do_not_reboot] [] (sh_device s1)) as (r & w2 & Hr).
  set (s2 := {| sh_device := w2; sh_trace := sh_trace s1 ++ [["touch" : cstring; do_not_reboot]] |}).
  assert (status ["touch" : cstring; do_not_reboot] s1 = Done r.1 s2) as Htouch.
  { unfold status, filter_out, mbind, M_bind, mret, M_ret. by rewrite Hr. }
  assert (before_swupdate FIRMWARE s = Done p.2 s2) as Hbefore.
  { unfold before_swupdate. rewrite (bind_done _ _ _ _ _ Hp). cbv beta. rewrite Hz0.
    rewrite (bind_done _ _ _ _ _ Hset). cbv beta. by rewrite (bind_done _ _ _ _ _ Htouch). }
  destruct (swupdate_installs handler p.2 s2) as (c & s3 & Hsw & Hok).
  assert (activate p.2 HEADER s1 = (if negb (c =? 0) then exit 25 else
    save_header_or_die HEADER;;
    flag ← test_e do_not_reboot;
    if (flag : bool) then c ← status restart_client; exit_on_error c else mret tt) s3) as Heq.
  { unfold activate. rewrite (bind_done _ _ _ _ _ Htouch). cbv beta.
    by rewrite (bind_done _ _ _ _ _ Hsw). }
  fold (activate p.2 HEADER).
  destruct (Z.eqb_spec c 0) as [->|Hz]; cbn [negb] in Heq.
  - eapply wp_mono; [apply (wp_trap_activated HEADER s3)| |done].
    + unfold wp. rewrite Heq. apply wp_after_install.
    + intros u s' Ha. exists p.2, s2, s3. split; [done|done|by apply tried_handled| |done].
      intros Ht. unfold sh_fs; simpl. eapply touch_flag; [exact Hr|].
      specialize (Ht (sh_device s1)). by rewrite Hr in Ht.
  - unfold wp, trap_exit. rewrite Heq. unfold exit, stop.
    apply (wp_seq clean_up (λ _, exit 25)); [unfold clean_up; apply _|]. by eexists.
Qed.

(** ** The properties *)

(** C6: the activation script always returns. With 0, every image of the
    package was installed, in order, and the saved header is the package's.
    When one of the images is not an archive of applications, nothing forbids
    the reboot, and the cloud client's callback reboots; when all are, and the
    flag could be made, the device does not reboot but the client is started
    again. *)
Theorem activation_result FIRMWARE HEADER s (reboot : M world unit) :
  TMP_DIR = "/tmp" →
  ∃ c s', arm_update_activate FIRMWARE HEADER s = Done c s' ∧
  (c = 0 → ∃ path s0 s1,
     let l := images_of path (sh_device s0) in
     before_swupdate FIRMWARE s = Done path s0 ∧ swupdate_i handler path s0 = Done 0 s1 ∧
     handled handler l s0 s1 ∧
     (f_nodes (sh_fs s1) !! SAVED_HEADER_PATH ≠ Some Dir →
      ∃ i, fs_read (sh_fs s') SAVED_HEADER_PATH = Some i ∧
           Some (i_data i) = i_data <$> fs_read (sh_fs s1) HEADER) ∧
     (Exists (λ i, img_kind i ≠ APPSv3) l →
      ∃ w2, pal_plat_osApplicationReboot reboot (sh_world s') = reboot w2 ∧ w_fs w2 = sh_fs s') ∧
     (Forall (λ i, img_kind i = APPSv3) l →
      (∀ w, (run ["touch" : cstring; do_not_reboot] [] w).1.1 = 0) →
      is_Some (f_nodes (sh_fs s') !! do_not_reboot) ∧ restart_client ∈ sh_trace s')).
Proof.
  intros Htmp. destruct (activate_installs FIRMWARE HEADER s) as (c & s' & Hrun & Hok).
  exists c, s'. split; [done|]. intros Hc.
  destruct (Hok Hc) as (path & s0 & s1 & [Hb Hsw Hh Ht [Hd Hf Hr]]).
  exists path, s0, s1. cbv zeta. destruct (handled_flag _ _ _ Hh) as [Hgone Hkept].
  split_and!; [done..| |].
  - intros Hex. apply reboot_allowed. unfold sh_fs in Hf.
    assert (("/tmp/do_not_reboot" : cstring) = do_not_reboot) as -> by (unfold do_not_reboot; by rewrite Htmp).
    rewrite Hf. by apply Hgone.
  - intros Hall Htouch. assert (is_Some (f_nodes (sh_fs s') !! do_not_reboot)) as Hs.
    { rewrite Hf, (proj1 (Hkept Hall)). by apply Ht. }
    split; [done|by apply Hr].
Qed.

(** C23: the header round trip: after a successful activation the device can
    report the header that came with the package. [arm_update_active_details.sh]
    returns 0, or 22 when its copy fails, and with 0 its file holds the data of
    the header as swupdate left it. *)
Theorem active_header_is_the_last FIRMWARE HEADER HEADER2 s s' s1 path s0 :
  arm_update_activate FIRMWARE HEADER s = Done 0 s' →
  before_swupdate FIRMWARE s = Done path s0 → swupdate_i handler path s0 = Done 0 s1 →
  f_nodes (sh_fs s1) !! SAVED_HEADER_PATH ≠ Some Dir →
  ∃ c s2 dir, arm_update_active_details HEADER2 s' = Done c s2 ∧ (c = 0 ∨ c = 22) ∧
    (c = 0 → f_nodes (sh_fs s') !! path_join dir "header.bin" ≠ Some Dir →
     ∃ i, fs_read (sh_fs s2) (path_join dir "header.bin") = Some i ∧
          Some (i_data i) = i_data <$> fs_read (sh_fs s1) HEADER).
Proof.
  intros Hrun Hb Hsw Hnd. destruct (activate_installs FIRMWARE HEADER s) as (c & s2 & Hrun' & Hok).
  rewrite Hrun in Hrun'. injection Hrun' as <- <-.
  destruct (Hok eq_refl) as (path' & s0' & s1' & [Hb' Hsw' _ _ [Hd _ _]]).
  rewrite Hb in Hb'. injection Hb' as <- <-. rewrite Hsw in Hsw'. injection Hsw' as <-.
  destruct (Hd Hnd) as (i & Hi & Hdata).
  destruct (run_total ["dirname" : cstring; HEADER2] [] (sh_device s')) as (r & w & Hr).
  apply dirname_pure in Hr as Hw.
  unfold arm_update_active_details, output, filter_out, script, subshell, test_e, gets, mbind, M_bind,
    mret, M_ret, or_exit, status, filter_out, mbind, M_bind, mret, M_ret. rewrite Hr. unfold sh_world. cbn [sh_device sh_trace fst snd].
  rewrite Hw. unfold sh_fs, sh_world in Hi.
  rewrite bool_decide_true.
  2:{ unfold fs_read in Hi. destruct (f_nodes (w_fs (sh_device s').1) !! _); [by eexists|done]. }
  destruct (run_total ["cp" : cstring; SAVED_HEADER_PATH; path_join (substituted r.2) "header.bin"] [] w)
    as (r2 & w2 & Hcp). cbv beta iota. cbn [sh_device]. rewrite Hcp.
  destruct (cp_data _ _ _ _ _ Hcp) as [_ Hcopy].
  destruct (Z.eqb_spec r2.1 0) as [Hz|Hz]; simpl.
  - exists 0, {| sh_device := w2; sh_trace := (sh_trace s' ++ [["dirname" : cstring; HEADER2]]) ++
      [["cp" : cstring; SAVED_HEADER_PATH; path_join (substituted r.2) "header.bin"]] |},
      (substituted r.2). split_and!; [done|by left|].
    intros _ Hdir. rewrite Hw in Hcopy. destruct (Hcopy Hz Hdir) as (j & Hj & Hjd).
    exists j. split; [done|]. by rewrite Hjd, Hi.
  - eexists 22, _, []. split_and!; [done|by right|done].
Qed.
End activation.

(** ** What reaches the flash *)

Section calls.
Context {X : Type} `{Programs X}.
#[local] Abbreviation sh := (sh X).

(** A command that was run: its arguments, its input, and its exit status with
    its output. *)
Record call := Called { called : list cstring; fed : cstring; answer : Z * cstring }.

(** The commands of a run, each with its answer in the state that it found. *)
Inductive performed : list call → sh → sh → Prop :=
| performed_nil s : performed [] s s
| performed_cons argv i r d l s s' :
    run argv i (sh_device s) = (r, d) →
    performed l {| sh_device := d; sh_trace := sh_trace s ++ [argv] |} s' →
    performed (Called argv i r :: l) s s'.

Lemma performed_app l1 l2 s1 s2 s3 : performed l1 s1 s2 → performed l2 s2 s3 → performed (l1 ++ l2) s1 s3.
Proof. induction 1; [done|]. simpl. econstructor; eauto. Qed.

Definition ended {A} (o : outcome sh A) : A + halt :=
  match o with Done a _ => inl a | Halted h _ => inr h end.

(** Every run of [m] performs commands that [Q] allows, with how it ends. *)
Definition performs {A} (m : M sh A) (Q : list call → A + halt → Prop) : Prop :=
  ∀ s, ∃ l, performed l s (final (m s)) ∧ Q l (ended (m s)).

Implicit Type Q : list call → unit + halt → Prop.

Lemma performs_ret {A} (a : A) (Q : list call → A + halt → Prop) : Q [] (inl a) → performs (mret a) Q.
Proof. intros HQ s. exists []. split; [constructor|done]. Qed.

Lemma performs_exit {A} c (Q : list call → A + halt → Prop) : Q [] (inr (Exited c)) → performs (exit c) Q.
Proof. intros HQ s. exists []. split; [constructor|done]. Qed.

Lemma performs_exit_bind {A B} c (k : A → M sh B) (Q : list call → B + halt → Prop) :
  Q [] (inr (Exited c)) → performs (exit c ≫= k) Q.
Proof. intros HQ s. exists []. split; [constructor|done]. Qed.

Lemma performs_assoc {A B C} (m : M sh A) (k : A → M sh B) (k' : B → M sh C) (Q : list call → C + halt → Prop) :
  performs (m ≫= λ a, k a ≫= k') Q → performs ((m ≫= k) ≫= k') Q.
Proof.
  intros Hp s. specialize (Hp s). revert Hp. unfold mbind, M_bind. by destruct (m s).
Qed.

Lemma performs_mono {A} (m : M sh A) (P Q : list call → A + halt → Prop) :
  performs m P → (∀ l o, P l o → Q l o) → performs m Q.
Proof. intros Hm HQ s. destruct (Hm s) as (l & Hl & HP). eauto. Qed.

Lemma performs_bind {A B} (m : M sh A) (k : A → M sh B) P (Q : list call → B + halt → Prop) :
  performs m P →
  (∀ l a, P l (inl a) → performs (k a) (λ l', Q (l ++ l'))) →
  (∀ l h, P l (inr h) → Q l (inr h)) → performs (m ≫= k) Q.
Proof.
  intros Hm Hk Hh s. destruct (Hm s) as (l & Hl & HP). unfold mbind, M_bind.
  destruct (m s) as [a s1|h s1]; [|exists l; split; [done|by apply Hh]].
  destruct (Hk l a HP s1) as (l' & Hl' & HQ). exists (l ++ l'). split; [|done]. by eapply performed_app.
Qed.

(** One command, for its status and for its output. *)
Lemma performs_run {A} argv i (k : Z * cstring → M sh A) (Q : list call → A + halt → Prop) :
  (∀ r, performs (k r) (λ l, Q (Called argv i r :: l))) → performs (filter_out argv i ≫= k) Q.
Proof.
  intros Hk s. unfold mbind, M_bind, filter_out. destruct (run argv i (sh_device s)) as [r d] eqn:Hr.
  destruct (Hk r {| sh_device := d; sh_trace := sh_trace s ++ [argv] |}) as (l & Hl & HQ).
  exists (Called argv i r :: l). split; [by econstructor|done].
Qed.

Lemma performs_status {A} argv (k : Z → M sh A) (Q : list call → A + halt → Prop) :
  (∀ r, performs (k r.1) (λ l, Q (Called argv [] r :: l))) → performs (status argv ≫= k) Q.
Proof.
  intros Hk. pose proof (performs_run argv [] (λ r, k r.1) Q Hk) as Hp.
  intros s. destruct (Hp s) as (l & Hl & HQ). exists l. revert Hl HQ.
  unfold status, mbind, M_bind. by destruct (filter_out argv [] s).
Qed.

Lemma performs_output {A} argv (k : Z * cstring → M sh A) (Q : list call → A + halt → Prop) :
  (∀ r, performs (k (r.1, substituted r.2)) (λ l, Q (Called argv [] r :: l))) →
  performs (output argv ≫= k) Q.
Proof.
  intros Hk. pose proof (performs_run argv [] (λ r, k (r.1, substituted r.2)) Q Hk) as Hp.
  intros s. destruct (Hp s) as (l & Hl & HQ). exists l. revert Hl HQ.
  unfold output, mbind, M_bind. by destruct (filter_out argv [] s).
Qed.

(** [if ! command; then exit code; fi] *)
Lemma performs_or_exit {A} argv c (k : unit → M sh A) (Q : list call → A + halt → Prop) :
  (∀ r, r.1 = 0 → performs (k tt) (λ l, Q (Called argv [] r :: l))) →
  (∀ r, r.1 ≠ 0 → Q [Called argv [] r] (inr (Exited c))) →
  performs (or_exit argv c ≫= k) Q.
Proof.
  intros Hk Hx. eapply (performs_bind _ _ (λ l o, ∃ r, l = [Called argv [] r] ∧
    ((r.1 = 0 ∧ o = inl tt) ∨ (r.1 ≠ 0 ∧ o = inr (Exited c))))).
  - apply performs_status. intros r. destruct (Z.eqb_spec r.1 0); [apply performs_ret|apply performs_exit];
      exists r; auto.
  - intros l [] (r & -> & [[Hr _]|[_ [=]]]). by apply Hk.
  - intros l h (r & -> & [[_ [=]]|[Hr [= ->]]]). by apply Hx.
Qed.

Lemma performs_subshell {A B} (a0 : A) (m : M sh (Z * A)) (k : Z * A → M sh B) P (Q : list call → B + halt → Prop) :
  performs m P →
  (∀ l a, P l (inl a) → performs (k a) (λ l', Q (l ++ l'))) →
  (∀ l c, P l (inr (Exited c)) → performs (k (c, a0)) (λ l', Q (l ++ l'))) →
  (∀ l h, P l (inr h) → (∃ c, h = Exited c) ∨ Q l (inr h)) →
  performs (subshell a0 m ≫= k) Q.
Proof.
  intros Hm Hk Hc Hh s. destruct (Hm s) as (l & Hl & HP). unfold mbind, M_bind, subshell.
  assert (∀ r s1, final (m s) = s1 → performs (k r) (λ l', Q (l ++ l')) →
    ∃ l', performed l' s (final (k r s1)) ∧ Q l' (ended (k r s1))) as Hgo.
  { intros r s1 Hs Hr. destruct (Hr s1) as (l' & Hl' & HQ). exists (l ++ l'). split; [|done].
    rewrite Hs in Hl. by eapply performed_app. }
  destruct (m s) as [a s1|h s1]; [by eapply Hgo; auto|].
  destruct (Hh l h HP) as [[c ->]|HQ]; [by eapply Hgo; auto|].
  destruct h; eauto.
Qed.
End calls.

Section flash.
Context {X : Type} `{Programs X} `{Config} `{ScriptConfig}.
#[local] Abbreviation sh := (sh X).
#[local] Abbreviation call := (@call).

Definition no_dd (l : list call) : Prop := Forall (λ c, head (called c) ≠ Some ("dd" : cstring)) l.

Lemma no_dd_app l l' : no_dd l → no_dd l' → no_dd (l ++ l').
Proof. apply Forall_app_2. Qed.

(** The four commands that read a variable of a partition, in KiB, and turn it
    into bytes. *)
Definition size_calls (part var : cstring) (kib checked bytes checked2 : Z * cstring) : list call :=
  [ Called ["cat" : cstring; part_info (part ++ "_" ++ var ++ "_KiB")] [] kib;
    Called ["grep" : cstring; "-q" : cstring; "^[0-9]\+$" : cstring] (printf_line (substituted kib.2)) checked;
    Called ["expr" : cstring; substituted kib.2; "*" : cstring; "1024" : cstring] [] bytes;
    Called ["grep" : cstring; "-q" : cstring; "^[0-9]\+$" : cstring] (printf_line (substituted bytes.2)) checked2 ].

Definition device_calls (mounts name test : Z * cstring) : list call :=
  [ Called ["lsblk" : cstring; "-n" : cstring; "-o" : cstring; "MOUNTPOINT,PKNAME" : cstring] [] mounts;
    Called ["awk" : cstring; "/^\/ / {print $2}" : cstring] (printf_line (substituted mounts.2)) name;
    Called ["[" : cstring; "-b" : cstring; "/dev/" ++ substituted name.2; "]" : cstring] [] test ].

Lemma no_dd_size part var k c b c2 : no_dd (size_calls part var k c b c2).
Proof. unfold size_calls. repeat constructor; discriminate. Qed.

Lemma no_dd_device m n t : no_dd (device_calls m n t).
Proof. unfold device_calls. repeat constructor; discriminate. Qed.

Ltac quiet_calls := repeat (apply Forall_cons; split; [discriminate|]); apply Forall_nil; done.

Lemma performs_validate {A} n (k : unit → M sh A) (Q : list call → A + halt → Prop) :
  let c r := Called ["grep" : cstring; "-q" : cstring; "^[0-9]\+$" : cstring] (printf_line n) r in
  (∀ r, r.1 = 0 → performs (k tt) (λ l, Q (c r :: l))) →
  (∀ r, Q [c r] (inr (Exited 11))) →
  performs (validate_positive_integer_or_die n ≫= k) Q.
Proof.
  intros c Hk Hx. eapply (performs_bind _ _ (λ l o, ∃ r, l = [c r] ∧
    ((r.1 = 0 ∧ o = inl tt) ∨ o = inr (Exited 11)))).
  - apply performs_run. intros r. destruct (Z.eqb_spec r.1 0); [apply performs_ret|apply performs_exit];
      exists r; auto.
  - intros l [] (r & -> & [[Hr _]|[=]]). by apply Hk.
  - intros l h (r & -> & [[_ [=]]|[= ->]]). by apply Hx.
Qed.

Lemma performs_size_var {A} name var (k : Z * cstring → M sh A) (Q : list call → A + halt → Prop) :
  (∀ kib c b c2, c.1 = 0 → c2.1 = 0 →
     performs (k (0, substituted b.2)) (λ l, Q (size_calls (strip_version name) var kib c b c2 ++ l))) →
  (∀ l, no_dd l → performs (k (11, [])) (λ l', Q (l ++ l'))) →
  performs (get_part_size_var_B name var ≫= k) Q.
Proof.
  intros Hk Hx. eapply (performs_subshell _ _ _ (λ l o,
    (∃ kib c b c2, c.1 = 0 ∧ c2.1 = 0 ∧ l = size_calls (strip_version name) var kib c b c2 ∧
       o = inl (0, substituted b.2)) ∨ (no_dd l ∧ o = inr (Exited 11)))).
  - apply performs_output. intros kib. cbn [fst snd].
    apply performs_validate; [|intros c; right; split; [quiet_calls|done] ]. intros c Hc.
    apply performs_output. intros b. cbn [fst snd].
    apply performs_validate; [|intros c2; right; split; [quiet_calls|done] ]. intros c2 Hc2.
    apply performs_ret. left. by exists kib, c, b, c2.
  - intros l a [(kib & c & b & c2 & Hc & Hc2 & -> & [= ->])|[_ [=]]]. by apply Hk.
  - intros l c [(kib & c' & b & c2 & _ & _ & _ & [=])|[Hl [= ->]]]. by apply Hx.
  - intros l h [(kib & c & b & c2 & _ & _ & _ & [=])|[_ [= ->]]]. by left; eexists.
Qed.

Lemma performs_device {A} (k : Z * cstring → M sh A) (Q : list call → A + halt → Prop) :
  (∀ m n t, m.1 = 0 → n.1 = 0 → t.1 = 0 →
     performs (k (0, "/dev/" ++ substituted n.2)) (λ l, Q (device_calls m n t ++ l))) →
  (∀ l msg, no_dd l → performs (k (1, msg)) (λ l', Q (l ++ l'))) →
  performs (get_device_for_mbl_partitions ≫= k) Q.
Proof.
  intros Hk Hx. eapply (performs_bind _ _ (λ l o,
    (∃ m n t, m.1 = 0 ∧ n.1 = 0 ∧ t.1 = 0 ∧ l = device_calls m n t ∧
       o = inl (0, "/dev/" ++ substituted n.2)) ∨ (no_dd l ∧ ∃ msg, o = inl (1, msg)))).
  - apply performs_output. intros m. cbn [fst snd].
    destruct (Z.eqb_spec m.1 0) as [Hm|]; cbn [negb];
      [|apply performs_ret; right; split; [quiet_calls|by eexists] ].
    apply performs_run. intros n.
    destruct (Z.eqb_spec n.1 0) as [Hn|]; cbn [negb];
      [|apply performs_ret; right; split; [quiet_calls|by eexists] ].
    apply performs_status. intros t.
    destruct (Z.eqb_spec t.1 0) as [Ht|]; cbn [negb]; apply performs_ret;
      [|right; split; [quiet_calls|by eexists] ].
    left. by exists m, n, t.
  - intros l a [(m & n & t & Hm & Hn & Ht & -> & [= ->])|[Hl [msg [= ->]]]]; [by apply Hk|by apply Hx].
  - intros l h [(m & n & t & _ & _ & _ & _ & [=])|[_ [msg [=]]]].
Qed.

(** The answers to the commands of a run that writes the flash. *)
Record flash := {
  fl_name : Z * cstring; fl_skip : Z * cstring;
  fl_size_KiB : Z * cstring; fl_size : Z * cstring;
  fl_offset_KiB : Z * cstring; fl_offset : Z * cstring;
  fl_mounts : Z * cstring; fl_device : Z * cstring; fl_actual : Z * cstring; fl_dd : Z * cstring;
  fl_checks : (Z * cstring) * (Z * cstring) * (Z * cstring) * (Z * cstring);
  fl_xzcat : Z * cstring; fl_test : Z * cstring
}.

(** The partition is the one that the image is named after. *)
Definition flash_part (f : flash) : cstring := strip_version (substituted (fl_name f).2).

Definition flash_calls (path : cstring) (f : flash) : list call :=
  let file := strip_suffix ".xz" path in
  let '(c1, c2, c3, c4) := fl_checks f in
  [ Called ["basename" : cstring; path; ".xz" : cstring] [] (fl_name f);
    Called ["cat" : cstring; part_info (flash_part f ++ "_SKIP")] [] (fl_skip f) ] ++
  size_calls (flash_part f) "SIZE" (fl_size_KiB f) c1 (fl_size f) c2 ++
  size_calls (flash_part f) "OFFSET_BANK1" (fl_offset_KiB f) c3 (fl_offset f) c4 ++
  [ Called ["xzcat" : cstring; path; ">" : cstring; file] [] (fl_xzcat f) ] ++
  device_calls (fl_mounts f) (fl_device f) (fl_test f) ++
  [ Called ["wc" : cstring; "-c" : cstring; "<" : cstring; file] [] (fl_actual f);
    Called ["dd" : cstring; "if=" ++ file;
            "of=" ++ substituted (printf_line ("/dev/" ++ substituted (fl_device f).2));
            "oflag=seek_bytes" : cstring; "conv=fsync" : cstring;
            "seek=" ++ substituted (fl_offset f).2] [] (fl_dd f) ].

(** Every command before [dd] succeeded, and the test let the image pass. *)
Record flash_ok (f : flash) : Prop := {
  fo_skip : substituted (fl_skip f).2 ≠ ("1" : cstring);
  fo_checks : (fl_checks f).1.1.1.1 = 0 ∧ (fl_checks f).1.1.2.1 = 0 ∧
              (fl_checks f).1.2.1 = 0 ∧ (fl_checks f).2.1 = 0;
  fo_xzcat : (fl_xzcat f).1 = 0;
  fo_device : (fl_mounts f).1 = 0 ∧ (fl_device f).1 = 0 ∧ (fl_test f).1 = 0;
  fo_actual : (fl_actual f).1 = 0;
  fo_test : test_gt (substituted (fl_actual f).2) (substituted (fl_size f).2) = false
}.

Definition flashes (path : cstring) (l : list call) : Prop :=
  ∃ f rest, l = flash_calls path f ++ rest ∧ no_dd rest ∧ flash_ok f.

Ltac no_dd_left := left; cbn [Datatypes.app];
  repeat first [ apply Forall_nil; done | apply no_dd_size | apply no_dd_device | assumption
               | apply no_dd_app | apply Forall_cons; split; [discriminate|] ].

Lemma performs_bootloader path :
  performs (update_bootloader_or_die path) (λ l _, no_dd l ∨ flashes path l).
Proof.
  unfold update_bootloader_or_die, get_part_size_B, get_part_offset_B.
  apply performs_output. intros name. cbn [fst snd].
  eapply (performs_bind _ _ (λ l o, ∃ skip,
    l = [Called ["cat" : cstring; part_info (strip_version (substituted name.2) ++ "_SKIP")] [] skip] ∧
    o = inl (bool_decide (substituted skip.2 = ("1" : cstring))))).
  { apply performs_output. intros skip. apply performs_ret. by exists skip. }
  2: { intros l h (skip & _ & [=]). }
  intros l skipped (skip & -> & [= ->]).
  destruct (bool_decide (substituted skip.2 = _)) eqn:Hskip; [apply performs_exit; no_dd_left|].
  apply bool_decide_eq_false in Hskip.
  apply performs_size_var; [|intros l Hl; apply performs_exit_bind; no_dd_left].
  intros kib c1 size c2 Hc1 Hc2. change (performs (exit_on_error 0 ≫= ?k)) with (performs (k tt)). cbn [fst snd].
  apply performs_size_var; [|intros l Hl; apply performs_exit_bind; no_dd_left].
  intros kib2 c3 offset c4 Hc3 Hc4. change (performs (exit_on_error 0 ≫= ?k)) with (performs (k tt)). cbn [fst snd].
  apply performs_or_exit; [|intros r _; no_dd_left]. intros x Hx.
  unfold write_to_flash_or_die. apply performs_assoc.
  apply performs_device; [|intros l msg Hl; apply performs_assoc, performs_exit_bind; no_dd_left].
  intros m n t Hm Hn Ht. cbn [fst snd].
  change (performs ((exit_on_error 0 ≫= ?k) ≫= ?k') ?Q) with (performs (k tt ≫= k') Q).
  apply performs_assoc, performs_output. intros actual. cbn [fst snd].
  destruct (Z.eqb_spec actual.1 0) as [Ha|]; cbn [negb]; [|apply performs_exit_bind; no_dd_left].
  destruct (test_gt _ _) eqn:Htest; [apply performs_exit_bind; no_dd_left|].
  apply performs_assoc.
  assert (∀ dd rest, no_dd rest → flashes path (flash_calls path (Build_flash name skip kib size kib2 offset
    m n actual dd (c1, c2, c3, c4) x t) ++ rest)) as Hdone.
  { intros dd rest Hrest. eexists _, rest. split; [reflexivity|]. split; [done|]. by split. }
  apply performs_or_exit; [|intros r _; right; exact (Hdone r [] (Forall_nil_2 _))].
  intros r _. apply performs_assoc, performs_status. intros sync.
  change (performs (mret tt ≫= ?k) ?Q) with (performs (k tt) Q).
  unfold remove_do_not_reboot_flag_or_die, or_exit. apply performs_status. intros rm.
  assert (no_dd [Called ["sync" : cstring] [] sync; Called ["rm" : cstring; "-f" : cstring; do_not_reboot] [] rm])
    as Hrest by quiet_calls.
  destruct (rm.1 =? 0); [apply performs_ret|apply performs_exit]; right; exact (Hdone r _ Hrest).
Qed.

(** [expr n * 1024] prints the product. *)
Class ExprLaw : Prop := {
  expr_multiplies a n d :
    digits a = Some n → n * 1024 < 2 ^ 63 →
    test_int (substituted (run ["expr" : cstring; a; "*" : cstring; "1024" : cstring] [] d).1.2) = Some (n * 1024)
}.

Lemma performed_answer l s s' c :
  performed l s s' → c ∈ l → ∃ d, (run (called c) (fed c) d).1 = answer c.
Proof.
  induction 1 as [s|argv i r d l s s' Hr _ IH]; [by intros ?%not_elem_of_nil|].
  intros [->|Hc]%elem_of_cons; [|by apply IH]. exists (sh_device s). simpl. by rewrite Hr.
Qed.

(** A size of a partition, in bytes. *)
Lemma size_in_bytes `{!ExprLaw} l s s' part var kib c b c2 n :
  performed l s s' → size_calls part var kib c b c2 ⊆ l →
  digits (substituted kib.2) = Some n → n * 1024 < 2 ^ 63 → test_int (substituted b.2) = Some (n * 1024).
Proof.
  intros Hl Hin Hn Hmax.
  destruct (performed_answer _ _ _
    (Called ["expr" : cstring; substituted kib.2; "*" : cstring; "1024" : cstring] [] b) Hl) as [d Hd].
  { apply Hin. unfold size_calls. do 2 right. by left. }
  simpl in Hd. rewrite <- Hd. by apply expr_multiplies.
Qed.

(** C24: the boot loader installer writes to the flash only an image that fits
    its partition. The commands of a run, with what each answered in it, contain
    no [dd], or they are exactly these: the partition is the one that the image
    is named after and is not skipped; its size and the offset of its first bank
    are read from its part info files ([SIZE_KiB], [OFFSET_BANK1_KiB]), checked,
    multiplied by 1024 and checked again; the image is decompressed; the device
    of the root partition is found; the decompressed file is measured; and one
    [dd] writes that file, at that offset, to that device. If the part info file
    of the size says [n] KiB, what was measured is at most [n * 1024] bytes, and
    if the one of the offset says [n] KiB, the [dd] seeks to [n * 1024] bytes
    (for numbers of bytes below 2^63, [expr] printing the product). *)
Theorem bootloader_fits_partition `{Hexpr : !ExprLaw} path s :
  ∃ l, performed l s (final (update_bootloader_or_die path s)) ∧
    (no_dd l ∨
     ∃ f rest, l = flash_calls path f ++ rest ∧ no_dd rest ∧ flash_ok f ∧
       (∀ n b, digits (substituted (fl_size_KiB f).2) = Some n → n * 1024 < 2 ^ 63 →
          test_int (substituted (fl_actual f).2) = Some b → b ≤ n * 1024) ∧
       (∀ n, digits (substituted (fl_offset_KiB f).2) = Some n → n * 1024 < 2 ^ 63 →
          test_int (substituted (fl_offset f).2) = Some (n * 1024))).
Proof.
  destruct (performs_bootloader path s) as (l & Hl & Hd). exists l. split; [done|].
  destruct Hd as [Hno|(f & rest & -> & Hrest & Hok)]; [by left|right]. exists f, rest.
  split; [done|]. split; [done|]. split; [done|].
  assert (∃ c1 c2 c3 c4,
    size_calls (flash_part f) "SIZE" (fl_size_KiB f) c1 (fl_size f) c2 ⊆ flash_calls path f ++ rest ∧
    size_calls (flash_part f) "OFFSET_BANK1" (fl_offset_KiB f) c3 (fl_offset f) c4 ⊆ flash_calls path f ++ rest)
    as (c1 & c2 & c3 & c4 & Hin1 & Hin2).
  { destruct f as [? ? ? ? ? ? ? ? ? ? [[[c1 c2] c3] c4] ? ?]. exists c1, c2, c3, c4.
    unfold flash_calls. cbn [fl_checks]. split; intros c Hc; rewrite !elem_of_app; tauto. }
  split.
  - intros n b Hn Hmax Hb. pose proof (size_in_bytes _ _ _ _ _ _ _ _ _ _ Hl Hin1 Hn Hmax) as Hm.
    pose proof (fo_test f Hok) as Ht. unfold test_gt in Ht. rewrite Hb, Hm in Ht. by apply Z.ltb_ge in Ht.
  - intros n Hn Hmax. by eapply size_in_bytes.
Qed.
End flash.
