(* ===== verification/UpdateDevice.v ===== *)
(** * A device for the update scripts

    Commands, a swupdate and an application installer that satisfy what
    [UpdateScriptsProps] assumes of them, and its properties on a board. *)

From stdpp Require Import base gmap strings list.
From Stdlib Require Import ZArith Ascii Lia.
From S2P Require Import Prelude.
From S2P Require Import CString.
From S2P Require Import Posix.
From S2P Require Import Swupdate.
From S2P Require Import SwupdateProps.
From S2P Require Import SwupdateHandler.
From S2P Require Import SwupdateClaims.
From S2P Require Import CloudClient.
From S2P Require Import Py.
From S2P Require Import Shell.
From S2P Require Import UpdateScripts.
From S2P Require Import UpdateScriptsProps.

Open Scope Z_scope.
Open Scope list_scope.

#[local] Existing Instance ref_swupdate.
#[local] Existing Instance no_faults.
#[local] Existing Instance default_config.

#[export] Instance demo_script_config : ScriptConfig :=
  {| PAYLOAD_TMP_DIR := "/tmp/arm_update_activate" |}.

(** ** The commands *)

Definition ok (out : cstring) (w : world) : (Z * cstring) * world := ((0, out), w).

Definition on_fs (r : fs + Z) (w : world) : (Z * cstring) * world :=
  match r with inl f => ok [] (set_fs f w) | inr _ => ((1, []), w) end.

Definition EFBIG : Z := 27.

Definition fs_cp (a b : cstring) (f : fs) : fs + Z :=
  match fs_read f a with
  | None => inr ENOENT
  | Some i =>
      if strlen (i_data i) <? 2 ^ 59 then
        match fs_creat f b with
        | inl f' => inl (fs_write f' b (i_data i))
        | inr e => inr e
        end
      else inr EFBIG
  end.

Definition demo_run (argv : list cstring) (input : cstring) (w : world)
  : (Z * cstring) * world :=
  match argv with
  | [c; p] =>
      if bool_decide (c = ("touch" : cstring)) then on_fs (fs_creat (w_fs w) p) w
      else if bool_decide (c = ("realpath" : cstring)) then ok (printf_line p) w
      else if bool_decide (c = ("dirname" : cstring)) then ok (printf_line (dirname p)) w
      else ok [] w
  | [c; a; b] =>
      if bool_decide (c = ("cp" : cstring)) then on_fs (fs_cp a b (w_fs w)) w
      else if bool_decide (c = ("rm" : cstring)) && bool_decide (a = ("-f" : cstring)) then
        match f_nodes (w_fs w) !! b with
        | None => ok [] w
        | Some Dir => ((1, []), w)
        | Some (Reg _) => on_fs (fs_remove (w_fs w) b) w
        end
      else ok [] w
  | _ => ok [] w
  end.

(** They change only the board. *)
Definition demo_on_board {X} (argv : list cstring) (input : cstring) (d : world * X)
  : (Z * cstring) * (world * X) :=
  let '(r, w) := demo_run argv input d.1 in (r, (w, d.2)).

#[export] Instance demo_programs X : Programs X := {| run := demo_on_board |}.

(** ** swupdate and the installer of the applications *)

Fixpoint install_each {X} (h : image → M (sh X) Z) (l : list image) : M (sh X) Z :=
  match l with
  | [] => mret 0
  | i :: l' => λ s,
      match h i s with
      | Done c s' => if c =? 0 then install_each h l' s' else Done 1 s'
      | Halted _ s' => Done 1 s'
      end
  end.

(** Every package holds one root file system. *)
Definition demo_images : list image :=
  [{| img_kind := ROOTFSv4; filename := "rootfs.img"; img := demo_img |}].

Definition swupdate_of (X : Type) (l : list image) : UpdateScripts.Swupdate X := {|
  copy2file := λ _ _ d, Done 0 d;
  swupdate_i := λ h _, install_each h l;
  images_of := λ _ _, l
|}.

Lemma install_each_law {X} (h : image → M (sh X) Z) l s :
  ∃ r s', install_each h l s = Done r s' ∧ tried h l r s s'.
Proof.
  revert s. induction l as [|i l IH]; intros s; [by eexists 0, s; split; [|constructor]|].
  simpl. destruct (h i s) as [c s1|hh s1] eqn:Hh.
  2:{ exists 1, s1. split; [done|]. by eapply tried_died. }
  destruct (Z.eqb_spec c 0) as [->|].
  - destruct (IH s1) as (r & s2 & Heq & Hok). exists r, s2. split; [done|]. by eapply tried_next.
  - exists 1, s1. split; [done|]. by eapply tried_failed.
Qed.

Lemma fs_creat_nodes f b f' q : fs_creat f b = inl f' → q ≠ b → f_nodes f' !! q = f_nodes f !! q.
Proof.
  unfold fs_creat. destruct (f_nodes f !! b) as [[|]|]; [done|by intros [= <-]|].
  case_match; [|done]. intros [= <-] Hq. by apply lookup_insert_ne.
Qed.

Lemma fs_write_nodes f b d : f_nodes (fs_write f b d) = f_nodes f.
Proof. unfold fs_write. by destruct (f_nodes f !! b) as [[|]|]. Qed.

Lemma demo_rm p i w :
  demo_run ["rm" : cstring; "-f" : cstring; p] i w =
  match f_nodes (w_fs w) !! p with
  | None => ok [] w
  | Some Dir => ((1, []), w)
  | Some (Reg _) => on_fs (fs_remove (w_fs w) p) w
  end.
Proof. reflexivity. Qed.

Lemma demo_cp a b i w :
  demo_run ["cp" : cstring; a; b] i w = on_fs (fs_cp a b (w_fs w)) w.
Proof. reflexivity. Qed.

Lemma on_board {X} argv i (d d' : world * X) r :
  run argv i d = (r, d') → demo_run argv i d.1 = (r, d'.1) ∧ d'.2 = d.2.
Proof.
  cbn [run demo_programs]. unfold demo_on_board. destruct (demo_run argv i d.1) as [r' w'].
  by intros [= <- <-].
Qed.

Lemma demo_script_laws X l : ScriptLaws (Swupdate0 := swupdate_of X l).
Proof.
  split.
  - intros d r d' [Hr _]%on_board. rewrite demo_rm in Hr. revert Hr.
    destruct (f_nodes (w_fs d.1) !! do_not_reboot) as [[|k]|] eqn:Hn.
    + by intros [= <- _].
    + destruct (fs_remove (w_fs d.1) do_not_reboot) as [f|e] eqn:Hf; intros [= <- <-]; [|done].
      intros _. by eapply fs_remove_frame.
    + by intros [= <- <-] _.
  - intros d r d' [Hr _]%on_board. revert Hr.
    change (demo_run ["touch" : cstring; do_not_reboot] [] d.1)
      with (on_fs (fs_creat (w_fs d.1) do_not_reboot) d.1).
    destruct (fs_creat (w_fs d.1) do_not_reboot) as [f|e] eqn:Hc; intros [= <- <-]; [|done].
    intros _. simpl. revert Hc. unfold fs_creat.
    destruct (f_nodes (w_fs d.1) !! do_not_reboot) as [[|k]|] eqn:Hn; [done|intros [= <-]; by rewrite Hn|].
    case_match; [|done]. intros [= <-]. simpl. by rewrite lookup_insert_eq.
  - intros a b d r d' [Hr _]%on_board. revert Hr. rewrite demo_cp. unfold fs_cp.
    destruct (fs_read (w_fs d.1) a) as [i|]; [|by intros [= <- <-]].
    destruct (strlen _ <? _); [|by intros [= <- <-]].
    destruct (fs_creat (w_fs d.1) b) as [f|e] eqn:Hc; intros [= <- <-]; [|done].
    simpl. split.
    + intros q Hq. rewrite fs_write_nodes. by eapply fs_creat_nodes.
    + intros _ _. revert Hc. unfold fs_creat.
      destruct (f_nodes (w_fs d.1) !! b) as [[|k]|] eqn:Hn; [done|intros [= <-]|].
      * unfold fs_write, fs_read. rewrite Hn. simpl. rewrite Hn, lookup_insert_eq. by eexists.
      * case_match; [|done]. intros [= <-]. unfold fs_write, fs_read. simpl.
        rewrite !lookup_insert_eq. simpl. rewrite !lookup_insert_eq. by eexists.
  - intros argv d r d' Ha [Hr _]%on_board.
    assert (demo_run argv [] d.1 = ok [] d.1) as Heq by (by destruct Ha as [->|[->| ->]]).
    rewrite Heq in Hr. injection Hr as _ <-. by split.
  - intros p d r d' [Hr _]%on_board. revert Hr.
    change (demo_run ["dirname" : cstring; p] [] d.1) with (ok (printf_line (dirname p)) d.1).
    by intros [= <- <-].
  - intros i p d. by exists 0, d.
  - intros h p s. apply install_each_law.
Qed.

(** A board without applications. *)
#[export] Instance demo_swupdate : UpdateScripts.Swupdate unit := swupdate_of unit demo_images.
#[export] Instance demo_laws : ScriptLaws := demo_script_laws unit demo_images.
#[export] Instance demo_apps_installer : AppsInstaller unit := {| apps_installer := λ _ d, Done 0 d |}.
#[export] Instance demo_apps_laws : AppsLaws.
Proof. split. by intros p d c d' [= _ <-]. Qed.

(** ** The properties on a board *)

Definition header_path : cstring := "/tmp/header".

(** The board, with the header of a package. *)
Definition board_with_header : sh unit := {|
  sh_device := (set_fs
    {| f_nodes := <[header_path := Reg 5]> (f_nodes (w_fs board35));
       f_inodes := <[5%nat := {| i_data := "HDR"; i_size := 3 |}]> (f_inodes (w_fs board35));
       f_next := 6 |} board35, tt);
  sh_trace := [] |}.

Definition package : cstring := "/tmp/package.swu".
Definition board_activated : sh unit := final (arm_update_activate package header_path board_with_header).

Lemma board_activation :
  arm_update_activate package header_path board_with_header = Done 0 board_activated.
Proof.
  assert (result (arm_update_activate package header_path board_with_header) = Some 0) as Hr
    by (vm_compute; reflexivity).
  exact (result_final _ _ Hr).
Qed.

Definition board_reboot : M world unit := modify (λ w, w).

Lemma activation_result_witness :
  ∃ w2, pal_plat_osApplicationReboot board_reboot (sh_world board_activated) = board_reboot w2 ∧
        w_fs w2 = sh_fs board_activated.
Proof.
  destruct (activation_result package header_path board_with_header board_reboot
              (eq_refl : @TMP_DIR default_config = "/tmp"))
    as (c & s' & Hrun & Hok).
  rewrite board_activation in Hrun. apply done_inj in Hrun as [<- <-].
  destruct (Hok eq_refl) as (path & s0 & s1 & _ & _ & _ & _ & Hre & _).
  apply Hre. by left.
Defined.

Definition board_before : sh unit := final (before_swupdate package board_with_header).
Definition board_installed : sh unit := final (swupdate_i handler package board_before).

Lemma board_before_eq : before_swupdate package board_with_header = Done package board_before.
Proof.
  assert (result (before_swupdate package board_with_header) = Some package) as Hr
    by (vm_compute; reflexivity).
  exact (result_final _ _ Hr).
Qed.

Lemma board_installed_eq : swupdate_i handler package board_before = Done 0 board_installed.
Proof.
  assert (result (swupdate_i handler package board_before) = Some 0) as Hr
    by (vm_compute; reflexivity).
  exact (result_final _ _ Hr).
Qed.

Lemma board_no_dir : f_nodes (sh_fs board_installed) !! SAVED_HEADER_PATH ≠ Some Dir.
Proof. apply (bool_decide_unpack _). vm_compute. exact I. Qed.

Lemma active_header_is_the_last_witness :
  ∃ c s2 dir, arm_update_active_details header_path board_activated = Done c s2 ∧
    (c = 0 ∨ c = 22) ∧
    (c = 0 → f_nodes (sh_fs board_activated) !! path_join dir "header.bin" ≠ Some Dir →
     ∃ i, fs_read (sh_fs s2) (path_join dir "header.bin") = Some i ∧
          Some (i_data i) = i_data <$> fs_read (sh_fs board_installed) header_path).
Proof.
  exact (active_header_is_the_last package header_path header_path board_with_header
           board_activated board_installed package board_before board_activation
           board_before_eq board_installed_eq board_no_dir).
Defined.

(** *** A boot loader *)

(** The commands of [bootloader_installer.sh]; [xzcat] copies, the root partition
    is on mmcblk0. *)
Definition flash_run (argv : list cstring) (input : cstring) (d : world * unit)
  : (Z * cstring) * (world * unit) :=
  match argv with
  | [c; p] =>
      if bool_decide (c = ("cat" : cstring)) then
        match fs_read (w_fs d.1) p with Some i => ((0, i_data i), d) | None => ((1, []), d) end
      else if bool_decide (c = ("awk" : cstring)) then ((0, printf_line "mmcblk0"), d)
      else ((0, []), d)
  | [c; a; b] =>
      if bool_decide (c = ("basename" : cstring)) then
        ((0, printf_line (strip_suffix b (reverse (take_until "/"%char (reverse a))))), d)
      else if bool_decide (c = ("grep" : cstring)) then
        (match digits (substituted input) with Some _ => 0 | None => 1 end, [], d)
      else ((0, []), d)
  | [c; a; x; b] =>
      if bool_decide (c = ("expr" : cstring)) then
        match digits a with
        | Some n => ((if n =? 0 then 1 else 0, printf_line (str_nat (n * 1024))), d)
        | None => ((2, []), d)
        end
      else if bool_decide (c = ("xzcat" : cstring)) then
        let '(r, w) := on_fs (fs_cp a b (w_fs d.1)) d.1 in (r, (w, d.2))
      else if bool_decide (c = ("wc" : cstring)) then
        match fs_read (w_fs d.1) b with
        | Some i => ((0, printf_line (str_nat (strlen (i_data i)))), d)
        | None => ((1, []), d)
        end
      else ((0, []), d)
  | _ => ((0, []), d)
  end.

Definition flash_programs : Programs unit := {| run := flash_run |}.

Lemma flash_expr : ExprLaw (H := flash_programs).
Proof.
  split. intros a n d Hn Hmax.
  change (run (Programs := flash_programs) _ _ d) with (flash_run ["expr" : cstring; a; "*" : cstring; "1024" : cstring] [] d).
  unfold flash_run. rewrite bool_decide_eq_true_2 by done. rewrite Hn.
  apply digits_nonneg in Hn. by apply test_int_printed; lia.
Qed.

(** The boot loader has 1 KiB at 33 KiB, and is as long as that. *)
Definition loader_path : cstring := "/tmp/WKS_BOOTLOADER1v3.xz".
Definition loader_size : cstring := part_info "WKS_BOOTLOADER1_SIZE_KiB".
Definition loader_offset : cstring := part_info "WKS_BOOTLOADER1_OFFSET_BANK1_KiB".
Definition a_file (d : cstring) : inode := {| i_data := d; i_size := strlen d |}.
Definition board_with_loader : sh unit := {|
  sh_device := (set_fs
    {| f_nodes := <[loader_path := Reg 5]> (<[loader_size := Reg 6]> (<[loader_offset := Reg 7]>
                    (f_nodes (w_fs board35))));
       f_inodes := <[5%nat := a_file (replicate 1024 "x"%char)]>
                    (<[6%nat := a_file (printf_line "1")]> (<[7%nat := a_file (printf_line "33")]>
                    (f_inodes (w_fs board35))));
       f_next := 8 |} board35, tt);
  sh_trace := [] |}.

Definition loader_written : sh unit :=
  final (update_bootloader_or_die (H := flash_programs) loader_path board_with_loader).
Definition loader_dd : list cstring :=
  ["dd" : cstring; "if=/tmp/WKS_BOOTLOADER1v3" : cstring; "of=/dev/mmcblk0" : cstring;
   "oflag=seek_bytes" : cstring; "conv=fsync" : cstring; "seek=33792" : cstring].

Example loader_dd_runs : loader_dd ∈ sh_trace loader_written.
Proof. apply (bool_decide_unpack _). vm_compute. exact I. Qed.

Lemma performed_trace {X} `{Programs X} l s s' :
  performed l s s' → sh_trace s' = sh_trace s ++ (called <$> l).
Proof.
  induction 1 as [s|argv i r d l s s' _ _ IH]; [by rewrite fmap_nil, app_nil_r|].
  rewrite IH, fmap_cons. cbn [sh_trace called]. by rewrite <- (assoc_L (++)).
Qed.

Lemma no_dd_trace {X} `{Programs X} l s s' argv :
  performed l s s' → no_dd l → sh_trace s = [] → argv ∈ sh_trace s' → head argv ≠ Some ("dd" : cstring).
Proof.
  intros Hl Hno Hs. rewrite (performed_trace l s s' Hl), Hs. cbn [Datatypes.app].
  intros (c & -> & Hc)%list_elem_of_fmap. unfold no_dd in Hno. rewrite Forall_forall in Hno. by apply Hno.
Qed.

Lemma bootloader_fits_partition_witness :
  ∃ f rest, performed (H := flash_programs) (flash_calls loader_path f ++ rest) board_with_loader loader_written ∧
    flash_ok f ∧
    (∀ n b, digits (substituted (fl_size_KiB f).2) = Some n → n * 1024 < 2 ^ 63 →
       test_int (substituted (fl_actual f).2) = Some b → b ≤ n * 1024).
Proof.
  destruct (bootloader_fits_partition (H := flash_programs) (Hexpr := flash_expr) loader_path board_with_loader)
    as (l & Hl & [Hno|(f & rest & -> & _ & Hok & Hfit & _)]).
  - exfalso. by apply (no_dd_trace l _ _ loader_dd Hl Hno (eq_refl : sh_trace board_with_loader = []) loader_dd_runs).
  - exists f, rest. by split_and!.
Defined.

(** ** A package that fails half-way *)

Definition two_images : list image :=
  demo_images ++ [{| img_kind := APPSv3; filename := "apps.tar"; img := demo_img |}].

Definition apps_fail : AppsInstaller unit := {| apps_installer := λ _ d, Done 47 d |}.

Definition half_way : outcome (sh unit) Z :=
  arm_update_activate (Swupdate0 := swupdate_of unit two_images) (AppsInstaller0 := apps_fail) package header_path
    board_with_header.

(** A package whose applications fail after its root file system was
    installed: the script reports a failure and does not save the header, but
    the new bank stays selected and nothing forbids a reboot any more, so the
    next boot runs the root file system of an update that was not accepted. *)
Theorem failed_package_switches_bank :
  result half_way = Some 25 ∧
  is_Some (f_nodes (sh_fs (final half_way)) !! bootflag_path) ∧
  f_nodes (sh_fs (final half_way)) !! do_not_reboot = None ∧
  f_nodes (sh_fs (final half_way)) !! SAVED_HEADER_PATH = None.
Proof.
  split; [vm_compute; reflexivity|]. split; [|split; vm_compute; reflexivity].
  apply (bool_decide_unpack _). vm_compute. exact I.
Qed.
