(* ===== verification/PackageUpdate.v ===== *)
(** * A package, from the activation script to the applications

    [arm_update_activate.sh] with the hand-over of [AppHandshake] as its
    installer of applications: the promise that [UpdateScripts] asks of that
    installer is discharged, and what an activation does is split into the
    commands of the script and the images it installs. *)

From stdpp Require Import base gmap strings list.
From Stdlib Require Import ZArith Ascii Lia.
From S2P Require Import Prelude.
From S2P Require Import CString.
From S2P Require Import Posix.
From S2P Require Import Swupdate.
From S2P Require Import SwupdateProps.
From S2P Require Import Py.
From S2P Require Import AppLifecycle.
From S2P Require Import AppVersions.
From S2P Require Import AppLifecycleProps.
From S2P Require Import AppManager.
From S2P Require Import AppUpdate.
From S2P Require Import AppUpdateProps.
From S2P Require Import AppInstall.
From S2P Require Import AppSurvive.
From S2P Require Import AppReboot.
From S2P Require Import Shell.
From S2P Require Import AppHandshake.
From S2P Require Import AppHandshakeProps.
From S2P Require Import AppSystem.
From S2P Require Import UpdateScripts.
From S2P Require Import UpdateScriptsProps.

Open Scope Z_scope.
Open Scope list_scope.

(** ** The phases of an activation *)

Section phases.
Context {X : Type} `{Env} `{Config} `{ScriptConfig} `{Programs X}.
Context `{SwupdateLib} `{!Swupdate X} `{!AppsInstaller X} `{!ScriptLaws}.
#[local] Abbreviation sh := (sh X).

(** The commands of the script itself. *)
Inductive issued (FIRMWARE HEADER : cstring) : list cstring → Prop :=
| is_realpath : issued FIRMWARE HEADER ["realpath" : cstring; FIRMWARE]
| is_rm : issued FIRMWARE HEADER ["rm" : cstring; "-rf" : cstring; PAYLOAD_TMP_DIR]
| is_mkdir : issued FIRMWARE HEADER ["mkdir" : cstring; "-p" : cstring; PAYLOAD_TMP_DIR]
| is_touch : issued FIRMWARE HEADER ["touch" : cstring; do_not_reboot]
| is_cp : issued FIRMWARE HEADER ["cp" : cstring; HEADER; SAVED_HEADER_PATH]
| is_sync : issued FIRMWARE HEADER ["sync" : cstring]
| is_restart : issued FIRMWARE HEADER restart_client.

(** [R] is what each of these commands keeps. *)
Context (FIRMWARE HEADER : cstring) (R : relation (world * X)) `{!PreOrder R}.
Context (Hissued : ∀ argv d r d', issued FIRMWARE HEADER argv → run argv [] d = (r, d') → R d d').

Definition stays (s s' : sh) : Prop := R (sh_device s) (sh_device s').

Class Stays {A} (m : M sh A) : Prop := stays_run s : stays s (final (m s)).

#[local] Instance stays_ret {A} (a : A) : Stays (mret a : M sh A).
Proof. intros s. unfold stays. reflexivity. Qed.
#[local] Instance stays_exit {A} c : Stays (exit c : M sh A).
Proof. intros s. unfold stays. reflexivity. Qed.
#[local] Instance stays_test_e p : Stays (test_e p : M sh bool).
Proof. intros s. unfold stays. reflexivity. Qed.
#[local] Instance stays_bind {A B} (m : M sh A) (k : A → M sh B) :
  Stays m → (∀ a, Stays (k a)) → Stays (m ≫= k).
Proof.
  intros Hm Hk s. specialize (Hm s). unfold mbind, M_bind. destruct (m s) as [a s1|h s1]; [|done].
  unfold stays in *. etrans; [exact Hm|apply Hk].
Qed.
#[local] Instance stays_if {A} (b : bool) (m1 m2 : M sh A) :
  Stays m1 → Stays m2 → Stays (if b then m1 else m2).
Proof. by destruct b. Qed.
#[local] Instance stays_exit_on_error c : Stays (exit_on_error c : M sh unit).
Proof. unfold exit_on_error. apply _. Qed.

Lemma stays_status argv : issued FIRMWARE HEADER argv → Stays (status argv : M sh Z).
Proof.
  intros Hi. apply stays_bind; [|intros r; apply _]. intros s. unfold stays, filter_out.
  destruct (run argv [] (sh_device s)) as [r d] eqn:Hr. by eapply Hissued.
Qed.
#[local] Hint Extern 2 (Stays (status _)) => apply stays_status; constructor : typeclass_instances.

Lemma stays_output argv : issued FIRMWARE HEADER argv → Stays (output argv : M sh _).
Proof.
  intros Hi. apply stays_bind; [|intros r; apply _]. intros s. unfold stays, filter_out.
  destruct (run argv [] (sh_device s)) as [r d] eqn:Hr. by eapply Hissued.
Qed.

#[local] Instance stays_clean_up : Stays (clean_up : M sh unit).
Proof. unfold clean_up. apply _. Qed.
#[local] Instance stays_set_up : Stays (set_up_payload_tmp_dir_or_die : M sh unit).
Proof. unfold set_up_payload_tmp_dir_or_die, or_exit. apply _. Qed.

(** What follows a successful swupdate. *)
Definition after_swupdate : M sh unit :=
  save_header_or_die HEADER;;
  flag ← test_e do_not_reboot;
  if (flag : bool) then c ← status restart_client; exit_on_error c else mret tt.

#[local] Instance stays_after : Stays after_swupdate.
Proof. unfold after_swupdate, save_header_or_die, or_exit. apply _. Qed.

Lemma clean_up_done s : ∃ s', clean_up s = Done tt s' ∧ stays s s'.
Proof.
  pose proof (stays_clean_up s) as Hs. unfold clean_up, status, filter_out, mbind, M_bind, mret, M_ret in *.
  destruct (run _ [] (sh_device s)) as [r d]. by eexists.
Qed.

(** A script that ends under the trap: how, and that the clean-up was all it added. *)
Lemma trap_done (m : M sh unit) s c s' :
  script (trap_exit clean_up m) s = Done c s' →
  ∃ s1, stays s1 s' ∧ ((m s = Done tt s1 ∧ c = 0) ∨ m s = Halted (Exited c) s1).
Proof.
  unfold script, subshell, trap_exit, mbind, M_bind, mret, M_ret.
  destruct (m s) as [[] s1|[|e|] s1]; try done;
    destruct (clean_up_done s1) as (s2 & -> & Hs); simpl; intros [= <- <-]; eauto.
Qed.

Lemma script_bind {A} (m : M sh A) (k : A → M sh unit) a s s1 :
  m s = Done a s1 → script (m ≫= k) s = script (k a) s1.
Proof.
  intros Hm. unfold script, subshell, mbind, M_bind. by rewrite Hm.
Qed.

Lemma script_exits {A} (m : M sh A) (k : A → M sh unit) e s s1 :
  m s = Halted (Exited e) s1 → script (m ≫= k) s = Done e s1.
Proof. intros Hm. unfold script, subshell, mbind, M_bind, mret, M_ret. by rewrite Hm. Qed.

Lemma output_done argv s : issued FIRMWARE HEADER argv →
  ∃ r s', output argv s = Done r s' ∧ stays s s'.
Proof.
  intros Hi. pose proof (stays_output argv Hi s) as Hs.
  unfold output, filter_out, mbind, M_bind, mret, M_ret in *.
  destruct (run _ [] (sh_device s)) as [r d]. by eexists _, _.
Qed.

Lemma status_done argv s : issued FIRMWARE HEADER argv →
  ∃ r s', status argv s = Done r s' ∧ stays s s'.
Proof.
  intros Hi. pose proof (stays_status argv Hi s) as Hs.
  unfold status, filter_out, mbind, M_bind, mret, M_ret in *.
  destruct (run _ [] (sh_device s)) as [r d]. by eexists _, _.
Qed.

(** The activation fails before it calls swupdate, or swupdate tries the images
    of the package; before and after that it is only commands of the script. *)
Lemma activate_phases s c s' :
  arm_update_activate FIRMWARE HEADER s = Done c s' →
  (stays s s' ∧ c ≠ 0) ∨
  ∃ path s0 r s1, before_swupdate FIRMWARE s = Done path s0 ∧ stays s s0 ∧
    tried handler (images_of path (sh_device s0)) r s0 s1 ∧ stays s1 s' ∧ (c = 0 → r = 0).
Proof using All.
  unfold arm_update_activate.
  destruct (output_done ["realpath" : cstring; FIRMWARE] s) as (p & s0 & Hp & St0); [constructor|].
  rewrite (script_bind _ _ _ _ _ Hp). destruct (negb (p.1 =? 0)) eqn:Hz.
  { intros [= <- <-]. by left. }
  destruct (set_up_payload_tmp_dir_or_die s0) as [[] s1|e s1] eqn:Hset.
  2:{ pose proof (stays_set_up s0) as St1. rewrite Hset in St1. simpl in St1.
      pose proof (_ : Dies (set_up_payload_tmp_dir_or_die : M sh unit)) as Hd. specialize (Hd s0).
      unfold wp in Hd. rewrite Hset in Hd. destruct Hd as (e0 & -> & He).
      rewrite (script_exits _ _ _ _ _ Hset). intros [= <- <-]. left.
      split; [by unfold stays in *; etrans|done]. }
  rewrite (script_bind _ _ _ _ _ Hset). intros (s4 & St4 & Hact)%trap_done. right.
  pose proof (stays_set_up s0) as St1. rewrite Hset in St1. simpl in St1.
  destruct (status_done ["touch" : cstring; do_not_reboot] s1) as (q & s2 & Ht & St2); [constructor|].
  destruct (swupdate_installs handler p.2 s2) as (r & s3 & Hsw & Htr).
  assert (activate p.2 HEADER s1 = (if negb (r =? 0) then exit 25 else after_swupdate) s3) as Heq.
  { unfold activate. by rewrite (bind_done _ _ _ _ _ Ht), (bind_done _ _ _ _ _ Hsw). }
  assert (stays s3 s4 ∧ (c = 0 → r = 0)) as [St3 Hcr].
  { rewrite Heq in Hact. destruct (Z.eqb_spec r 0) as [->|Hr]; simpl in Hact.
    - pose proof (stays_after s3) as Ha. split; [|done].
      by destruct Hact as [[Hx _]|Hx]; rewrite Hx in Ha.
    - destruct Hact as [[[=] _]|[= <- <-]]. split; [unfold stays; reflexivity|done]. }
  exists p.2, s2, r, s3. split_and!; [|by unfold stays in *; etrans; [|etrans]|done|by unfold stays in *; etrans|done].
  unfold before_swupdate. rewrite (bind_done _ _ _ _ _ Hp). cbv beta. rewrite Hz.
  rewrite (bind_done _ _ _ _ _ Hset). cbv beta. by rewrite (bind_done _ _ _ _ _ Ht).
Qed.
End phases.

(** ** The hand-over as the installer of applications *)

Section hand_over.
Context {K : Type} `{System K} `{Tar K}.
Context (UPDATE_PAYLOAD_DIR : cstring) (schedule : cstring → state (host K) → list action).

#[local] Abbreviation exec := (exec mbl_app_update_manager UPDATE_PAYLOAD_DIR).
#[local] Abbreviation run_all := (run_all mbl_app_update_manager UPDATE_PAYLOAD_DIR).

(** [schedule] is how the installer and the daemon take turns. An installer that
    still waits at the end of it is killed, and its exit status is that of
    SIGKILL. *)
Definition hand_over_to_daemon (p : cstring) : M (world * state (host K)) Z := λ d,
  let x := run_all (schedule p d.2) (exec (Start p) d.2) in
  match exit_code x with
  | Some c => Done c (d.1, x)
  | None => Done (128 + 9) (d.1, exec Kill x)
  end.

Definition hand_over : AppsInstaller (state (host K)) := {| apps_installer := hand_over_to_daemon |}.

(** It keeps the promise that the scripts rely on. *)
Lemma hand_over_laws `{Config} : AppsLaws (AppsInstaller0 := hand_over).
Proof.
  split. intros p d c d'. cbn [apps_installer hand_over]. unfold hand_over_to_daemon.
  by destruct (exit_code _); intros [= _ <-].
Qed.

(** Only the installer and the daemon take turns, and often enough. *)
Class FairSchedule : Prop := {
  schedule_process p x : Forall process (schedule p x);
  schedule_rounds p x :
    ∃ bs, schedule p x = concat bs ∧ Forall round bs ∧ (16 ≤ length bs)%nat
}.
End hand_over.

(** ** The images *)

Section images.
Context {X : Type} `{Env} `{Config} `{ScriptConfig} `{Programs X}.
Context `{SwupdateLib} `{!Swupdate X} `{!AppsInstaller X} `{!ScriptLaws}.
#[local] Abbreviation sh := (sh X).

Definition image_path (i : image) : cstring := path_join PAYLOAD_TMP_DIR (filename i).
Definition plain_name (i : image) : bool := forallb plain_char (image_path i).

Lemma plain_clean i : plain_name i = true → clean_name (image_path i).
Proof.
  unfold plain_name, clean_name. intros Hp Hl. apply last_Some in Hl as [s Hs]. rewrite Hs in Hp.
  rewrite forallb_app in Hp. simpl in Hp. by rewrite andb_false_r in Hp.
Qed.

(** An image for a script: its copy, and, when there is one, the installer. *)
Lemma lua_cases (installer : cstring → M sh Z) i s :
  ∃ c s1, on_device (copy2file i (image_path i)) s = Done c s1 ∧
    ((final (lua_handler installer i s) = s1 ∧ result (lua_handler installer i s) ≠ Some 0) ∨
     (plain_name i = true ∧
      final (lua_handler installer i s) = final (installer (image_path i) s1) ∧
      (result (lua_handler installer i s) = Some 0 → result (installer (image_path i) s1) = Some 0))).
Proof.
  destruct (copy2file_keeps i (image_path i) (sh_device s)) as (c & d & Hc & _).
  assert (on_device (copy2file i (image_path i)) s =
    Done c {| sh_device := d; sh_trace := sh_trace s |}) as Hcopy by (unfold on_device; by rewrite Hc).
  eexists c, _. split; [exact Hcopy|]. unfold lua_handler, copy_image_to_file.
  fold (image_path i). unfold mbind, M_bind, mret, M_ret. rewrite Hcopy.
  destruct (Z.eqb_spec c 0); cbn [negb fst snd]; [|by left]. cbn [Z.eqb negb].
  unfold run_installer, mbind, M_bind, mret, M_ret. fold (plain_name i).
  destruct (plain_name i); [right|by left]. split; [done|].
  destruct (installer (image_path i) _) as [c2 s2|h s2]; [|done].
  destruct (Z.eqb_spec c2 0) as [->|]; by cbn [negb Z.eqb].
Qed.
End images.

(** ** The applications of a package *)

Section package.
Context {K : Type} `{BundleLaws K} `{!AppsRoot K}.
Context (UPDATE_PAYLOAD_DIR : cstring) (schedule : cstring → state (host K) → list action).
Context `{Env} `{Config} `{ScriptConfig} `{Programs (state (host K))}.
Context `{SwupdateLib} `{!Swupdate (state (host K))} `{!ScriptLaws}.
#[local] Abbreviation sh := (sh (state (host K))).
#[local] Abbreviation disk := (disk (K := K)).
#[local] Instance apps : AppsInstaller (state (host K)) := hand_over UPDATE_PAYLOAD_DIR schedule.

(** What other programs do to the applications: nothing, and nothing to the
    hand-over. *)
Record aside (x x' : state (host K)) : Prop := {
  as_files : files x' = files x;
  as_installer : installer x' = installer x;
  as_daemon : daemon x' = daemon x;
  as_runs : runs x' = runs x;
  as_disk : coherent (disk x) → reboot (disk x) (disk x')
}.

#[export] Instance aside_preorder : PreOrder aside.
Proof.
  split.
  - intros x. by split; [..|apply reboot_refl].
  - intros x y z [F1 I1 D1 R1 K1] [F2 I2 D2 R2 K2].
    split; [by etrans..|]. intros Hc. pose proof (K1 Hc) as Hr1. apply (reboot_trans _ (disk y)); [done|].
    apply K2, Hr1.
Qed.

Lemma aside_idle x x' : aside x x' → idle x → idle x'.
Proof.
  intros [Hf Hi Hd Hr _] (i & (Hi1 & Hd1 & ? & ? & ? & ? & _) & Hx).
  exists i. split; [|done]. unfold at_. by rewrite Hi, Hd, Hf.
Qed.

(** The commands of the script, and swupdate when it copies an image, keep [R]. *)
Class Quiet (FIRMWARE HEADER : cstring) (R : relation (world * state (host K))) : Prop := {
  quiet_command argv d r d' : issued FIRMWARE HEADER argv → run argv [] d = (r, d') → R d d';
  quiet_copy i p d c d' : copy2file i p d = Done c d' → R d d'
}.

(** The update manager was run once with each archive, in turn, and returned. *)
Inductive managed : list cstring → host K → host K → Prop :=
| mg_nil h : managed [] h h
| mg_other ps h1 h2 h3 :
    (coherent (sys h1) → reboot (sys h1) (sys h2)) → managed ps h2 h3 → managed ps h1 h3
| mg_update p ps h m h3 :
    run_mbl_app_update_manager (new_manager p h) = Ret tt m → managed ps (the_host m) h3 →
    managed (p :: ps) h h3.

Lemma managed_app ps1 ps2 h1 h2 h3 :
  managed ps1 h1 h2 → managed ps2 h2 h3 → managed (ps1 ++ ps2) h1 h3.
Proof. induction 1; intros; simpl; [done|by eapply mg_other; eauto|eapply mg_update; eauto]. Qed.

Lemma aside_managed x x' : aside x x' → managed [] (system x) (system x').
Proof. intros Ha. eapply mg_other; [apply (as_disk _ _ Ha)|constructor]. Qed.

(** The archives of a package, where swupdate copies them. *)
Definition archives (l : list image) : list cstring :=
  omap (λ i, if decide (img_kind i = APPSv3) then Some (image_path i) else None) l.

(** A package for the root file system and the applications. *)
Definition image_ok (i : image) : Prop := img_kind i = ROOTFSv4 ∨ img_kind i = APPSv3.

Lemma rootfs_apps i s : img_kind i = ROOTFSv4 → (sh_device (final (handler i s))).2 = (sh_device s).2.
Proof.
  intros Hk. unfold handler. rewrite Hk. unfold on_world, on_device.
  by destruct (rootfsv4_handler _ _).
Qed.

Section installed.
Context (FIRMWARE HEADER : cstring).
Context `{!Quiet FIRMWARE HEADER (λ d d', aside d.2 d'.2)} `{!FairSchedule schedule}.
Context (Hdir : UPDATE_PAYLOAD_DIR = "/scratch").

(** An application image that was installed. *)
Lemma archive_installed i s s' :
  img_kind i = APPSv3 → handler i s = Done 0 s' → idle (sh_device s).2 →
  idle (sh_device s').2 ∧ runs (sh_device s').2 = runs (sh_device s).2 ++ [image_path i] ∧
  managed [image_path i] (system (sh_device s).2) (system (sh_device s').2).
Proof using All.
  intros Hk Hh Hidle. unfold handler in Hh. rewrite Hk in Hh.
  destruct (lua_cases (λ p, on_device (apps_installer p)) i s) as (c & s1 & Hcopy & Hres).
  rewrite Hh in Hres. destruct Hres as [[_ Hno]|(Hp & Hf & Hr)]; [by destruct Hno|].
  specialize (Hr eq_refl). simpl in Hf.
  assert (aside (sh_device s).2 (sh_device s1).2) as Ha.
  { unfold on_device in Hcopy. destruct (copy2file _ _ _) as [c' d|] eqn:Hc; [|done].
    injection Hcopy as _ <-. exact (quiet_copy (R := λ d d', aside d.2 d'.2) _ _ _ _ _ Hc). }
  pose proof (aside_idle _ _ Ha Hidle) as Hidle1. set (x1 := (sh_device s1).2) in *.
  assert (is_exit_code (mbl_app_update_manager (image_path i) (system x1)).1) as Hcode.
  { rewrite manager_exit_code. unfold is_exit_code. by destruct (run_mbl_app_update_manager _). }
  assert (∀ n : cstring, inst UPDATE_PAYLOAD_DIR n = scratch n) as Hsame
    by (intros n; unfold inst, scratch; by rewrite Hdir).
  destruct (handed_over mbl_app_update_manager UPDATE_PAYLOAD_DIR Hsame x1 (image_path i)
    (schedule (image_path i) x1) (plain_clean i Hp) Hcode Hidle1 (schedule_process schedule _ _)) as [Hdone _].
  unfold on_device in Hf, Hr. cbn [apps_installer apps hand_over] in Hf, Hr. unfold hand_over_to_daemon in Hf, Hr.
  fold x1 in Hf, Hr. destruct (exit_code _) as [e|] eqn:He; [|done].
  cbn [result] in Hr. injection Hr as ->.
  destruct (Hdone 0 eq_refl) as (Hz & Hidle2 & Hsys & Hruns). subst s'. cbn [sh_device final snd].
  split; [done|]. split; [by rewrite Hruns, (as_runs _ _ Ha)|].
  apply (managed_app [] [_] _ (system x1)); [by apply aside_managed|].
  rewrite manager_exit_code in Hz. rewrite manager_host in Hsys.
  destruct (run_mbl_app_update_manager (new_manager (image_path i) (system x1))) as [[] m|e m] eqn:Hrun; [|done].
  rewrite Hsys. eapply mg_update; [exact Hrun|constructor].
Qed.

Lemma handled_apps l s s' :
  Forall image_ok l → handled handler l s s' → idle (sh_device s).2 →
  idle (sh_device s').2 ∧ runs (sh_device s').2 = runs (sh_device s).2 ++ archives l ∧
  managed (archives l) (system (sh_device s).2) (system (sh_device s').2).
Proof using All.
  intros Hok. induction 1 as [s|i l s1 s2 s3 Hh _ IH]; intros Hidle.
  - split_and!; [done|by rewrite app_nil_r|constructor].
  - apply Forall_cons in Hok as [Hi Hl]. unfold archives. cbn [omap list_omap]. fold (archives l).
    destruct (decide (img_kind i = APPSv3)) as [Hk|Hk].
    + destruct (archive_installed i s1 s2 Hk Hh Hidle) as (Hid2 & Hr2 & Hm2).
      destruct (IH Hl Hid2) as (Hid3 & Hr3 & Hm3). split_and!; [done| |].
      * by rewrite Hr3, Hr2, <- (assoc_L (++)).
      * by apply (managed_app [image_path i] (archives l) _ (system (sh_device s2).2)).
    + destruct Hi as [Hi|]; [|done]. pose proof (rootfs_apps i s1 Hi) as Hsame. rewrite Hh in Hsame.
      simpl in Hsame. rewrite Hsame in IH. by apply IH.
Qed.

(** C7: a package reaches the applications. The activation script returns. With
    0, mbl-app-update-manager was run exactly once with each archive of the
    package, in the order of the package and one after the other, each of these
    runs unpacked, installed and started the applications of its archive without
    an error, nothing else changed the applications, and the hand-over is ready
    for the next package. *)
Theorem package_runs_the_manager `{!HonestEnv} `{!ConfigOk} s :
  idle (sh_device s).2 →
  (∀ path s0, before_swupdate FIRMWARE s = Done path s0 →
     Forall image_ok (images_of path (sh_device s0))) →
  ∃ c s', arm_update_activate FIRMWARE HEADER s = Done c s' ∧
  (c = 0 → ∃ path s0, before_swupdate FIRMWARE s = Done path s0 ∧
     let ps := archives (images_of path (sh_device s0)) in
     idle (sh_device s').2 ∧ runs (sh_device s').2 = runs (sh_device s).2 ++ ps ∧
     managed ps (system (sh_device s).2) (system (sh_device s').2)).
Proof using All.
  intros Hidle Hok. pose proof (hand_over_laws UPDATE_PAYLOAD_DIR schedule) as Hlaws.
  destruct (activate_installs FIRMWARE HEADER s) as (c & s' & Hrun & _).
  exists c, s'. split; [done|]. intros ->.
  assert (PreOrder (λ d d' : world * state (host K), aside d.2 d'.2)) as Hpre.
  { split; [intros d; reflexivity|]. intros d1 d2 d3 Ha Hb. by etrans. }
  destruct (activate_phases FIRMWARE HEADER (λ d d', aside d.2 d'.2)
    (quiet_command (R := λ d d' : world * state (host K), aside d.2 d'.2)) s 0 s' Hrun)
    as [[_ Hno]|(path & s0 & r & s1 & Hb & St0 & Htr & St1 & Hr)]; [done|].
  exists path, s0. split; [done|]. rewrite (Hr eq_refl) in Htr. apply tried_handled in Htr.
  destruct (handled_apps _ _ _ (Hok _ _ Hb) Htr (aside_idle _ _ St0 Hidle)) as (Hid1 & Hr1 & Hm1).
  split_and!.
  - by apply (aside_idle _ _ St1).
  - by rewrite (as_runs _ _ St1), Hr1, (as_runs _ _ St0).
  - rewrite <- (app_nil_r (archives _)). apply (managed_app _ _ _ (system (sh_device s1).2));
      [|by apply aside_managed].
    change (archives ?l) with ([] ++ archives l). eapply managed_app; [by apply aside_managed|done].
Qed.
End installed.
End package.
