(* ===== verification/WholeDevice.v ===== *)
(** * The whole device

    System and applications on one device, over boots, packages and losses of
    power: the scripts of [UpdateScripts] with the root file system handler of
    [Swupdate], the hand-over of [AppHandshake] with mbl-app-update-manager, the
    boot loader of [DeviceCycle] and the boot of the applications of [AppReboot].
    One theorem says what is left of them over any number of boots. *)

From stdpp Require Import base gmap strings list.
From Stdlib Require Import ZArith Ascii Lia.
From S2P Require Import Prelude.
From S2P Require Import CString.
From S2P Require Import Posix.
From S2P Require Import Swupdate.
From S2P Require Import SwupdateProps.
From S2P Require Import SwupdateHandler.
From S2P Require Import DeviceCycle.
From S2P Require Import Py.
From S2P Require Import AppLifecycle.
From S2P Require Import AppVersions.
From S2P Require Import AppLifecycleProps.
From S2P Require Import AppManager.
From S2P Require Import AppUpdate.
From S2P Require Import AppUpdateProps.
From S2P Require Import AppInstall.
From S2P Require Import AppSurvive.
From S2P Require Import AppReboot.
From S2P Require Import Shell.
From S2P Require Import AppHandshake.
From S2P Require Import AppHandshakeProps.
From S2P Require Import AppSystem.
From S2P Require Import UpdateScripts.
From S2P Require Import UpdateScriptsProps.
From S2P Require Import PackageUpdate.

Open Scope Z_scope.
Open Scope list_scope.

Section life.
Context {K : Type} `{BundleLaws K} `{!AppsRoot K} (UPDATE_PAYLOAD_DIR : cstring).
Implicit Types x : state (host K).

(** Every archive on the device is one that [payload_ok] describes. *)
Class ArchiveLaws : Prop := {
  archive_ok p (h : host K) : coherent (sys h) → payload_ok p h
}.

Context `{!ArchiveLaws}.

(** A life without a loss of power. *)
Definition lives_on x x' : Prop :=
  ∃ es, Forall (λ e, ¬ loses_power e) es ∧ life UPDATE_PAYLOAD_DIR x es x'.

Lemma life_app x1 es1 x2 es2 x3 :
  life UPDATE_PAYLOAD_DIR x1 es1 x2 → life UPDATE_PAYLOAD_DIR x2 es2 x3 →
  life UPDATE_PAYLOAD_DIR x1 (es1 ++ es2) x3.
Proof. induction 1; intros; simpl; [done|]. by econstructor; eauto. Qed.

#[export] Instance lives_on_preorder : PreOrder lives_on.
Proof.
  split.
  - intros x. exists []. by split; constructor.
  - intros x y z (es1 & Hq1 & Hl1) (es2 & Hq2 & Hl2). exists (es1 ++ es2).
    split; [by apply Forall_app|by eapply life_app].
Qed.

Lemma lives_on_stays x x' :
  coherent (disk x) → lives_on x x' → stays_on (disk x) (disk x').
Proof. intros Hc (es & Hq & Hl). by eapply life_stays. Qed.

Lemma lives_on_coherent x x' : coherent (disk x) → lives_on x x' → coherent (disk x').
Proof. intros Hc Hl. by eapply stays_coherent, lives_on_stays. Qed.

Lemma exec_lives_on a x :
  coherent (disk x) → lives_on x (exec mbl_app_update_manager UPDATE_PAYLOAD_DIR a x).
Proof using All.
  intros Hc. exists [Process a]. split; [by repeat constructor; intros []|].
  econstructor; [|constructor]. constructor. intros p _ _. by apply archive_ok.
Qed.

Lemma run_all_lives_on l x :
  coherent (disk x) → lives_on x (run_all mbl_app_update_manager UPDATE_PAYLOAD_DIR l x).
Proof using All.
  revert x. induction l as [|a l IH]; intros x Hc; [reflexivity|].
  pose proof (exec_lives_on a x Hc) as Ha. etrans; [exact Ha|]. apply IH.
  by apply (lives_on_coherent x).
Qed.

Lemma aside_lives_on x x' : coherent (disk x) → aside x x' → lives_on x x'.
Proof.
  intros Hc Ha. exists [Elsewhere]. split; [by repeat constructor; intros []|].
  econstructor; [|constructor]. constructor. by apply (as_disk _ _ Ha).
Qed.
End life.

Section whole.
Context {K : Type} `{BundleLaws K} `{!AppsRoot K} `{!ArchiveLaws (K := K)}.
Context (UPDATE_PAYLOAD_DIR : cstring) (schedule : cstring → state (host K) → list action).
Context `{Env} `{!HonestEnv} `{Config} `{!ConfigOk} `{ScriptConfig} `{Programs (state (host K))}.
Context `{SwupdateLib} `{!SwupdateLaws} `{!Swupdate (state (host K))} `{!ScriptLaws}.
Context `{Bootloader} (dev b1 b2 : cstring).
#[local] Instance the_apps : AppsInstaller (state (host K)) := hand_over UPDATE_PAYLOAD_DIR schedule.

(** The system and the applications. *)
Definition whole : Type := world * state (host K).

Definition undisturbed (d d' : whole) : Prop := calm dev b1 b2 d.1 d'.1 ∧ aside d.2 d'.2.

#[export] Instance undisturbed_preorder : PreOrder undisturbed.
Proof.
  split; [intros d; split; reflexivity|]. intros d1 d2 d3 [Hc1 Ha1] [Hc2 Ha2]. by split; etrans.
Qed.

Context `{Hquiet : !∀ FIRMWARE HEADER, Quiet FIRMWARE HEADER undisturbed}.

(** ** The packages *)

Definition rootfs_images (l : list image) : list image := filter (λ i, img_kind i = ROOTFSv4) l.

(** At most one root file system, and archives of applications. *)
Record package_ok (l : list image) : Prop := {
  pk_kinds : Forall image_ok l;
  pk_one : (length (rootfs_images l) ≤ 1)%nat
}.

Lemma package_rest i l : package_ok (i :: l) → package_ok l.
Proof.
  intros [[_ Hk]%Forall_cons Hone]. split; [done|]. revert Hone. unfold rootfs_images.
  rewrite filter_cons. case_decide; simpl; lia.
Qed.

Lemma package_rootfs i l :
  package_ok (i :: l) → img_kind i = ROOTFSv4 →
  rootfs_images (i :: l) = [i] ∧ rootfs_images l = [].
Proof.
  intros [_ Hone] Hi. revert Hone. unfold rootfs_images. rewrite filter_cons_True by done.
  destruct (filter _ l); simpl; [done|lia].
Qed.

Lemma rootfs_skip i l : img_kind i = APPSv3 → rootfs_images (i :: l) = rootfs_images l.
Proof. intros Hi. unfold rootfs_images. rewrite filter_cons_False; [done|]. by rewrite Hi. Qed.

(** ** One image *)

Lemma rootfs_image i s :
  img_kind i = ROOTFSv4 →
  sh_device (final (handler i s)) =
    (final (rootfsv4_handler (img i) (sh_device s).1), (sh_device s).2) ∧
  result (handler i s) = result (rootfsv4_handler (img i) (sh_device s).1).
Proof.
  intros Hk. unfold handler. rewrite Hk. unfold on_world, on_device.
  by destruct (rootfsv4_handler _ _).
Qed.

(** An archive of applications changes nothing but the applications. *)
Lemma apps_image i s :
  img_kind i = APPSv3 → coherent (disk (sh_device s).2) →
  calm dev b1 b2 (sh_device s).1 (sh_device (final (handler i s))).1 ∧
  lives_on UPDATE_PAYLOAD_DIR (sh_device s).2 (sh_device (final (handler i s))).2.
Proof using All.
  intros Hk Hc. unfold handler. rewrite Hk.
  destruct (lua_cases (λ p, on_device (apps_installer p)) i s) as (c & s1 & Hcopy & Hres).
  assert (undisturbed (sh_device s) (sh_device s1)) as [Hcalm Ha].
  { unfold on_device in Hcopy. destruct (copy2file _ _ _) as [c' d|] eqn:Hd; [|done].
    injection Hcopy as _ <-. exact (quiet_copy (FIRMWARE := []) (HEADER := []) (R := undisturbed) _ _ _ _ _ Hd). }
  pose proof (aside_lives_on UPDATE_PAYLOAD_DIR _ _ Hc Ha) as Hl1.
  pose proof (proj1 (as_disk _ _ Ha Hc)) as Hc1.
  destruct Hres as [[-> _]|(_ & -> & _)]; [done|].
  unfold on_device. cbn [apps_installer the_apps hand_over]. unfold hand_over_to_daemon.
  set (x1 := (sh_device s1).2) in *.
  pose proof (exec_lives_on UPDATE_PAYLOAD_DIR (Start (image_path i)) x1 Hc1) as Hl2.
  pose proof ((lives_on_coherent UPDATE_PAYLOAD_DIR _ _ Hc1 Hl2)) as Hc2.
  pose proof (run_all_lives_on UPDATE_PAYLOAD_DIR (schedule (image_path i) x1) _ Hc2) as Hl3.
  pose proof ((lives_on_coherent UPDATE_PAYLOAD_DIR _ _ Hc2 Hl3)) as Hc3.
  destruct (exit_code _); cbn [final sh_device fst snd]; (split; [done|]).
  - etrans; [exact Hl1|]. by etrans.
  - etrans; [exact Hl1|]. etrans; [exact Hl2|]. etrans; [exact Hl3|]. by apply exec_lives_on.
Qed.

(** ** All images *)

(** What a package leaves of the system: nothing of it, or what the handler of
    its root file system left. With the result 0 that handler succeeded. *)
Definition written (l : list image) (r : Z) (w w' : world) : Prop :=
  (calm dev b1 b2 w w' ∧ (r = 0 → rootfs_images l = [])) ∨
  ∃ i w1, rootfs_images l = [i] ∧ calm dev b1 b2 w w1 ∧
    calm dev b1 b2 (final (rootfsv4_handler (img i) w1)) w' ∧
    (r = 0 → result (rootfsv4_handler (img i) w1) = Some 0).

(** An image at which swupdate stopped. *)
Lemma not_installed i l r s s' :
  final (handler i s) = s' → r ≠ 0 → package_ok (i :: l) → coherent (disk (sh_device s).2) →
  lives_on UPDATE_PAYLOAD_DIR (sh_device s).2 (sh_device s').2 ∧
  written (i :: l) r (sh_device s).1 (sh_device s').1.
Proof using All.
  unfold written. intros Hh Hr Hok Hcoh. pose proof (pk_kinds _ Hok) as [[Hk|Hk] _]%Forall_cons.
  - destruct (package_rootfs _ _ Hok Hk) as [Hl _]. destruct (rootfs_image i s Hk) as [Hf _].
    rewrite Hh in Hf. rewrite Hf. split; [reflexivity|]. right. exists i, (sh_device s).1.
    by split_and!; [|reflexivity|reflexivity|].
  - destruct (apps_image i s Hk Hcoh) as [Hcalm Hlive]. rewrite Hh in Hcalm, Hlive.
    split; [done|]. left. by split.
Qed.

(** What trying a package does to the device. *)
Lemma tried_device l r s s' :
  tried handler l r s s' → package_ok l → coherent (disk (sh_device s).2) →
  lives_on UPDATE_PAYLOAD_DIR (sh_device s).2 (sh_device s').2 ∧
  written l r (sh_device s).1 (sh_device s').1.
Proof using All.
  unfold written.
  induction 1 as [s|i l r s1 s2 s3 Hh _ IH|i l r c s1 s2 Hh Hc Hr|i l r e s1 s2 Hh Hr|l r s Hr];
    intros Hok Hcoh.
  - split; [reflexivity|]. left. by split.
  - pose proof (pk_kinds _ Hok) as [[Hk|Hk] _]%Forall_cons.
    + destruct (package_rootfs _ _ Hok Hk) as [Hl Hnil]. destruct (rootfs_image i s1 Hk) as [Hf Hres].
      rewrite Hh in Hf, Hres. simpl in Hf, Hres. rewrite Hf in IH. cbn [fst snd] in IH.
      destruct (IH (package_rest _ _ Hok) Hcoh) as [Hlive Hw]. split; [done|]. right.
      exists i, (sh_device s1).1. rewrite Hl. split_and!; [done|reflexivity| |by rewrite <- Hres].
      destruct Hw as [[Hw _]|(i' & w & Hi' & _)]; [done|]. by rewrite Hnil in Hi'.
    + destruct (apps_image i s1 Hk Hcoh) as [Hcalm Hlive]. rewrite Hh in Hcalm, Hlive. simpl in Hcalm, Hlive.
      pose proof ((lives_on_coherent UPDATE_PAYLOAD_DIR _ _ Hcoh Hlive)) as Hcoh2.
      destruct (IH (package_rest _ _ Hok) Hcoh2) as [Hlive2 Hw]. split; [by etrans|].
      rewrite (rootfs_skip _ _ Hk). destruct Hw as [[Hw Hr]|(i' & w & Hi' & Hw1 & Hw2)]; [left|right].
      * split; [by etrans|done].
      * exists i', w. split_and!; [done|by etrans|apply Hw2..].
  - by apply (not_installed i l r s1 s2); [rewrite Hh|..].
  - by apply (not_installed i l r s1 s2); [rewrite Hh|..].
  - split; [reflexivity|]. left. by split.
Qed.

(** ** Losses of power *)

(** A package [l] is being installed from [d] on, and the power goes: the world,
    and the disk of the applications. *)
Inductive cut_point : whole → list image → world → K → Prop :=
| cp_now d l : cut_point d l d.1 (disk d.2)
| cp_command d d' l w k : undisturbed d d' → cut_point d' l w k → cut_point d l w k
| cp_image d i l d' t t' w k :
    handler i {| sh_device := d; sh_trace := t |} = Done 0 {| sh_device := d'; sh_trace := t' |} →
    cut_point d' l w k → cut_point d (i :: l) w k
| cp_rootfs d i l f :
    img_kind i = ROOTFSv4 → only_path (spare dev b1 b2 (w_fs d.1)) (w_fs d.1) f → fs_wf f →
    cut_point d (i :: l) (set_fs f d.1) (disk d.2)
| cp_apps d i l x :
    img_kind i = APPSv3 → lives_on UPDATE_PAYLOAD_DIR d.2 x → cut_point d (i :: l) d.1 (disk x)
| cp_manager d i l x p k :
    img_kind i = APPSv3 → lives_on UPDATE_PAYLOAD_DIR d.2 x → daemon x = DRunManager p →
    during (system x) (mbl_app_update_manager p (system x)).2 k → cut_point d (i :: l) d.1 k.

(** ** Boots *)

Inductive boot_event :=
| Nothing                              (** only a boot *)
| Package (l : list image) (c : Z)     (** a package, and the exit code of the activation *)
| PowerCutIn (l : list image).         (** the power went while it was installed *)

Inductive boot_cycle : whole → boot_event → whole → Prop :=
| bc_apps d x e d' : lives_on UPDATE_PAYLOAD_DIR d.2 x → boot_cycle (d.1, x) e d' → boot_cycle d e d'
| bc_nothing d x' : boots_into (disk d.2) x' → boot_cycle d Nothing (boot d.1, x')
| bc_package FIRMWARE HEADER d t l c s' x' :
    sizes_ok (w_fs d.1) → package_ok l →
    (∀ path s0, before_swupdate FIRMWARE {| sh_device := d; sh_trace := t |} = Done path s0 →
       images_of path (sh_device s0) = l) →
    arm_update_activate FIRMWARE HEADER {| sh_device := d; sh_trace := t |} = Done c s' →
    boots_into (disk (sh_device s').2) x' →
    boot_cycle d (Package l c) (boot (sh_device s').1, x')
| bc_cut d l w k x' :
    sizes_ok (w_fs d.1) → package_ok l → cut_point d l w k → boots_into k x' →
    boot_cycle d (PowerCutIn l) (boot w, x').

Inductive boot_cycles : whole → list boot_event → whole → Prop :=
| bcs_nil d : boot_cycles d [] d
| bcs_cons d1 d2 d3 e es : boot_cycle d1 e d2 → boot_cycles d2 es d3 → boot_cycles d1 (e :: es) d3.

(** The system as its owner sees it. An activation that succeeds has its root
    file system running after the boot. *)
Definition images_in (e : boot_event) : list image :=
  match e with Nothing => [] | Package l _ | PowerCutIn l => rootfs_images l end.
Definition succeeded (e : boot_event) : Prop :=
  match e with Package l 0 => rootfs_images l ≠ [] | _ => False end.

Inductive system_step : slots → boot_event → slots → Prop :=
| ss_same a e : ¬ succeeded e → system_step a e a
| ss_new a e i d :
    i ∈ images_in e → (copied dev b1 b2 (img i) → d = img_data (img i)) →
    system_step a e {| in_use := negb (in_use a); DeviceCycle.image := d |}.

Inductive system_run : slots → list boot_event → slots → Prop :=
| sr_nil a : system_run a [] a
| sr_cons a b c e es : system_step a e b → system_run b es c → system_run a (e :: es) c.

(** ** One boot *)

Context `{!BootLaws dev b1 b2} (Hly : layout dev b1 b2).

#[local] Abbreviation shows := (shows dev b1 b2).

Lemma shows_reboot w a : shows w a → shows (boot w) a.
Proof using All.
  intros Hs. destruct (cycle_shows dev b1 b2 Hly w Idle (boot w) a Hs) as (b & Hb & Hm);
    [constructor|]. by inversion Hm; subst.
Qed.

(** The system after a package. *)
Lemma written_shows l r w w' a :
  shows w a → sizes_ok (w_fs w) → written l r w w' →
  ∃ b, shows (boot w') b ∧
    (b = a ∧ (r = 0 → rootfs_images l = []) ∨
     ∃ i d, i ∈ rootfs_images l ∧ (copied dev b1 b2 (img i) → d = img_data (img i)) ∧
       b = {| in_use := negb (in_use a); DeviceCycle.image := d |}).
Proof using All.
  intros Hs Hsz [[Hc Hr]|(i & w1 & Hi & Hc1 & Hc2 & Hr)].
  - exists a. split; [|by left]. apply shows_reboot. by eapply shows_calm.
  - pose proof (shows_calm _ _ _ _ _ _ Hs Hc1) as Hs1. pose proof (calm_sizes _ _ _ _ _ Hc1 Hsz) as Hsz1.
    destruct (cycle_update_shows dev b1 b2 Hly (img i) w1 a Hs1 Hsz1) as (b & Hb & Hm).
    exists b. split.
    + apply (shows_boot_calm _ _ _ (final (rootfsv4_handler (img i) w1)) w'); [|done..].
      by apply (handler_private dev b1 b2 Hly (img i) w1 a).
    + rewrite Hi. inversion Hm; subst; [left|right].
      * split; [done|]. intros Hz. by rewrite (Hr Hz) in *.
      * exists i. eexists. by split_and!; [left|..].
Qed.

Lemma package_step l c a b :
  (b = a ∧ (c = 0 → rootfs_images l = []) ∨
   ∃ i d, i ∈ rootfs_images l ∧ (copied dev b1 b2 (img i) → d = img_data (img i)) ∧
       b = {| in_use := negb (in_use a); DeviceCycle.image := d |}) →
  system_step a (Package l c) b.
Proof.
  intros [[-> Hz]|(i & d & Hi & Hd & ->)]; [|by eapply ss_new]. apply ss_same. simpl.
  destruct c; [|by intros []..]. intros Hne. by apply Hne, Hz.
Qed.

(** An image that was installed, from a device to a device. *)
Lemma image_done d i l d' t t' :
  handler i {| sh_device := d; sh_trace := t |} = Done 0 {| sh_device := d'; sh_trace := t' |} →
  package_ok (i :: l) → coherent (disk d.2) →
  coherent (disk d'.2) ∧ lives_on UPDATE_PAYLOAD_DIR d.2 d'.2 ∧
  ((img_kind i = ROOTFSv4 ∧ d'.1 = final (rootfsv4_handler (img i) d.1)) ∨
   (img_kind i = APPSv3 ∧ calm dev b1 b2 d.1 d'.1)).
Proof using All.
  intros Hh Hok Hcoh. set (s := {| sh_device := d; sh_trace := t |}) in *.
  pose proof (pk_kinds _ Hok) as [[Hk|Hk] _]%Forall_cons.
  - destruct (rootfs_image i s Hk) as [Hf _]. rewrite Hh in Hf. simpl in Hf. subst d'.
    split; [done|]. split; [reflexivity|]. by left.
  - destruct (apps_image i s Hk Hcoh) as [Hcalm Hlive]. rewrite Hh in Hcalm, Hlive. simpl in Hcalm, Hlive.
    split; [by apply (lives_on_coherent UPDATE_PAYLOAD_DIR _ _ Hcoh Hlive)|]. split; [done|]. by right.
Qed.

Lemma cut_stays d l w k :
  cut_point d l w k → package_ok l → coherent (disk d.2) → stays_on (disk d.2) k.
Proof using All.
  induction 1 as [d l|d d' l w k [_ Ha] _ IH|d i l d' t t' w k Hh _ IH|d i l f|d i l x _ Hl|d i l x p k _ Hl Hd Hk];
    intros Hok Hcoh.
  - by apply stays_refl.
  - pose proof (as_disk _ _ Ha Hcoh) as Hr. apply (stays_trans _ (disk d'.2)); [by apply reboot_stays|].
    apply IH; [done|apply Hr].
  - destruct (image_done _ _ _ _ _ _ Hh Hok Hcoh) as (Hc & Hl & _).
    apply (stays_trans _ (disk d'.2)); [by eapply lives_on_stays|].
    apply IH; [by eapply package_rest|done].
  - by apply stays_refl.
  - by eapply lives_on_stays.
  - pose proof (lives_on_stays UPDATE_PAYLOAD_DIR _ _ Hcoh Hl) as Hlx.
    apply (stays_trans _ (disk x)); [done|]. pose proof (stays_coherent _ _ Hlx) as Hcx.
    apply (manager_stays p (system x)); [done|by apply archive_ok|done].
Qed.

Lemma cut_calm d l w k :
  cut_point d l w k → rootfs_images l = [] → package_ok l → coherent (disk d.2) → calm dev b1 b2 d.1 w.
Proof using All.
  induction 1 as [d l|d d' l w k [Hw Ha] _ IH|d i l d' t t' w k Hh _ IH|d i l f Hk|d i l x|d i l x p k];
    intros Hno Hok Hcoh; try reflexivity.
  - etrans; [exact Hw|]. apply IH; [done..|]. apply (as_disk _ _ Ha Hcoh).
  - destruct (image_done _ _ _ _ _ _ Hh Hok Hcoh) as (Hc & _ & [[Hk _]|[Hk Hw]]).
    + destruct (package_rootfs _ _ Hok Hk) as [Hl _]. by rewrite Hl in Hno.
    + etrans; [exact Hw|]. rewrite (rootfs_skip _ _ Hk) in Hno.
      apply IH; [done|by eapply package_rest|done].
  - destruct (package_rootfs _ _ Hok Hk) as [Hl _]. by rewrite Hl in Hno.
Qed.

Lemma cut_shows d l w k a :
  cut_point d l w k → package_ok l → coherent (disk d.2) → shows d.1 a → sizes_ok (w_fs d.1) →
  ∃ b, shows (boot w) b ∧ system_step a (PowerCutIn l) b.
Proof using All.
  assert (∀ w l, shows w a → ∃ b, shows (boot w) b ∧ system_step a (PowerCutIn l) b) as Hsame.
  { intros w' l' Hs. exists a. split; [by apply shows_reboot|]. by apply ss_same; intros []. }
  induction 1 as [d l|d d' l w k [Hw Ha] _ IH|d i l d' t t' w k Hh Hcut IH|d i l f Hk Hf Hwf|d i l x|d i l x p k];
    intros Hok Hcoh Hs Hsz; try by apply Hsame.
  - apply IH; [done|by apply (as_disk _ _ Ha Hcoh)|by eapply shows_calm|by eapply calm_sizes].
  - destruct (image_done _ _ _ _ _ _ Hh Hok Hcoh) as (Hc & _ & [[Hk Hw]|[Hk Hw]]).
    + destruct (package_rootfs _ _ Hok Hk) as [Hl Hno].
      pose proof (cut_calm _ _ _ _ Hcut Hno (package_rest _ _ Hok) Hc) as Hcalm. rewrite Hw in Hcalm.
      destruct (written_shows (i :: l) 1 d.1 w a Hs Hsz) as (b & Hb & Hor).
      { right. exists i, d.1. by split_and!; [|reflexivity| |]. }
      exists b. split; [done|]. destruct Hor as [[-> _]|(i' & dd & Hi & Hdd & ->)]; [by apply ss_same; intros []|].
      by eapply ss_new.
    + destruct IH as (b & Hb & Hm); [by eapply package_rest|done|by eapply shows_calm|by eapply calm_sizes|].
      exists b. split; [done|]. inversion Hm as [|? ? i' dd Hi Hdd]; subst; [by apply ss_same; intros []|].
      apply (ss_new _ _ i'); [|done]. simpl in *. by rewrite (rootfs_skip _ _ Hk).
  - destruct (cycle_shows dev b1 b2 Hly d.1 PowerCut (boot (set_fs f d.1)) a Hs) as (b & Hb & Hm);
      [by constructor|]. exists b. split; [done|]. inversion Hm; subst. by apply ss_same; intros [].
Qed.

(** A boot, with what happens before it. *)
Lemma boot_cycle_shows d e d' a :
  boot_cycle d e d' → shows d.1 a → coherent (disk d.2) →
  (∃ b, shows d'.1 b ∧ system_step a e b) ∧ comes_back (disk d.2) (disk d'.2).
Proof using All.
  induction 1 as [d x e d' Hl _ IH|d x' Hb|F HD d t l c s' x' Hsz Hok Himg Hrun Hb|d l w k x' Hsz Hok Hcut Hb];
    intros Hs Hcoh.
  - pose proof (lives_on_stays UPDATE_PAYLOAD_DIR _ _ Hcoh Hl) as Hlx.
    destruct (IH Hs (stays_coherent _ _ Hlx)) as [Hsys Ha]. split; [done|].
    by eapply stays_back.
  - split; [|by eapply boots_into_back]. exists a. split; [by apply shows_reboot|]. by apply ss_same; intros [].
  - set (s := {| sh_device := d; sh_trace := t |}) in *.
    destruct (activate_phases F HD undisturbed (quiet_command (R := undisturbed)) s c s' Hrun)
      as [[[Hw Ha] Hno]|(path & s0 & r & s1 & Hbef & [Hw0 Ha0] & Htr & [Hw1 Ha1] & Hr)].
    + pose proof (as_disk _ _ Ha Hcoh) as Hre. split.
      * exists a. split; [apply shows_reboot; by eapply shows_calm|]. apply ss_same. destruct c; [done|by intros []..].
      * eapply stays_back; [by apply reboot_stays|]. eapply boots_into_back; [apply Hre|done].
    + rewrite (Himg _ _ Hbef) in Htr. pose proof (as_disk _ _ Ha0 Hcoh) as Hre0.
      destruct (tried_device _ _ _ _ Htr Hok (proj1 Hre0)) as [Hlive Hwr].
      pose proof (lives_on_stays UPDATE_PAYLOAD_DIR _ _ (proj1 Hre0) Hlive) as Hl1.
      pose proof (as_disk _ _ Ha1 (stays_coherent _ _ Hl1)) as Hre1. split.
      * destruct (written_shows l r d.1 (sh_device s').1 a Hs Hsz) as (b & Hb' & Hor).
        { destruct Hwr as [[Hw Hz]|(i & w1 & Hi & Hc1 & Hc2 & Hz)].
          - left. split; [|done]. etrans; [exact Hw0|]. by etrans.
          - right. exists i, w1. split_and!; [done|by etrans|by etrans|done]. }
        exists b. split; [done|]. apply package_step.
        destruct Hor as [[-> Hz]|?]; [left|by right]. split; [done|]. auto.
      * apply (stays_back _ (disk (sh_device s0).2)); [by apply reboot_stays|].
        apply (stays_back _ (disk (sh_device s1).2)); [done|].
        apply (stays_back _ (disk (sh_device s').2)); [by apply reboot_stays|].
        eapply boots_into_back; [apply Hre1|done].
  - pose proof (cut_stays _ _ _ _ Hcut Hok Hcoh) as Hl. split; [by eapply cut_shows|].
    eapply stays_back; [done|]. eapply boots_into_back; [by eapply stays_coherent|done].
Qed.

Lemma boot_cycles_show d es d' a :
  boot_cycles d es d' → shows d.1 a → coherent (disk d.2) →
  (∃ b, shows d'.1 b ∧ system_run a es b) ∧ comes_back (disk d.2) (disk d'.2).
Proof using All.
  intros Hc. revert a. induction Hc as [d|d1 d2 d3 e es Hc _ IH]; intros a Hs Hcoh.
  - split; [by exists a; split; [|constructor]|]. by apply back_refl.
  - destruct (boot_cycle_shows _ _ _ _ Hc Hs Hcoh) as [(b & Hb & Hm) Ha].
    destruct (IH b Hb (proj1 (proj1 Ha))) as [(b' & Hb' & Hm') Ha'].
    split; [by exists b'; split; [|by econstructor]|]. by eapply back_trans.
Qed.

Lemma system_run_image a es b :
  system_run a es b →
  DeviceCycle.image b = DeviceCycle.image a ∨
  ∃ e i, e ∈ es ∧ i ∈ images_in e ∧ (copied dev b1 b2 (img i) → DeviceCycle.image b = img_data (img i)).
Proof.
  induction 1 as [|a b c e es Hm _ IH]; [by left|].
  destruct IH as [->|(e' & i & He & Hi & Hd)]; [|right; exists e', i; by split_and!; [right|..]].
  destruct Hm as [|a e i d Hi Hd]; [by left|]. right. exists e, i. by split_and!; [left|..].
Qed.

(** C3: the device as a whole, for packages with at most one root file system and
    archives of applications. Over any number of boots, each after a package
    whose activation ended with any exit code, or after the power went anywhere
    in one (between two commands, while the root file system is copied, in the
    hand-over, or between two commands of the update manager or in the middle of
    one), or in the boot of the applications: the device comes up from the bank
    the flag selects, which holds the first image or, in full, the one of a
    package, provided that swupdate's copyimage reports no error for it (when it
    does, the handler selects the bank all the same: [copy_failure_is_lost]);
    after an activation of a package with a root file system that returned 0 the
    bank is the other one, with that package's image. And no application is lost:
    each one that the device had has a version, which the next boot runs when it
    comes to it and no bundle of the application has an incomplete [config.json];
    none has, if none had before and opkg leaves none when it fails or loses its
    power. (Assumed: the names of the device are as [layout] says, the laws of
    the boot loader are [BootLaws], those of opkg and of the directories
    [TreeLaws], and the archives have distinct, well-formed applications.) *)
Theorem whole_device_goes_on d es d' a :
  shows d.1 a → coherent (disk d.2) → boot_cycles d es d' →
  (∃ b, shows d'.1 b ∧ system_run a es b ∧
     (DeviceCycle.image b = DeviceCycle.image a ∨
      ∃ e i, e ∈ es ∧ i ∈ images_in e ∧ (copied dev b1 b2 (img i) → DeviceCycle.image b = img_data (img i)))) ∧
  (∀ n v, has_version (disk d.2) n v →
    (∃ w, has_version (disk d'.2) n w) ∧ ∀ k, reboot (disk d'.2) k → readable n k → boots n k) ∧
  (WholeInstalls K → legible (disk d.2) → legible (disk d'.2)).
Proof using All.
  intros Hs Hcoh Hc. destruct (boot_cycles_show _ _ _ _ Hc Hs Hcoh) as [(b & Hb & Hm) [[_ Ha] Hl]].
  split; [exists b; by split_and!; [..|by eapply system_run_image]|]. split; [|done].
  intros n v Hv. destruct (Ha n) as [w Hw]; [by exists v|]. split; [by exists w|].
  intros k. by apply (reboot_boots _ k n w).
Qed.
End whole.
