(* ===== verification/WholeBoard.v ===== *)
(** * A board with applications

    The board of [UpdateDevice] with the applications of [AppInstallDevice]: it
    has the laws of [PackageUpdate] and [WholeDevice], and a package with a root
    file system and an archive of applications is installed on it. *)

From stdpp Require Import base gmap strings list.
From Stdlib Require Import ZArith Ascii Lia.
From S2P Require Import Prelude.
From S2P Require Import CString.
From S2P Require Import Posix.
From S2P Require Import Swupdate.
From S2P Require Import SwupdateProps.
From S2P Require Import SwupdateHandler.
From S2P Require Import SwupdateClaims.
From S2P Require Import DeviceCycle.
From S2P Require Import Py.
From S2P Require Import AppLifecycle.
From S2P Require Import AppVersions.
From S2P Require Import AppLifecycleProps.
From S2P Require Import AppManager.
From S2P Require Import AppUpdate.
From S2P Require Import AppUpdateProps.
From S2P Require Import AppBoot.
From S2P Require Import AppInstall.
From S2P Require Import AppSurvive.
From S2P Require Import AppReboot.
From S2P Require Import AppDevice.
From S2P Require Import AppInstallDevice.
From S2P Require Import Shell.
From S2P Require Import AppHandshake.
From S2P Require Import AppHandshakeProps.
From S2P Require Import AppSystem.
From S2P Require Import UpdateScripts.
From S2P Require Import UpdateScriptsProps.
From S2P Require Import UpdateDevice.
From S2P Require Import PackageUpdate.
From S2P Require Import WholeDevice.

Open Scope Z_scope.
Open Scope list_scope.

(** ** The directory of the applications *)

Lemma names_nodup q ds : NoDup (names_in q ds).
Proof. apply NoDup_remove_dups. Qed.

Lemma names_no_slash q ds e : e ∈ names_in q ds → slash ∉ e.
Proof.
  intros He. apply elem_of_remove_dups, list_elem_of_fmap in He as (d & -> & _). apply take_until_notin.
Qed.

Lemma walk_listing k path (es : list cstring) :
  dirnames <$> head (os_walk path (listed k path es)) = Some es.
Proof.
  simpl. f_equal. unfold leaf. induction es as [|e es IH]; [done|]. cbn.
  case_decide; cbn; by rewrite IH.
Qed.

(** The names in [APPS_PATH] are the applications. *)
Lemma names_apps k n :
  placed k → n ∈ names_in APPS_PATH (directories k) ↔
    ∃ d, d ∈ directories k ∧ ((good_app n ∧ d = app_dir n) ∨ ∃ v, good_app n ∧ 0 ≤ v ∧ d = version n v).
Proof.
  intros [Hp _]. rewrite Forall_forall in Hp.
  assert (∀ m s, take_until slash (drop (S (length APPS_PATH)) (app_dir m ++ s)) = take_until slash (m ++ s)) as Hcut.
  { intros m s. unfold app_dir. by rewrite <- (assoc_L (++)), <- Nat.add_1_r, <- drop_drop, drop_app_length. }
  assert (∀ m, good_app m → take_until slash (drop (S (length APPS_PATH)) (app_dir m)) = m) as Hdir.
  { intros m [[_ Hm] _]. rewrite <- (app_nil_r (app_dir m)), Hcut, app_nil_r. by apply take_until_all. }
  assert (∀ m v, good_app m → take_until slash (drop (S (length APPS_PATH)) (version m v)) = m) as Hver.
  { intros m v [[_ Hm] _]. unfold version, version_path. rewrite Hcut. by apply take_until_app. }
  unfold names_in. rewrite elem_of_remove_dups, list_elem_of_fmap. split.
  - intros (d & -> & [[_ Hne] Hd]%list_elem_of_filter). exists d. split; [done|].
    destruct (Hp d Hd) as [->|[(m & Hm & ->)|(m & v & Hm & Hv & ->)]]; [done|left|right; exists v].
    + by rewrite Hdir.
    + by rewrite Hver.
  - intros (d & Hd & [[Hn ->]|(v & Hn & Hv & ->)]).
    + exists (app_dir n). rewrite Hdir by done. split; [done|].
      apply list_elem_of_filter. split; [|done]. split.
      * right. exists n. unfold app_dir. by rewrite <- (assoc_L (++)).
      * intros Heq. apply (f_equal length) in Heq. unfold app_dir in Heq. rewrite length_app in Heq. simpl in Heq. lia.
    + exists (version n v). rewrite Hver by done. split; [done|].
      apply list_elem_of_filter. split; [|done]. split.
      * right. exists (n ++ slash :: str_nat v). unfold version, version_path, app_dir.
        by rewrite <- !(assoc_L (++)).
      * intros Heq. apply (f_equal length) in Heq. unfold version, version_path, app_dir in Heq.
        rewrite !length_app in Heq. simpl in Heq. lia.
Qed.

Lemma apps_entry k nd w :
  entry k APPS_PATH = Some nd → head (os_walk APPS_PATH nd) = Some w →
  dirnames w = names_in APPS_PATH (directories k).
Proof.
  cbn [entry device_system]. unfold device_entry. case_decide; [|done].
  rewrite decide_False by (apply (bool_decide_unpack _); vm_compute; exact I).
  intros [= <-] Hw.
  pose proof (walk_listing k APPS_PATH (names_in APPS_PATH (directories k))) as Hn.
  unfold listing in Hw. unfold listed in Hn. rewrite Hw in Hn. by injection Hn.
Qed.

Lemma names_distinct k n :
  placed k → app_name_ok n → NoDup (join (app_dir n) <$> names_in (app_dir n) (directories k)).
Proof.
  intros Hp Hn. apply NoDup_fmap_2_strong; [|apply names_nodup]. intros e e' He He' Hj.
  assert (∀ x, x ∈ names_in (app_dir n) (directories k) → ∃ v, 0 ≤ v ∧ x = str_int v) as Hstr.
  { intros x Hx. apply elem_of_remove_dups, list_elem_of_fmap in Hx as (d & -> & Hx).
    apply list_elem_of_filter in Hx as [[Hw Hne] Hin].
    destruct (below_app k n d Hp Hn Hin Hw Hne) as (v & Hv & ->). exists v. split; [done|].
    unfold version, version_path. rewrite <- Nat.add_1_r, <- drop_drop, drop_app_length.
    change (drop 1 (slash :: str_nat v)) with (str_nat v).
    replace (str_nat v) with (str_int v).
    2: { unfold str_int. by destruct (Z.ltb_spec v 0); [lia|]. }
    apply take_until_all. by intros [Hx|Hx]%str_int_chars; [vm_compute in Hx|]. }
  destruct (Hstr e He) as (v & Hv & ->), (Hstr e' He') as (v' & Hv' & ->).
  rewrite !join_version in Hj by done. by apply version_path_inj in Hj as ->.
Qed.

#[export] Program Instance device_apps_root b : AppsRoot AppDevice.device (PowerLoss0 := device_power b).
Next Obligation.
  intros b k n vs [Hp _] Hn [Hs _]. pose proof (proj1 Hn) as Hok.
  apply (NoDup_fmap_1 (version n)). destruct (decide (app_dir n ∈ directories k)) as [Hd|Hd].
  - destruct (search_app k n Hok Hd) as [[_ Hs2]|[_ [e He]]]; [|by rewrite He in Hs].
    rewrite Hs2 in Hs. injection Hs as <-. by apply names_distinct.
  - rewrite search_no_app in Hs by done. injection Hs as <-. constructor.
Qed.
Next Obligation.
  intros b k nd w n [Hp _] He Hw Hn. rewrite (apps_entry k nd w He Hw) in Hn.
  apply names_apps in Hn as (d & _ & [[Hn _]|(v & Hn & _)]); done.
Qed.
Next Obligation.
  intros b k nd w n [Hp _] He Hw Hn Hd. rewrite (apps_entry k nd w He Hw).
  apply names_apps; [done|]. exists (app_dir n). rewrite device_isdir in Hd.
  apply bool_decide_eq_true in Hd. split; [done|]. by left.
Qed.

(** ** The archives *)

Definition demo_ipks : list cstring := [("a.ipk" : cstring); ("b.ipk" : cstring)].

Lemma demo_unpack p (h : host AppDevice.device) m :
  payload (sys h) = demo_payload → unpack (new_manager p h) = Ret tt m → _ipks m = demo_ipks.
Proof.
  destruct h as [[t ds cs br st pl dm] l]. simpl. intros ->. intros Hu.
  apply (f_equal (λ r, _ipks (pstate r))) in Hu. cbn [pstate] in Hu. rewrite <- Hu. vm_compute. reflexivity.
Qed.

#[export] Instance device_archives : ArchiveLaws (K := AppDevice.device).
Proof.
  split. intros p h [Hp Hpl]. apply (distinct_payload p h [["a"%char]; ["b"%char]]); [by split| |].
  - intros m Hm. rewrite (demo_unpack p h m Hpl Hm).
    constructor; [|constructor; [|constructor]]; (split; [apply good_one; set_solver|]);
      intros h' n' h2 Hr; apply (f_equal pvalue) in Hr; vm_compute in Hr; by injection Hr as <-.
  - apply (bool_decide_unpack _). vm_compute. exact I.
Qed.

(** ** The commands *)

#[local] Existing Instance ref_swupdate.
#[local] Existing Instance no_faults.
#[local] Existing Instance default_config.
#[local] Existing Instance board_boot.
#[local] Existing Instance board_boot_laws.

Abbreviation the_dev := ("/dev/mmcblk0" : cstring).
Abbreviation apps_part := (state (host AppDevice.device)).

#[local] Abbreviation calm := (calm the_dev "3" "5").
#[local] Abbreviation bank_kept := (DeviceCycle.kept the_dev "3" "5").

Lemma calm_fs w f :
  (sizes_ok (w_fs w) → sizes_ok f) →
  (private the_dev "3" "5" (w_fs w) → private the_dev "3" "5" f ∧
     ∀ q, bank_kept q →
       f_nodes f !! q = f_nodes (w_fs w) !! q ∧ fs_read f q = fs_read (w_fs w) q) →
  calm w (set_fs f w).
Proof.
  intros Hs Hp. split; [done|by intros [? _]%Hp|done|done|]. intros q [_ Hk]%Hp Hq. by apply Hk.
Qed.

Lemma creat_sizes f p f' : fs_creat f p = inl f' → sizes_ok f → sizes_ok f'.
Proof.
  unfold fs_creat. intros Hc [Hd Hi]. split; [done|]. intros k i. revert Hc.
  destruct (f_nodes f !! p) as [[|j]|]; [done|intros [= <-]; apply Hi|].
  case_match; [|done]. intros [= <-]. simpl. rewrite lookup_insert. case_decide; [|apply Hi].
  intros [= <-]. simpl. lia.
Qed.

Lemma creat_private f p f' :
  fs_creat f p = inl f' → ¬ bank_kept p → private the_dev "3" "5" f →
  private the_dev "3" "5" f' ∧ ∀ q, bank_kept q →
    f_nodes f' !! q = f_nodes f !! q ∧ fs_read f' q = fs_read f q.
Proof.
  intros Hc Hp [Hwf Hl]. destruct (fs_creat_frame f p f' Hwf Hc) as (Hf & Hwf' & _). split.
  - split; [done|]. intros q r Hq Ha. apply (Hl q r Hq). by eapply fs_creat_links.
  - intros q Hq. apply Hf. by intros ->.
Qed.

Lemma write_private f p d :
  ¬ bank_kept p → private the_dev "3" "5" f →
  private the_dev "3" "5" (fs_write f p d) ∧ ∀ q, bank_kept q →
    f_nodes (fs_write f p d) !! q = f_nodes f !! q ∧ fs_read (fs_write f p d) q = fs_read f q.
Proof.
  intros Hp [Hwf Hl]. split; [split|].
  - by apply fs_write_wf.
  - intros q r Hq Ha. apply (Hl q r Hq). unfold alias in *. by rewrite !fs_write_nodes in Ha.
  - intros q Hq. rewrite fs_write_nodes. split; [done|]. unfold fs_read. rewrite fs_write_nodes.
    unfold fs_write. destruct (f_nodes f !! p) as [[|i]|] eqn:Hn; [done| |done].
    destruct (f_nodes f !! q) as [[|j]|] eqn:Hj; [done| |done]. simpl.
    rewrite lookup_insert_ne; [done|]. intros ->. apply Hp, (Hl q p Hq). right. by exists j.
Qed.

Lemma write_sizes f p d : strlen d < 2 ^ 59 → sizes_ok f → sizes_ok (fs_write f p d).
Proof.
  intros Hd [Hs Hi]. split; [done|]. intros k i. unfold fs_write.
  destruct (f_nodes f !! p) as [[|j]|]; [apply Hi| |apply Hi]. simpl.
  rewrite lookup_insert. case_decide; [|apply Hi]. by intros [= <-].
Qed.

Lemma touch_calm p w : ¬ bank_kept p → calm w (on_fs (fs_creat (w_fs w) p) w).2.
Proof.
  intros Hp. unfold on_fs. destruct (fs_creat (w_fs w) p) as [f|e] eqn:Hc; [|reflexivity].
  simpl. apply calm_fs; [by eapply creat_sizes|by eapply creat_private].
Qed.

Lemma cp_calm a b w : ¬ bank_kept b → calm w (on_fs (fs_cp a b (w_fs w)) w).2.
Proof.
  intros Hb. unfold on_fs, fs_cp. destruct (fs_read (w_fs w) a) as [i|]; [|reflexivity].
  destruct (Z.ltb_spec (strlen (i_data i)) (2 ^ 59)); [|reflexivity].
  destruct (fs_creat (w_fs w) b) as [f|e] eqn:Hc; [|reflexivity]. simpl. apply calm_fs.
  - intros Hs. apply write_sizes; [done|]. by eapply creat_sizes.
  - intros Hp. destruct (creat_private _ _ _ Hc Hb Hp) as [Hp' Hk].
    destruct (write_private f b (i_data i) Hb Hp') as [Hp2 Hk2]. split; [done|].
    intros q Hq. destruct (Hk q Hq) as [<- <-]. by apply Hk2.
Qed.

Lemma not_kept q : bool_decide (q ∈ board_kept) = false → ¬ bank_kept q.
Proof. by intros Hq%bool_decide_eq_false_1 ?%board_kept_list. Qed.

Lemma demo_calm FIRMWARE HEADER argv w :
  issued FIRMWARE HEADER argv → calm w (demo_run argv [] w).2.
Proof.
  destruct 1.
  - reflexivity.
  - reflexivity.
  - reflexivity.
  - apply (touch_calm do_not_reboot). apply not_kept. vm_compute. reflexivity.
  - rewrite demo_cp. apply cp_calm, not_kept. vm_compute. reflexivity.
  - reflexivity.
  - reflexivity.
Qed.

Definition whole_swupdate : UpdateScripts.Swupdate apps_part := swupdate_of apps_part two_images.
#[local] Existing Instance whole_swupdate.

#[local] Instance whole_laws : ScriptLaws (X := apps_part) := demo_script_laws apps_part two_images.

#[local] Instance whole_quiet FIRMWARE HEADER : Quiet FIRMWARE HEADER (undisturbed the_dev "3" "5").
Proof.
  split.
  - intros argv d r d' Hi Hr. apply on_board in Hr as [Hr Hx]. split; [|by rewrite Hx].
    replace d'.1 with (demo_run argv [] d.1).2 by (by rewrite Hr). by eapply demo_calm.
  - intros i p d c d' [= _ <-]. reflexivity.
Qed.

#[local] Instance apps_quiet FIRMWARE HEADER :
  Quiet (K := AppDevice.device) FIRMWARE HEADER (λ d d', aside d.2 d'.2).
Proof.
  split.
  - intros argv d r d' Hi Hr.
    by destruct (quiet_command (FIRMWARE := FIRMWARE) (R := undisturbed the_dev "3" "5") argv d r d' Hi Hr).
  - intros i p d c d' [= _ <-]. reflexivity.
Qed.

(** ** A package on the board *)

(** The installer and the daemon take turns. *)
Definition in_turns (p : cstring) (x : apps_part) : list action := concat sixteen_rounds.

#[local] Instance in_turns_fair : FairSchedule in_turns.
Proof.
  split; intros p x; [exact rounds_process|].
  exists sixteen_rounds. split; [done|]. split; [exact rounds_round|]. by apply Nat.leb_le.
Qed.

#[local] Instance whole_apps : AppsInstaller apps_part := hand_over "/scratch" in_turns.

Definition whole_board : sh apps_part :=
  {| sh_device := (sh_world board_with_header, device_idle); sh_trace := [] |}.

Definition whole_activated : sh apps_part := final (arm_update_activate package header_path whole_board).

Lemma whole_activation : arm_update_activate package header_path whole_board = Done 0 whole_activated.
Proof.
  assert (result (arm_update_activate package header_path whole_board) = Some 0) as Hr
    by (vm_compute; reflexivity).
  exact (result_final _ _ Hr).
Qed.

Lemma two_images_ok : package_ok two_images.
Proof.
  split; [|simpl; lia]. apply Forall_cons. split; [by left|]. apply Forall_singleton. by right.
Qed.

Lemma whole_idle : idle (sh_device whole_board).2.
Proof. exists None. by repeat split. Qed.

Lemma package_runs_the_manager_witness :
  idle (sh_device whole_activated).2 ∧
  runs (sh_device whole_activated).2 = [("/tmp/arm_update_activate/apps.tar" : cstring)] ∧
  managed [("/tmp/arm_update_activate/apps.tar" : cstring)] (system device_idle)
    (system (sh_device whole_activated).2).
Proof.
  destruct (package_runs_the_manager "/scratch" in_turns package header_path eq_refl whole_board whole_idle)
    as (c & s' & Hrun & Hok).
  - intros path s0 _. apply two_images_ok.
  - change (arm_update_activate package header_path whole_board = Done c s') in Hrun.
    rewrite whole_activation in Hrun. apply done_inj in Hrun as [<- <-].
    destruct (Hok eq_refl) as (path & s0 & _ & Hrest). exact Hrest.
Defined.

(** ** Two boots of it *)

(** A device whose directories are those of the applications [ns], with the
    versions [vs]. *)
Lemma placed_of k ns (vs : list (cstring * Z)) :
  Forall good_app ns → Forall (λ nv, nv.1 ∈ ns ∧ 0 ≤ nv.2) vs →
  directories k ⊆ APPS_PATH :: (app_dir <$> ns) ++ ((λ nv, version nv.1 nv.2) <$> vs) →
  (∀ n, n ∈ ns → app_dir n ∈ directories k) → placed k.
Proof.
  rewrite !Forall_forall. intros Hns Hvs Hsub Hdirs.
  assert (∀ d, d ∈ directories k → d = APPS_PATH ∨ (∃ n, n ∈ ns ∧ d = app_dir n) ∨
    ∃ n v, n ∈ ns ∧ 0 ≤ v ∧ d = version n v) as Hcases.
  { intros d [->|[Hd|Hd]%elem_of_app]%Hsub%elem_of_cons; [by left|right; left|right; right].
    - apply list_elem_of_fmap in Hd as (n & -> & Hn). by exists n.
    - apply list_elem_of_fmap in Hd as ([n v] & -> & Hn). destruct (Hvs _ Hn). by exists n, v. }
  split.
  - apply Forall_forall. intros d Hd.
    destruct (Hcases d Hd) as [->|[(n & Hn & ->)|(n & v & Hn & Hv & ->)]];
      [by left|right; left; exists n; auto|right; right; exists n, v; auto].
  - intros n v Hn Hv Hd. destruct (Hcases _ Hd) as [Heq|[(m & Hm & Heq)|(m & u & Hm & Hu & Heq)]].
    + apply (f_equal length) in Heq. unfold version, version_path, app_dir in Heq.
      rewrite !length_app in Heq. simpl in Heq. lia.
    + apply version_not_dir in Heq; [done|apply (Hns m Hm)|done..].
    + apply version_eq in Heq as [-> _]; [by apply Hdirs|done|apply (Hns m Hm)|done..].
Qed.

(** The power goes off: nothing runs any more. *)
Definition power_off (k : AppDevice.device) : AppDevice.device := set_containers ∅ k.

Lemma power_off_reboot k : in_order k → reboot k (power_off k).
Proof.
  intros [Hp Hpl]. split; [by split|]. split; [intros n v; by rewrite !device_has_version|].
  intros n. by rewrite !device_readable.
Qed.

Definition booted_apps (k : AppDevice.device) : apps_part := {|
  files := ∅; installer := None; daemon := DWaitDo;
  system := pstate (run_all_action {| sys := power_off k; commands := [] |}); runs := [] |}.

Lemma booted_apps_boots k : in_order k → boots_into k (booted_apps k).
Proof.
  intros Hk. split; [done|]. split; [done|]. exists (power_off k), [].
  split; [by apply power_off_reboot|]. eexists. split; [reflexivity|by left].
Qed.

(** After the package, and after a loss of power while the next one was copied. *)
Definition whole_1 : world * apps_part :=
  (boot (sh_device whole_activated).1, booted_apps (disk (sh_device whole_activated).2)).
Definition half_written : fs :=
  fs_write (w_fs whole_1.1) (spare the_dev "3" "5" (w_fs whole_1.1)) "ne".
Definition whole_2 : world * apps_part :=
  (boot (set_fs half_written whole_1.1), booted_apps (disk whole_1.2)).

Lemma good_two : Forall good_app [["a"%char]; ["b"%char]].
Proof. repeat constructor; apply good_one; set_solver. Qed.

Ltac directories_of vs :=
  split; [|vm_compute; reflexivity];
  apply (placed_of _ [["a"%char]; ["b"%char]] vs);
  [ exact good_two
  | apply (bool_decide_unpack _); vm_compute; exact I
  | apply (bool_decide_unpack _); vm_compute; exact I
  | intros n Hn; rewrite !elem_of_cons, elem_of_nil in Hn; destruct Hn as [->|[->|[]]];
    apply (bool_decide_unpack _); vm_compute; exact I ].

Lemma activated_in_order : in_order (disk (sh_device whole_activated).2).
Proof. directories_of [(["a"%char], 1); (["b"%char], 0)]. Qed.

Lemma booted_in_order : in_order (disk whole_1.2).
Proof. directories_of [(["a"%char], 1); (["b"%char], 0)]. Qed.

Lemma whole_shows : shows the_dev "3" "5" (sh_device whole_board).1 board_slots.
Proof.
  apply (shows_calm _ _ _ board35); [exact board_shows|]. apply calm_fs.
  - intros _. by apply small_sizes.
  - intros _. split; [split; [by apply wf_nodes_wf|apply no_other_names_ok; vm_compute; reflexivity]|].
    intros q Hq%board_kept_list. unfold board_kept in Hq. rewrite !elem_of_cons, elem_of_nil in Hq.
    destruct Hq as [->|[->|[->|[->|[->|[]]]]]]; split; vm_compute; reflexivity.
Qed.

Lemma whole_cycles :
  boot_cycles (K := AppDevice.device) "/scratch" in_turns the_dev "3" "5"
    (sh_device whole_board) [Package two_images 0; PowerCutIn two_images] whole_2.
Proof.
  apply (bcs_cons _ _ _ _ _ _ whole_1); [|apply (bcs_cons _ _ _ _ _ _ whole_2); [|constructor]].
  - apply (bc_package _ _ _ _ _ package header_path _ [] two_images 0 whole_activated).
    + by apply small_sizes.
    + exact two_images_ok.
    + done.
    + exact whole_activation.
    + apply booted_apps_boots, activated_in_order.
  - apply (bc_cut _ _ _ _ _ _ _ (set_fs half_written whole_1.1) (disk whole_1.2)).
    + by apply small_sizes.
    + exact two_images_ok.
    + apply cp_rootfs; [done|apply fs_write_only|by apply wf_nodes_wf].
    + apply booted_apps_boots, booted_in_order.
Qed.

Lemma whole_device_goes_on_witness :
  (∃ b, shows the_dev "3" "5" whole_2.1 b ∧
     system_run the_dev "3" "5" board_slots [Package two_images 0; PowerCutIn two_images] b ∧
     (DeviceCycle.image b = "old" ∨
      ∃ e i, e ∈ [Package two_images 0; PowerCutIn two_images] ∧ i ∈ images_in e ∧
             (copied the_dev "3" "5" (img i) → DeviceCycle.image b = img_data (img i)))) ∧
  (∀ n v, has_version (disk (sh_device whole_board).2) n v →
    (∃ w, has_version (disk whole_2.2) n w) ∧ ∀ k, reboot (disk whole_2.2) k → readable n k → boots n k) ∧
  (WholeInstalls AppDevice.device → legible (disk (sh_device whole_board).2) → legible (disk whole_2.2)).
Proof.
  exact (whole_device_goes_on "/scratch" in_turns the_dev "3" "5" board_layout
           (sh_device whole_board) _ whole_2 board_slots
           whole_shows board_placed whole_cycles).
Defined.

(** ** The life of the applications *)

(** A boot of the device, with its applications stopped. *)
Definition boot_host : host AppDevice.device := {| sys := power_off (sys board_host); commands := [] |}.

Lemma boot_in_order : in_order (sys boot_host).
Proof. apply (power_off_reboot (sys board_host)), board_placed. Qed.

Lemma boot_runs_every_application_witness :
  has_version (sys boot_host) ["a"%char] 0 ∧
  ∃ c, container (sys (pstate (run_all_action boot_host))) ["a"%char] = Some (version ["a"%char] c) ∧
       has_version (sys (pstate (run_all_action boot_host))) ["a"%char] c ∧ c ≤ 0.
Proof.
  assert (has_version (sys boot_host) ["a"%char] 0) as Hv.
  { apply device_has_version. split; [apply good_one; set_solver|].
    split; [done|]. split; apply (bool_decide_unpack _); vm_compute; exact I. }
  split; [exact Hv|].
  pose proof (boot_runs_every_application (K := AppDevice.device) boot_host) as Hboot. cbv zeta in Hboot.
  destruct (Hboot boot_in_order) as [_ Hrun].
  apply (Hrun (pstate (run_all_action boot_host))); [vm_compute; reflexivity|exact Hv].
Defined.

(** Half a bundle of [a], and [b] after it. *)
Definition torn_two : AppDevice.device :=
  set_directories (directories torn_board ++ [("/home/app/b" : cstring); ("/home/app/b/0" : cstring)]) torn_board.
Definition torn_host : host AppDevice.device := {| sys := torn_two; commands := [] |}.

Lemma torn_in_order : in_order (sys torn_host).
Proof. directories_of [(["a"%char], 1); (["a"%char], 0); (["b"%char], 0)]. Qed.

Lemma torn_unreadable : ¬ readable ["a"%char] (sys torn_host).
Proof.
  intros Hr. pose proof (proj1 (device_readable (sys torn_host) ["a"%char] (proj1 torn_in_order)) Hr) as Hd.
  specialize (Hd (good_one "a"%char ltac:(set_solver)) 1 ltac:(done)).
  apply Hd; [|by left]. apply (bool_decide_unpack _). vm_compute. exact I.
Qed.

Lemma unreadable_bundle_stops_boot_witness :
  (∃ e, run_all_action torn_host = Raise e torn_host) ∧ has_version (sys torn_host) ["b"%char] 0 ∧
  ∀ k, reboot (sys torn_host) k → ¬ readable ["a"%char] k.
Proof.
  destruct (unreadable_bundle_stops_boot torn_host
    (listed torn_two APPS_PATH [["a"%char]; ["b"%char]])
    (default {| dirpath := []; dirnames := []; filenames := [] |}
      (head (os_walk APPS_PATH (listed torn_two APPS_PATH [["a"%char]; ["b"%char]]))))
    [] ["a"%char] [["b"%char]] torn_host) as (He & _ & Hk).
  - exact torn_in_order.
  - vm_compute. reflexivity.
  - reflexivity.
  - vm_compute. reflexivity.
  - reflexivity.
  - vm_compute. reflexivity.
  - exact torn_unreadable.
  - split; [exact He|]. split; [|exact Hk].
    apply device_has_version. split; [apply good_one; set_solver|].
    split; [done|]. split; apply (bool_decide_unpack _); vm_compute; exact I.
Defined.

(** An update is handed over; the power goes while the manager runs, and the
    boot loses it too; then the device boots. *)
Definition asked : list action := [Start update_tar; Installer; Installer; Installer; Daemon; Daemon; Daemon].

Definition life_1 : apps_part := run_all mbl_app_update_manager "/scratch" asked device_idle.
Definition life_2 : apps_part := booted_apps (sys (mbl_app_update_manager update_tar (system life_1)).2).
Definition life_3 : apps_part := booted_apps (disk life_2).

Lemma life_asked l x :
  in_order (disk x) → life "/scratch" x (Process <$> l) (run_all mbl_app_update_manager "/scratch" l x).
Proof.
  revert x. induction l as [|a l IH]; intros x Hx; [constructor|].
  rewrite fmap_cons. econstructor.
  - apply ls_process. intros p _ _. by apply archive_ok.
  - apply IH. refine (proj1 (exec_lives "/scratch" a x _ Hx)). intros p _ _. by apply archive_ok.
Qed.

Lemma manager_in_order : in_order (sys (mbl_app_update_manager update_tar (system life_1)).2).
Proof. directories_of [(["a"%char], 1); (["b"%char], 0)]. Qed.

Lemma life_2_in_order : in_order (disk life_2).
Proof. directories_of [(["a"%char], 1); (["b"%char], 0)]. Qed.

Lemma life_1_in_order : in_order (disk life_1).
Proof. exact board_placed. Qed.

Lemma life_of_the_board :
  life "/scratch" device_idle ((Process <$> asked) ++ [CutAndBoot; Boot]) life_3.
Proof.
  eapply life_app; [apply (life_asked asked device_idle board_placed)|].
  apply (life_cons _ _ life_2); [|apply (life_cons _ _ life_3); [|constructor]].
  - apply (ls_cut _ _ update_tar (sys (mbl_app_update_manager update_tar (system life_1)).2)).
    + vm_compute. reflexivity.
    + apply archive_ok, life_1_in_order.
    + eexists. split; [vm_compute; reflexivity|by left].
    + apply booted_apps_boots, manager_in_order.
  - apply ls_boot, booted_apps_boots, life_2_in_order.
Qed.

Lemma idle_in_order : coherent (disk device_idle).
Proof. exact board_placed. Qed.

Lemma applications_survive_witness :
  (∃ w, has_version (disk life_3) ["a"%char] w) ∧
  (∀ k, reboot (disk life_3) k → readable ["a"%char] k → boots ["a"%char] k) ∧
  (WholeInstalls AppDevice.device → legible (disk device_idle) → legible (disk life_3)) ∧
  (Forall (λ e, ¬ loses_power e) ((Process <$> asked) ++ [CutAndBoot; Boot]) →
     ∃ w, 0 ≤ w ∧ has_version (disk life_3) ["a"%char] w).
Proof.
  apply (applications_survive "/scratch" device_idle _ life_3 ["a"%char] 0 idle_in_order life_of_the_board).
  apply device_has_version. split; [apply good_one; set_solver|].
  split; [done|]. split; apply (bool_decide_unpack _); vm_compute; exact I.
Defined.
