(* ===== verification/Tutorial.v ===== *)
(** * The tutorial program

    [tutorials/helloworld/src/hello_world.c]: a loop that prints a line, flushes
    it and sleeps. The standard output is a buffer and what has left it, with
    the second at which it did. *)

From stdpp Require Import base strings list.
From Stdlib Require Import ZArith Ascii Lia.
From S2P Require Import Prelude.
From S2P Require Import CString.

Open Scope Z_scope.
Open Scope list_scope.

(** The text [buffered] in [stdout], what is [shown] and since when, and the
    seconds since the start. *)
Record process := {
  buffered : cstring;
  shown : list (Z * cstring);
  seconds : Z
}.

Definition NUM_OF_PRINTS : Z := 10.
Definition DELAY_SEC_BETWEEN_PRINTS : Z := 2.

Definition printf (t : cstring) : M process unit :=
  modify (λ s, {| buffered := buffered s ++ t; shown := shown s; seconds := seconds s |}).

Definition fflush : M process unit :=
  modify (λ s, match buffered s with
               | [] => s
               | b => {| buffered := []; shown := shown s ++ [(seconds s, b)];
                         seconds := seconds s |}
               end).

Definition sleep (n : Z) : M process unit :=
  modify (λ s, {| buffered := buffered s; shown := shown s; seconds := seconds s + n |}).

Definition hello : cstring := "Hello, world
".

(** The loop, for the [fuel] iterations it may still make. *)
Fixpoint print_loop (fuel : nat) (i : Z) : M process unit :=
  match fuel with
  | O => undefined "not reached"
  | S fuel' =>
      if i <? NUM_OF_PRINTS then
        printf hello;; fflush;; sleep DELAY_SEC_BETWEEN_PRINTS;; print_loop fuel' (i + 1)
      else mret tt
  end.

Definition main : M process Z := print_loop 11 0;; mret 0.

(** The lines that [n] iterations show from second [t] on. *)
Fixpoint lines_from (t : Z) (n : nat) : list (Z * cstring) :=
  match n with O => [] | S n' => (t, hello) :: lines_from (t + DELAY_SEC_BETWEEN_PRINTS) n' end.

Lemma print_loop_shows n fuel i s :
  buffered s = [] → i + Z.of_nat n = NUM_OF_PRINTS → (n < fuel)%nat →
  print_loop fuel i s =
    Done tt {| buffered := []; shown := shown s ++ lines_from (seconds s) n;
               seconds := seconds s + Z.of_nat n * DELAY_SEC_BETWEEN_PRINTS |}.
Proof.
  revert fuel i s. induction n as [|n IH]; intros [|fuel] i [b sh t] Hb Hi Hf;
    [lia| |lia|]; simpl in Hb; subst b; cbn [print_loop].
  - replace (i <? NUM_OF_PRINTS) with false by lia. unfold mret, M_ret. simpl.
    by rewrite app_nil_r, Z.add_0_r.
  - replace (i <? NUM_OF_PRINTS) with true by lia. unfold mbind, M_bind. simpl.
    rewrite IH by (done || lia). simpl. rewrite <-app_assoc. do 2 f_equal.
    unfold DELAY_SEC_BETWEEN_PRINTS. lia.
Qed.

(** The tutorial program shows its line ten times, each as soon as it is
    printed and two seconds after the one before, and returns 0 after twenty
    seconds. *)
Theorem main_shows_hello s :
  buffered s = [] →
  main s = Done 0 {| buffered := []; shown := shown s ++ lines_from (seconds s) 10;
                     seconds := seconds s + 20 |}.
Proof.
  intros Hb. unfold main, mbind, M_bind.
  rewrite (print_loop_shows 10 11 0 s Hb) by (unfold NUM_OF_PRINTS; lia). done.
Qed.

Example main_at_start :
  main {| buffered := []; shown := []; seconds := 0 |} =
    Done 0 {| buffered := [];
              shown := (λ t, (t, hello)) <$> [0; 2; 4; 6; 8; 10; 12; 14; 16; 18];
              seconds := 20 |}.
Proof. reflexivity. Qed.
