(* ===== verification/TlsConfig.v ===== *)
(** * mbl-cloud-client: the configuration of mbed TLS

    [pal-platform/Middleware/mbedtls/pal_mbedtls_config.h] and
    [mbedtls_mbed_client_config.h] as data: each option of the first with the
    options its documentation requires and the cipher suites it says the option
    enables, and the directives of the second in their order. Names are written
    without the prefix [MBEDTLS_]. *)

From stdpp Require Import base gmap strings list.
From S2P Require Import Prelude.

Open Scope string_scope.
Open Scope list_scope.

(** A line that starts with "Requires:" in the documentation of an option: one
    option, one of several, or one of those whose name matches. *)
Inductive requirement :=
| Needs (o : string)
| OneOf (os : list string)
| OneLike (prefix suffix : string).

#[export] Instance requirement_eq_dec : EqDecision requirement.
Proof. solve_decision. Defined.

(** An option: whether its [#define] is active or commented out, the tokens of
    its value, what it requires, and the cipher suites a key exchange enables. *)
Record config_option := Opt {
  active : bool;
  opt_name : string;
  opt_value : list string;
  requires : list requirement;
  suites : list string
}.

#[export] Instance config_option_eq_dec : EqDecision config_option.
Proof. solve_decision. Defined.

Definition on := Opt true.
Definition off (name : string) := Opt false name [].

Inductive directive :=
| Define (name : string) (value : list string)
| Undef (name : string).

#[export] Instance directive_eq_dec : EqDecision directive.
Proof. solve_decision. Defined.

(** ** The files *)

(** Lines 36 to 180. *)
Definition from_HAVE_ASM : list config_option :=
  [
   on "HAVE_ASM" [] [] [];
   off "HAVE_SSE2" [] [];
   on "HAVE_TIME" [] [] [];
   off "HAVE_TIME_DATE" [] [];
   off "PLATFORM_MEMORY" [Needs "PLATFORM_C"] [];
   off "PLATFORM_NO_STD_FUNCTIONS" [Needs "PLATFORM_C"] [];
   off "PLATFORM_EXIT_ALT" [] [];
   off "PLATFORM_TIME_ALT" [Needs "HAVE_TIME"] [];
   off "PLATFORM_FPRINTF_ALT" [] [];
   off "PLATFORM_PRINTF_ALT" [] [];
   off "PLATFORM_SNPRINTF_ALT" [] [];
   off "PLATFORM_NV_SEED_ALT" [] [];
   off "DEPRECATED_WARNING" [] []].

(** Lines 181 to 296. *)
Definition from_DEPRECATED_REMOVED : list config_option :=
  [
   off "DEPRECATED_REMOVED" [] [];
   off "TIMING_ALT" [] [];
   off "AES_ALT" [] [];
   off "ARC4_ALT" [] [];
   off "BLOWFISH_ALT" [] [];
   off "CAMELLIA_ALT" [] [];
   off "DES_ALT" [] [];
   off "XTEA_ALT" [] [];
   off "MD2_ALT" [] [];
   off "MD4_ALT" [] [];
   off "MD5_ALT" [] [];
   off "RIPEMD160_ALT" [] [];
   off "SHA1_ALT" [] [];
   off "SHA256_ALT" [] [];
   off "SHA512_ALT" [] [];
   off "ECP_ALT" [] [];
   off "MD2_PROCESS_ALT" [] [];
   off "MD4_PROCESS_ALT" [] [];
   off "MD5_PROCESS_ALT" [] [];
   off "RIPEMD160_PROCESS_ALT" [] [];
   off "SHA1_PROCESS_ALT" [] [];
   off "SHA256_PROCESS_ALT" [] [];
   off "SHA512_PROCESS_ALT" [] [];
   off "DES_SETKEY_ALT" [] [];
   off "DES_CRYPT_ECB_ALT" [] [];
   off "DES3_CRYPT_ECB_ALT" [] [];
   off "AES_SETKEY_ENC_ALT" [] [];
   off "AES_SETKEY_DEC_ALT" [] [];
   off "AES_ENCRYPT_ALT" [] [];
   off "AES_DECRYPT_ALT" [] []].

(** Lines 297 to 418. *)
Definition from_ECP_INTERNAL_ALT : list config_option :=
  [
   off "ECP_INTERNAL_ALT" [] [];
   off "ECP_RANDOMIZE_JAC_ALT" [] [];
   off "ECP_ADD_MIXED_ALT" [] [];
   off "ECP_DOUBLE_JAC_ALT" [] [];
   off "ECP_NORMALIZE_JAC_MANY_ALT" [] [];
   off "ECP_NORMALIZE_JAC_ALT" [] [];
   off "ECP_DOUBLE_ADD_MXZ_ALT" [] [];
   off "ECP_RANDOMIZE_MXZ_ALT" [] [];
   off "ECP_NORMALIZE_MXZ_ALT" [] [];
   off "TEST_NULL_ENTROPY" [Needs "ENTROPY_C"; Needs "NO_DEFAULT_ENTROPY_SOURCES"] [];
   off "ENTROPY_HARDWARE_ALT" [] [];
   off "AES_ROM_TABLES" [] [];
   off "CAMELLIA_SMALL_MEMORY" [] [];
   on "CIPHER_MODE_CBC" [] [] [];
   off "CIPHER_MODE_CFB" [] [];
   on "CIPHER_MODE_CTR" [] [] []].

(** Lines 419 to 563. *)
Definition from_CIPHER_NULL_CIPHER : list config_option :=
  [
   off "CIPHER_NULL_CIPHER" [Needs "ENABLE_WEAK_CIPHERSUITES"] [];
   on "CIPHER_PADDING_PKCS7" [] [] [];
   off "CIPHER_PADDING_ONE_AND_ZEROS" [] [];
   off "CIPHER_PADDING_ZEROS_AND_LEN" [] [];
   off "CIPHER_PADDING_ZEROS" [] [];
   off "ENABLE_WEAK_CIPHERSUITES" [] [];
   on "REMOVE_ARC4_CIPHERSUITES" [] [] [];
   off "ECP_DP_SECP192R1_ENABLED" [] [];
   off "ECP_DP_SECP224R1_ENABLED" [] [];
   on "ECP_DP_SECP256R1_ENABLED" [] [] [];
   on "ECP_DP_SECP384R1_ENABLED" [] [] [];
   off "ECP_DP_SECP521R1_ENABLED" [] [];
   off "ECP_DP_SECP192K1_ENABLED" [] [];
   off "ECP_DP_SECP224K1_ENABLED" [] [];
   off "ECP_DP_SECP256K1_ENABLED" [] [];
   off "ECP_DP_BP256R1_ENABLED" [] [];
   off "ECP_DP_BP384R1_ENABLED" [] [];
   off "ECP_DP_BP512R1_ENABLED" [] [];
   off "ECP_DP_CURVE25519_ENABLED" [] [];
   on "ECP_NIST_OPTIM" [] [] [];
   on "ECDSA_DETERMINISTIC" [] [Needs "HMAC_DRBG_C"] [];
   off "KEY_EXCHANGE_PSK_ENABLED" 
      [] 
      ["TLS_PSK_WITH_AES_256_GCM_SHA384";
       "TLS_PSK_WITH_AES_256_CBC_SHA384";
       "TLS_PSK_WITH_AES_256_CBC_SHA";
       "TLS_PSK_WITH_CAMELLIA_256_GCM_SHA384";
       "TLS_PSK_WITH_CAMELLIA_256_CBC_SHA384";
       "TLS_PSK_WITH_AES_128_GCM_SHA256";
       "TLS_PSK_WITH_AES_128_CBC_SHA256";
       "TLS_PSK_WITH_AES_128_CBC_SHA";
       "TLS_PSK_WITH_CAMELLIA_128_GCM_SHA256";
       "TLS_PSK_WITH_CAMELLIA_128_CBC_SHA256";
       "TLS_PSK_WITH_3DES_EDE_CBC_SHA";
       "TLS_PSK_WITH_RC4_128_SHA"]].

(** Lines 564 to 711. *)
Definition from_KEY_EXCHANGE_DHE_PSK_ENABLED : list config_option :=
  [
   off "KEY_EXCHANGE_DHE_PSK_ENABLED" 
      [Needs "DHM_C"] 
      ["TLS_DHE_PSK_WITH_AES_256_GCM_SHA384";
       "TLS_DHE_PSK_WITH_AES_256_CBC_SHA384";
       "TLS_DHE_PSK_WITH_AES_256_CBC_SHA";
       "TLS_DHE_PSK_WITH_CAMELLIA_256_GCM_SHA384";
       "TLS_DHE_PSK_WITH_CAMELLIA_256_CBC_SHA384";
       "TLS_DHE_PSK_WITH_AES_128_GCM_SHA256";
       "TLS_DHE_PSK_WITH_AES_128_CBC_SHA256";
       "TLS_DHE_PSK_WITH_AES_128_CBC_SHA";
       "TLS_DHE_PSK_WITH_CAMELLIA_128_GCM_SHA256";
       "TLS_DHE_PSK_WITH_CAMELLIA_128_CBC_SHA256";
       "TLS_DHE_PSK_WITH_3DES_EDE_CBC_SHA";
       "TLS_DHE_PSK_WITH_RC4_128_SHA"];
   on "KEY_EXCHANGE_ECDHE_PSK_ENABLED" [] 
      [Needs "ECDH_C"] 
      ["TLS_ECDHE_PSK_WITH_AES_256_CBC_SHA384";
       "TLS_ECDHE_PSK_WITH_AES_256_CBC_SHA";
       "TLS_ECDHE_PSK_WITH_CAMELLIA_256_CBC_SHA384";
       "TLS_ECDHE_PSK_WITH_AES_128_CBC_SHA256";
       "TLS_ECDHE_PSK_WITH_AES_128_CBC_SHA";
       "TLS_ECDHE_PSK_WITH_CAMELLIA_128_CBC_SHA256";
       "TLS_ECDHE_PSK_WITH_3DES_EDE_CBC_SHA";
       "TLS_ECDHE_PSK_WITH_RC4_128_SHA"];
   off "KEY_EXCHANGE_RSA_PSK_ENABLED" 
      [Needs "RSA_C"; Needs "PKCS1_V15"; Needs "X509_CRT_PARSE_C"] 
      ["TLS_RSA_PSK_WITH_AES_256_GCM_SHA384";
       "TLS_RSA_PSK_WITH_AES_256_CBC_SHA384";
       "TLS_RSA_PSK_WITH_AES_256_CBC_SHA";
       "TLS_RSA_PSK_WITH_CAMELLIA_256_GCM_SHA384";
       "TLS_RSA_PSK_WITH_CAMELLIA_256_CBC_SHA384";
       "TLS_RSA_PSK_WITH_AES_128_GCM_SHA256";
       "TLS_RSA_PSK_WITH_AES_128_CBC_SHA256";
       "TLS_RSA_PSK_WITH_AES_128_CBC_SHA";
       "TLS_RSA_PSK_WITH_CAMELLIA_128_GCM_SHA256";
       "TLS_RSA_PSK_WITH_CAMELLIA_128_CBC_SHA256";
       "TLS_RSA_PSK_WITH_3DES_EDE_CBC_SHA";
       "TLS_RSA_PSK_WITH_RC4_128_SHA"];
   off "KEY_EXCHANGE_RSA_ENABLED" 
      [Needs "RSA_C"; Needs "PKCS1_V15"; Needs "X509_CRT_PARSE_C"] 
      ["TLS_RSA_WITH_AES_256_GCM_SHA384";
       "TLS_RSA_WITH_AES_256_CBC_SHA256";
       "TLS_RSA_WITH_AES_256_CBC_SHA";
       "TLS_RSA_WITH_CAMELLIA_256_GCM_SHA384";
       "TLS_RSA_WITH_CAMELLIA_256_CBC_SHA256";
       "TLS_RSA_WITH_CAMELLIA_256_CBC_SHA";
       "TLS_RSA_WITH_AES_128_GCM_SHA256";
       "TLS_RSA_WITH_AES_128_CBC_SHA256";
       "TLS_RSA_WITH_AES_128_CBC_SHA";
       "TLS_RSA_WITH_CAMELLIA_128_GCM_SHA256";
       "TLS_RSA_WITH_CAMELLIA_128_CBC_SHA256";
       "TLS_RSA_WITH_CAMELLIA_128_CBC_SHA";
       "TLS_RSA_WITH_3DES_EDE_CBC_SHA";
       "TLS_RSA_WITH_RC4_128_SHA";
       "TLS_RSA_WITH_RC4_128_MD5"];
   off "KEY_EXCHANGE_DHE_RSA_ENABLED" 
      [Needs "DHM_C"; Needs "RSA_C"; Needs "PKCS1_V15"; Needs "X509_CRT_PARSE_C"] 
      ["TLS_DHE_RSA_WITH_AES_256_GCM_SHA384";
       "TLS_DHE_RSA_WITH_AES_256_CBC_SHA256";
       "TLS_DHE_RSA_WITH_AES_256_CBC_SHA";
       "TLS_DHE_RSA_WITH_CAMELLIA_256_GCM_SHA384";
       "TLS_DHE_RSA_WITH_CAMELLIA_256_CBC_SHA256";
       "TLS_DHE_RSA_WITH_CAMELLIA_256_CBC_SHA";
       "TLS_DHE_RSA_WITH_AES_128_GCM_SHA256";
       "TLS_DHE_RSA_WITH_AES_128_CBC_SHA256";
       "TLS_DHE_RSA_WITH_AES_128_CBC_SHA";
       "TLS_DHE_RSA_WITH_CAMELLIA_128_GCM_SHA256";
       "TLS_DHE_RSA_WITH_CAMELLIA_128_CBC_SHA256";
       "TLS_DHE_RSA_WITH_CAMELLIA_128_CBC_SHA";
       "TLS_DHE_RSA_WITH_3DES_EDE_CBC_SHA"];
   off "KEY_EXCHANGE_ECDHE_RSA_ENABLED" 
      [Needs "ECDH_C"; Needs "RSA_C"; Needs "PKCS1_V15"; Needs "X509_CRT_PARSE_C"] 
      ["TLS_ECDHE_RSA_WITH_AES_256_GCM_SHA384";
       "TLS_ECDHE_RSA_WITH_AES_256_CBC_SHA384";
       "TLS_ECDHE_RSA_WITH_AES_256_CBC_SHA";
       "TLS_ECDHE_RSA_WITH_CAMELLIA_256_GCM_SHA384";
       "TLS_ECDHE_RSA_WITH_CAMELLIA_256_CBC_SHA384";
       "TLS_ECDHE_RSA_WITH_AES_128_GCM_SHA256";
       "TLS_ECDHE_RSA_WITH_AES_128_CBC_SHA256";
       "TLS_ECDHE_RSA_WITH_AES_128_CBC_SHA";
       "TLS_ECDHE_RSA_WITH_CAMELLIA_128_GCM_SHA256";
       "TLS_ECDHE_RSA_WITH_CAMELLIA_128_CBC_SHA256";
       "TLS_ECDHE_RSA_WITH_3DES_EDE_CBC_SHA";
       "TLS_ECDHE_RSA_WITH_RC4_128_SHA"]].

(** Lines 712 to 860. *)
Definition from_KEY_EXCHANGE_ECDHE_ECDSA_ENABLED : list config_option :=
  [
   on "KEY_EXCHANGE_ECDHE_ECDSA_ENABLED" [] 
      [Needs "ECDH_C"; Needs "ECDSA_C"; Needs "X509_CRT_PARSE_C"] 
      ["TLS_ECDHE_ECDSA_WITH_AES_256_GCM_SHA384";
       "TLS_ECDHE_ECDSA_WITH_AES_256_CBC_SHA384";
       "TLS_ECDHE_ECDSA_WITH_AES_256_CBC_SHA";
       "TLS_ECDHE_ECDSA_WITH_CAMELLIA_256_GCM_SHA384";
       "TLS_ECDHE_ECDSA_WITH_CAMELLIA_256_CBC_SHA384";
       "TLS_ECDHE_ECDSA_WITH_AES_128_GCM_SHA256";
       "TLS_ECDHE_ECDSA_WITH_AES_128_CBC_SHA256";
       "TLS_ECDHE_ECDSA_WITH_AES_128_CBC_SHA";
       "TLS_ECDHE_ECDSA_WITH_CAMELLIA_128_GCM_SHA256";
       "TLS_ECDHE_ECDSA_WITH_CAMELLIA_128_CBC_SHA256";
       "TLS_ECDHE_ECDSA_WITH_3DES_EDE_CBC_SHA";
       "TLS_ECDHE_ECDSA_WITH_RC4_128_SHA"];
   off "KEY_EXCHANGE_ECDH_ECDSA_ENABLED" 
      [Needs "ECDH_C"; Needs "X509_CRT_PARSE_C"] 
      ["TLS_ECDH_ECDSA_WITH_RC4_128_SHA";
       "TLS_ECDH_ECDSA_WITH_3DES_EDE_CBC_SHA";
       "TLS_ECDH_ECDSA_WITH_AES_128_CBC_SHA";
       "TLS_ECDH_ECDSA_WITH_AES_256_CBC_SHA";
       "TLS_ECDH_ECDSA_WITH_AES_128_CBC_SHA256";
       "TLS_ECDH_ECDSA_WITH_AES_256_CBC_SHA384";
       "TLS_ECDH_ECDSA_WITH_AES_128_GCM_SHA256";
       "TLS_ECDH_ECDSA_WITH_AES_256_GCM_SHA384";
       "TLS_ECDH_ECDSA_WITH_CAMELLIA_128_CBC_SHA256";
       "TLS_ECDH_ECDSA_WITH_CAMELLIA_256_CBC_SHA384";
       "TLS_ECDH_ECDSA_WITH_CAMELLIA_128_GCM_SHA256";
       "TLS_ECDH_ECDSA_WITH_CAMELLIA_256_GCM_SHA384"];
   off "KEY_EXCHANGE_ECDH_RSA_ENABLED" 
      [Needs "ECDH_C"; Needs "X509_CRT_PARSE_C"] 
      ["TLS_ECDH_RSA_WITH_RC4_128_SHA";
       "TLS_ECDH_RSA_WITH_3DES_EDE_CBC_SHA";
       "TLS_ECDH_RSA_WITH_AES_128_CBC_SHA";
       "TLS_ECDH_RSA_WITH_AES_256_CBC_SHA";
       "TLS_ECDH_RSA_WITH_AES_128_CBC_SHA256";
       "TLS_ECDH_RSA_WITH_AES_256_CBC_SHA384";
       "TLS_ECDH_RSA_WITH_AES_128_GCM_SHA256";
       "TLS_ECDH_RSA_WITH_AES_256_GCM_SHA384";
       "TLS_ECDH_RSA_WITH_CAMELLIA_128_CBC_SHA256";
       "TLS_ECDH_RSA_WITH_CAMELLIA_256_CBC_SHA384";
       "TLS_ECDH_RSA_WITH_CAMELLIA_128_GCM_SHA256";
       "TLS_ECDH_RSA_WITH_CAMELLIA_256_GCM_SHA384"];
   off "KEY_EXCHANGE_ECJPAKE_ENABLED" 
      [Needs "ECJPAKE_C"; Needs "SHA256_C"; Needs "ECP_DP_SECP256R1_ENABLED"] 
      ["TLS_ECJPAKE_WITH_AES_128_CCM_8"];
   off "PK_PARSE_EC_EXTENDED" [] [];
   off "ERROR_STRERROR_DUMMY" [] [];
   off "GENPRIME" [Needs "BIGNUM_C"] [];
   off "FS_IO" [] [];
   off "NO_DEFAULT_ENTROPY_SOURCES" [] []].

(** Lines 861 to 1004. *)
Definition from_NO_PLATFORM_ENTROPY : list config_option :=
  [
   off "NO_PLATFORM_ENTROPY" [] [];
   off "ENTROPY_FORCE_SHA256" [Needs "SHA256_C"] [];
   off "ENTROPY_NV_SEED" [Needs "ENTROPY_C"; Needs "PLATFORM_C"] [];
   off "MEMORY_DEBUG" [Needs "MEMORY_BUFFER_ALLOC_C"] [];
   off "MEMORY_BACKTRACE" [Needs "MEMORY_BUFFER_ALLOC_C"] [];
   off "PK_RSA_ALT_SUPPORT" [] [];
   on "PKCS1_V15" [] [Needs "RSA_C"] [];
   on "PKCS1_V21" [] [Needs "MD_C"; Needs "RSA_C"] [];
   off "RSA_NO_CRT" [] [];
   off "SELF_TEST" [] [];
   off "SHA256_SMALLER" [] []].

(** Lines 1005 to 1153. *)
Definition from_SSL_ALL_ALERT_MESSAGES : list config_option :=
  [
   on "SSL_ALL_ALERT_MESSAGES" [] [] [];
   off "SSL_DEBUG_ALL" [] [];
   on "SSL_ENCRYPT_THEN_MAC" [] [OneOf ["SSL_PROTO_TLS1"; "SSL_PROTO_TLS1_1"; "SSL_PROTO_TLS1_2"]] [];
   on "SSL_EXTENDED_MASTER_SECRET" [] [OneOf ["SSL_PROTO_TLS1"; "SSL_PROTO_TLS1_1"; "SSL_PROTO_TLS1_2"]] [];
   off "SSL_FALLBACK_SCSV" [] [];
   off "SSL_HW_RECORD_ACCEL" [] [];
   off "SSL_CBC_RECORD_SPLITTING" [] [];
   on "SSL_RENEGOTIATION" [] [] [];
   off "SSL_SRV_SUPPORT_SSLV2_CLIENT_HELLO" [] [];
   off "SSL_SRV_RESPECT_CLIENT_PREFERENCE" [] [];
   on "SSL_MAX_FRAGMENT_LENGTH" [] [] []].

(** Lines 1154 to 1299. *)
Definition from_SSL_PROTO_SSL3 : list config_option :=
  [
   off "SSL_PROTO_SSL3" [Needs "MD5_C"; Needs "SHA1_C"] [];
   off "SSL_PROTO_TLS1" [Needs "MD5_C"; Needs "SHA1_C"] [];
   off "SSL_PROTO_TLS1_1" [Needs "MD5_C"; Needs "SHA1_C"] [];
   on "SSL_PROTO_TLS1_2" [] [OneOf ["SHA1_C"; "SHA256_C"; "SHA512_C"]] [];
   on "SSL_PROTO_DTLS" [] [OneOf ["SSL_PROTO_TLS1_1"; "SSL_PROTO_TLS1_2"]] [];
   on "SSL_ALPN" [] [] [];
   on "SSL_DTLS_ANTI_REPLAY" [] [Needs "SSL_TLS_C"; Needs "SSL_PROTO_DTLS"] [];
   on "SSL_DTLS_HELLO_VERIFY" [] [Needs "SSL_PROTO_DTLS"] [];
   on "SSL_DTLS_CLIENT_PORT_REUSE" [] [Needs "SSL_DTLS_HELLO_VERIFY"] [];
   on "SSL_DTLS_BADMAC_LIMIT" [] [Needs "SSL_PROTO_DTLS"] [];
   on "SSL_SESSION_TICKETS" [] [] []].

(** Lines 1300 to 1445. *)
Definition from_SSL_EXPORT_KEYS : list config_option :=
  [
   on "SSL_EXPORT_KEYS" [] [] [];
   on "SSL_SERVER_NAME_INDICATION" [] [Needs "X509_CRT_PARSE_C"] [];
   off "SSL_TRUNCATED_HMAC" [] [];
   off "THREADING_ALT" [Needs "THREADING_C"] [];
   off "THREADING_PTHREAD" [Needs "THREADING_C"] [];
   off "VERSION_FEATURES" [Needs "VERSION_C"] [];
   off "X509_ALLOW_EXTENSIONS_NON_V3" [] [];
   off "X509_ALLOW_UNSUPPORTED_CRITICAL_EXTENSION" [] [];
   on "X509_CHECK_KEY_USAGE" [] [] [];
   on "X509_CHECK_EXTENDED_KEY_USAGE" [] [] [];
   off "X509_RSASSA_PSS_SUPPORT" [] [];
   off "ZLIB_SUPPORT" [] []].

(** Lines 1446 to 1593. *)
Definition from_AESNI_C : list config_option :=
  [
   off "AESNI_C" [Needs "HAVE_ASM"] [];
   on "AES_C" [] [] [];
   off "ARC4_C" [] [];
   on "ASN1_PARSE_C" [] [] [];
   on "ASN1_WRITE_C" [] [] []].

(** Lines 1594 to 1736. *)
Definition from_BASE64_C : list config_option :=
  [
   off "BASE64_C" [] [];
   on "BIGNUM_C" [] [] [];
   off "BLOWFISH_C" [] [];
   off "CAMELLIA_C" [] [];
   on "CCM_C" [] [OneOf ["AES_C"; "CAMELLIA_C"]] [];
   off "CERTS_C" [] [];
   on "CIPHER_C" [] [] [];
   on "CMAC_C" [] [OneOf ["AES_C"; "DES_C"]] []].

(** Lines 1737 to 1882. *)
Definition from_CTR_DRBG_C : list config_option :=
  [
   on "CTR_DRBG_C" [] [Needs "AES_C"] [];
   off "DEBUG_C" [] [];
   off "DES_C" [] [];
   off "DHM_C" [] [];
   on "ECDH_C" [] [Needs "ECP_C"] [];
   on "ECDSA_C" [] [Needs "ECP_C"; Needs "ASN1_WRITE_C"; Needs "ASN1_PARSE_C"] [];
   off "ECJPAKE_C" [Needs "ECP_C"; Needs "MD_C"] [];
   on "ECP_C" [] [Needs "BIGNUM_C"; OneLike "ECP_DP_" "_ENABLED"] [];
   on "ENTROPY_C" [] [OneOf ["SHA512_C"; "SHA256_C"]] []].

(** Lines 1883 to 2031. *)
Definition from_ERROR_C : list config_option :=
  [
   off "ERROR_C" [] [];
   off "GCM_C" [OneOf ["AES_C"; "CAMELLIA_C"]] [];
   off "HAVEGE_C" [Needs "TIMING_C"] [];
   on "HMAC_DRBG_C" [] [Needs "MD_C"] [];
   on "MD_C" [] [] [];
   off "MD2_C" [] [];
   off "MD4_C" [] [];
   off "MD5_C" [] [];
   off "MEMORY_BUFFER_ALLOC_C" [Needs "PLATFORM_C"; Needs "PLATFORM_MEMORY"] [];
   off "NET_C" [] []].

(** Lines 2032 to 2175. *)
Definition from_OID_C : list config_option :=
  [
   on "OID_C" [] [] [];
   off "PADLOCK_C" [Needs "HAVE_ASM"] [];
   off "PEM_PARSE_C" [Needs "BASE64_C"] [];
   off "PEM_WRITE_C" [Needs "BASE64_C"] [];
   on "PK_C" [] [OneOf ["RSA_C"; "ECP_C"]] [];
   on "PK_PARSE_C" [] [Needs "PK_C"] [];
   on "PK_WRITE_C" [] [Needs "PK_C"] [];
   off "PKCS5_C" [Needs "MD_C"] [];
   off "PKCS11_C" [Needs "PK_C"] []].

(** Lines 2176 to 2322. *)
Definition from_PKCS12_C : list config_option :=
  [
   off "PKCS12_C" [Needs "ASN1_PARSE_C"; Needs "CIPHER_C"; Needs "MD_C"] [];
   on "PLATFORM_C" [] [] [];
   off "RIPEMD160_C" [] [];
   off "RSA_C" [Needs "BIGNUM_C"; Needs "OID_C"] [];
   off "SHA1_C" [] [];
   on "SHA256_C" [] [] [];
   off "SHA512_C" [] [];
   on "SSL_CACHE_C" [] [Needs "SSL_CACHE_C"] [];
   on "SSL_COOKIE_C" [] [] [];
   on "SSL_TICKET_C" [] [Needs "CIPHER_C"] []].

(** Lines 2323 to 2469. *)
Definition from_SSL_CLI_C : list config_option :=
  [
   on "SSL_CLI_C" [] [Needs "SSL_TLS_C"] [];
   off "SSL_SRV_C" [Needs "SSL_TLS_C"] [];
   on "SSL_TLS_C" [] [Needs "CIPHER_C"; Needs "MD_C"; OneLike "SSL_PROTO_" ""] [];
   off "THREADING_C" [] [];
   off "TIMING_C" [] [];
   on "VERSION_C" [] [] [];
   on "X509_USE_C" [] [Needs "ASN1_PARSE_C"; Needs "BIGNUM_C"; Needs "OID_C"; Needs "PK_PARSE_C"] [];
   on "X509_CRT_PARSE_C" [] [Needs "X509_USE_C"] [];
   on "X509_CRL_PARSE_C" [] [Needs "X509_USE_C"] []].

(** Lines 2470 to 2619. *)
Definition from_X509_CSR_PARSE_C : list config_option :=
  [
   on "X509_CSR_PARSE_C" [] [Needs "X509_USE_C"] [];
   on "X509_CREATE_C" [] [Needs "BIGNUM_C"; Needs "OID_C"; Needs "PK_WRITE_C"] [];
   off "X509_CRT_WRITE_C" [Needs "X509_CREATE_C"] [];
   on "X509_CSR_WRITE_C" [] [Needs "X509_CREATE_C"] [];
   off "XTEA_C" [] [];
   off "MPI_WINDOW_SIZE" [] [];
   off "MPI_MAX_SIZE" [] [];
   off "CTR_DRBG_ENTROPY_LEN" [] [];
   off "CTR_DRBG_RESEED_INTERVAL" [] [];
   off "CTR_DRBG_MAX_INPUT" [] [];
   off "CTR_DRBG_MAX_REQUEST" [] [];
   off "CTR_DRBG_MAX_SEED_INPUT" [] [];
   off "HMAC_DRBG_RESEED_INTERVAL" [] [];
   off "HMAC_DRBG_MAX_INPUT" [] [];
   off "HMAC_DRBG_MAX_REQUEST" [] [];
   off "HMAC_DRBG_MAX_SEED_INPUT" [] [];
   off "ECP_MAX_BITS" [] [];
   off "ECP_WINDOW_SIZE" [] [];
   off "ECP_FIXED_POINT_OPTIM" [] [];
   off "ENTROPY_MAX_SOURCES" [] [];
   off "ENTROPY_MAX_GATHER" [] [];
   off "ENTROPY_MIN_HARDWARE" [] [];
   off "MEMORY_ALIGN_MULTIPLE" [] [];
   off "PLATFORM_STD_MEM_HDR" [] [];
   off "PLATFORM_STD_CALLOC" [] [];
   off "PLATFORM_STD_FREE" [] [];
   off "PLATFORM_STD_EXIT" [] [];
   off "PLATFORM_STD_TIME" [] [];
   off "PLATFORM_STD_FPRINTF" [] [];
   off "PLATFORM_STD_PRINTF" [] [];
   off "PLATFORM_STD_SNPRINTF" [] [];
   off "PLATFORM_STD_EXIT_SUCCESS" [] [];
   off "PLATFORM_STD_EXIT_FAILURE" [] [];
   off "PLATFORM_STD_NV_SEED_READ" [] [];
   off "PLATFORM_STD_NV_SEED_WRITE" [] [];
   off "PLATFORM_STD_NV_SEED_FILE" [] [];
   off "PLATFORM_CALLOC_MACRO" [] [];
   off "PLATFORM_FREE_MACRO" [] [];
   off "PLATFORM_EXIT_MACRO" [] [];
   off "PLATFORM_TIME_MACRO" [] [];
   off "PLATFORM_TIME_TYPE_MACRO" [] [];
   off "PLATFORM_FPRINTF_MACRO" [] [];
   off "PLATFORM_PRINTF_MACRO" [] [];
   off "PLATFORM_SNPRINTF_MACRO" [] [];
   off "PLATFORM_NV_SEED_READ_MACRO" [] [];
   off "PLATFORM_NV_SEED_WRITE_MACRO" [] [];
   off "SSL_CACHE_DEFAULT_TIMEOUT" [] [];
   off "SSL_CACHE_DEFAULT_MAX_ENTRIES" [] [];
   on "SSL_MAX_CONTENT_LEN" ["4096"] [] [];
   off "SSL_DEFAULT_TICKET_LIFETIME" [] [];
   off "PSK_MAX_LEN" [] [];
   off "SSL_COOKIE_TIMEOUT" [] []].

(** Lines 2620 to 2642. *)
Definition from_SSL_CIPHERSUITES : list config_option :=
  [
   off "SSL_CIPHERSUITES" [] [];
   on "SSL_CIPHERSUITES" ["TLS_ECDHE_ECDSA_WITH_AES_128_CCM_8";
      "TLS_PSK_WITH_AES_128_CBC_SHA256";
      "TLS_PSK_WITH_AES_256_CCM_8";
      "TLS_PSK_WITH_AES_128_CCM_8";
      "TLS_ECDHE_ECDSA_WITH_AES_256_GCM_SHA384";
      "TLS_ECDHE_ECDSA_WITH_AES_128_GCM_SHA256"] [] [];
   off "X509_MAX_INTERMEDIATE_CA" [] [];
   off "X509_MAX_FILE_PATH_LEN" [] [];
   off "YOTTA_CFG_MBEDTLS_TARGET_CONFIG_FILE" [] []].

(** The whole file. *)
Definition pal_config : list config_option :=
  from_HAVE_ASM ++
  from_DEPRECATED_REMOVED ++
  from_ECP_INTERNAL_ALT ++
  from_CIPHER_NULL_CIPHER ++
  from_KEY_EXCHANGE_DHE_PSK_ENABLED ++
  from_KEY_EXCHANGE_ECDHE_ECDSA_ENABLED ++
  from_NO_PLATFORM_ENTROPY ++
  from_SSL_ALL_ALERT_MESSAGES ++
  from_SSL_PROTO_SSL3 ++
  from_SSL_EXPORT_KEYS ++
  from_AESNI_C ++
  from_BASE64_C ++
  from_CTR_DRBG_C ++
  from_ERROR_C ++
  from_OID_C ++
  from_PKCS12_C ++
  from_SSL_CLI_C ++
  from_X509_CSR_PARSE_C ++
  from_SSL_CIPHERSUITES.

(** [mbedtls_mbed_client_config.h], in order. *)
Definition client_config : list directive :=
  [Define "HAVE_ASM" [];
   Define "PEM_WRITE_C" [];
   Define "X509_CSR_WRITE_C" [];
   Define "X509_CREATE_C" [];
   Define "ECP_DP_SECP256R1_ENABLED" [];
   Define "ECP_NIST_OPTIM" [];
   Define "SSL_MAX_FRAGMENT_LENGTH" [];
   Define "SSL_PROTO_TLS1_2" [];
   Define "SSL_PROTO_DTLS" [];
   Define "SSL_DTLS_ANTI_REPLAY" [];
   Define "SSL_DTLS_HELLO_VERIFY" [];
   Define "SSL_EXPORT_KEYS" [];
   Define "AES_C" [];
   Define "ASN1_PARSE_C" [];
   Define "ASN1_WRITE_C" [];
   Define "BIGNUM_C" [];
   Define "CIPHER_C" [];
   Define "CTR_DRBG_C" [];
   Define "ECP_C" [];
   Define "ENTROPY_C" [];
   Define "MD_C" [];
   Define "OID_C" [];
   Define "PK_C" [];
   Define "PK_PARSE_C" [];
   Define "SHA256_C" [];
   Define "SSL_COOKIE_C" [];
   Define "SSL_CLI_C" [];
   Define "SSL_SRV_C" [];
   Define "SSL_TLS_C" [];
   Define "X509_USE_C" [];
   Define "X509_CRT_PARSE_C" [];
   Define "SHA512_C" [];
   Define "ECDH_C" [];
   Define "GCM_C" [];
   Define "ECDH_C" [];
   Define "ECDSA_C" [];
   Define "X509_CRT_PARSE_C" [];
   Undef "RSA_C";
   Undef "KEY_EXCHANGE_ECDHE_RSA_ENABLED";
   Undef "ERROR_C";
   Undef "SELF_TEST";
   Undef "ERROR_STRERROR_DUMMY";
   Undef "VERSION_FEATURES";
   Undef "DEBUG_C";
   Define "PEM_PARSE_C" [];
   Define "BASE64_C" [];
   Define "PEM_WRITE_C" [];
   Define "CTR_DRBG_MAX_REQUEST" ["2048"];
   Define "SSL_MAX_CONTENT_LEN" ["2048"];
   Define "AES_ROM_TABLES" [];
   Define "SSL_CIPHERSUITES" ["TLS_ECDHE_ECDSA_WITH_AES_256_GCM_SHA384"; "TLS_ECDHE_ECDSA_WITH_AES_128_GCM_SHA256"]].

(** ** The preprocessor *)

Abbreviation macros := (gmap string (list string)).

(** One directive. A macro may be defined again only with the same tokens. *)
Definition run_directive (d : directive) (m : macros) : option macros :=
  match d with
  | Define n v =>
      match m !! n with
      | Some v' => if decide (v = v') then Some m else None
      | None => Some (<[n:=v]> m)
      end
  | Undef n => Some (delete n m)
  end.

Fixpoint preprocess (l : list directive) (m : macros) : option macros :=
  match l with
  | [] => Some m
  | d :: l' => run_directive d m ≫= preprocess l'
  end.

Definition directives (l : list config_option) : list directive :=
  (λ o, Define (opt_name o) (opt_value o)) <$> filter (λ o, active o = true) l.

Definition pal_macros : macros := default ∅ (preprocess (directives pal_config) ∅).

(** ** Requirements *)














(** ** The client's directives over any base *)

(** What one directive does to the macro [n]. *)
Definition last_of (l : list directive) (n : string) (v : option (list string)) :
    option (list string) :=
  foldl (λ v d, match d with
                | Define n' v' => if decide (n' = n) then Some v' else v
                | Undef n' => if decide (n' = n) then None else v
                end) v l.

Lemma preprocess_lookup l m m' n :
  preprocess l m = Some m' → m' !! n = last_of l n (m !! n).
Proof.
  revert m. induction l as [|d l IH]; intros m; simpl; [by intros [= ->]|].
  intros (m1 & Hd & Hl)%bind_Some. rewrite (IH m1 Hl). unfold last_of. simpl. f_equal.
  destruct d as [n' v|n']; simpl in Hd.
  - destruct (m !! n') as [v'|] eqn:Hm; [case_decide; [subst v'|done]|]; injection Hd as <-;
      case_decide; try subst n'; simplify_map_eq; done.
  - injection Hd as <-. case_decide; [subst n'|]; by simplify_map_eq.
Qed.

Lemma last_of_other l n v :
  Undef n ∉ l → (∀ v', Define n v' ∉ l) → last_of l n v = v.
Proof.
  unfold last_of. revert v. induction l as [|d l IH]; intros v Hu Hd; simpl; [done|].
  apply not_elem_of_cons in Hu as [Hu1 Hu].
  rewrite IH; [|done|intros v' Hv; by apply (Hd v'), elem_of_cons; right].
  destruct d as [n' v'|n']; case_decide; subst; try done.
  by destruct (Hd v'); apply elem_of_cons; left.
Qed.

Lemma directive_decides d x :
  d ∈ client_config →
  match d with
  | Define n v => last_of client_config n x = Some v
  | Undef n => last_of client_config n x = None
  end.
Proof.
  revert d. apply Forall_forall. unfold client_config at 1.
  repeat (apply Forall_cons; split; [vm_compute; reflexivity|]). apply Forall_nil. exact I.
Qed.

(** [mbedtls_mbed_client_config.h], read after any configuration, decides
    every macro it names: what it defines has its value, what it undefines is
    gone, the rest is left alone. It defines some macros twice, always alike,
    so it reads without a conflict from an empty configuration; after the
    device's own configuration it does not, because the two set the size of a
    fragment differently. *)
Theorem client_config_decides m m' :
  preprocess client_config m = Some m' →
  (∀ n v, Define n v ∈ client_config → m' !! n = Some v) ∧
  (∀ n, Undef n ∈ client_config → m' !! n = None) ∧
  (∀ n, Undef n ∉ client_config → (∀ v, Define n v ∉ client_config) → m' !! n = m !! n) ∧
  is_Some (preprocess client_config ∅) ∧ preprocess client_config pal_macros = None.
Proof.
  intros Hm. split; [|split; [|split; [|split]]].
  - intros n v Hin. rewrite (preprocess_lookup _ _ _ n Hm).
    by apply (directive_decides (Define n v)).
  - intros n Hin. rewrite (preprocess_lookup _ _ _ n Hm).
    by apply (directive_decides (Undef n)).
  - intros n Hu Hd. rewrite (preprocess_lookup _ _ _ n Hm). by apply last_of_other.
  - assert (returns (preprocess client_config ∅) = true) as Hr by (vm_compute; reflexivity).
    rewrite (returns_default _ ∅ Hr). by eexists.
  - vm_compute. reflexivity.
Qed.

Definition demo_macros : macros := default ∅ (preprocess client_config ∅).

Lemma client_config_decides_witness :
  demo_macros !! "SSL_MAX_CONTENT_LEN" = Some ["2048"] ∧ demo_macros !! "RSA_C" = None.
Proof.
  destruct (client_config_decides ∅ demo_macros) as (Hd & Hu & _).
  - assert (returns (preprocess client_config ∅) = true) as Hr by (vm_compute; reflexivity).
    exact (returns_default _ _ Hr).
  - split; [apply Hd|apply Hu]; apply (bool_decide_unpack _); vm_compute; exact I.
Defined.

(** ** The configuration of the platform layer *)

(** [sotp_fs_config_linux.h] up to its [#include]; the names are the whole ones. *)
Definition sotp_fs_config_linux : list directive :=
  [Define "PAL_HEADER_SOTP_FS_LINUX" [];
   Define "PAL_USE_HW_ROT" ["0"]; Define "PAL_USE_HW_RTC" ["0"]; Define "PAL_USE_HW_TRNG" ["1"];
   Define "PAL_SIMULATOR_FLASH_OVER_FILE_SYSTEM" ["1"]; Define "PAL_USE_SECURE_TIME" ["1"]].

(** It reads without a conflict, and a platform default that asks for another
    clock or another root of trust after it does not. *)
Example sotp_config_reads :
  returns (preprocess sotp_fs_config_linux ∅) = true ∧
  preprocess (sotp_fs_config_linux ++ [Define "PAL_USE_SECURE_TIME" ["0"]]) ∅ = None ∧
  preprocess (sotp_fs_config_linux ++ [Define "PAL_USE_HW_ROT" ["1"]]) ∅ = None.
Proof. vm_compute. auto. Qed.
